(* ===== verification/_CoqProject ===== *)
-Q . S2P
Prelude.v
Numeral.v
Strings.v
State.v
Spinlock.v
Sched.v
Kalloc.v
Console.v
Vm.v
Disk.v
Bio.v
Cache.v
Log.v
Tx.v
Fs.v
Balloc.v
Inode.v
Dir.v
Pipe.v
File.v
Fileio.v
Proc.v
Apic.v
Input.v
Syscall.v
Exec.v
Sysproc.v
Sysfile.v
Trap.v
Main.v
User.v
Asm.v
Bootasm.v
Bootmain.v
Ulib.v
Umalloc.v
Grep.v
Sh.v
Shparse.v
Shrun.v
Filters.v
Programs.v
Mkfs.v
