(* ===== verification/Prelude.v ===== *)
(** * Verification of the xv6 teaching kernel of this repository

    (header to be completed) *)

From Stdlib Require Import ZArith Lia.
From stdpp Require Import base gmap sets list strings numbers.

(** ** Machine integers

    A C [uint] is a [Z] in [0, 2^32); a C [int] is a [Z] in [-2^31, 2^31).
    The conversions below are the ones the hardware performs. *)

Definition u8 (z : Z) : Z := (z mod 2 ^ 8)%Z.
Definition u16 (z : Z) : Z := (z mod 2 ^ 16)%Z.
Definition u32 (z : Z) : Z := (z mod 2 ^ 32)%Z.
Definition i8 (z : Z) : Z := ((z + 2 ^ 7) mod 2 ^ 8 - 2 ^ 7)%Z.
Definition i16 (z : Z) : Z := ((z + 2 ^ 15) mod 2 ^ 16 - 2 ^ 15)%Z.
Definition i32 (z : Z) : Z := ((z + 2 ^ 31) mod 2 ^ 32 - 2 ^ 31)%Z.

Definition is_u8 (z : Z) : Prop := (0 <= z < 2 ^ 8)%Z.
Definition is_u16 (z : Z) : Prop := (0 <= z < 2 ^ 16)%Z.
Definition is_u32 (z : Z) : Prop := (0 <= z < 2 ^ 32)%Z.
Definition is_i32 (z : Z) : Prop := (- 2 ^ 31 <= z < 2 ^ 31)%Z.

(** C truth values. *)
Definition bZ (b : bool) : Z := if b then 1%Z else 0%Z.
Definition Zb (z : Z) : bool := negb (Z.eqb z 0).

(** Little-endian words: the layout of every multi-byte field on disk and
    in memory. *)
Definition le16 (z : Z) : list Z := [u8 z; u8 (z / 2 ^ 8)]%Z.
Definition le32 (z : Z) : list Z :=
  [u8 z; u8 (z / 2 ^ 8); u8 (z / 2 ^ 16); u8 (z / 2 ^ 24)]%Z.
Fixpoint of_le (l : list Z) : Z :=
  match l with
  | [] => 0%Z
  | b :: l => (b + 2 ^ 8 * of_le l)%Z
  end.

(** ** Effects

    A C function that reads and writes global state is a function of that
    state.  It can return, call [panic], hang waiting for someone else (a
    spin loop or a sleep that nobody ends), or step outside of what the C
    standard defines (an index out of an array, a null dereference). *)

Inductive outcome (S A : Type) : Type :=
| Ok (a : A) (s : S)
| Panic (msg : string) (s : S)
| Stuck (s : S)
| Ub (what : string) (s : S).
Global Arguments Ok {S A} a s.
Global Arguments Panic {S A} msg s.
Global Arguments Stuck {S A} s.
Global Arguments Ub {S A} what s.

Definition M (S A : Type) : Type := S -> outcome S A.

Definition ret {S A} (a : A) : M S A := fun s => Ok a s.
Definition bind {S A B} (m : M S A) (f : A -> M S B) : M S B :=
  fun s =>
    match m s with
    | Ok a s' => f a s'
    | Panic msg s' => Panic msg s'
    | Stuck s' => Stuck s'
    | Ub w s' => Ub w s'
    end.
Definition panic {S A} (msg : string) : M S A := fun s => Panic msg s.
Definition undefined {S A} (what : string) : M S A := fun s => Ub what s.
Definition hang {S A} : M S A := fun s => Stuck s.
Definition reads {S A} (f : S -> A) : M S A := fun s => Ok (f s) s.
Definition modify {S} (f : S -> S) : M S unit := fun s => Ok tt (f s).

Declare Scope kernel_scope.
Delimit Scope kernel_scope with kernel.
Bind Scope kernel_scope with M.
Open Scope kernel_scope.

Notation "'let*' x ':=' m 'in' k" := (bind m (fun x => k))
  (at level 10, x pattern, m at level 200, k at level 200,
   format "'[v' 'let*'  x  ':='  m  'in' '/' k ']'") : kernel_scope.
Notation "m ;;; k" := (bind m (fun _ => k))
  (at level 199, right associativity, format "'[v' m  ;;; '/' k ']'") : kernel_scope.
Notation "'when' b 'do' m" := (if b then m else ret tt)
  (at level 198, b at level 100, m at level 198) : kernel_scope.

(** [for_each l body] is a [for] loop over the indices [l]; [for_ret] is one
    whose body may return from the enclosing function. *)
Fixpoint for_each {S A} (l : list A) (body : A -> M S unit) : M S unit :=
  match l with
  | [] => ret tt
  | x :: l => body x ;;; for_each l body
  end.
Fixpoint for_ret {S A R} (l : list A) (body : A -> M S (option R)) : M S (option R) :=
  match l with
  | [] => ret None
  | x :: l =>
      let* r := body x in
      match r with
      | Some v => ret (Some v)
      | None => for_ret l body
      end
  end.

(** The [n] integers from [a] up, and from [a] down. *)
Fixpoint zfrom (a : Z) (n : nat) : list Z :=
  match n with
  | O => []
  | S n => a :: zfrom (a + 1)%Z n
  end.
Definition zseq (a : Z) (n : Z) : list Z := zfrom a (Z.to_nat n).
Definition zseq_down (a : Z) (n : Z) : list Z :=
  (fun j => a - Z.of_nat j)%Z <$> seq 0 (Z.to_nat n).

(** Up to [n] steps of a loop that may end with a result; [n] is binary, so
    that loops with a large bound can be run. *)
Fixpoint run_nat {A B} (n : nat) (step : A -> A + B) (a : A) : A + B :=
  match n with
  | O => inl a
  | S n => match step a with inl a => run_nat n step a | inr b => inr b end
  end.
Fixpoint run_pos {A B} (n : positive) (step : A -> A + B) (a : A) : A + B :=
  match n with
  | xH => step a
  | xO n => match run_pos n step a with inl a => run_pos n step a | inr b => inr b end
  | xI n =>
      match step a with
      | inl a => match run_pos n step a with inl a => run_pos n step a | inr b => inr b end
      | inr b => inr b
      end
  end.

(** Total correctness: [m] returns from [s], with a result and a state that
    satisfy [Q]. *)
Definition returns {S A} (m : M S A) (s : S) (Q : A -> S -> Prop) : Prop :=
  match m s with
  | Ok a s' => Q a s'
  | _ => False
  end.

Section effects.
Context {S : Type}.

Lemma bind_ret_l {A B} (a : A) (f : A -> M S B) s : bind (ret a) f s = f a s.
Proof. reflexivity. Qed.

Lemma bind_reads {A B} (g : S -> A) (f : A -> M S B) s : bind (reads g) f s = f (g s) s.
Proof. reflexivity. Qed.

Lemma bind_modify {B} (g : S -> S) (f : unit -> M S B) s : bind (modify g) f s = f tt (g s).
Proof. reflexivity. Qed.

Lemma bind_panic {A B} msg (f : A -> M S B) s : bind (panic msg) f s = Panic msg s.
Proof. reflexivity. Qed.

Lemma bind_ok {A B} (m : M S A) (f : A -> M S B) a s s' :
  m s = Ok a s' -> bind m f s = f a s'.
Proof. intros H. unfold bind. by rewrite H. Qed.

Lemma bind_assoc {A B C} (m : M S A) (f : A -> M S B) (g : B -> M S C) s :
  bind (bind m f) g s = bind m (fun a => bind (f a) g) s.
Proof. unfold bind. by destruct (m s). Qed.

(** Running a block of three statements inside a longer one. *)
Lemma bind_block {A B C D} (m : M S A) (u : A -> M S B) (w : A -> B -> M S C) (g : C -> M S D) c s s' :
  bind m (fun a => bind (u a) (fun b => w a b)) s = Ok c s' ->
  bind m (fun a => bind (u a) (fun b => bind (w a b) g)) s = g c s'.
Proof.
  unfold bind. destruct (m s) as [a s1| | |]; try done. destruct (u a s1) as [b s2| | |]; try done.
  intros ->. done.
Qed.

Lemma bind_ok_inv {A B} (m : M S A) (f : A -> M S B) b s s' :
  bind m f s = Ok b s' -> exists a s1, m s = Ok a s1 /\ f a s1 = Ok b s'.
Proof. unfold bind. destruct (m s); naive_solver. Qed.

Lemma for_each_app {A} (l1 l2 : list A) (body : A -> M S unit) s :
  for_each (l1 ++ l2) body s = bind (for_each l1 body) (fun _ => for_each l2 body) s.
Proof.
  revert s. induction l1 as [|x l1 IH]; intros s; [done|]. cbn. rewrite bind_assoc.
  unfold bind at 1. unfold bind at 1. destruct (body x s); [apply IH | done..].
Qed.

Lemma returns_ok {A} (m : M S A) a s s' (Q : A -> S -> Prop) :
  m s = Ok a s' -> Q a s' -> returns m s Q.
Proof. intros H HQ. unfold returns. by rewrite H. Qed.

Lemma returns_inv {A} (m : M S A) s (Q : A -> S -> Prop) :
  returns m s Q -> exists a s', m s = Ok a s' /\ Q a s'.
Proof. unfold returns. destruct (m s); naive_solver. Qed.

Lemma returns_bind {A B} (m : M S A) (f : A -> M S B) s Q :
  returns m s (fun a s' => returns (f a) s' Q) -> returns (bind m f) s Q.
Proof. unfold returns, bind. by destruct (m s). Qed.

Lemma returns_mono {A} (m : M S A) s (P Q : A -> S -> Prop) :
  returns m s P -> (forall a s', P a s' -> Q a s') -> returns m s Q.
Proof. unfold returns. destruct (m s); naive_solver. Qed.
End effects.

(** The development's rewrite and resolve databases. *)
Create HintDb xv6 discriminated.
Create Rewrite HintDb xv6.
#[export] Hint Constants Transparent : xv6.

(** Running a function one statement at a time: [mrun H] executes a first
    statement whose effect is the equation [H], [msimp] the ones that only
    read or write a field. *)
#[export] Hint Rewrite @bind_ret_l @bind_reads @bind_modify @bind_assoc @bind_panic : xv6.
Ltac msimp := autorewrite with xv6; cbv beta iota.
Ltac mrun H := erewrite (bind_ok _ _ _ _ _ H); cbv beta iota.

(** ** Generic lemmas *)

Lemma u8_bound z : is_u8 (u8 z).
Proof. unfold is_u8, u8. apply Z.mod_pos_bound. lia. Qed.
Lemma u32_bound z : is_u32 (u32 z).
Proof. unfold is_u32, u32. apply Z.mod_pos_bound. lia. Qed.
Lemma u32_small z : is_u32 z -> u32 z = z.
Proof. unfold is_u32, u32. apply Z.mod_small. Qed.
Lemma u8_small z : is_u8 z -> u8 z = z.
Proof. unfold is_u8, u8. apply Z.mod_small. Qed.
Lemma i32_small z : is_i32 z -> i32 z = z.
Proof. unfold is_i32, i32. intros H. rewrite Z.mod_small; lia. Qed.
Lemma i32_u32 z : i32 (u32 z) = i32 z.
Proof. unfold i32, u32. by rewrite Z.add_mod_idemp_l. Qed.
Lemma u32_i32 z : u32 (i32 z) = u32 z.
Proof.
  unfold i32, u32. rewrite Zminus_mod_idemp_l. f_equal. lia.
Qed.
Lemma u32_add_l a b : u32 (u32 a + b) = u32 (a + b).
Proof. unfold u32. apply Z.add_mod_idemp_l. lia. Qed.
Lemma u32_sub_l a b : u32 (u32 a - b) = u32 (a - b).
Proof. unfold u32. apply Zminus_mod_idemp_l. Qed.
Lemma u32_sub_r a b : u32 (a - u32 b) = u32 (a - b).
Proof. unfold u32. apply Zminus_mod_idemp_r. Qed.

#[export] Hint Resolve u8_bound u32_bound : xv6.

Lemma of_le_le32 z : is_u32 z -> of_le (le32 z) = z.
Proof.
  unfold is_u32, le32, of_le, u8. intros Hz.
  rewrite Z.mul_0_r, Z.add_0_r.
  rewrite (Z.mod_small (z / 2 ^ 24) (2 ^ 8)) by
    (split; [apply Z.div_pos; lia | apply Z.div_lt_upper_bound; lia]).
  pose proof (Z.div_mod z (2 ^ 8)). pose proof (Z.div_mod (z / 2 ^ 8) (2 ^ 8)).
  pose proof (Z.div_mod (z / 2 ^ 16) (2 ^ 8)).
  assert (z / 2 ^ 16 = z / 2 ^ 8 / 2 ^ 8)%Z as E1 by (rewrite Z.div_div; [f_equal | |]; lia).
  assert (z / 2 ^ 24 = z / 2 ^ 16 / 2 ^ 8)%Z as E2 by (rewrite Z.div_div; [f_equal | |]; lia).
  lia.
Qed.

Lemma i16_of_le_le16 z : (- 2 ^ 15 <= z < 2 ^ 15)%Z -> i16 (of_le (le16 z)) = z.
Proof.
  unfold le16, of_le, u8, i16. intros Hz. change (2 ^ 8)%Z with 256%Z. change (2 ^ 16)%Z with 65536%Z.
  change (2 ^ 15)%Z with 32768%Z in *. Z.div_mod_to_equations. lia.
Qed.
Lemma of_le_le16 z : is_u16 z -> of_le (le16 z) = z.
Proof.
  unfold is_u16, le16, of_le, u8. intros Hz.
  rewrite (Z.mod_small (z / 2 ^ 8) (2 ^ 8)) by
    (split; [apply Z.div_pos; lia | apply Z.div_lt_upper_bound; lia]).
  pose proof (Z.div_mod z (2 ^ 8)). lia.
Qed.

Lemma of_le_bound l : Forall is_u8 l -> (0 <= of_le l < 2 ^ (8 * Z.of_nat (length l)))%Z.
Proof.
  unfold is_u8. induction 1 as [|b l Hb _ IH]; simpl; [lia|].
  rewrite Nat2Z.inj_succ, Z.mul_succ_r, Z.pow_add_r by lia. lia.
Qed.

Lemma le32_u8 z : Forall is_u8 (le32 z).
Proof. unfold le32. repeat constructor; apply u8_bound. Qed.

Lemma le32_length z : length (le32 z) = 4%nat.
Proof. reflexivity. Qed.

Lemma zseq_nil a n : (n <= 0)%Z -> zseq a n = [].
Proof. intros H. unfold zseq. by replace (Z.to_nat n) with 0%nat by lia. Qed.
Lemma zseq_cons a n : (0 < n)%Z -> zseq a n = a :: zseq (a + 1) (n - 1).
Proof. intros H. unfold zseq. by replace (Z.to_nat n) with (S (Z.to_nat (n - 1))) by lia. Qed.
Lemma zfrom_length a n : length (zfrom a n) = n.
Proof. revert a. induction n as [|n IH]; intros a; cbn; [done | by rewrite IH]. Qed.
Lemma zseq_length a n : length (zseq a n) = Z.to_nat n.
Proof. apply zfrom_length. Qed.
Lemma zfrom_lookup a n i : (i < n)%nat -> zfrom a n !! i = Some (a + Z.of_nat i)%Z.
Proof.
  revert a i. induction n as [|n IH]; intros a [|i] Hi; cbn; [lia | lia | f_equal; lia |].
  rewrite IH by lia. f_equal. lia.
Qed.
Lemma zseq_lookup a n i : (i < Z.to_nat n)%nat -> zseq a n !! i = Some (a + Z.of_nat i)%Z.
Proof. apply zfrom_lookup. Qed.
Lemma elem_of_zseq x a n : x ∈ zseq a n <-> (a <= x < a + n)%Z.
Proof.
  rewrite list_elem_of_lookup. split.
  - intros [i Hi]. pose proof (lookup_lt_Some _ _ _ Hi) as Hl. rewrite zseq_length in Hl.
    rewrite zseq_lookup in Hi by done. injection Hi as <-. lia.
  - intros Hx. exists (Z.to_nat (x - a)). rewrite zseq_lookup by lia. f_equal. lia.
Qed.
Lemma NoDup_zseq a n : NoDup (zseq a n).
Proof.
  apply NoDup_alt. intros i j x Hi Hj. pose proof (lookup_lt_Some _ _ _ Hi) as Hli. pose proof (lookup_lt_Some _ _ _ Hj) as Hlj.
  rewrite zseq_length in Hli, Hlj. rewrite zseq_lookup in Hi, Hj by done. simplify_eq. lia.
Qed.
Lemma zseq_down_nil a n : (n <= 0)%Z -> zseq_down a n = [].
Proof. intros H. unfold zseq_down. by replace (Z.to_nat n) with 0%nat by lia. Qed.
Lemma zseq_down_cons a n : (0 < n)%Z -> zseq_down a n = a :: zseq_down (a - 1) (n - 1).
Proof.
  intros H. unfold zseq_down. replace (Z.to_nat n) with (S (Z.to_nat (n - 1))) by lia. cbn.
  f_equal; [lia|]. rewrite <-fmap_S_seq, <-list_fmap_compose.
  apply list_fmap_ext. intros ? ? _. cbn. lia.
Qed.

(** Updating an entry that is there. *)
Lemma alter_map_insert `{Countable J} {A} (i : J) f (x : A) (m : gmap J A) :
  m !! i = Some x -> alter f i m = <[i := f x]> m.
Proof.
  intros Hx. apply map_eq. intros j. destruct (decide (i = j)) as [<-|].
  - by rewrite lookup_alter_eq, Hx, lookup_insert_eq.
  - by rewrite lookup_alter_ne, lookup_insert_ne.
Qed.

Lemma run_nat_add {A B} n m (step : A -> A + B) a :
  run_nat (n + m) step a =
  match run_nat n step a with inl a => run_nat m step a | inr b => inr b end.
Proof.
  revert a. induction n as [|n IH]; intros a; cbn; [done|]. by destruct (step a).
Qed.
Lemma run_pos_nat {A B} n (step : A -> A + B) a : run_pos n step a = run_nat (Pos.to_nat n) step a.
Proof.
  revert a. induction n as [n IH|n IH|]; intros a.
  - rewrite Pos2Nat.inj_xI. cbn. replace (Pos.to_nat n + (Pos.to_nat n + 0))%nat
      with (Pos.to_nat n + Pos.to_nat n)%nat by lia.
    destruct (step a) as [a'|]; [|done]. rewrite run_nat_add, IH. by destruct (run_nat _ _ a').
  - rewrite Pos2Nat.inj_xO. replace (2 * Pos.to_nat n)%nat with (Pos.to_nat n + Pos.to_nat n)%nat by lia.
    cbn. rewrite run_nat_add, IH. by destruct (run_nat _ _ a).
  - change (Pos.to_nat 1) with 1%nat. cbn. by destruct (step a).
Qed.

(** Overwriting a slice of a list, as [memmove] into an array does. *)
Definition splice {A} (i : nat) (new l : list A) : list A :=
  take i l ++ new ++ drop (i + length new) l.
Definition slice {A} (i n : nat) (l : list A) : list A := take n (drop i l).

Section splice.
Context {A : Type}.
Implicit Types l new : list A.

Lemma splice_length i new l :
  (i + length new <= length l)%nat -> length (splice i new l) = length l.
Proof. intros H. unfold splice. rewrite !length_app, length_take, length_drop. lia. Qed.

Lemma slice_length i n l : (i + n <= length l)%nat -> length (slice i n l) = n.
Proof. intros H. unfold slice. rewrite length_take, length_drop. lia. Qed.

Lemma splice_lookup_in i new l j :
  (i + length new <= length l)%nat -> (i <= j < i + length new)%nat ->
  splice i new l !! j = new !! (j - i)%nat.
Proof.
  intros Hl Hj. unfold splice.
  rewrite lookup_app_r; rewrite length_take; [|lia].
  rewrite lookup_app_l by lia. f_equal. lia.
Qed.

Lemma splice_lookup_out i new l j :
  (i + length new <= length l)%nat -> (j < i \/ i + length new <= j)%nat ->
  splice i new l !! j = l !! j.
Proof.
  intros Hl Hj. unfold splice. destruct Hj.
  - rewrite lookup_app_l by (rewrite length_take; lia). by rewrite lookup_take_lt.
  - rewrite lookup_app_r by (rewrite length_take; lia).
    rewrite lookup_app_r by (rewrite length_take; lia).
    rewrite lookup_drop, length_take. f_equal. lia.
Qed.

Lemma slice_splice_same i new l :
  (i + length new <= length l)%nat -> slice i (length new) (splice i new l) = new.
Proof.
  intros Hl. unfold slice, splice.
  rewrite drop_app_length' by (rewrite length_take; lia).
  by rewrite take_app_length.
Qed.

Lemma slice_lookup i n l j : (j < n)%nat -> slice i n l !! j = l !! (i + j)%nat.
Proof. intros Hj. unfold slice. by rewrite lookup_take_lt, lookup_drop. Qed.

Lemma slice_splice_in i new l d n :
  (i + length new <= length l)%nat -> (d + n <= length new)%nat ->
  slice (i + d) n (splice i new l) = slice d n new.
Proof.
  intros Hl Hd. apply list_eq. intros x. destruct (decide (x < n)%nat) as [Hx|Hx].
  - rewrite !slice_lookup by done. rewrite splice_lookup_in by lia. f_equal. lia.
  - rewrite !lookup_ge_None_2; [done | rewrite slice_length; lia |]. rewrite slice_length; [lia|].
    rewrite splice_length; lia.
Qed.

Lemma slice_splice_other i new l j n :
  (i + length new <= length l)%nat -> (j + n <= i \/ i + length new <= j)%nat ->
  slice j n (splice i new l) = slice j n l.
Proof.
  intros Hl Hj. apply list_eq. intros x. unfold slice.
  destruct (decide (x < n)%nat).
  - rewrite !lookup_take_lt, !lookup_drop by done. apply splice_lookup_out; lia.
  - by rewrite !lookup_take_ge by lia.
Qed.
End splice.
