(* ===== verification/Numeral.v ===== *)
(** * Numerals

    The digit loop that the kernel's and the user library's [printint] share,
    up to their digit characters, and the number that a string of digits
    denotes. *)

From Stdlib Require Import ZArith Lia.
From stdpp Require Import base list numbers.
From S2P Require Import Prelude.

Open Scope Z_scope.

(** The number a string of digits denotes, and the value of a digit. *)
Definition digit_value (c : Z) : Z :=
  if c <? 58 then c - 48 else if c <? 91 then c - 55 else c - 87.
Definition denotes (base : Z) (s : list Z) : Z :=
  fold_left (fun acc c => acc * base + digit_value c) s 0.
Definition denotes_signed (base : Z) (s : list Z) : Z :=
  match s with
  | 45 :: s => - denotes base s
  | _ => denotes base s
  end.

(** A digit character for each of the sixteen digits. *)
Class Digits (digit : Z -> Z) :=
  digit_ok : forall d, 0 <= d < 16 -> digit_value (digit d) = d /\ digit d <> 45 /\ 0 < digit d < 256.

Section numeral.
Context (digit : Z -> Z).

(** The digits of [x], least significant first. *)
Fixpoint digits_of (fuel : nat) (x base : Z) : list Z :=
  match fuel with
  | O => []
  | S fuel =>
      digit (x mod base) ::
        (if negb (x / base =? 0) then digits_of fuel (x / base) base else [])
  end.

(** What [printint] collects in its buffer. *)
Definition numeral (fuel : nat) (xx base : Z) (sign : bool) : list Z :=
  let neg := sign && (xx <? 0) in
  let x := if neg then u32 (- xx) else u32 xx in
  digits_of fuel x base ++ (if neg then [45] else []).

Context `{Digits digit}.

Lemma denotes_snoc base s c : denotes base (s ++ [c]) = denotes base s * base + digit_value c.
Proof. unfold denotes. by rewrite fold_left_app. Qed.

(** With enough room for the digits, the loop writes all of them. *)
Lemma digits_of_denotes fuel x base :
  2 <= base <= 16 -> 0 <= x < base ^ Z.of_nat fuel -> (0 < fuel)%nat ->
  denotes base (reverse (digits_of fuel x base)) = x.
Proof.
  intros Hb. revert x. induction fuel as [|fuel IH]; intros x Hx Hf; [lia|]. cbn [digits_of].
  pose proof (Z.mod_pos_bound x base ltac:(lia)) as Hm. pose proof (Z.div_mod x base ltac:(lia)).
  rewrite reverse_cons, denotes_snoc. destruct (digit_ok (x mod base) ltac:(lia)) as [-> _].
  rewrite Nat2Z.inj_succ, Z.pow_succ_r in Hx by lia.
  destruct (Z.eqb_spec (x / base) 0) as [E0|E0]; cbn [negb].
  - rewrite E0 in *. unfold denotes. cbn. lia.
  - assert (0 <= x / base < base ^ Z.of_nat fuel) as Hd.
    { split; [apply Z.div_pos; lia | apply Z.div_lt_upper_bound; lia]. }
    rewrite IH; [lia | done |]. destruct fuel; [cbn in Hd; lia | lia].
Qed.

Lemma digits_of_chars fuel x base :
  2 <= base <= 16 -> Forall (fun c => c <> 45 /\ 0 < c < 256) (digits_of fuel x base).
Proof.
  intros Hb. revert x. induction fuel as [|fuel IH]; intros x; cbn [digits_of]; [constructor|].
  pose proof (Z.mod_pos_bound x base ltac:(lia)) as Hm. specialize (IH (x / base)).
  destruct (digit_ok (x mod base) ltac:(lia)) as (_ & Hd).
  constructor; [done|]. destruct (negb _); [done | constructor].
Qed.

Lemma digits_of_length fuel n x base :
  2 <= base -> 0 <= x < base ^ Z.of_nat n -> (0 < n)%nat ->
  (length (digits_of fuel x base) <= n)%nat.
Proof.
  intros Hb. revert n x. induction fuel as [|fuel IH]; intros n x Hx Hn; cbn; [lia|].
  destruct n as [|n]; [lia|]. rewrite Nat2Z.inj_succ, Z.pow_succ_r in Hx by lia.
  pose proof (Z.div_pos x base ltac:(lia) ltac:(lia)).
  pose proof (Z.div_lt_upper_bound x base _ ltac:(lia) (proj2 Hx)).
  destruct (Z.eqb_spec (x / base) 0); cbn; [lia|].
  assert (0 < n)%nat by (destruct n; [cbn in *; lia | lia]).
  specialize (IH n (x / base)). lia.
Qed.

Lemma denotes_signed_pos base s :
  Forall (fun c => c <> 45 /\ 0 < c < 256) s -> denotes_signed base s = denotes base s.
Proof. intros H0. destruct H0 as [|c s [Hc _] _]; [done|]. cbn. repeat case_match; done. Qed.

(** The digits of a 32-bit number in base 10 or 16. *)
Lemma digits_of_u32 fuel x base :
  is_u32 x -> base = 10 \/ base = 16 -> (10 <= fuel)%nat ->
  denotes base (reverse (digits_of fuel x base)) = x /\ (length (digits_of fuel x base) <= 10)%nat.
Proof.
  intros Hu Hb Hf. assert (0 <= x < base ^ Z.of_nat 10) as Hx10
    by (unfold is_u32 in Hu; destruct Hb as [-> | ->];
        [change (10 ^ Z.of_nat 10) with 10000000000
        | change (16 ^ Z.of_nat 10) with 1099511627776]; lia).
  split; [|apply digits_of_length; lia].
  apply digits_of_denotes; [lia | | lia]. split; [lia|].
  eapply Z.lt_le_trans; [apply Hx10|]. apply Z.pow_le_mono_r; lia.
Qed.

Lemma numeral_denotes fuel xx base sign :
  is_i32 xx -> base = 10 \/ base = 16 -> (10 <= fuel)%nat ->
  denotes_signed base (reverse (numeral fuel xx base sign)) = (if sign then xx else u32 xx) /\
  (length (numeral fuel xx base sign) <= 11)%nat.
Proof.
  intros Hx Hb Hf. unfold numeral. rewrite length_app. unfold is_i32 in Hx.
  destruct (sign && (xx <? 0)) eqn:Es.
  - apply andb_true_iff in Es as [-> Es]. apply Z.ltb_lt in Es.
    destruct (digits_of_u32 fuel (u32 (- xx)) base (u32_bound _) Hb Hf) as [H1 H2]. split; [|cbn [length]; lia].
    rewrite reverse_app. change (reverse [45]) with [45]. cbn [app denotes_signed]. rewrite H1.
    rewrite u32_small by (unfold is_u32; lia). lia.
  - destruct (digits_of_u32 fuel (u32 xx) base (u32_bound _) Hb Hf) as [H1 H2]. split; [|cbn [length]; lia].
    rewrite app_nil_r, denotes_signed_pos by (apply Forall_reverse, digits_of_chars; lia).
    rewrite H1. destruct sign; [|done]. apply u32_small. cbn in Es. unfold is_u32. lia.
Qed.

Lemma numeral_chars fuel xx base sign :
  2 <= base <= 16 -> Forall (fun c => 0 < c < 256) (numeral fuel xx base sign).
Proof.
  intros Hb. unfold numeral. apply Forall_app. split.
  - eapply list.Forall_impl; [apply (digits_of_chars _ _ _ Hb) | by intros c []].
  - destruct (_ && _); repeat constructor; lia.
Qed.
End numeral.

(** Sixteen digits can be checked one by one. *)
Lemma digits_check (digit : Z -> Z) :
  forallb (fun d => (digit_value (digit d) =? d) && negb (digit d =? 45) &&
                    (0 <? digit d) && (digit d <? 256)) (zseq 0 16) = true -> Digits digit.
Proof.
  intros Hc d Hd. rewrite forallb_forall in Hc.
  specialize (Hc d). rewrite <-list_elem_of_In, !andb_true_iff, negb_true_iff in Hc.
  destruct Hc as [[[H1 H2] H3] H4].
  { apply list_elem_of_lookup. exists (Z.to_nat d). rewrite zseq_lookup by lia. f_equal. lia. }
  lia.
Qed.
