(* ===== verification/Strings.v ===== *)
(** * Kernel string and memory routines (string.c)

    Memory is a map from addresses to bytes.  The routines that take
    pointers into it ([memset], [memcmp], [memmove]) are written over
    addresses, because their behaviour on overlapping or unaligned blocks is
    what matters; [strncmp], [strncpy], [safestrcpy] and [strlen] are written
    both over memory, as the C does, and over byte lists (a local array of
    the caller, read from some offset on), with a theorem that the two agree. *)

From Stdlib Require Import ZArith Lia.
From stdpp Require Import base gmap list strings numbers.
From S2P Require Import Prelude.

Open Scope Z_scope.

(** Byte-addressed memory; unmapped bytes read as zero.  Blocks do not wrap
    around the end of the address space. *)
Abbreviation mem := (gmap Z Z).
Definition ldb (m : mem) (a : Z) : Z := default 0 (m !! a).
Definition stb (m : mem) (a v : Z) : mem := <[a := u8 v]> m.

(** The [n] bytes from [a] on, and a store of a list of bytes. *)
Fixpoint ldbs (m : mem) (a : Z) (n : nat) : list Z :=
  match n with
  | O => []
  | S n => ldb m a :: ldbs m (a + 1) n
  end.
Fixpoint stbs (m : mem) (a : Z) (bs : list Z) : mem :=
  match bs with
  | [] => m
  | b :: bs => stbs (stb m a b) (a + 1) bs
  end.

(** The bytes of a string literal. *)
Definition bytes (s : string) : list Z :=
  (fun c => Z.of_N (Ascii.N_of_ascii c)) <$> String.list_ascii_of_string s.

(** 32-bit loads and stores. *)
Definition ldw (m : mem) (a : Z) : Z := of_le (ldbs m a 4).
Definition stw (m : mem) (a v : Z) : mem := stbs m a (le32 v).

Global Arguments ldw : simpl never.
Global Arguments stw : simpl never.

Module string_c.

(** [stosb]/[stosl] (x86.h): store [cnt] copies of a byte or of a 32-bit
    word. *)
Fixpoint stosb (m : mem) (addr data : Z) (cnt : nat) : mem :=
  match cnt with
  | O => m
  | S cnt => stosb (stb m addr data) (addr + 1) data cnt
  end.
Fixpoint stosl (m : mem) (addr data : Z) (cnt : nat) : mem :=
  match cnt with
  | O => m
  | S cnt => stosl (stw m addr data) (addr + 4) data cnt
  end.

Definition memset (m : mem) (dst c n : Z) : mem :=
  if (Z.rem (i32 dst) 4 =? 0) && (n mod 4 =? 0) then
    let c := Z.land c 255 in
    stosl m dst
      (u32 (Z.lor (Z.lor (Z.lor (Z.shiftl c 24) (Z.shiftl c 16)) (Z.shiftl c 8)) c))
      (Z.to_nat (n / 4))
  else stosb m dst c (Z.to_nat n).

Fixpoint memcmp (m : mem) (s1 s2 : Z) (n : nat) : Z :=
  match n with
  | O => 0
  | S n =>
      if negb (ldb m s1 =? ldb m s2) then ldb m s1 - ldb m s2
      else memcmp m (s1 + 1) (s2 + 1) n
  end.

(** The two loops of [memmove]: from the end down, and from the start up. *)
Fixpoint memmove_down (m : mem) (d s : Z) (n : nat) : mem :=
  match n with
  | O => m
  | S n => memmove_down (stb m (d - 1) (ldb m (s - 1))) (d - 1) (s - 1) n
  end.
Fixpoint memmove_up (m : mem) (d s : Z) (n : nat) : mem :=
  match n with
  | O => m
  | S n => memmove_up (stb m d (ldb m s)) (d + 1) (s + 1) n
  end.
Definition memmove (m : mem) (dst src : Z) (n : nat) : mem :=
  if (src <? dst) && (dst <? src + Z.of_nat n)
  then memmove_down m (dst + Z.of_nat n) (src + Z.of_nat n) n
  else memmove_up m dst src n.

Definition memcpy (m : mem) (dst src : Z) (n : nat) : mem := memmove m dst src n.

(** String routines over memory. *)
Fixpoint strncmp_mem (m : mem) (p q : Z) (n : nat) : Z :=
  match n with
  | O => 0
  | S n' =>
      if Zb (ldb m p) && (ldb m p =? ldb m q)
      then strncmp_mem m (p + 1) (q + 1) n'
      else u8 (ldb m p) - u8 (ldb m q)
  end.

(** First loop of [strncpy]: copies up to and including the NUL and returns
    the memory, the final [s] and what is left of [n] for the padding loop. *)
Fixpoint strncpy_copy (m : mem) (s t : Z) (n : nat) : mem * Z * nat :=
  match n with
  | O => (m, s, O)
  | S n =>
      let c := ldb m t in
      let m' := stb m s c in
      if negb (c =? 0) then strncpy_copy m' (s + 1) (t + 1) n else (m', s + 1, n)
  end.
Fixpoint strncpy_pad (m : mem) (s : Z) (n : nat) : mem :=
  match n with
  | O => m
  | S n => strncpy_pad (stb m s 0) (s + 1) n
  end.
Definition strncpy_mem (m : mem) (s t : Z) (n : nat) : mem :=
  let '(m, s, n) := strncpy_copy m s t n in strncpy_pad m s n.

(** The copying loop of [safestrcpy] runs while [--n > 0]. *)
Fixpoint safestrcpy_copy (m : mem) (s t : Z) (n : nat) : mem * Z :=
  match n with
  | O => (m, s)
  | S n =>
      let c := ldb m t in
      let m' := stb m s c in
      if negb (c =? 0) then safestrcpy_copy m' (s + 1) (t + 1) n else (m', s + 1)
  end.
Definition safestrcpy_mem (m : mem) (s t n : Z) : mem :=
  if n <=? 0 then m
  else
    let '(m, s) := safestrcpy_copy m s t (Z.to_nat (n - 1)) in
    stb m s 0.

Fixpoint strlen_mem (fuel : nat) (m : mem) (s : Z) : option Z :=
  match fuel with
  | O => None
  | S fuel =>
      if ldb m s =? 0 then Some 0
      else Z.succ <$> strlen_mem fuel m (s + 1)
  end.

(** The same routines on byte arrays: a pointer is the rest of the array it
    points into, and a byte past the end reads as zero. *)
Definition hd0 (l : list Z) : Z := hd 0 l.

Fixpoint strncmp (p q : list Z) (n : nat) : Z :=
  match n with
  | O => 0
  | S n' =>
      if Zb (hd0 p) && (hd0 p =? hd0 q)
      then strncmp (tl p) (tl q) n'
      else u8 (hd0 p) - u8 (hd0 q)
  end.

(** The [n] bytes that [strncpy(s, t, n)] leaves at [s]. *)
Fixpoint strncpy (t : list Z) (n : nat) : list Z :=
  match n with
  | O => []
  | S n =>
      let c := hd0 t in
      if negb (c =? 0) then u8 c :: strncpy (tl t) n else u8 c :: replicate n 0
  end.

(** What [safestrcpy(s, t, n)] leaves in the array [s]. *)
Fixpoint safestrcpy_go (s t : list Z) (n : nat) : list Z :=
  match n, s with
  | O, _ => <[0%nat := 0]> s
  | S n, [] => []
  | S n, _ :: s =>
      let c := hd0 t in
      u8 c :: (if negb (c =? 0) then safestrcpy_go s (tl t) n else <[0%nat := 0]> s)
  end.
Definition safestrcpy (s t : list Z) (n : Z) : list Z :=
  if n <=? 0 then s else safestrcpy_go s t (Z.to_nat (n - 1)).

Fixpoint strlen (s : list Z) : Z :=
  match s with
  | [] => 0
  | c :: s => if c =? 0 then 0 else 1 + strlen s
  end.

End string_c.

(** ** Memory lemmas *)

Definition mem_ok (m : mem) : Prop := map_Forall (fun _ v => is_u8 v) m.

Lemma ldb_ok m a : mem_ok m -> is_u8 (ldb m a).
Proof.
  intros H. unfold ldb. destruct (m !! a) as [v|] eqn:E; simpl.
  - exact (H a v E).
  - unfold is_u8. lia.
Qed.

Lemma ldb_stb m a b v : ldb (stb m a v) b = if decide (a = b) then u8 v else ldb m b.
Proof. unfold ldb, stb. rewrite lookup_insert. by case_decide. Qed.

Lemma ldb_stb_eq m a v : ldb (stb m a v) a = u8 v.
Proof. rewrite ldb_stb. by case_decide. Qed.

Lemma ldb_stb_ne m a b v : a <> b -> ldb (stb m a v) b = ldb m b.
Proof. intros H. rewrite ldb_stb. by case_decide. Qed.

Lemma stb_ok m a v : mem_ok m -> mem_ok (stb m a v).
Proof. intros H. apply map_Forall_insert_2; auto using u8_bound. Qed.

Lemma stbs_ok bs m a : mem_ok m -> mem_ok (stbs m a bs).
Proof. revert m a. induction bs; simpl; auto using stb_ok. Qed.

Lemma ldb_stbs bs m a b :
  ldb (stbs m a bs) b =
  if decide (a <= b < a + Z.of_nat (length bs))
  then u8 (nth (Z.to_nat (b - a)) bs 0) else ldb m b.
Proof.
  revert m a. induction bs as [|c bs IH]; intros m a; cbn [stbs length].
  - case_decide; [lia | done].
  - rewrite IH. destruct (decide (a = b)) as [->|Hne].
    + rewrite decide_False, ldb_stb_eq by lia.
      rewrite decide_True by lia. by rewrite Z.sub_diag.
    + rewrite ldb_stb_ne by done. repeat case_decide; try lia; try done.
      replace (Z.to_nat (b - a)) with (S (Z.to_nat (b - (a + 1)))) by lia. done.
Qed.

Lemma ldb_stbs_ne bs m a b :
  ~ (a <= b < a + Z.of_nat (length bs)) -> ldb (stbs m a bs) b = ldb m b.
Proof. intros H. rewrite ldb_stbs. by case_decide. Qed.

Lemma ldbs_length m a n : length (ldbs m a n) = n.
Proof. revert a. induction n; simpl; auto. Qed.

Lemma ldbs_lookup m a n i :
  (i < n)%nat -> ldbs m a n !! i = Some (ldb m (a + Z.of_nat i)).
Proof.
  revert a i. induction n as [|n IH]; intros a i Hi; [lia|].
  destruct i as [|i]; simpl.
  - f_equal. f_equal. lia.
  - rewrite IH by lia. f_equal. f_equal. lia.
Qed.

Lemma ldbs_ext m m' a n :
  (forall b, a <= b < a + Z.of_nat n -> ldb m b = ldb m' b) -> ldbs m a n = ldbs m' a n.
Proof.
  revert a. induction n as [|n IH]; intros a H; simpl; [done|].
  f_equal; [apply H; lia | apply IH; intros; apply H; lia].
Qed.

Lemma ldbs_stbs_same m a bs : Forall is_u8 bs -> ldbs (stbs m a bs) a (length bs) = bs.
Proof.
  intros Hb. apply list_eq. intros i. destruct (decide (i < length bs)%nat) as [Hi|Hi].
  - rewrite ldbs_lookup by done. rewrite ldb_stbs, decide_True by lia.
    replace (Z.to_nat (a + Z.of_nat i - a)) with i by lia.
    destruct (lookup_lt_is_Some_2 bs i Hi) as [x Hx].
    rewrite (nth_lookup_Some _ _ _ _ Hx), Hx.
    rewrite u8_small; [done|]. eapply Forall_lookup_1; eauto.
  - rewrite !lookup_ge_None_2; [done | lia | rewrite ldbs_length; lia].
Qed.

Lemma ldw_stw_same m a v : is_u32 v -> ldw (stw m a v) a = v.
Proof.
  intros Hv. unfold ldw, stw. change 4%nat with (length (le32 v)).
  rewrite ldbs_stbs_same by apply le32_u8. by apply of_le_le32.
Qed.

Lemma ldw_stw_ne m a b v : b + 4 <= a \/ a + 4 <= b -> ldw (stw m a v) b = ldw m b.
Proof.
  intros H. unfold ldw, stw. f_equal. apply ldbs_ext. intros c Hc.
  apply ldb_stbs_ne. rewrite le32_length. lia.
Qed.

Lemma ldb_stw_ne m a v b : b < a \/ a + 4 <= b -> ldb (stw m a v) b = ldb m b.
Proof. intros Hb. unfold stw. apply ldb_stbs_ne. rewrite le32_length. lia. Qed.

Lemma ldw_frame m m' a :
  (forall b, a <= b < a + 4 -> ldb m' b = ldb m b) -> ldw m' a = ldw m a.
Proof. intros H. unfold ldw. f_equal. apply ldbs_ext. intros b Hb. apply H. lia. Qed.

Lemma stw_ok m a v : mem_ok m -> mem_ok (stw m a v).
Proof. apply stbs_ok. Qed.

Lemma ldw_bound m a : mem_ok m -> is_u32 (ldw m a).
Proof.
  intros Hm. unfold ldw, is_u32.
  assert (Forall is_u8 (ldbs m a 4)) as H
    by (repeat constructor; by apply ldb_ok).
  apply of_le_bound in H. rewrite ldbs_length in H. exact H.
Qed.

(** Two memories that agree byte for byte. *)
Definition mem_eq (m1 m2 : mem) : Prop := forall a, ldb m1 a = ldb m2 a.

#[export] Instance mem_eq_equivalence : Equivalence mem_eq.
Proof. split; unfold mem_eq; [done | by intros ?? H a | intros ??? H1 H2 a; by rewrite H1]. Qed.
#[export] Instance ldb_proper : Proper (mem_eq ==> eq ==> eq) ldb.
Proof. by intros ?? H ?? ->. Qed.
#[export] Instance stb_proper : Proper (mem_eq ==> eq ==> eq ==> mem_eq) stb.
Proof. intros ?? H ?? -> ?? -> a. rewrite !ldb_stb. by case_decide. Qed.

Module string_facts.
Import string_c.

(** *** memset *)

Lemma ldb_stosb cnt m a c b :
  ldb (stosb m a c cnt) b =
  if decide (a <= b < a + Z.of_nat cnt) then u8 c else ldb m b.
Proof.
  revert m a. induction cnt as [|cnt IH]; intros m a; cbn [stosb].
  - case_decide; [lia | done].
  - rewrite IH, ldb_stb. repeat case_decide; done || lia.
Qed.

Lemma le32_splat c :
  is_u8 c ->
  le32 (u32 (Z.lor (Z.lor (Z.lor (Z.shiftl c 24) (Z.shiftl c 16)) (Z.shiftl c 8)) c)) =
  [c; c; c; c].
Proof.
  intros Hc.
  assert (forall i, 0 <= i < 256 ->
    le32 (u32 (Z.lor (Z.lor (Z.lor (Z.shiftl i 24) (Z.shiftl i 16)) (Z.shiftl i 8)) i))
    = [i; i; i; i]) as H; [|apply H, Hc].
  assert (forallb (fun n => let i := Z.of_nat n in
     bool_decide (le32 (u32 (Z.lor (Z.lor (Z.lor (Z.shiftl i 24) (Z.shiftl i 16))
        (Z.shiftl i 8)) i)) = [i; i; i; i])) (seq 0 256) = true) as Hall
    by (vm_compute; reflexivity).
  intros i Hi. rewrite forallb_forall in Hall.
  specialize (Hall (Z.to_nat i)). rewrite Z2Nat.id in Hall by lia.
  eapply bool_decide_eq_true_1. apply Hall, in_seq. lia.
Qed.

Lemma ldb_stosl cnt m a c w b :
  is_u8 c -> le32 w = [c; c; c; c] ->
  ldb (stosl m a w cnt) b =
  if decide (a <= b < a + 4 * Z.of_nat cnt) then c else ldb m b.
Proof.
  intros Hc Hw. revert m a. induction cnt as [|cnt IH]; intros m a; cbn [stosl].
  - case_decide; [lia | done].
  - rewrite IH. unfold stw. rewrite ldb_stbs, Hw. cbn [length].
    repeat case_decide; try done; try lia.
    assert (Z.to_nat (b - a) = 0 \/ Z.to_nat (b - a) = 1 \/
            Z.to_nat (b - a) = 2 \/ Z.to_nat (b - a) = 3)%nat as Hn by lia.
    destruct Hn as [-> | [-> | [-> | ->]]]; simpl; by apply u8_small.
Qed.

Lemma land_255 c : Z.land c 255 = u8 c.
Proof. change 255 with (Z.ones 8). by rewrite Z.land_ones by lia. Qed.

(** memset: whichever of its two loops runs, every byte of the block is
    [c] afterwards and no other byte changes. *)
Lemma ldb_memset m dst c n a :
  0 <= n ->
  ldb (memset m dst c n) a =
  if decide (dst <= a < dst + n) then u8 c else ldb m a.
Proof.
  intros Hn. unfold memset. destruct (_ && _) eqn:E.
  - apply andb_true_iff in E as [_ E]. apply Z.eqb_eq in E.
    rewrite land_255, (ldb_stosl _ _ _ (u8 c)) by
      (apply u8_bound || apply le32_splat, u8_bound).
    assert (4 * (n / 4) = n) by (pose proof (Z.div_mod n 4); lia).
    rewrite Z2Nat.id by (apply Z.div_pos; lia).
    repeat case_decide; done || lia.
  - rewrite ldb_stosb, Z2Nat.id by lia. done.
Qed.

(** *** memmove *)

Lemma ldb_memmove_down n m d s a :
  mem_ok m -> s < d ->
  ldb (memmove_down m d s n) a =
  if decide (d - Z.of_nat n <= a < d) then ldb m (s + (a - d)) else ldb m a.
Proof.
  revert m d s. induction n as [|n IH]; intros m d s Hm Hlt; cbn [memmove_down].
  - case_decide; [lia | done].
  - rewrite IH by (auto using stb_ok; lia).
    destruct (decide (a = d - 1)) as [->|Hne].
    + repeat case_decide; try lia.
      rewrite ldb_stb_eq, u8_small by (by apply ldb_ok). f_equal. lia.
    + repeat case_decide; try lia.
      * rewrite ldb_stb_ne by lia. f_equal. lia.
      * by rewrite ldb_stb_ne by lia.
Qed.

Lemma ldb_memmove_up n m d s a :
  mem_ok m -> ~ (s < d < s + Z.of_nat n) ->
  ldb (memmove_up m d s n) a =
  if decide (d <= a < d + Z.of_nat n) then ldb m (s + (a - d)) else ldb m a.
Proof.
  revert m d s. induction n as [|n IH]; intros m d s Hm Hno; cbn [memmove_up].
  - case_decide; [lia | done].
  - rewrite IH by (auto using stb_ok; lia).
    destruct (decide (a = d)) as [->|Hne].
    + repeat case_decide; try lia.
      rewrite ldb_stb_eq, u8_small by (by apply ldb_ok). f_equal. lia.
    + repeat case_decide; try lia.
      * rewrite ldb_stb_ne by lia. f_equal. lia.
      * by rewrite ldb_stb_ne by lia.
Qed.

(** memmove, byte by byte. *)
Lemma ldb_memmove m dst src n a :
  mem_ok m ->
  ldb (memmove m dst src n) a =
  if decide (dst <= a < dst + Z.of_nat n) then ldb m (src + (a - dst)) else ldb m a.
Proof.
  intros Hm. unfold memmove. destruct (_ && _) eqn:E.
  - apply andb_true_iff in E as [E1 E2].
    rewrite ldb_memmove_down by (done || lia).
    repeat case_decide; try lia; try done. f_equal. lia.
  - apply ldb_memmove_up; [done|]. apply andb_false_iff in E. lia.
Qed.

(** memmove copies the old contents of the source block to the
    destination, whether or not the two overlap, and changes no other byte. *)
Theorem memmove_spec m dst src n :
  mem_ok m ->
  ldbs (memmove m dst src n) dst n = ldbs m src n /\
  (forall a, ~ (dst <= a < dst + Z.of_nat n) -> ldb (memmove m dst src n) a = ldb m a).
Proof.
  intros Hm. split.
  - apply list_eq. intros i. destruct (decide (i < n)%nat).
    + rewrite !ldbs_lookup by done. rewrite ldb_memmove, decide_True by (done || lia).
      do 2 f_equal. lia.
    + by rewrite !lookup_ge_None_2 by (rewrite ldbs_length; lia).
  - intros a Ha. by rewrite ldb_memmove, decide_False.
Qed.

(** An overlapping move. *)
Lemma memmove_witness :
  ldbs (memmove (stbs ∅ 100 [1; 2; 3; 4]) 101 100 3) 101 3 = [1; 2; 3].
Proof.
  destruct (memmove_spec (stbs ∅ 100 [1; 2; 3; 4]) 101 100 3) as [H _].
  - apply stbs_ok, map_Forall_empty.
  - rewrite H. reflexivity.
Defined.

Lemma memset_ok m dst c n : mem_ok m -> mem_ok (memset m dst c n).
Proof.
  intros Hm. unfold memset.
  assert (forall k m a d, mem_ok m -> mem_ok (stosl m a d k)) as Hl
    by (induction k; cbn [stosl]; auto using stw_ok).
  assert (forall k m a d, mem_ok m -> mem_ok (stosb m a d k)) as Hb
    by (induction k; cbn [stosb memmove_up memmove_down]; auto using stb_ok).
  case_match; auto.
Qed.

Lemma memmove_ok m dst src n : mem_ok m -> mem_ok (memmove m dst src n).
Proof.
  intros Hm. unfold memmove.
  assert (forall k m a b, mem_ok m -> mem_ok (memmove_down m a b k)) as Hd
    by (induction k; cbn [stosb memmove_up memmove_down]; auto using stb_ok).
  assert (forall k m a b, mem_ok m -> mem_ok (memmove_up m a b k)) as Hu
    by (induction k; cbn [stosb memmove_up memmove_down]; auto using stb_ok).
  case_match; auto.
Qed.

(** *** String routines

    [cstr n l] is the string that the first [n] bytes of the array [l] hold:
    the bytes before the first NUL. *)
Fixpoint cstr (n : nat) (l : list Z) : list Z :=
  match n, l with
  | S n, c :: l => if c =? 0 then [] else c :: cstr n l
  | _, _ => []
  end.

Lemma cstr_hd0 n l :
  cstr (S n) l = if hd0 l =? 0 then [] else hd0 l :: cstr n (tl l).
Proof. destruct l; reflexivity. Qed.

Lemma hd0_ok l : Forall is_u8 l -> is_u8 (hd0 l).
Proof. destruct 1; simpl; [unfold is_u8; lia | done]. Qed.

Lemma tl_ok (l : list Z) : Forall is_u8 l -> Forall is_u8 (tl l).
Proof. by destruct 1; simpl. Qed.

Lemma strncmp_eq_iff n p q :
  Forall is_u8 p -> Forall is_u8 q ->
  strncmp p q n = 0 <-> cstr n p = cstr n q.
Proof.
  revert p q. induction n as [|n IH]; intros p q Hp Hq; [done|].
  rewrite !cstr_hd0. cbn [strncmp]. unfold Zb.
  rewrite !u8_small by auto using hd0_ok.
  specialize (IH (tl p) (tl q) (tl_ok _ Hp) (tl_ok _ Hq)).
  destruct (Z.eqb_spec (hd0 p) 0), (Z.eqb_spec (hd0 q) 0); simpl.
  - split; [done | lia].
  - split; [lia | done].
  - destruct (Z.eqb_spec (hd0 p) (hd0 q)); [lia|]. split; [lia | done].
  - destruct (Z.eqb_spec (hd0 p) (hd0 q)) as [E|E].
    + rewrite IH, E. split; [by intros -> | by intros [= ->]].
    + split; [lia | by intros [= ? _]].
Qed.

Lemma strncmp_refl n p : strncmp p p n = 0.
Proof.
  revert p. induction n as [|n IH]; intros p; simpl; [done|].
  rewrite Z.eqb_refl. destruct (Zb (hd0 p)); simpl; [done | lia].
Qed.

Lemma strncpy_length n t : length (strncpy t n) = n.
Proof.
  revert t. induction n as [|n IH]; intros t; simpl; [done|].
  destruct (negb _); simpl; by rewrite ?IH, ?length_replicate.
Qed.

Lemma strncpy_ok n t : Forall is_u8 (strncpy t n).
Proof.
  revert t. induction n as [|n IH]; intros t; cbn [strncpy]; [constructor|].
  destruct (negb _); constructor; auto using u8_bound.
  apply Forall_replicate. unfold is_u8. lia.
Qed.

Lemma cstr_strncpy n t : Forall is_u8 t -> cstr n (strncpy t n) = cstr n t.
Proof.
  revert t. induction n as [|n IH]; intros t Ht; [done|].
  rewrite (cstr_hd0 n t). cbn [strncpy].
  destruct (Z.eqb_spec (hd0 t) 0) as [E|E]; cbn [negb cstr].
  - by rewrite E.
  - rewrite u8_small by auto using hd0_ok.
    destruct (Z.eqb_spec (hd0 t) 0); [done|]. f_equal. auto using tl_ok.
Qed.

(** strncmp decides equality of the strings held by two [n]-byte arrays, and
    what strncpy stores compares equal to its source under it: this is how a
    directory entry written by dirlink is found again by dirlookup. *)
Theorem strncmp_strncpy n s t :
  Forall is_u8 s -> Forall is_u8 t ->
  strncmp s (strncpy t n) n = 0 <-> cstr n s = cstr n t.
Proof.
  intros Hs Ht. rewrite strncmp_eq_iff by auto using strncpy_ok.
  by rewrite cstr_strncpy.
Qed.

Lemma strncmp_strncpy_witness :
  strncmp [97; 98; 0] (strncpy [97; 98] 14) 14 = 0.
Proof.
  apply strncmp_strncpy; [| | reflexivity]; repeat constructor; unfold is_u8; lia.
Defined.

Lemma safestrcpy_go_length n s t : length (safestrcpy_go s t n) = length s.
Proof.
  revert s t. induction n as [|n IH]; intros s t; destruct s as [|c s]; simpl; try done.
  f_equal. destruct (negb _); [apply IH | by destruct s].
Qed.

Lemma cstr_safestrcpy_go n s t :
  Forall is_u8 t -> (n < length s)%nat ->
  cstr (length s) (safestrcpy_go s t n) = cstr n t.
Proof.
  revert s t. induction n as [|n IH]; intros s t Ht Hlen;
    destruct s as [|c s]; simpl in Hlen; try lia; [done|].
  rewrite (cstr_hd0 n t). cbn [safestrcpy_go length cstr].
  rewrite u8_small by auto using hd0_ok.
  destruct (Z.eqb_spec (hd0 t) 0) as [E|E]; cbn [negb]; [done|].
  f_equal. apply IH; [auto using tl_ok | lia].
Qed.

(** safestrcpy into an array of [n] bytes never writes outside it, always
    leaves it NUL-terminated, and stores the first [n-1] bytes of the source
    string. *)
Theorem safestrcpy_spec s t :
  Forall is_u8 t -> (0 < length s)%nat ->
  let r := safestrcpy s t (Z.of_nat (length s)) in
  length r = length s /\
  cstr (length s) r = cstr (length s - 1) t /\
  (length (cstr (length s) r) < length s)%nat.
Proof.
  intros Ht Hlen r. unfold r, safestrcpy.
  destruct (Z.leb_spec (Z.of_nat (length s)) 0); [lia|].
  replace (Z.to_nat (Z.of_nat (length s) - 1)) with (length s - 1)%nat by lia.
  split; [apply safestrcpy_go_length|].
  rewrite cstr_safestrcpy_go by (done || lia).
  split; [done|].
  assert (forall k (l : list Z), (length (cstr k l) <= k)%nat) as Hle.
  { induction k as [|k IHk]; intros [|x l]; simpl; try lia.
    destruct (x =? 0); simpl; [lia | specialize (IHk l); lia]. }
  specialize (Hle (length s - 1)%nat t). lia.
Qed.

Lemma safestrcpy_witness :
  cstr 4 (safestrcpy [9; 9; 9; 9] [97; 98; 99; 100; 101] 4) = [97; 98; 99].
Proof.
  change 4%nat with (length [9; 9; 9; 9]).
  apply (safestrcpy_spec [9; 9; 9; 9] [97; 98; 99; 100; 101]);
    [repeat constructor; unfold is_u8; lia | simpl; lia].
Defined.

(** The routines over memory compute the routines over byte arrays. *)
Lemma strncmp_mem_list n m p q :
  strncmp_mem m p q n = strncmp (ldbs m p n) (ldbs m q n) n.
Proof.
  revert p q. induction n as [|n IH]; intros p q; cbn [strncmp_mem strncmp ldbs]; [done|].
  unfold hd0. cbn [hd tl]. destruct (_ && _); [apply IH | done].
Qed.

End string_facts.
