(* ===== verification/State.v ===== *)
(** * The kernel's global state

    One record per C struct, with the struct's fields, and one record [K]
    that holds every global variable of the kernel together with the parts of
    the hardware it talks to.  Pointers into a static table ([struct proc *],
    [struct file *], [struct inode *], [struct buf *], [struct cpu *]) are
    indices into that table, the null pointer being [None]; pointers into
    memory handed out by kalloc are addresses.  A spin lock or a sleep lock
    is named by the object it is embedded in, and so is a sleep channel,
    since the code only compares channel addresses for equality. *)

From Stdlib Require Import ZArith Lia.
From stdpp Require Import base gmap list strings numbers countable.
From S2P Require Import Prelude Strings.

Open Scope Z_scope.

(** ** Constants (param.h, mmu.h, memlayout.h, fs.h, buf.h, stat.h, fcntl.h, elf.h) *)

Definition NPROC : nat := 64.
Definition KSTACKSIZE : Z := 4096.
Definition NCPU : nat := 8.
Definition NOFILE : nat := 16.
Definition NFILE : nat := 100.
Definition NINODE : nat := 50.
Definition NDEV : Z := 10.
Definition ROOTDEV : Z := 1.
Definition MAXARG : Z := 32.
Definition MAXOPBLOCKS : Z := 10.
Definition LOGSIZE : Z := MAXOPBLOCKS * 3.
Definition NBUF : nat := 30.
Definition FSSIZE : Z := 1000.

Definition FL_IF : Z := 512.
Definition DPL_USER : Z := 3.
Definition SEG_KCODE : Z := 1.
Definition SEG_KDATA : Z := 2.
Definition SEG_UCODE : Z := 3.
Definition SEG_UDATA : Z := 4.
Definition SEG_TSS : Z := 5.
Definition NPDENTRIES : Z := 1024.
Definition PGSIZE : Z := 4096.
Definition PTE_P : Z := 1.
Definition PTE_W : Z := 2.
Definition PTE_U : Z := 4.

Definition EXTMEM : Z := 1048576.
Definition PHYSTOP : Z := 234881024.
Definition DEVSPACE : Z := 4261412864.
Definition KERNBASE : Z := 2147483648.
Definition KERNLINK : Z := KERNBASE + EXTMEM.

Definition ROOTINO : Z := 1.
Definition BSIZE : Z := 512.
Definition NDIRECT : Z := 12.
Definition NINDIRECT : Z := BSIZE / 4.
Definition MAXFILE : Z := NDIRECT + NINDIRECT.
Definition IPB : Z := BSIZE / 64.
Definition BPB : Z := BSIZE * 8.
Definition DIRSIZ : nat := 14.
Definition B_VALID : Z := 2.
Definition B_DIRTY : Z := 4.
Definition T_DIR : Z := 1.
Definition T_FILE : Z := 2.
Definition T_DEV : Z := 3.
Definition O_RDONLY : Z := 0.
Definition O_WRONLY : Z := 1.
Definition O_RDWR : Z := 2.
Definition O_CREATE : Z := 512.
Definition CONSOLE : Z := 1.

(** [lia] with the constants' values. *)
Ltac klia :=
  unfold is_u8, is_u16, is_u32, is_i32, NPROC, NCPU, NOFILE, NFILE, NINODE, NBUF, DIRSIZ, LOGSIZE,
    MAXOPBLOCKS, FSSIZE, PGSIZE, NPDENTRIES, EXTMEM, PHYSTOP, DEVSPACE, KERNBASE,
    KERNLINK, BSIZE, NDIRECT, NINDIRECT, MAXFILE, IPB, BPB, KSTACKSIZE, NDEV in *; lia.

(** ** Names of locks and sleep channels *)

Inductive slid := SL_buf (i : nat) | SL_inode (i : nat).
Inductive lockid :=
| L_ptable | L_kmem | L_bcache | L_icache | L_ftable | L_log | L_cons
| L_tickslock | L_idelock | L_pipe (p : Z) | L_sleep (s : slid).
Inductive channel :=
| Ch_null | Ch_proc (i : nat) | Ch_input_r | Ch_log | Ch_ticks | Ch_buf (i : nat)
| Ch_sleeplock (s : slid) | Ch_pipe_nread (p : Z) | Ch_pipe_nwrite (p : Z).

#[export] Instance slid_eq_dec : EqDecision slid.
Proof. solve_decision. Defined.
#[export] Instance slid_countable : Countable slid.
Proof.
  refine (inj_countable'
    (fun s => match s with SL_buf i => inl i | SL_inode i => inr i end)
    (fun s => match s with inl i => SL_buf i | inr i => SL_inode i end) _).
  by intros [].
Defined.
#[export] Instance lockid_eq_dec : EqDecision lockid.
Proof. solve_decision. Defined.
#[export] Instance lockid_countable : Countable lockid.
Proof.
  refine (inj_countable'
    (fun l => match l with
      | L_ptable => inl 0%nat | L_kmem => inl 1%nat | L_bcache => inl 2%nat
      | L_icache => inl 3%nat | L_ftable => inl 4%nat | L_log => inl 5%nat
      | L_cons => inl 6%nat | L_tickslock => inl 7%nat | L_idelock => inl 8%nat
      | L_pipe p => inr (inl p) | L_sleep s => inr (inr s) end)
    (fun l => match l with
      | inl 0%nat => L_ptable | inl 1%nat => L_kmem | inl 2%nat => L_bcache
      | inl 3%nat => L_icache | inl 4%nat => L_ftable | inl 5%nat => L_log
      | inl 6%nat => L_cons | inl 7%nat => L_tickslock | inl _ => L_idelock
      | inr (inl p) => L_pipe p | inr (inr s) => L_sleep s end) _).
  by intros [].
Defined.
#[export] Instance channel_eq_dec : EqDecision channel.
Proof. solve_decision. Defined.

(** ** Structs *)

(** [mkset eta f v] is the update of field [f] to [v], where [eta] rebuilds
    a record from its projections. *)
Ltac mkset eta f v :=
  let e := eval unfold eta in eta in
  lazymatch eval pattern f in e with
  | ?s _ => let r := eval cbv beta in (s (fun _ => v)) in exact r
  end.

(** Spin locks (spinlock.h); [lk_cpu] is the holder.  The name and the recorded call
    stack are debugging output only. *)
Record spinlock := mk_spinlock {
  lk_locked : Z;
  lk_cpu : option nat }.
Definition eta_spinlock (r : spinlock) : spinlock :=
  mk_spinlock (lk_locked r) (lk_cpu r).
Definition set_lk_locked (v : Z) : spinlock -> spinlock := ltac:(mkset eta_spinlock lk_locked v).
Definition set_lk_cpu (v : option nat) : spinlock -> spinlock := ltac:(mkset eta_spinlock lk_cpu v).

(** Sleep locks (sleeplock.h); the inner spin lock is [L_sleep]. *)
Record sleeplock := mk_sleeplock {
  sl_locked : Z;
  sl_pid : Z }.
Definition eta_sleeplock (r : sleeplock) : sleeplock :=
  mk_sleeplock (sl_locked r) (sl_pid r).
Definition set_sl_locked (v : Z) : sleeplock -> sleeplock := ltac:(mkset eta_sleeplock sl_locked v).
Definition set_sl_pid (v : Z) : sleeplock -> sleeplock := ltac:(mkset eta_sleeplock sl_pid v).

(** Segment descriptors (mmu.h), one field per bit field. *)
Record segdesc := mk_segdesc {
  lim_15_0 : Z;
  base_15_0 : Z;
  base_23_16 : Z;
  sd_type : Z;
  sd_s : Z;
  sd_dpl : Z;
  sd_p : Z;
  lim_19_16 : Z;
  sd_avl : Z;
  sd_rsv1 : Z;
  sd_db : Z;
  sd_g : Z;
  base_31_24 : Z }.
Definition eta_segdesc (r : segdesc) : segdesc :=
  mk_segdesc (lim_15_0 r) (base_15_0 r) (base_23_16 r) (sd_type r) (sd_s r) (sd_dpl r)
    (sd_p r) (lim_19_16 r) (sd_avl r) (sd_rsv1 r) (sd_db r) (sd_g r) (base_31_24 r).
Definition set_lim_15_0 (v : Z) : segdesc -> segdesc := ltac:(mkset eta_segdesc lim_15_0 v).
Definition set_base_15_0 (v : Z) : segdesc -> segdesc := ltac:(mkset eta_segdesc base_15_0 v).
Definition set_base_23_16 (v : Z) : segdesc -> segdesc := ltac:(mkset eta_segdesc base_23_16 v).
Definition set_sd_type (v : Z) : segdesc -> segdesc := ltac:(mkset eta_segdesc sd_type v).
Definition set_sd_s (v : Z) : segdesc -> segdesc := ltac:(mkset eta_segdesc sd_s v).
Definition set_sd_dpl (v : Z) : segdesc -> segdesc := ltac:(mkset eta_segdesc sd_dpl v).
Definition set_sd_p (v : Z) : segdesc -> segdesc := ltac:(mkset eta_segdesc sd_p v).
Definition set_lim_19_16 (v : Z) : segdesc -> segdesc := ltac:(mkset eta_segdesc lim_19_16 v).
Definition set_sd_avl (v : Z) : segdesc -> segdesc := ltac:(mkset eta_segdesc sd_avl v).
Definition set_sd_rsv1 (v : Z) : segdesc -> segdesc := ltac:(mkset eta_segdesc sd_rsv1 v).
Definition set_sd_db (v : Z) : segdesc -> segdesc := ltac:(mkset eta_segdesc sd_db v).
Definition set_sd_g (v : Z) : segdesc -> segdesc := ltac:(mkset eta_segdesc sd_g v).
Definition set_base_31_24 (v : Z) : segdesc -> segdesc := ltac:(mkset eta_segdesc base_31_24 v).

(** Per-CPU state (proc.h); of the task state segment, the fields the kernel sets. *)
Record cpu := mk_cpu {
  apicid : Z;
  gdt : list segdesc;
  ts_ss0 : Z;
  ts_esp0 : Z;
  ts_iomb : Z;
  started : Z;
  ncli : Z;
  intena : Z;
  cpu_proc : option nat }.
Definition eta_cpu (r : cpu) : cpu :=
  mk_cpu (apicid r) (gdt r) (ts_ss0 r) (ts_esp0 r) (ts_iomb r) (started r) (ncli r)
    (intena r) (cpu_proc r).
Definition set_apicid (v : Z) : cpu -> cpu := ltac:(mkset eta_cpu apicid v).
Definition set_gdt (v : list segdesc) : cpu -> cpu := ltac:(mkset eta_cpu gdt v).
Definition set_ts_ss0 (v : Z) : cpu -> cpu := ltac:(mkset eta_cpu ts_ss0 v).
Definition set_ts_esp0 (v : Z) : cpu -> cpu := ltac:(mkset eta_cpu ts_esp0 v).
Definition set_ts_iomb (v : Z) : cpu -> cpu := ltac:(mkset eta_cpu ts_iomb v).
Definition set_started (v : Z) : cpu -> cpu := ltac:(mkset eta_cpu started v).
Definition set_ncli (v : Z) : cpu -> cpu := ltac:(mkset eta_cpu ncli v).
Definition set_intena (v : Z) : cpu -> cpu := ltac:(mkset eta_cpu intena v).
Definition set_cpu_proc (v : option nat) : cpu -> cpu := ltac:(mkset eta_cpu cpu_proc v).

(** The trap frame (x86.h). *)
Record trapframe := mk_trapframe {
  tf_edi : Z;
  tf_esi : Z;
  tf_ebp : Z;
  tf_oesp : Z;
  tf_ebx : Z;
  tf_edx : Z;
  tf_ecx : Z;
  tf_eax : Z;
  tf_gs : Z;
  tf_fs : Z;
  tf_es : Z;
  tf_ds : Z;
  tf_trapno : Z;
  tf_err : Z;
  tf_eip : Z;
  tf_cs : Z;
  tf_eflags : Z;
  tf_esp : Z;
  tf_ss : Z }.
Definition eta_trapframe (r : trapframe) : trapframe :=
  mk_trapframe (tf_edi r) (tf_esi r) (tf_ebp r) (tf_oesp r) (tf_ebx r) (tf_edx r) (tf_ecx r)
    (tf_eax r) (tf_gs r) (tf_fs r) (tf_es r) (tf_ds r) (tf_trapno r) (tf_err r)
    (tf_eip r) (tf_cs r) (tf_eflags r) (tf_esp r) (tf_ss r).
Definition set_tf_edi (v : Z) : trapframe -> trapframe := ltac:(mkset eta_trapframe tf_edi v).
Definition set_tf_esi (v : Z) : trapframe -> trapframe := ltac:(mkset eta_trapframe tf_esi v).
Definition set_tf_ebp (v : Z) : trapframe -> trapframe := ltac:(mkset eta_trapframe tf_ebp v).
Definition set_tf_oesp (v : Z) : trapframe -> trapframe := ltac:(mkset eta_trapframe tf_oesp v).
Definition set_tf_ebx (v : Z) : trapframe -> trapframe := ltac:(mkset eta_trapframe tf_ebx v).
Definition set_tf_edx (v : Z) : trapframe -> trapframe := ltac:(mkset eta_trapframe tf_edx v).
Definition set_tf_ecx (v : Z) : trapframe -> trapframe := ltac:(mkset eta_trapframe tf_ecx v).
Definition set_tf_eax (v : Z) : trapframe -> trapframe := ltac:(mkset eta_trapframe tf_eax v).
Definition set_tf_gs (v : Z) : trapframe -> trapframe := ltac:(mkset eta_trapframe tf_gs v).
Definition set_tf_fs (v : Z) : trapframe -> trapframe := ltac:(mkset eta_trapframe tf_fs v).
Definition set_tf_es (v : Z) : trapframe -> trapframe := ltac:(mkset eta_trapframe tf_es v).
Definition set_tf_ds (v : Z) : trapframe -> trapframe := ltac:(mkset eta_trapframe tf_ds v).
Definition set_tf_trapno (v : Z) : trapframe -> trapframe := ltac:(mkset eta_trapframe tf_trapno v).
Definition set_tf_err (v : Z) : trapframe -> trapframe := ltac:(mkset eta_trapframe tf_err v).
Definition set_tf_eip (v : Z) : trapframe -> trapframe := ltac:(mkset eta_trapframe tf_eip v).
Definition set_tf_cs (v : Z) : trapframe -> trapframe := ltac:(mkset eta_trapframe tf_cs v).
Definition set_tf_eflags (v : Z) : trapframe -> trapframe := ltac:(mkset eta_trapframe tf_eflags v).
Definition set_tf_esp (v : Z) : trapframe -> trapframe := ltac:(mkset eta_trapframe tf_esp v).
Definition set_tf_ss (v : Z) : trapframe -> trapframe := ltac:(mkset eta_trapframe tf_ss v).

(** Saved registers for kernel context switches (proc.h). *)
Record context := mk_context {
  cx_edi : Z;
  cx_esi : Z;
  cx_ebx : Z;
  cx_ebp : Z;
  cx_eip : Z }.
Definition eta_context (r : context) : context :=
  mk_context (cx_edi r) (cx_esi r) (cx_ebx r) (cx_ebp r) (cx_eip r).
Definition set_cx_edi (v : Z) : context -> context := ltac:(mkset eta_context cx_edi v).
Definition set_cx_esi (v : Z) : context -> context := ltac:(mkset eta_context cx_esi v).
Definition set_cx_ebx (v : Z) : context -> context := ltac:(mkset eta_context cx_ebx v).
Definition set_cx_ebp (v : Z) : context -> context := ltac:(mkset eta_context cx_ebp v).
Definition set_cx_eip (v : Z) : context -> context := ltac:(mkset eta_context cx_eip v).

Inductive procstate := UNUSED | EMBRYO | SLEEPING | RUNNABLE | RUNNING | ZOMBIE.
#[export] Instance procstate_eq_dec : EqDecision procstate.
Proof. solve_decision. Defined.

(** Per-process state (proc.h).  The trap frame and the context that [tf] and
    [context] point to are held by value. *)
Record proc := mk_proc {
  sz : Z;
  pgdir : Z;
  kstack : Z;
  state : procstate;
  pid : Z;
  parent : option nat;
  tf : trapframe;
  context_ : context;
  chan : channel;
  killed : Z;
  ofile : list (option nat);
  cwd : option nat;
  name : list Z;
  counter : list Z }.
Definition eta_proc (r : proc) : proc :=
  mk_proc (sz r) (pgdir r) (kstack r) (state r) (pid r) (parent r) (tf r) (context_ r)
    (chan r) (killed r) (ofile r) (cwd r) (name r) (counter r).
Definition set_sz (v : Z) : proc -> proc := ltac:(mkset eta_proc sz v).
Definition set_pgdir (v : Z) : proc -> proc := ltac:(mkset eta_proc pgdir v).
Definition set_kstack (v : Z) : proc -> proc := ltac:(mkset eta_proc kstack v).
Definition set_state (v : procstate) : proc -> proc := ltac:(mkset eta_proc state v).
Definition set_pid (v : Z) : proc -> proc := ltac:(mkset eta_proc pid v).
Definition set_parent (v : option nat) : proc -> proc := ltac:(mkset eta_proc parent v).
Definition set_tf (v : trapframe) : proc -> proc := ltac:(mkset eta_proc tf v).
Definition set_context_ (v : context) : proc -> proc := ltac:(mkset eta_proc context_ v).
Definition set_chan (v : channel) : proc -> proc := ltac:(mkset eta_proc chan v).
Definition set_killed (v : Z) : proc -> proc := ltac:(mkset eta_proc killed v).
Definition set_ofile (v : list (option nat)) : proc -> proc := ltac:(mkset eta_proc ofile v).
Definition set_cwd (v : option nat) : proc -> proc := ltac:(mkset eta_proc cwd v).
Definition set_name (v : list Z) : proc -> proc := ltac:(mkset eta_proc name v).
Definition set_counter (v : list Z) : proc -> proc := ltac:(mkset eta_proc counter v).

Inductive filetype := FD_NONE | FD_PIPE | FD_INODE.
#[export] Instance filetype_eq_dec : EqDecision filetype.
Proof. solve_decision. Defined.

(** Open files (file.h). *)
Record file := mk_file {
  f_type : filetype;
  f_ref : Z;
  f_readable : Z;
  f_writable : Z;
  f_pipe : Z;
  f_ip : option nat;
  f_off : Z }.
Definition eta_file (r : file) : file :=
  mk_file (f_type r) (f_ref r) (f_readable r) (f_writable r) (f_pipe r) (f_ip r) (f_off r).
Definition set_f_type (v : filetype) : file -> file := ltac:(mkset eta_file f_type v).
Definition set_f_ref (v : Z) : file -> file := ltac:(mkset eta_file f_ref v).
Definition set_f_readable (v : Z) : file -> file := ltac:(mkset eta_file f_readable v).
Definition set_f_writable (v : Z) : file -> file := ltac:(mkset eta_file f_writable v).
Definition set_f_pipe (v : Z) : file -> file := ltac:(mkset eta_file f_pipe v).
Definition set_f_ip (v : option nat) : file -> file := ltac:(mkset eta_file f_ip v).
Definition set_f_off (v : Z) : file -> file := ltac:(mkset eta_file f_off v).

(** In-memory inodes (file.h); the embedded sleep lock is [SL_inode]. *)
Record inode := mk_inode {
  i_dev : Z;
  i_inum : Z;
  i_ref : Z;
  i_valid : Z;
  i_type : Z;
  i_major : Z;
  i_minor : Z;
  i_nlink : Z;
  i_size : Z;
  i_addrs : list Z }.
Definition eta_inode (r : inode) : inode :=
  mk_inode (i_dev r) (i_inum r) (i_ref r) (i_valid r) (i_type r) (i_major r) (i_minor r)
    (i_nlink r) (i_size r) (i_addrs r).
Definition set_i_dev (v : Z) : inode -> inode := ltac:(mkset eta_inode i_dev v).
Definition set_i_inum (v : Z) : inode -> inode := ltac:(mkset eta_inode i_inum v).
Definition set_i_ref (v : Z) : inode -> inode := ltac:(mkset eta_inode i_ref v).
Definition set_i_valid (v : Z) : inode -> inode := ltac:(mkset eta_inode i_valid v).
Definition set_i_type (v : Z) : inode -> inode := ltac:(mkset eta_inode i_type v).
Definition set_i_major (v : Z) : inode -> inode := ltac:(mkset eta_inode i_major v).
Definition set_i_minor (v : Z) : inode -> inode := ltac:(mkset eta_inode i_minor v).
Definition set_i_nlink (v : Z) : inode -> inode := ltac:(mkset eta_inode i_nlink v).
Definition set_i_size (v : Z) : inode -> inode := ltac:(mkset eta_inode i_size v).
Definition set_i_addrs (v : list Z) : inode -> inode := ltac:(mkset eta_inode i_addrs v).

(** Cached disk blocks (buf.h); the embedded sleep lock is [SL_buf].  [b_prev] and
    [b_next] link the LRU list through the table, whose last entry is [bcache.head]. *)
Record buf := mk_buf {
  b_flags : Z;
  b_dev : Z;
  b_blockno : Z;
  b_refcnt : Z;
  b_prev : nat;
  b_next : nat;
  b_qnext : option nat;
  b_data : list Z }.
Definition eta_buf (r : buf) : buf :=
  mk_buf (b_flags r) (b_dev r) (b_blockno r) (b_refcnt r) (b_prev r) (b_next r)
    (b_qnext r) (b_data r).
Definition set_b_flags (v : Z) : buf -> buf := ltac:(mkset eta_buf b_flags v).
Definition set_b_dev (v : Z) : buf -> buf := ltac:(mkset eta_buf b_dev v).
Definition set_b_blockno (v : Z) : buf -> buf := ltac:(mkset eta_buf b_blockno v).
Definition set_b_refcnt (v : Z) : buf -> buf := ltac:(mkset eta_buf b_refcnt v).
Definition set_b_prev (v : nat) : buf -> buf := ltac:(mkset eta_buf b_prev v).
Definition set_b_next (v : nat) : buf -> buf := ltac:(mkset eta_buf b_next v).
Definition set_b_qnext (v : option nat) : buf -> buf := ltac:(mkset eta_buf b_qnext v).
Definition set_b_data (v : list Z) : buf -> buf := ltac:(mkset eta_buf b_data v).

(** The superblock (fs.h). *)
Record superblock := mk_superblock {
  sb_size : Z;
  sb_nblocks : Z;
  sb_ninodes : Z;
  sb_nlog : Z;
  sb_logstart : Z;
  sb_inodestart : Z;
  sb_bmapstart : Z }.
Definition eta_superblock (r : superblock) : superblock :=
  mk_superblock (sb_size r) (sb_nblocks r) (sb_ninodes r) (sb_nlog r) (sb_logstart r)
    (sb_inodestart r) (sb_bmapstart r).
Definition set_sb_size (v : Z) : superblock -> superblock := ltac:(mkset eta_superblock sb_size v).
Definition set_sb_nblocks (v : Z) : superblock -> superblock := ltac:(mkset eta_superblock sb_nblocks v).
Definition set_sb_ninodes (v : Z) : superblock -> superblock := ltac:(mkset eta_superblock sb_ninodes v).
Definition set_sb_nlog (v : Z) : superblock -> superblock := ltac:(mkset eta_superblock sb_nlog v).
Definition set_sb_logstart (v : Z) : superblock -> superblock := ltac:(mkset eta_superblock sb_logstart v).
Definition set_sb_inodestart (v : Z) : superblock -> superblock := ltac:(mkset eta_superblock sb_inodestart v).
Definition set_sb_bmapstart (v : Z) : superblock -> superblock := ltac:(mkset eta_superblock sb_bmapstart v).

(** The in-memory log and its header (log.c). *)
Record log := mk_log {
  lg_start : Z;
  lg_size : Z;
  lg_outstanding : Z;
  lg_committing : Z;
  lg_dev : Z;
  lh_n : Z;
  lh_block : list Z }.
Definition eta_log (r : log) : log :=
  mk_log (lg_start r) (lg_size r) (lg_outstanding r) (lg_committing r) (lg_dev r) (lh_n r)
    (lh_block r).
Definition set_lg_start (v : Z) : log -> log := ltac:(mkset eta_log lg_start v).
Definition set_lg_size (v : Z) : log -> log := ltac:(mkset eta_log lg_size v).
Definition set_lg_outstanding (v : Z) : log -> log := ltac:(mkset eta_log lg_outstanding v).
Definition set_lg_committing (v : Z) : log -> log := ltac:(mkset eta_log lg_committing v).
Definition set_lg_dev (v : Z) : log -> log := ltac:(mkset eta_log lg_dev v).
Definition set_lh_n (v : Z) : log -> log := ltac:(mkset eta_log lh_n v).
Definition set_lh_block (v : list Z) : log -> log := ltac:(mkset eta_log lh_block v).

(** Pipes (pipe.c); the embedded spin lock is [L_pipe]. *)
Record pipe := mk_pipe {
  p_data : list Z;
  p_nread : Z;
  p_nwrite : Z;
  p_readopen : Z;
  p_writeopen : Z }.
Definition eta_pipe (r : pipe) : pipe :=
  mk_pipe (p_data r) (p_nread r) (p_nwrite r) (p_readopen r) (p_writeopen r).
Definition set_p_data (v : list Z) : pipe -> pipe := ltac:(mkset eta_pipe p_data v).
Definition set_p_nread (v : Z) : pipe -> pipe := ltac:(mkset eta_pipe p_nread v).
Definition set_p_nwrite (v : Z) : pipe -> pipe := ltac:(mkset eta_pipe p_nwrite v).
Definition set_p_readopen (v : Z) : pipe -> pipe := ltac:(mkset eta_pipe p_readopen v).
Definition set_p_writeopen (v : Z) : pipe -> pipe := ltac:(mkset eta_pipe p_writeopen v).

(** The console's line buffer (console.c). *)
Record input_t := mk_input_t {
  in_buf : list Z;
  in_r : Z;
  in_w : Z;
  in_e : Z }.
Definition eta_input_t (r : input_t) : input_t :=
  mk_input_t (in_buf r) (in_r r) (in_w r) (in_e r).
Definition set_in_buf (v : list Z) : input_t -> input_t := ltac:(mkset eta_input_t in_buf v).
Definition set_in_r (v : Z) : input_t -> input_t := ltac:(mkset eta_input_t in_r v).
Definition set_in_w (v : Z) : input_t -> input_t := ltac:(mkset eta_input_t in_w v).
Definition set_in_e (v : Z) : input_t -> input_t := ltac:(mkset eta_input_t in_e v).

(** The console (console.c) and the devices behind it: the CGA text memory as cells,
    the CRT controller's index register and its two cursor registers, the serial
    port's transmitted and pending bytes, and the keyboard controller's pending
    scan codes. *)
Record consdev := mk_consdev {
  cons_locking : Z;
  panicked : Z;
  crt : gmap Z Z;
  crtc_idx : Z;
  crtc_hi : Z;
  crtc_lo : Z;
  back_counter : Z;
  input : input_t;
  uart : Z;
  uart_tx : list Z;
  uart_rx : list Z;
  kbd_rx : list Z;
  kbd_shift : Z }.
Definition eta_consdev (r : consdev) : consdev :=
  mk_consdev (cons_locking r) (panicked r) (crt r) (crtc_idx r) (crtc_hi r) (crtc_lo r)
    (back_counter r) (input r) (uart r) (uart_tx r) (uart_rx r) (kbd_rx r)
    (kbd_shift r).
Definition set_cons_locking (v : Z) : consdev -> consdev := ltac:(mkset eta_consdev cons_locking v).
Definition set_panicked (v : Z) : consdev -> consdev := ltac:(mkset eta_consdev panicked v).
Definition set_crt (v : gmap Z Z) : consdev -> consdev := ltac:(mkset eta_consdev crt v).
Definition set_crtc_idx (v : Z) : consdev -> consdev := ltac:(mkset eta_consdev crtc_idx v).
Definition set_crtc_hi (v : Z) : consdev -> consdev := ltac:(mkset eta_consdev crtc_hi v).
Definition set_crtc_lo (v : Z) : consdev -> consdev := ltac:(mkset eta_consdev crtc_lo v).
Definition set_back_counter (v : Z) : consdev -> consdev := ltac:(mkset eta_consdev back_counter v).
Definition set_input (v : input_t) : consdev -> consdev := ltac:(mkset eta_consdev input v).
Definition set_uart (v : Z) : consdev -> consdev := ltac:(mkset eta_consdev uart v).
Definition set_uart_tx (v : list Z) : consdev -> consdev := ltac:(mkset eta_consdev uart_tx v).
Definition set_uart_rx (v : list Z) : consdev -> consdev := ltac:(mkset eta_consdev uart_rx v).
Definition set_kbd_rx (v : list Z) : consdev -> consdev := ltac:(mkset eta_consdev kbd_rx v).
Definition set_kbd_shift (v : Z) : consdev -> consdev := ltac:(mkset eta_consdev kbd_shift v).

(** Gate descriptors (mmu.h), one field per bit field. *)
Record gatedesc := mk_gatedesc {
  off_15_0 : Z;
  gd_cs : Z;
  gd_args : Z;
  gd_rsv1 : Z;
  gd_type : Z;
  gd_s : Z;
  gd_dpl : Z;
  gd_p : Z;
  off_31_16 : Z }.

(** Writes to the interrupt controllers and to I/O ports with no state of
    their own here: a port, a register of the local APIC, of the I/O APIC. *)
Inductive iowrite :=
| IO_out (port v : Z)
| IO_lapic (index v : Z)
| IO_ioapic (reg v : Z).

(** The kernel.  [k_lapicid], [k_if] and [k_cr3] are registers of the CPU that
    executes; [k_dwrites] is the history of writes that reached the disk; [ide_sel] is
    the drive and sector selected in the IDE controller's registers; [k_io] is the history of writes to the interrupt controllers; [k_sched]
    names what the other CPUs and processes do each time this one waits. *)
Record K := mk_K {
  cpus : list cpu;
  ncpu : nat;
  k_lapicid : Z;
  k_if : bool;
  k_cr3 : Z;
  locks : gmap lockid spinlock;
  sleeplocks : gmap slid sleeplock;
  memory : mem;
  use_lock : Z;
  freelist : Z;
  kpgdir : Z;
  pipes : gmap Z pipe;
  ptable : list proc;
  initproc : option nat;
  nextpid : Z;
  forkret_first : Z;
  ftable : list file;
  icache : list inode;
  sb : superblock;
  bcache : list buf;
  klog : log;
  disk : gmap (Z * Z) (list Z);
  k_dwrites : list (Z * Z * list Z);
  idequeue : option nat;
  havedisk1 : Z;
  ide_sel : Z * Z;
  devsw_read : list (option nat);
  devsw_write : list (option nat);
  console : consdev;
  ticks : Z;
  lapic : Z;
  ioapicid : Z;
  idt : list gatedesc;
  k_io : list iowrite;
  k_sched : list Z }.
Definition eta_K (r : K) : K :=
  mk_K (cpus r) (ncpu r) (k_lapicid r) (k_if r) (k_cr3 r) (locks r) (sleeplocks r)
    (memory r) (use_lock r) (freelist r) (kpgdir r) (pipes r) (ptable r) (initproc r)
    (nextpid r) (forkret_first r) (ftable r) (icache r) (sb r) (bcache r) (klog r)
    (disk r) (k_dwrites r) (idequeue r) (havedisk1 r) (ide_sel r) (devsw_read r) (devsw_write r)
    (console r) (ticks r) (lapic r) (ioapicid r) (idt r) (k_io r) (k_sched r).
Definition set_cpus (v : list cpu) : K -> K := ltac:(mkset eta_K cpus v).
Definition set_ncpu (v : nat) : K -> K := ltac:(mkset eta_K ncpu v).
Definition set_k_lapicid (v : Z) : K -> K := ltac:(mkset eta_K k_lapicid v).
Definition set_k_if (v : bool) : K -> K := ltac:(mkset eta_K k_if v).
Definition set_k_cr3 (v : Z) : K -> K := ltac:(mkset eta_K k_cr3 v).
Definition set_locks (v : gmap lockid spinlock) : K -> K := ltac:(mkset eta_K locks v).
Definition set_sleeplocks (v : gmap slid sleeplock) : K -> K := ltac:(mkset eta_K sleeplocks v).
Definition set_memory (v : mem) : K -> K := ltac:(mkset eta_K memory v).
Definition set_use_lock (v : Z) : K -> K := ltac:(mkset eta_K use_lock v).
Definition set_freelist (v : Z) : K -> K := ltac:(mkset eta_K freelist v).
Definition set_kpgdir (v : Z) : K -> K := ltac:(mkset eta_K kpgdir v).
Definition set_pipes (v : gmap Z pipe) : K -> K := ltac:(mkset eta_K pipes v).
Definition set_ptable (v : list proc) : K -> K := ltac:(mkset eta_K ptable v).
Definition set_initproc (v : option nat) : K -> K := ltac:(mkset eta_K initproc v).
Definition set_nextpid (v : Z) : K -> K := ltac:(mkset eta_K nextpid v).
Definition set_forkret_first (v : Z) : K -> K := ltac:(mkset eta_K forkret_first v).
Definition set_ftable (v : list file) : K -> K := ltac:(mkset eta_K ftable v).
Definition set_icache (v : list inode) : K -> K := ltac:(mkset eta_K icache v).
Definition set_sb (v : superblock) : K -> K := ltac:(mkset eta_K sb v).
Definition set_bcache (v : list buf) : K -> K := ltac:(mkset eta_K bcache v).
Definition set_klog (v : log) : K -> K := ltac:(mkset eta_K klog v).
Definition set_disk (v : gmap (Z * Z) (list Z)) : K -> K := ltac:(mkset eta_K disk v).
Definition set_k_dwrites (v : list (Z * Z * list Z)) : K -> K := ltac:(mkset eta_K k_dwrites v).
Definition set_idequeue (v : option nat) : K -> K := ltac:(mkset eta_K idequeue v).
Definition set_havedisk1 (v : Z) : K -> K := ltac:(mkset eta_K havedisk1 v).
Definition set_ide_sel (v : Z * Z) : K -> K := ltac:(mkset eta_K ide_sel v).
Definition set_devsw_read (v : list (option nat)) : K -> K := ltac:(mkset eta_K devsw_read v).
Definition set_devsw_write (v : list (option nat)) : K -> K := ltac:(mkset eta_K devsw_write v).
Definition set_console (v : consdev) : K -> K := ltac:(mkset eta_K console v).
Definition set_ticks (v : Z) : K -> K := ltac:(mkset eta_K ticks v).
Definition set_lapic (v : Z) : K -> K := ltac:(mkset eta_K lapic v).
Definition set_ioapicid (v : Z) : K -> K := ltac:(mkset eta_K ioapicid v).
Definition set_idt (v : list gatedesc) : K -> K := ltac:(mkset eta_K idt v).
Definition set_k_io (v : list iowrite) : K -> K := ltac:(mkset eta_K k_io v).
Definition set_k_sched (v : list Z) : K -> K := ltac:(mkset eta_K k_sched v).

(** Kernel code runs in the state monad over [K]. *)
Abbreviation KM := (M K).

(** ** Access to table entries

    Reading through a null or wild pointer is undefined behaviour. *)

Definition deref {A} (what : string) (o : option A) : KM A :=
  match o with Some a => ret a | None => undefined what end.

Lemma bind_deref {A B} w (a : A) (f : A -> KM B) k : bind (deref w (Some a)) f k = f a k.
Proof. reflexivity. Qed.
#[export] Hint Rewrite @bind_deref : xv6.

Definition get_cpu (i : nat) : KM cpu :=
  let* cs := reads cpus in deref "cpu" (cs !! i).
Definition upd_cpu (i : nat) (f : cpu -> cpu) : KM unit :=
  modify (fun k => set_cpus (alter f i (cpus k)) k).
Definition get_proc (i : nat) : KM proc :=
  let* ps := reads ptable in deref "proc" (ps !! i).
Definition upd_proc (i : nat) (f : proc -> proc) : KM unit :=
  modify (fun k => set_ptable (alter f i (ptable k)) k).
Definition get_file (i : nat) : KM file :=
  let* fs := reads ftable in deref "file" (fs !! i).
Definition upd_file (i : nat) (f : file -> file) : KM unit :=
  modify (fun k => set_ftable (alter f i (ftable k)) k).
Definition get_inode (i : nat) : KM inode :=
  let* ips := reads icache in deref "inode" (ips !! i).
Definition upd_inode (i : nat) (f : inode -> inode) : KM unit :=
  modify (fun k => set_icache (alter f i (icache k)) k).
Definition get_buf (i : nat) : KM buf :=
  let* bs := reads bcache in deref "buf" (bs !! i).
Definition upd_buf (i : nat) (f : buf -> buf) : KM unit :=
  modify (fun k => set_bcache (alter f i (bcache k)) k).
Definition get_pipe (p : Z) : KM pipe :=
  let* ps := reads pipes in deref "pipe" (ps !! p).
Definition upd_pipe (p : Z) (f : pipe -> pipe) : KM unit :=
  modify (fun k => set_pipes (alter f p (pipes k)) k).
Definition upd_log (f : log -> log) : KM unit :=
  modify (fun k => set_klog (f (klog k)) k).
Definition upd_cons (f : consdev -> consdev) : KM unit :=
  modify (fun k => set_console (f (console k)) k).

(** ** Waiting

    Nothing in a kernel function says what the rest of the machine does while
    the function spins or sleeps.  [env_step t] is that unknown: one burst of
    activity of the other CPUs, of interrupt handlers and of the other
    processes, up to the moment this one continues.  [k_sched] lists the
    bursts to come; when it is empty the wait never ends. *)
Class Env := env_step : Z -> K -> K.

Section waiting.
Context `{E : Env}.

Definition others : KM unit := fun k =>
  match k_sched k with
  | [] => Stuck k
  | t :: ts => Ok tt (set_k_sched ts (env_step t k))
  end.

(** [forever step] repeats [step] until it yields a result.  A step that
    yields none has waited, so the number of bursts to come bounds the
    number of iterations. *)
Fixpoint forever_n {A} (n : nat) (step : KM (option A)) : KM A :=
  match n with
  | O => hang
  | S n =>
      let* r := step in
      match r with Some a => ret a | None => forever_n n step end
  end.
Definition forever {A} (step : KM (option A)) : KM A :=
  fun k => forever_n (S (length (k_sched k))) step k.

Lemma forever_done {A} (step : KM (option A)) a k k' :
  step k = Ok (Some a) k' -> forever step k = Ok a k'.
Proof. intros H. unfold forever. cbn. unfold bind. by rewrite H. Qed.

Lemma forever_stuck {A} (step : KM (option A)) k k' : step k = Stuck k' -> forever step k = Stuck k'.
Proof. intros H. unfold forever. cbn. unfold bind. by rewrite H. Qed.

(** A loop that ends does so in some last step. *)
Lemma forever_inv {A} (step : KM (option A)) a k k' :
  forever step k = Ok a k' -> exists k0, step k0 = Ok (Some a) k'.
Proof.
  unfold forever. generalize (S (length (k_sched k))). intros n. revert k.
  induction n as [|n IH]; intros k H; [done|]. cbn in H.
  apply bind_ok_inv in H as ([b|] & k1 & H1 & H2); [|by apply (IH k1)].
  injection H2 as -> ->. by exists k.
Qed.
End waiting.

(** ** The zero-initialised state, and a sample machine

    [bss] is the kernel's data as the loader leaves it.  [kernel_locks] are
    the locks that the initialisation functions create. *)

Definition trapframe0 : trapframe := mk_trapframe 0 0 0 0 0 0 0 0 0 0 0 0 0 0 0 0 0 0 0.
Definition context0 : context := mk_context 0 0 0 0 0.
Definition proc0 : proc :=
  mk_proc 0 0 0 UNUSED 0 None trapframe0 context0 Ch_null 0 (replicate NOFILE None) None
    (replicate 16 0) (replicate 100 0).
Definition file0 : file := mk_file FD_NONE 0 0 0 0 None 0.
Definition inode0 : inode := mk_inode 0 0 0 0 0 0 0 0 0 (replicate 13 0).
Definition buf0 : buf := mk_buf 0 0 0 0 0 0 None (replicate 512 0).
Definition log0 : log := mk_log 0 0 0 0 0 0 (replicate 30 0).
Definition superblock0 : superblock := mk_superblock 0 0 0 0 0 0 0.
Definition consdev0 : consdev :=
  mk_consdev 0 0 ∅ 0 0 0 0 (mk_input_t (replicate 128 0) 0 0 0) 0 [] [] [] 0.
Definition gatedesc0 : gatedesc := mk_gatedesc 0 0 0 0 0 0 0 0 0.
Definition cpu0 : cpu := mk_cpu 0 [] 0 0 0 0 0 0 None.
Definition bss : K :=
  mk_K (replicate NCPU cpu0) 0 0 false 0 ∅ ∅ ∅ 0 0 0 ∅ (replicate NPROC proc0) None 1 1
    (replicate NFILE file0) (replicate NINODE inode0) superblock0
    (replicate 31 buf0) log0 ∅ [] None 0 (0, 0) (replicate 10 None) (replicate 10 None)
    consdev0 0 0 0 (replicate 256 gatedesc0) [] [].

Definition kernel_locks : list lockid :=
  [L_ptable; L_kmem; L_bcache; L_icache; L_ftable; L_log; L_cons; L_tickslock; L_idelock]
  ++ ((fun i => L_sleep (SL_buf i)) <$> seq 0 NBUF)
  ++ ((fun i => L_sleep (SL_inode i)) <$> seq 0 NINODE).

(** One CPU that runs process 0 with interrupts on, all locks free. *)
Definition sample : K :=
  set_k_if true
    (set_ncpu 1
      (set_cpus (<[0%nat := mk_cpu 0 [] 0 0 0 1 0 FL_IF (Some 0%nat)]> (cpus bss))
        (set_locks (list_to_map ((fun l => (l, mk_spinlock 0 None)) <$> kernel_locks))
          (set_sleeplocks
            (list_to_map ((fun i => (SL_buf i, mk_sleeplock 0 0)) <$> seq 0 NBUF) ∪
             list_to_map ((fun i => (SL_inode i, mk_sleeplock 0 0)) <$> seq 0 NINODE))
            (set_ptable (<[0%nat := set_state RUNNING (set_pid 1 proc0)]> (ptable bss)) bss))))).
