(* ===== verification/Spinlock.v ===== *)
(** * CPUs and spin locks (spinlock.c; cpuid, mycpu and myproc of proc.c)

    [acquire] and [release] with the interrupt bookkeeping of [pushcli] and
    [popcli], the equations that let a caller treat a critical section as one
    update of the state, and the mutual exclusion of several CPUs running
    [acquire] and [release] concurrently. *)

From Stdlib Require Import ZArith Lia.
From stdpp Require Import base gmap list strings numbers.
From S2P Require Import Prelude Strings State.

Open Scope Z_scope.

(** ** The code *)

(** x86.h *)
Definition readeflags : KM Z :=
  let* i := reads k_if in ret (if i then FL_IF else 0).
Definition cli : KM unit := modify (set_k_if false).
Definition sti : KM unit := modify (set_k_if true).

(** The search of mycpu: the entry of [cpus[0..ncpu)] with this CPU's APIC id. *)
Definition find_cpu (k : K) : option (nat * cpu) :=
  list_find (fun c => apicid c = k_lapicid k) (take (ncpu k) (cpus k)).

Definition mycpu : KM nat :=
  let* fl := readeflags in
  if Zb (Z.land fl FL_IF) then panic "mycpu called with interrupts enabled"
  else
    let* c := reads find_cpu in
    match c with
    | Some (i, _) => ret i
    | None => panic "unknown apicid"
    end.

Definition cpuid : KM nat := mycpu.

Definition pushcli : KM unit :=
  let* eflags := readeflags in
  cli ;;;
  let* i := mycpu in
  let* c := get_cpu i in
  (when ncli c =? 0 do upd_cpu i (set_intena (Z.land eflags FL_IF))) ;;;
  let* i := mycpu in
  upd_cpu i (fun c => set_ncli (ncli c + 1) c).

Definition popcli : KM unit :=
  let* fl := readeflags in
  if Zb (Z.land fl FL_IF) then panic "popcli - interruptible"
  else
    let* i := mycpu in
    upd_cpu i (fun c => set_ncli (ncli c - 1) c) ;;;
    let* c := get_cpu i in
    if ncli c <? 0 then panic "popcli"
    else
      let* i := mycpu in
      let* c := get_cpu i in
      when (ncli c =? 0) && Zb (intena c) do sti.

Definition myproc : KM (option nat) :=
  pushcli ;;;
  let* i := mycpu in
  let* c := get_cpu i in
  let p := cpu_proc c in
  popcli ;;;
  ret p.

Definition get_lock (lk : lockid) : KM spinlock :=
  let* ls := reads locks in deref "spinlock" (ls !! lk).
Definition upd_lock (lk : lockid) (f : spinlock -> spinlock) : KM unit :=
  modify (fun k => set_locks (alter f lk (locks k)) k).

Definition initlock (lk : lockid) : KM unit :=
  modify (fun k => set_locks (<[lk := mk_spinlock 0 None]> (locks k)) k).

Definition holding (lk : lockid) : KM bool :=
  pushcli ;;;
  let* l := get_lock lk in
  let* i := mycpu in
  let r := Zb (lk_locked l) && bool_decide (lk_cpu l = Some i) in
  popcli ;;;
  ret r.

Definition xchg_locked (lk : lockid) (v : Z) : KM Z :=
  let* l := get_lock lk in
  upd_lock lk (set_lk_locked v) ;;;
  ret (lk_locked l).

Section spin.
Context `{E : Env}.

Definition acquire (lk : lockid) : KM unit :=
  pushcli ;;;
  let* h := holding lk in
  if h then panic "acquire"
  else
    forever (let* old := xchg_locked lk 1 in
             if Zb old then others ;;; ret None else ret (Some tt)) ;;;
    let* i := mycpu in
    upd_lock lk (set_lk_cpu (Some i)).

Definition release (lk : lockid) : KM unit :=
  let* h := holding lk in
  if negb h then panic "release"
  else
    upd_lock lk (set_lk_cpu None) ;;;
    upd_lock lk (set_lk_locked 0) ;;;
    popcli.
End spin.

(** getcallerpcs follows the chain of saved frame pointers: at [ebp] is the
    caller's frame pointer and at [ebp + 4] the return address. *)
Fixpoint callerpcs_walk (m : mem) (ebp : Z) (n : nat) : list Z :=
  match n with
  | O => []
  | S n' =>
      if (ebp =? 0) || (ebp <? KERNBASE) || (ebp =? 2 ^ 32 - 1) then replicate n 0
      else ldw m (u32 (ebp + 4)) :: callerpcs_walk m (ldw m ebp) n'
  end.
Definition getcallerpcs (m : mem) (v : Z) : list Z := callerpcs_walk m (u32 (v - 8)) 10.

(** ** Quiet states

    [quiet k]: the code runs on a CPU of the table, interrupts are off
    whenever some pushcli is pending, and when none is, [intena] holds the
    interrupt flag, as pushcli left it. *)

Definition quiet_cpu (b : bool) (c : cpu) : Prop :=
  0 <= ncli c /\
  (0 < ncli c -> b = false) /\
  (ncli c = 0 -> intena c = if b then FL_IF else 0).

Definition quiet (k : K) : Prop :=
  exists i c, find_cpu k = Some (i, c) /\ quiet_cpu (k_if k) c.

Definition lock_free (lk : lockid) (k : K) : Prop :=
  locks k !! lk = Some (mk_spinlock 0 None).

(** The state inside [pushcli ... popcli], and inside [acquire ... release]. *)
Definition entered (k : K) : K :=
  match find_cpu k with
  | Some (i, c) =>
      set_k_if false (set_cpus (<[i := set_ncli (ncli c + 1) c]> (cpus k)) k)
  | None => k
  end.
Definition locked (lk : lockid) (k : K) : K :=
  match find_cpu k with
  | Some (i, c) => set_locks (<[lk := mk_spinlock 1 (Some i)]> (locks k)) (entered k)
  | None => k
  end.

(** Updates that leave the CPUs, the locks and the CPU's registers alone. *)
Definition set_machine (cs : list cpu) (n : nat) (id : Z) (b : bool)
    (ls : gmap lockid spinlock) (k : K) : K :=
  set_k_if b (set_cpus cs (set_ncpu n (set_k_lapicid id (set_locks ls k)))).

Class Framed (f : K -> K) : Prop :=
  framed : forall cs n id b ls k,
    f (set_machine cs n id b ls k) = set_machine cs n id b ls (f k).

#[export] Hint Extern 1 (Framed _) =>
  (intros ? ? ? ? ? ?; reflexivity) : typeclass_instances.

#[export] Instance framed_compose f g : Framed f -> Framed g -> Framed (fun k => f (g k)).
Proof. intros Hf Hg cs n id b ls k. by rewrite Hg, Hf. Qed.

Lemma set_machine_same k :
  set_machine (cpus k) (ncpu k) (k_lapicid k) (k_if k) (locks k) k = k.
Proof. by destruct k. Qed.

Lemma framed_fields f k :
  Framed f ->
  cpus (f k) = cpus k /\ ncpu (f k) = ncpu k /\ k_lapicid (f k) = k_lapicid k /\
  k_if (f k) = k_if k /\ locks (f k) = locks k.
Proof.
  intros Hf. specialize (Hf (cpus k) (ncpu k) (k_lapicid k) (k_if k) (locks k) k).
  rewrite set_machine_same in Hf. rewrite Hf. done.
Qed.

Section cpu_lemmas.
Implicit Types (k : K) (i : nat) (c : cpu).

Lemma find_cpu_Some k i c :
  find_cpu k = Some (i, c) -> cpus k !! i = Some c /\ apicid c = k_lapicid k.
Proof.
  unfold find_cpu. intros H. apply list_find_Some in H as (Hl & Ha & _).
  apply lookup_take_Some in Hl as [Hl _]. done.
Qed.

(** Replacing the current CPU's entry by one with the same APIC id. *)
Lemma find_cpu_upd k i c c' b :
  find_cpu k = Some (i, c) -> apicid c' = apicid c ->
  find_cpu (set_k_if b (set_cpus (<[i := c']> (cpus k)) k)) = Some (i, c').
Proof.
  unfold find_cpu. cbn. intros H Ha.
  apply list_find_Some in H as (Hl & Hc & Hfst).
  pose proof (proj1 (lookup_take_Some _ _ _ _) Hl) as [Hl' Hlt].
  rewrite take_insert_lt by done.
  apply list_find_Some. split_and!.
  - apply list_lookup_insert_eq. by eapply lookup_lt_Some.
  - congruence.
  - intros j c'' Hj Hlt'. rewrite list_lookup_insert_ne in Hj by lia. eauto.
Qed.

Lemma find_cpu_framed f k : Framed f -> find_cpu (f k) = find_cpu k.
Proof.
  intros Hf. unfold find_cpu. by destruct (framed_fields f k Hf) as (-> & -> & -> & _ & _).
Qed.

Lemma mycpu_off k i c : find_cpu k = Some (i, c) -> k_if k = false -> mycpu k = Ok i k.
Proof.
  intros Hc Hi. unfold mycpu, readeflags. msimp. rewrite Hi.
  change (Zb (Z.land 0 FL_IF)) with false. cbv iota. msimp. by rewrite Hc.
Qed.

Lemma get_cpu_ok k i c : cpus k !! i = Some c -> get_cpu i k = Ok c k.
Proof. intros H. unfold get_cpu, bind, reads, deref. by rewrite H. Qed.

Lemma upd_cpu_ok k i c f :
  cpus k !! i = Some c -> upd_cpu i f k = Ok tt (set_cpus (<[i := f c]> (cpus k)) k).
Proof.
  intros H. unfold upd_cpu, modify. do 2 f_equal.
  apply list_eq. intros j. destruct (decide (i = j)) as [->|].
  - rewrite list_lookup_alter_eq, H, list_lookup_insert_eq; [done | by eapply lookup_lt_Some].
  - by rewrite list_lookup_alter_ne, list_lookup_insert_ne.
Qed.
End cpu_lemmas.

(** ** pushcli and popcli *)

Lemma quiet_entered k : quiet k -> quiet (entered k).
Proof.
  intros (i & c & Hc & Hn & H1 & H0). unfold entered. rewrite Hc.
  exists i, (set_ncli (ncli c + 1) c). split; [by apply find_cpu_upd with (c := c)|].
  unfold quiet_cpu; cbn. lia.
Qed.

Lemma pushcli_ok k : quiet k -> pushcli k = Ok tt (entered k).
Proof.
  intros (i & c & Hc & Hn & H1 & H0). unfold entered. rewrite Hc.
  pose proof (find_cpu_Some _ _ _ Hc) as [Hl Ha].
  assert (find_cpu (set_k_if false k) = Some (i, c)) as Hc' by exact Hc.
  unfold pushcli, readeflags, cli. msimp.
  mrun (mycpu_off _ i c Hc' eq_refl). mrun (get_cpu_ok (set_k_if false k) i c Hl).
  set (k0 := set_k_if false k).
  assert ((when ncli c =? 0
           do upd_cpu i (set_intena (Z.land (if k_if k then FL_IF else 0) FL_IF))) k0
          = Ok tt k0) as Hw.
  { destruct (Z.eqb_spec (ncli c) 0) as [E|E]; [|done].
    rewrite (upd_cpu_ok k0 i c _ Hl). f_equal.
    replace (set_intena _ c) with c; [by rewrite (list_insert_id (cpus k0) i c Hl)|].
    destruct c; unfold set_intena; cbn in *. f_equal. rewrite (H0 E). by destruct (k_if k). }
  mrun Hw. mrun (mycpu_off k0 i c Hc' eq_refl). by rewrite (upd_cpu_ok k0 i c _ Hl).
Qed.

(** What popcli does to the CPU entry [c] it finds. *)
Lemma popcli_ok k i c :
  find_cpu k = Some (i, c) -> k_if k = false -> 1 <= ncli c ->
  popcli k =
  Ok tt (set_k_if ((ncli c =? 1) && Zb (intena c))
          (set_cpus (<[i := set_ncli (ncli c - 1) c]> (cpus k)) k)).
Proof.
  intros Hc Hi Hn. pose proof (find_cpu_Some _ _ _ Hc) as [Hl Ha].
  set (c' := set_ncli (ncli c - 1) c).
  set (k' := set_cpus (<[i := c']> (cpus k)) k).
  assert (find_cpu k' = Some (i, c')) as Hc'.
  { replace k' with (set_k_if false k') by (unfold k'; destruct k; cbn in *; by subst).
    by apply find_cpu_upd with (c := c). }
  assert (k_if k' = false) as Hi' by exact Hi.
  pose proof (find_cpu_Some _ _ _ Hc') as [Hl' _].
  unfold popcli, readeflags. msimp. rewrite Hi.
  change (Zb (Z.land 0 FL_IF)) with false. cbv iota.
  mrun (mycpu_off k i c Hc Hi). mrun (upd_cpu_ok k i c (fun c => set_ncli (ncli c - 1) c) Hl).
  fold c' k'. mrun (get_cpu_ok k' i c' Hl').
  change (ncli c') with (ncli c - 1). destruct (Z.ltb_spec (ncli c - 1) 0); [lia|].
  mrun (mycpu_off k' i c' Hc' Hi'). mrun (get_cpu_ok k' i c' Hl').
  change (ncli c') with (ncli c - 1). change (intena c') with (intena c).
  replace (ncli c - 1 =? 0) with (ncli c =? 1) by lia.
  destruct (_ && _); [done|]. unfold k', ret. destruct k; cbn in *. by subst.
Qed.

Lemma set_ncli_undo c : set_ncli (ncli (set_ncli (ncli c + 1) c) - 1) (set_ncli (ncli c + 1) c) = c.
Proof. destruct c. unfold set_ncli; cbn. f_equal. lia. Qed.

Lemma quiet_if_restored b c :
  quiet_cpu b c -> (ncli c + 1 =? 1) && Zb (intena c) = b.
Proof.
  intros (Hn & H1 & H0). destruct (Z.eqb_spec (ncli c + 1) 1); cbn.
  - rewrite H0 by lia. by destruct b.
  - symmetry. apply H1. lia.
Qed.

(** A balanced popcli restores the state, through any framed update. *)
Lemma popcli_entered f k : quiet k -> Framed f -> popcli (f (entered k)) = Ok tt (f k).
Proof.
  intros (i & c & Hc & Hq) Hf. pose proof (find_cpu_Some _ _ _ Hc) as [Hl Ha].
  unfold entered. rewrite Hc.
  set (k1 := set_k_if false _).
  assert (find_cpu k1 = Some (i, set_ncli (ncli c + 1) c)) as Hc1
    by (by apply find_cpu_upd with (c := c)).
  assert (k1 = set_machine (<[i := set_ncli (ncli c + 1) c]> (cpus k)) (ncpu k)
                 (k_lapicid k) false (locks k) k) as Ek1
    by (unfold k1; by destruct k).
  pose proof (framed_fields f k1 Hf) as (_ & _ & _ & Hif & _).
  rewrite (popcli_ok (f k1) i (set_ncli (ncli c + 1) c)).
  - f_equal. rewrite set_ncli_undo.
    change (ncli (set_ncli (ncli c + 1) c)) with (ncli c + 1).
    change (intena (set_ncli (ncli c + 1) c)) with (intena c).
    rewrite (quiet_if_restored _ _ Hq), Ek1, (Hf _ _ _ _ _ k).
    unfold set_machine. cbn. rewrite list_insert_insert_eq.
    rewrite (list_insert_id _ _ _ Hl).
    pose proof (framed_fields f k Hf) as (E1 & E2 & E3 & E4 & E5).
    rewrite <-E1, <-E2, <-E3, <-E4, <-E5 at 1. by destruct (f k).
  - by rewrite find_cpu_framed.
  - by rewrite Hif.
  - cbn. destruct Hq. lia.
Qed.

Lemma popcli_entered_id k : quiet k -> popcli (entered k) = Ok tt k.
Proof. intros Hq. exact (popcli_entered (fun k => k) k Hq _). Qed.

Lemma entered_fields k :
  k_lapicid (entered k) = k_lapicid k /\ ncpu (entered k) = ncpu k /\
  locks (entered k) = locks k.
Proof. unfold entered. by destruct (find_cpu k) as [[]|]. Qed.

Lemma quiet_framed f k : Framed f -> quiet k -> quiet (f k).
Proof.
  intros Hf (i & c & Hc & Hq). exists i, c. rewrite find_cpu_framed by done.
  destruct (framed_fields f k Hf) as (_ & _ & _ & -> & _). done.
Qed.

Lemma lock_free_framed f lk k : Framed f -> lock_free lk k -> lock_free lk (f k).
Proof.
  unfold lock_free. intros Hf. by destruct (framed_fields f k Hf) as (_ & _ & _ & _ & ->).
Qed.

(** The process running on this CPU. *)
Definition curproc (k : K) : option nat :=
  match find_cpu k with Some (_, c) => cpu_proc c | None => None end.

Lemma entered_find k i c :
  find_cpu k = Some (i, c) ->
  find_cpu (entered k) = Some (i, set_ncli (ncli c + 1) c) /\ k_if (entered k) = false.
Proof.
  intros Hc. unfold entered. rewrite Hc. split; [|done].
  by apply find_cpu_upd with (c := c).
Qed.

Lemma myproc_ok k : quiet k -> myproc k = Ok (curproc k) k.
Proof.
  intros Hq. pose proof Hq as (i & c & Hc & _).
  destruct (entered_find k i c Hc) as [Hc' Hi'].
  pose proof (find_cpu_Some _ _ _ Hc') as [Hl' _].
  unfold myproc, curproc. rewrite Hc.
  mrun (pushcli_ok k Hq). mrun (mycpu_off _ _ _ Hc' Hi'). mrun (get_cpu_ok _ _ _ Hl').
  by mrun (popcli_entered_id k Hq).
Qed.

Lemma holding_ok k lk l i c :
  quiet k -> find_cpu k = Some (i, c) -> locks k !! lk = Some l ->
  holding lk k = Ok (Zb (lk_locked l) && bool_decide (lk_cpu l = Some i)) k.
Proof.
  intros Hq Hc Hl. destruct (entered_find k i c Hc) as [Hc' Hi'].
  unfold holding. mrun (pushcli_ok k Hq).
  assert (get_lock lk (entered k) = Ok l (entered k)) as Hg.
  { unfold get_lock. msimp. destruct (entered_fields k) as (_ & _ & ->). by rewrite Hl. }
  mrun Hg. mrun (mycpu_off _ _ _ Hc' Hi'). by mrun (popcli_entered_id k Hq).
Qed.

Lemma locked_machine lk k i c :
  find_cpu k = Some (i, c) ->
  locked lk k =
  set_machine (<[i := set_ncli (ncli c + 1) c]> (cpus k)) (ncpu k) (k_lapicid k) false
    (<[lk := mk_spinlock 1 (Some i)]> (locks k)) k.
Proof. intros Hc. unfold locked, entered. rewrite !Hc. by destruct k. Qed.

Lemma entered_machine k i c :
  find_cpu k = Some (i, c) ->
  entered k =
  set_machine (<[i := set_ncli (ncli c + 1) c]> (cpus k)) (ncpu k) (k_lapicid k) false
    (locks k) k.
Proof. intros Hc. unfold entered. rewrite !Hc. by destruct k. Qed.

Lemma locked_find lk k i c :
  find_cpu k = Some (i, c) ->
  find_cpu (locked lk k) = Some (i, set_ncli (ncli c + 1) c) /\ k_if (locked lk k) = false.
Proof.
  intros Hc. destruct (entered_find k i c Hc) as [H1 H2]. unfold locked. rewrite Hc.
  split; [exact H1 | exact H2].
Qed.

Lemma quiet_locked lk k : quiet k -> quiet (locked lk k).
Proof.
  intros (i & c & Hc & Hn & H1 & H0). destruct (locked_find lk k i c Hc) as [Hc' Hi'].
  exists i, (set_ncli (ncli c + 1) c). rewrite Hi'. split; [done|].
  unfold quiet_cpu; cbn. lia.
Qed.

Lemma locks_locked lk k : quiet k ->
  exists i c, find_cpu k = Some (i, c) /\
    locks (locked lk k) = <[lk := mk_spinlock 1 (Some i)]> (locks k).
Proof.
  intros (i & c & Hc & _). exists i, c. split; [done|]. by rewrite (locked_machine _ _ _ _ Hc).
Qed.

Lemma lock_free_locked lk lk' k :
  lk <> lk' -> lock_free lk' k -> lock_free lk' (locked lk k).
Proof.
  intros Hne Hf. unfold lock_free, locked, entered in *.
  destruct (find_cpu k) as [[i c]|]; [|done]. cbn. by rewrite lookup_insert_ne.
Qed.

Section lock_lemmas.
Context `{E : Env}.

(** Taking a free lock. *)
Lemma acquire_ok lk k : quiet k -> lock_free lk k -> acquire lk k = Ok tt (locked lk k).
Proof.
  intros Hq Hf. pose proof Hq as (i & c & Hc & _).
  destruct (entered_find k i c Hc) as [Hc' Hi'].
  pose proof (entered_fields k) as (_ & _ & Hls).
  assert (locks (entered k) !! lk = Some (mk_spinlock 0 None)) as Hl by (by rewrite Hls).
  unfold acquire. mrun (pushcli_ok k Hq).
  mrun (holding_ok _ lk _ _ _ (quiet_entered k Hq) Hc' Hl).
  change (Zb (lk_locked (mk_spinlock 0 None))) with false. cbn [andb]. cbv iota.
  set (k1 := set_locks (<[lk := mk_spinlock 1 None]> (locks (entered k))) (entered k)).
  assert (xchg_locked lk (1) (entered k) = Ok 0 k1) as Hx.
  { unfold xchg_locked, get_lock, upd_lock. msimp. rewrite Hl. cbn. unfold modify, ret, bind.
    do 2 f_equal. apply map_eq. intros j. destruct (decide (lk = j)) as [<-|].
    - by rewrite lookup_alter_eq, lookup_insert_eq, Hl.
    - by rewrite lookup_alter_ne, lookup_insert_ne. }
  mrun (forever_done (let* old := xchg_locked lk 1 in
             if Zb old then others ;;; ret None else ret (Some tt)) tt (entered k) k1
           ltac:(mrun Hx; reflexivity)).
  assert (find_cpu k1 = Some (i, set_ncli (ncli c + 1) c)) as Hc1 by exact Hc'.
  mrun (mycpu_off k1 _ _ Hc1 Hi'). unfold upd_lock, modify, locked. rewrite Hc.
  assert (alter (set_lk_cpu (Some i)) lk (locks k1) =
          <[lk := mk_spinlock 1 (Some i)]> (locks k)) as ->; [|done].
  unfold k1. cbn. rewrite Hls. apply map_eq. intros j. destruct (decide (lk = j)) as [<-|].
  - by rewrite lookup_alter_eq, !lookup_insert_eq.
  - by rewrite lookup_alter_ne, !lookup_insert_ne.
Qed.

(** Taking a lock this CPU already holds panics instead of deadlocking. *)
Lemma acquire_held lk k : quiet k -> exists k', acquire lk (locked lk k) = Panic "acquire" k'.
Proof.
  intros Hq. pose proof (quiet_locked lk k Hq) as Hq1.
  destruct (locks_locked lk k Hq) as (i & c & Hc & Hls).
  destruct (locked_find lk k i c Hc) as [Hc1 _].
  destruct (entered_find _ _ _ Hc1) as [Hc2 Hi2].
  eexists. unfold acquire. mrun (pushcli_ok _ Hq1).
  erewrite bind_ok; [|eapply holding_ok; [by apply quiet_entered | exact Hc2 |]].
  2: { destruct (entered_fields (locked lk k)) as (_ & _ & ->). rewrite Hls.
       apply lookup_insert_eq. }
  cbn. rewrite bool_decide_eq_true_2 by done. reflexivity.
Qed.

(** Leaving the critical section: everything but the section's own update
    of the state is as it was before the lock was taken. *)
Lemma release_ok lk f k :
  quiet k -> lock_free lk k -> Framed f -> release lk (f (locked lk k)) = Ok tt (f k).
Proof.
  intros Hq Hf Hfr. pose proof Hq as (i & c & Hc & _).
  destruct (locked_find lk k i c Hc) as [Hc1 Hi1].
  assert (f (locked lk k) =
    set_machine (<[i := set_ncli (ncli c + 1) c]> (cpus k)) (ncpu k) (k_lapicid k) false
      (<[lk := mk_spinlock 1 (Some i)]> (locks k)) (f k)) as Ef
    by (by rewrite (locked_machine _ _ _ _ Hc), Hfr).
  assert (quiet (f (locked lk k))) as Hq2 by (apply quiet_framed; auto using quiet_locked).
  assert (find_cpu (f (locked lk k)) = Some (i, set_ncli (ncli c + 1) c)) as Hc2
    by (by rewrite find_cpu_framed).
  assert (locks (f (locked lk k)) !! lk = Some (mk_spinlock 1 (Some i))) as Hl2
    by (rewrite Ef; cbn; apply lookup_insert_eq).
  unfold release. mrun (holding_ok _ lk _ _ _ Hq2 Hc2 Hl2).
  cbn [lk_locked lk_cpu Zb]. rewrite bool_decide_eq_true_2 by done.
  change (Zb 1 && true) with true. cbv iota beta. cbn [negb].
  unfold upd_lock. msimp.
  etransitivity; [|apply (popcli_entered f k Hq Hfr)]. f_equal.
  rewrite Ef, (entered_machine _ _ _ Hc), Hfr. cbn [set_machine set_locks locks].
  assert (alter (set_lk_locked 0) lk (alter (set_lk_cpu None) lk
            (<[lk := mk_spinlock 1 (Some i)]> (locks k))) = locks k) as E1.
  { apply map_eq. intros j. destruct (decide (lk = j)) as [<-|].
    - by rewrite !lookup_alter_eq, lookup_insert_eq, Hf.
    - by rewrite !lookup_alter_ne, lookup_insert_ne. }
  match type of E1 with ?ls = _ =>
    transitivity (set_machine (<[i := set_ncli (ncli c + 1) c]> (cpus k)) (ncpu k)
                    (k_lapicid k) false ls (f k))
  end; [reflexivity | by rewrite E1].
Qed.
End lock_lemmas.

(** A whole critical section whose body is a framed update. *)
Lemma critical_section `{E : Env} lk {A} (body : KM A) f a k :
  quiet k -> lock_free lk k -> Framed f ->
  body (locked lk k) = Ok a (f (locked lk k)) ->
  (acquire lk ;;; let* x := body in release lk ;;; ret x) k = Ok a (f k).
Proof.
  intros Hq Hf Hfr Hb. mrun (acquire_ok lk k Hq Hf). mrun Hb.
  by mrun (release_ok lk f k Hq Hf Hfr).
Qed.

(** What a lock does not protect by being held reads the same inside. *)
Class Observes {A} (g : K -> A) : Prop :=
  observes : forall cs n id b ls k, g (set_machine cs n id b ls k) = g k.
#[export] Hint Extern 1 (Observes _) =>
  (intros ? ? ? ? ? ?; reflexivity) : typeclass_instances.

Lemma locked_obs {A} (g : K -> A) `{!Observes g} lk k : g (locked lk k) = g k.
Proof.
  destruct (find_cpu k) as [[i c]|] eqn:Hc.
  - by rewrite (locked_machine _ _ _ _ Hc), observes.
  - unfold locked. by rewrite Hc.
Qed.

(** Simplifies the reads of a locked state. *)
Ltac unlocked :=
  repeat match goal with
  | |- context [?g (locked ?lk ?k)] => rewrite (locked_obs g lk k)
  end.

(** ** What a function leaves alone, whatever else it does *)

Definition keeps {A B} (g : K -> A) (m : KM B) : Prop := forall k b k', m k = Ok b k' -> g k' = g k.

Section keeps.
Context {A : Type} (g : K -> A).

Lemma keeps_bind {B C} (m : KM B) (f : B -> KM C) :
  keeps g m -> (forall b, keeps g (f b)) -> keeps g (let* x := m in f x).
Proof. intros Hm Hf k c k' (b & k1 & H1 & H2)%bind_ok_inv. by rewrite (Hf _ _ _ _ H2), (Hm _ _ _ H1). Qed.
Lemma keeps_ret {B} (b : B) : keeps g (ret b).
Proof. by intros k c k' [= _ <-]. Qed.
Lemma keeps_reads {B} (f : K -> B) : keeps g (reads f).
Proof. by intros k c k' [= _ <-]. Qed.
Lemma keeps_deref {B} msg (o : option B) : keeps g (deref msg o).
Proof. destruct o; intros k c k' H; [by injection H as _ <- | done]. Qed.
Lemma keeps_panic {B} msg : keeps g (@panic K B msg).
Proof. by intros k c k' H. Qed.
Lemma keeps_modify f : (forall k, g (f k) = g k) -> keeps g (modify f).
Proof. intros Hf k c k' [= _ <-]. apply Hf. Qed.

Context `{HO : !Observes g}.

Lemma keeps_cpus h : keeps g (modify (fun k => set_cpus (h k) k)).
Proof.
  apply keeps_modify. intros k. rewrite <-(HO (h k) (ncpu k) (k_lapicid k) (k_if k) (locks k) k).
  by destruct k.
Qed.
Lemma keeps_locks h : keeps g (modify (fun k => set_locks (h k) k)).
Proof.
  apply keeps_modify. intros k. rewrite <-(HO (cpus k) (ncpu k) (k_lapicid k) (k_if k) (h k) k).
  by destruct k.
Qed.
Lemma keeps_if b : keeps g (modify (set_k_if b)).
Proof.
  apply keeps_modify. intros k. rewrite <-(HO (cpus k) (ncpu k) (k_lapicid k) b (locks k) k).
  by destruct k.
Qed.
End keeps.

Ltac keeps :=
  repeat match goal with
  | |- keeps _ (bind _ _) => apply keeps_bind; [|intros ?]
  | |- keeps _ (ret _) => apply keeps_ret
  | |- keeps _ (reads _) => apply keeps_reads
  | |- keeps _ (deref _ _) => apply keeps_deref
  | |- keeps _ (panic _) => apply keeps_panic
  | |- keeps _ (if ?b then _ else _) => destruct b
  | |- keeps _ (match ?o with Some _ => _ | None => _ end) => destruct o as [[]|]
  | |- keeps _ (modify (set_k_if _)) => by apply keeps_if
  | |- keeps _ (modify (fun k => set_cpus (@?h k) k)) => by apply keeps_cpus
  | |- keeps _ (modify (fun k => set_locks (@?h k) k)) => by apply keeps_locks
  end.

Section keeps_locks.
Context {A : Type} (g : K -> A) `{HO : !Observes g}.

Lemma keeps_mycpu : keeps g mycpu.
Proof. unfold mycpu, readeflags. keeps. Qed.
Lemma keeps_pushcli : keeps g pushcli.
Proof. unfold pushcli, readeflags, cli, upd_cpu, get_cpu. keeps; try (by apply keeps_mycpu). Qed.
Lemma keeps_popcli : keeps g popcli.
Proof. unfold popcli, readeflags, sti, upd_cpu, get_cpu. keeps; try (by apply keeps_mycpu). Qed.
Lemma keeps_holding lk : keeps g (holding lk).
Proof.
  unfold holding, get_lock. keeps; [by apply keeps_pushcli | by apply keeps_mycpu | by apply keeps_popcli].
Qed.

Lemma keeps_release `{E : Env} lk : keeps g (release lk).
Proof.
  unfold release, upd_lock. keeps; [by apply keeps_holding | by apply keeps_popcli].
Qed.
End keeps_locks.

(** ** Several CPUs and one lock

    The memory accesses of acquire and release that matter to other CPUs, one
    per step, interleaved arbitrarily: the exchange of [locked], the write of
    [cpu] after it, and the two writes of release. *)
Module SpinRace.

Inductive pc := Out | Spin | Got | Crit | Leaving.
#[local] Instance pc_eq_dec : EqDecision pc.
Proof. solve_decision. Defined.

Record machine := mk_machine { m_lock : spinlock; m_pc : list pc }.

Definition xchg (l : spinlock) (v : Z) : Z * spinlock := (lk_locked l, set_lk_locked v l).

(** The unsynchronised read that [holding] makes on CPU [i]. *)
Definition sees_held (l : spinlock) (i : nat) : bool :=
  Zb (lk_locked l) && bool_decide (lk_cpu l = Some i).

Inductive step : machine -> machine -> Prop :=
| step_begin l ps i :                       (* pushcli; if(holding) panic *)
    ps !! i = Some Out -> sees_held l i = false ->
    step (mk_machine l ps) (mk_machine l (<[i := Spin]> ps))
| step_xchg l ps i old l' :                 (* while(xchg(&lk->locked, 1) != 0) *)
    ps !! i = Some Spin -> xchg l 1 = (old, l') ->
    step (mk_machine l ps) (mk_machine l' (<[i := if Zb old then Spin else Got]> ps))
| step_record l ps i :                      (* lk->cpu = mycpu() *)
    ps !! i = Some Got ->
    step (mk_machine l ps) (mk_machine (set_lk_cpu (Some i) l) (<[i := Crit]> ps))
| step_clear l ps i :                       (* if(!holding) panic; lk->cpu = 0 *)
    ps !! i = Some Crit -> sees_held l i = true ->
    step (mk_machine l ps) (mk_machine (set_lk_cpu None l) (<[i := Leaving]> ps))
| step_release l ps i :                     (* movl $0, lk->locked *)
    ps !! i = Some Leaving ->
    step (mk_machine l ps) (mk_machine (set_lk_locked 0 l) (<[i := Out]> ps)).

Inductive reachable : machine -> Prop :=
| reach_init n : reachable (mk_machine (mk_spinlock 0 None) (replicate n Out))
| reach_step s s' : reachable s -> step s s' -> reachable s'.

(** A CPU owns the lock from its successful exchange to its release. *)
Definition owns (p : pc) : bool :=
  match p with Got | Crit | Leaving => true | Out | Spin => false end.

Definition unique_owner (ps : list pc) : Prop :=
  forall i j p q, ps !! i = Some p -> ps !! j = Some q -> owns p = true -> owns q = true -> i = j.

Record inv (s : machine) : Prop := {
  inv_owner i p : m_pc s !! i = Some p -> owns p = true -> lk_locked (m_lock s) = 1;
  inv_bit : lk_locked (m_lock s) = 0 \/ lk_locked (m_lock s) = 1;
  inv_unique : unique_owner (m_pc s);
  inv_cpu i : lk_cpu (m_lock s) = Some i <-> m_pc s !! i = Some Crit }.

(** A CPU that moves without becoming an owner keeps owners unique. *)
Lemma unique_owner_upd ps i p0 p :
  ps !! i = Some p0 -> (owns p = true -> owns p0 = true) ->
  unique_owner ps -> unique_owner (<[i := p]> ps).
Proof.
  intros Hi Hp Hu j j' q q'. rewrite !list_lookup_insert.
  assert (forall j q, ps !! j = Some q -> owns q = true -> owns p = true -> i = j) as Hij
    by (intros; eapply Hu; eauto).
  repeat case_decide; intros; simplify_eq; try done; naive_solver.
Qed.

(** The recorded holder follows the CPU that enters or leaves [Crit]. *)
Lemma crit_upd_other (ps : list pc) i p0 p j :
  ps !! i = Some p0 -> p0 <> Crit -> p <> Crit ->
  <[i := p]> ps !! j = Some Crit <-> ps !! j = Some Crit.
Proof. intros Hi Hp0 Hp. rewrite list_lookup_insert. case_decide; naive_solver. Qed.

Lemma inv_init n : inv (mk_machine (mk_spinlock 0 None) (replicate n Out)).
Proof.
  split; cbn; [| by left | |].
  - intros i p [-> _]%lookup_replicate. done.
  - intros i j p q [-> _]%lookup_replicate. done.
  - split; [done|]. by intros [? _]%lookup_replicate.
Qed.

Lemma inv_step s s' : inv s -> step s s' -> inv s'.
Proof.
  intros [Ho Hb Hu Hc] Hstep.
  destruct Hstep as [l ps i Hi Hs | l ps i old l' Hi Hx | l ps i Hi | l ps i Hi Hs | l ps i Hi];
    cbn in *; pose proof (lookup_lt_Some _ _ _ Hi) as Hlen.
  - split; cbn; [| done | by eapply unique_owner_upd |].
    + intros j p. rewrite list_lookup_insert. case_decide; naive_solver.
    + intros j. by rewrite (crit_upd_other ps i Out), Hc.
  - injection Hx as <- <-. destruct Hb as [Hb|Hb]; rewrite Hb; cbn.
    + assert (forall j p, ps !! j = Some p -> owns p = false) as Hno.
      { intros j p Hj. destruct (owns p) eqn:Ep; [|done]. specialize (Ho j p Hj Ep). lia. }
      split; cbn; [done | by right | |].
      * intros j j' p q. rewrite !list_lookup_insert.
        repeat case_decide; intros; simplify_eq; try done; naive_solver.
      * intros j. by rewrite (crit_upd_other ps i Spin), Hc.
    + rewrite (list_insert_id _ _ _ Hi). split; cbn; [done | by right | done | done].
  - assert (lk_locked l = 1) as Hl by (by eapply Ho).
    split; cbn; [done | done | by eapply unique_owner_upd |].
    intros j. rewrite list_lookup_insert. case_decide; [naive_solver|].
    split; [naive_solver|]. intros Hj. assert (i = j) by (by eapply Hu). naive_solver lia.
  - assert (lk_locked l = 1) as Hl by (by eapply Ho).
    split; cbn; [done | done | by eapply unique_owner_upd |].
    intros j. rewrite list_lookup_insert. split; [done|]. case_decide; [naive_solver|].
    intros Hj. assert (i = j) by (by eapply Hu). naive_solver lia.
  - split; cbn; [| by left | by eapply unique_owner_upd |].
    + intros j p. rewrite list_lookup_insert. case_decide; [naive_solver|].
      intros Hj Hp. assert (i = j) by (by eapply Hu). naive_solver lia.
    + intros j. by rewrite (crit_upd_other ps i Leaving), Hc.
Qed.

Lemma inv_reachable s : reachable s -> inv s.
Proof. induction 1; eauto using inv_init, inv_step. Qed.

(** C18. Mutual exclusion: however the CPUs interleave, no two of them are between
    acquire's successful exchange and release's final store; and [holding],
    which reads the lock without synchronisation, answers exactly whether the
    CPU that asks is inside its critical section. *)
Theorem mutual_exclusion s :
  reachable s ->
  (forall i j p q, m_pc s !! i = Some p -> m_pc s !! j = Some q ->
     owns p = true -> owns q = true -> i = j) /\
  (forall i, sees_held (m_lock s) i = true <-> m_pc s !! i = Some Crit).
Proof.
  intros H. destruct (inv_reachable s H) as [Ho Hb Hu Hc]. split; [done|].
  intros i. unfold sees_held. rewrite andb_true_iff, bool_decide_eq_true, Hc. split; [tauto|].
  intros Hi. split; [|done]. by rewrite (Ho i Crit Hi eq_refl).
Qed.

(** Two CPUs contend: CPU 0 is inside, CPU 1 keeps spinning. *)
Lemma mutual_exclusion_witness :
  reachable (mk_machine (mk_spinlock 1 (Some 0%nat)) [Crit; Spin]) /\
  sees_held (mk_spinlock 1 (Some 0%nat)) 1 = false.
Proof.
  assert (reachable (mk_machine (mk_spinlock 1 (Some 0%nat)) [Crit; Spin])) as Hr.
  { pose (l0 := mk_spinlock 0 None). pose (l1 := mk_spinlock 1 None).
    pose (l2 := mk_spinlock 1 (Some 0%nat)).
    pose proof (reach_init 2) as H.
    pose proof (reach_step _ _ H (step_begin l0 [Out; Out] 0 eq_refl eq_refl)) as H1.
    pose proof (reach_step _ _ H1 (step_xchg l0 [Spin; Out] 0 0 l1 eq_refl eq_refl)) as H2.
    pose proof (reach_step _ _ H2 (step_record l1 [Got; Out] 0 eq_refl)) as H3.
    pose proof (reach_step _ _ H3 (step_begin l2 [Crit; Out] 1 eq_refl eq_refl)) as H4.
    exact (reach_step _ _ H4 (step_xchg l2 [Crit; Spin] 1 1 l2 eq_refl eq_refl)). }
  split; [exact Hr|].
  destruct (sees_held _ _) eqn:Es; [|done].
  apply (proj2 (mutual_exclusion _ Hr)) in Es. done.
Defined.

End SpinRace.
