(* ===== verification/Sched.v ===== *)
(** * Sleeping and waking (sched, yield, sleep, wakeup1, wakeup of proc.c) and
    sleep locks (sleeplock.c)

    A context switch hands the CPU to the scheduler; what happens until the
    process is switched back in is [others].  The lemmas give the state in
    which a process parks, the effect of a wakeup, and the equations of the
    sleep-lock operations when nobody else contends for the lock. *)

From Stdlib Require Import ZArith Lia.
From stdpp Require Import base gmap list strings numbers.
From S2P Require Import Prelude Strings State Spinlock.

Open Scope Z_scope.

#[export] Instance sleeplock_eq_dec : EqDecision sleeplock.
Proof. solve_decision. Defined.

(** Wake every process sleeping on [ch] in a process table. *)
Definition wake_proc (ch : channel) (p : proc) : proc :=
  if bool_decide (state p = SLEEPING) && bool_decide (chan p = ch)
  then set_state RUNNABLE p else p.

Definition get_sl (s : slid) : KM sleeplock :=
  let* ls := reads sleeplocks in deref "sleeplock" (ls !! s).
Definition upd_sl (s : slid) (f : sleeplock -> sleeplock) : KM unit :=
  modify (fun k => set_sleeplocks (alter f s (sleeplocks k)) k).

Section code.
Context `{E : Env}.

Definition sched : KM unit :=
  let* op := myproc in
  let* h := holding L_ptable in
  if negb h then panic "sched ptable.lock"
  else
    let* i := mycpu in
    let* c := get_cpu i in
    if negb (ncli c =? 1) then panic "sched locks"
    else
      let* p := deref "proc" op in
      let* pr := get_proc p in
      if bool_decide (state pr = RUNNING) then panic "sched running"
      else
        let* fl := readeflags in
        if Zb (Z.land fl FL_IF) then panic "sched interruptible"
        else
          let* i := mycpu in
          let* c := get_cpu i in
          let intena0 := intena c in
          others ;;;                       (* swtch *)
          let* i := mycpu in
          upd_cpu i (set_intena intena0).

Definition yield : KM unit :=
  acquire L_ptable ;;;
  let* op := myproc in
  let* p := deref "proc" op in
  upd_proc p (set_state RUNNABLE) ;;;
  sched ;;;
  release L_ptable.

Definition sleep (ch : channel) (olk : option lockid) : KM unit :=
  let* op := myproc in
  match op with
  | None => panic "sleep"
  | Some p =>
      match olk with
      | None => panic "sleep without lk"
      | Some lk =>
          (if bool_decide (lk <> L_ptable)
           then acquire L_ptable ;;; release lk else ret tt) ;;;
          upd_proc p (set_chan ch) ;;;
          upd_proc p (set_state SLEEPING) ;;;
          sched ;;;
          upd_proc p (set_chan Ch_null) ;;;
          (if bool_decide (lk <> L_ptable)
           then release L_ptable ;;; acquire lk else ret tt)
      end
  end.

Definition wakeup1 (ch : channel) : KM unit :=
  modify (fun k => set_ptable (wake_proc ch <$> ptable k) k).

Definition wakeup (ch : channel) : KM unit :=
  acquire L_ptable ;;;
  wakeup1 ch ;;;
  release L_ptable.

Definition initsleeplock (s : slid) : KM unit :=
  initlock (L_sleep s) ;;;
  modify (fun k => set_sleeplocks (<[s := mk_sleeplock 0 0]> (sleeplocks k)) k).

Definition acquiresleep (s : slid) : KM unit :=
  acquire (L_sleep s) ;;;
  forever (let* l := get_sl s in
           if Zb (sl_locked l)
           then sleep (Ch_sleeplock s) (Some (L_sleep s)) ;;; ret None
           else ret (Some tt)) ;;;
  upd_sl s (set_sl_locked 1) ;;;
  let* op := myproc in
  let* p := deref "proc" op in
  let* pr := get_proc p in
  upd_sl s (set_sl_pid (pid pr)) ;;;
  release (L_sleep s).

Definition releasesleep (s : slid) : KM unit :=
  acquire (L_sleep s) ;;;
  upd_sl s (set_sl_locked 0) ;;;
  upd_sl s (set_sl_pid 0) ;;;
  wakeup (Ch_sleeplock s) ;;;
  release (L_sleep s).

Definition holdingsleep (s : slid) : KM bool :=
  acquire (L_sleep s) ;;;
  let* l := get_sl s in
  let* op := myproc in
  let* p := deref "proc" op in
  let* pr := get_proc p in
  let r := Zb (sl_locked l) && (sl_pid l =? pid pr) in
  release (L_sleep s) ;;;
  ret r.
End code.

(** ** Wakeups *)

Section wake_lemmas.
Context `{E : Env}.

Definition wake (ch : channel) (k : K) : K := set_ptable (wake_proc ch <$> ptable k) k.

#[global] Instance framed_wake ch : Framed (wake ch).
Proof. by intros ? ? ? ? ? ?. Qed.

Lemma wakeup_ok ch k :
  quiet k -> lock_free L_ptable k -> wakeup ch k = Ok tt (wake ch k).
Proof.
  intros Hq Hf. unfold wakeup, wakeup1. mrun (acquire_ok _ _ Hq Hf). msimp.
  exact (release_ok L_ptable (wake ch) k Hq Hf _).
Qed.

(** wakeup makes runnable exactly the processes asleep on the channel; no
    other process and no other field of a process changes. *)
Theorem wakeup_exact ch k :
  quiet k -> lock_free L_ptable k ->
  returns (wakeup ch) k (fun _ k' =>
    (forall i p, ptable k !! i = Some p ->
       exists p', ptable k' !! i = Some p' /\
         if decide (state p = SLEEPING /\ chan p = ch)
         then p' = set_state RUNNABLE p else p' = p) /\
    k' = set_ptable (ptable k') k).
Proof.
  intros Hq Hf. eapply returns_ok; [by apply wakeup_ok|]. split; [|by destruct k].
  intros i p Hp. cbn. rewrite list_lookup_fmap, Hp. eexists; split; [done|].
  unfold wake_proc. case_decide; repeat case_bool_decide; naive_solver.
Qed.

(** Waking changes nothing when nobody sleeps on the channel. *)
Definition nobody_on (ch : channel) (k : K) : Prop :=
  Forall (fun p => ~ (state p = SLEEPING /\ chan p = ch)) (ptable k).

Lemma wake_nobody ch k : nobody_on ch k -> wake ch k = k.
Proof.
  intros H. unfold wake. assert (wake_proc ch <$> ptable k = ptable k) as ->;
    [|by destruct k].
  unfold nobody_on in H. induction H as [|p ps Hp _ IH]; [done|]. cbn. rewrite IH.
  unfold wake_proc. repeat case_bool_decide; naive_solver.
Qed.
End wake_lemmas.

(** ** Going to sleep *)

Lemma locked_comm lk lk' k :
  quiet k -> lk <> lk' -> locked lk (locked lk' k) = locked lk' (locked lk k).
Proof.
  intros (i & c & Hc & _) Hne.
  destruct (locked_find lk k i c Hc) as [H1 _]. destruct (locked_find lk' k i c Hc) as [H2 _].
  rewrite (locked_machine lk (locked lk' k) _ _ H2), (locked_machine lk' (locked lk k) _ _ H1).
  rewrite (locked_machine lk k _ _ Hc), (locked_machine lk' k _ _ Hc).
  unfold set_machine. cbn. rewrite (insert_insert_ne _ lk lk') by done. done.
Qed.

Lemma lock_free_not_locked lk k : quiet k -> lock_free lk (locked lk k) -> False.
Proof.
  intros Hq. destruct (locks_locked lk k Hq) as (i & c & _ & Hl). unfold lock_free.
  rewrite Hl, lookup_insert_eq. done.
Qed.

(** This CPU runs process [p] and holds no lock. *)
Definition runs_proc (k : K) (p : nat) : Prop :=
  quiet k /\ curproc k = Some p /\ (exists pr, ptable k !! p = Some pr) /\
  (forall i c, find_cpu k = Some (i, c) -> ncli c = 0).

Lemma curproc_locked lk k : quiet k -> curproc (locked lk k) = curproc k.
Proof.
  intros (i & c & Hc & _). unfold curproc. destruct (locked_find lk k i c Hc) as [-> _].
  by rewrite Hc.
Qed.

Lemma curproc_framed f k : Framed f -> curproc (f k) = curproc k.
Proof. intros Hf. unfold curproc. by rewrite find_cpu_framed. Qed.

Lemma runs_proc_framed f k p : Framed f -> ptable (f k) = ptable k -> runs_proc k p -> runs_proc (f k) p.
Proof.
  intros Hf Hp (Hq & Hc & He & Hn). split_and!; [by apply quiet_framed | by rewrite curproc_framed | by rewrite Hp |].
  intros i c. rewrite find_cpu_framed by done. apply Hn.
Qed.

Definition asleep (ch : channel) (q : proc) : proc := set_state SLEEPING (set_chan ch q).

(** The state at the context switch: the process is marked asleep, the lock
    it slept on is free, and the process table is still locked. *)
Definition parked (ch : channel) (p : nat) (k : K) : K :=
  set_ptable (alter (asleep ch) p (ptable k)) (locked L_ptable k).

Section sleep_lemmas.
Context `{E : Env}.

Lemma alter_twice (p : nat) ch (l : list proc) :
  alter (set_state SLEEPING) p (alter (set_chan ch) p l) = alter (asleep ch) p l.
Proof. by rewrite list_alter_alter_eq. Qed.

(** sched, entered with only the process table locked and the process no
    longer running, gets as far as the switch. *)
Lemma sched_switches_from f p pr k :
  Framed f -> quiet k -> curproc k = Some p -> ptable (f (locked L_ptable k)) !! p = Some pr ->
  state pr <> RUNNING -> (forall i c, find_cpu k = Some (i, c) -> ncli c = 0) ->
  exists i c, find_cpu k = Some (i, c) /\
  sched (f (locked L_ptable k)) =
    (others ;;; let* i := mycpu in upd_cpu i (set_intena (intena c))) (f (locked L_ptable k)).
Proof.
  intros Hf Hq Hp Hpr Hst Hn. pose proof Hq as (i & c & Hc & _).
  exists i, c. split; [done|].
  destruct (locked_find L_ptable k i c Hc) as [Hc1 Hi1].
  destruct (locks_locked L_ptable k Hq) as (i' & c' & Hc' & Hls). simplify_eq.
  assert (quiet (f (locked L_ptable k))) as Hq1 by (apply quiet_framed, quiet_locked; done).
  assert (find_cpu (f (locked L_ptable k)) = Some (i, set_ncli (ncli c + 1) c)) as Hc2
    by (by rewrite find_cpu_framed).
  assert (curproc (f (locked L_ptable k)) = Some p) as Hp1
    by (rewrite curproc_framed by done; by rewrite curproc_locked).
  pose proof (find_cpu_Some _ _ _ Hc2) as [Hl2 _].
  destruct (framed_fields f (locked L_ptable k) Hf) as (_ & _ & _ & Hi2 & Hl3).
  rewrite Hi1 in Hi2. set (kp := f (locked L_ptable k)) in *.
  unfold sched. mrun (myproc_ok _ Hq1). rewrite Hp1.
  mrun (holding_ok kp L_ptable (mk_spinlock 1 (Some i)) _ _ Hq1 Hc2
          ltac:(rewrite Hl3, Hls; apply lookup_insert_eq)).
  cbn [lk_locked lk_cpu]. rewrite bool_decide_eq_true_2 by done.
  change (Zb 1 && true) with true. cbn [negb]. cbv iota beta.
  mrun (mycpu_off _ _ _ Hc2 Hi2). mrun (get_cpu_ok _ _ _ Hl2).
  change (ncli (set_ncli (ncli c + 1) c)) with (ncli c + 1).
  rewrite (Hn i c Hc). change (negb (0 + 1 =? 1)) with false. cbv iota. msimp.
  assert (get_proc p kp = Ok pr kp) as Hg by (unfold get_proc; msimp; by rewrite Hpr).
  mrun Hg.
  rewrite bool_decide_eq_false_2 by done. cbv iota.
  unfold readeflags. msimp. rewrite Hi2. change (Zb (Z.land 0 FL_IF)) with false. cbv iota.
  mrun (mycpu_off _ _ _ Hc2 Hi2). by mrun (get_cpu_ok _ _ _ Hl2).
Qed.

Lemma sched_switches ch p k :
  runs_proc k p ->
  exists i c, find_cpu k = Some (i, c) /\
  sched (parked ch p k) =
    (others ;;; let* i := mycpu in upd_cpu i (set_intena (intena c))) (parked ch p k).
Proof.
  intros (Hq & Hp & [pr Hpr] & Hn).
  refine (sched_switches_from (set_ptable (alter (asleep ch) p (ptable k))) p (asleep ch pr) k _ Hq Hp _ _ Hn).
  - cbn. by rewrite list_lookup_alter_eq, Hpr.
  - done.
Qed.

(** sleep up to the call of sched, from a state where only [lk] is held. *)
Lemma sleep_to_sched ch lk p k :
  runs_proc k p -> lk <> L_ptable -> lock_free lk k -> lock_free L_ptable k ->
  sleep ch (Some lk) (locked lk k) =
  (sched ;;; upd_proc p (set_chan Ch_null) ;;; release L_ptable ;;; acquire lk) (parked ch p k).
Proof.
  intros (Hq & Hp & [pr Hpr] & Hn) Hlk Hf Hfp. unfold sleep.
  mrun (myproc_ok _ (quiet_locked lk k Hq)). rewrite curproc_locked, Hp by done.
  rewrite bool_decide_eq_true_2 by done. cbv iota beta. msimp.
  mrun (acquire_ok L_ptable _ (quiet_locked lk k Hq)
          (lock_free_locked lk L_ptable k Hlk Hfp)).
  rewrite locked_comm by done.
  mrun (release_ok lk (fun k => k) (locked L_ptable k) (quiet_locked _ _ Hq)
          (lock_free_locked L_ptable lk k (not_eq_sym Hlk) Hf) _).
  unfold upd_proc. msimp. cbn [ptable set_ptable]. rewrite alter_twice.
  assert (ptable (locked L_ptable k) = ptable k) as Hpt.
  { unfold locked, entered. by destruct (find_cpu k) as [[]|]. }
  rewrite Hpt. reflexivity.
Qed.

Lemma parked_fields ch p k :
  quiet k -> k_sched (parked ch p k) = k_sched k /\
  (forall lk, lk <> L_ptable -> locks (parked ch p k) !! lk = locks k !! lk) /\
  ptable (parked ch p k) = alter (asleep ch) p (ptable k).
Proof.
  intros Hq. destruct (locks_locked L_ptable k Hq) as (i & c & Hc & Hls).
  split_and!; [| |done].
  - unfold parked, locked, entered. by destruct (find_cpu k) as [[]|].
  - intros lk Hlk. unfold parked. cbn. rewrite Hls. by apply lookup_insert_ne.
Qed.

Lemma sleep_stuck ch lk p k :
  runs_proc k p -> lk <> L_ptable -> lock_free lk k -> lock_free L_ptable k -> k_sched k = [] ->
  sleep ch (Some lk) (locked lk k) = Stuck (parked ch p k).
Proof.
  intros Hr Hlk Hf Hfp Hs. pose proof Hr as (Hq & _). destruct (sched_switches ch p k Hr) as (i & c & Hc & Hsw).
  rewrite (sleep_to_sched ch lk p k) by done. unfold bind at 1. rewrite Hsw.
  unfold bind, others. by rewrite (proj1 (parked_fields ch p k Hq)), Hs.
Qed.

End sleep_lemmas.

(** ** Sleep locks nobody else wants *)

Section sleeplock_lemmas.
Context `{E : Env}.
Implicit Types (s : slid) (k : K).

(** The process running here, with its table entry. *)
Definition running (k : K) (pr : proc) : Prop :=
  exists p, curproc k = Some p /\ ptable k !! p = Some pr.

Lemma running_framed f k pr :
  Framed f -> ptable (f k) = ptable k -> running k pr -> running (f k) pr.
Proof. intros Hf Hp (p & H1 & H2). exists p. by rewrite curproc_framed, Hp. Qed.

Lemma get_sl_ok s l k : sleeplocks k !! s = Some l -> get_sl s k = Ok l k.
Proof. intros H. unfold get_sl. msimp. by rewrite H. Qed.

Lemma get_proc_ok p pr k : ptable k !! p = Some pr -> get_proc p k = Ok pr k.
Proof. intros H. unfold get_proc. msimp. by rewrite H. Qed.

Lemma upd_sl_ok s f l k :
  sleeplocks k !! s = Some l ->
  upd_sl s f k = Ok tt (set_sleeplocks (<[s := f l]> (sleeplocks k)) k).
Proof. intros H. unfold upd_sl, modify. by rewrite (alter_map_insert s f l). Qed.

Definition hold_sl (s : slid) (pid : Z) (k : K) : K :=
  set_sleeplocks (<[s := mk_sleeplock 1 pid]> (sleeplocks k)) k.
Definition drop_sl (s : slid) (k : K) : K :=
  set_sleeplocks (<[s := mk_sleeplock 0 0]> (sleeplocks k)) k.

Lemma acquiresleep_ok s l pr k :
  quiet k -> lock_free (L_sleep s) k -> running k pr ->
  sleeplocks k !! s = Some l -> sl_locked l = 0 ->
  acquiresleep s k = Ok tt (hold_sl s (pid pr) k).
Proof.
  intros Hq Hf (p & Hp & Hpr) Hl Hz. unfold acquiresleep. mrun (acquire_ok _ _ Hq Hf).
  set (k1 := locked (L_sleep s) k).
  assert (sleeplocks k1 !! s = Some l) as Hl1 by (unfold k1; by unlocked).
  erewrite bind_ok by
    (apply (forever_done _ tt); erewrite bind_ok by (by apply get_sl_ok); by rewrite Hz).
  mrun (upd_sl_ok s (set_sl_locked 1) l k1 Hl1).
  set (f1 := fun k => set_sleeplocks (<[s := set_sl_locked 1 l]> (sleeplocks k1)) k).
  change (set_sleeplocks _ k1) with (f1 k1).
  assert (quiet (f1 k1)) as Hq1 by (apply quiet_framed; [apply _ | by apply quiet_locked]).
  mrun (myproc_ok _ Hq1). rewrite curproc_framed by apply _. unfold k1 at 1.
  rewrite curproc_locked, Hp by done. msimp.
  mrun (get_proc_ok p pr (f1 k1) ltac:(cbn; unfold k1; by unlocked)).
  mrun (upd_sl_ok s (set_sl_pid (pid pr)) (set_sl_locked 1 l) (f1 k1)
          ltac:(cbn; apply lookup_insert_eq)).
  unfold f1, k1. cbn [sleeplocks set_sleeplocks]. unlocked. rewrite insert_insert_eq.
  exact (release_ok (L_sleep s) (set_sleeplocks (<[s := mk_sleeplock 1 (pid pr)]> (sleeplocks k)))
           k Hq Hf _).
Qed.

Lemma releasesleep_ok s l k :
  quiet k -> lock_free (L_sleep s) k -> lock_free L_ptable k -> sleeplocks k !! s = Some l ->
  releasesleep s k = Ok tt (wake (Ch_sleeplock s) (drop_sl s k)).
Proof.
  intros Hq Hf Hfp Hl. unfold releasesleep. mrun (acquire_ok _ _ Hq Hf).
  set (k1 := locked (L_sleep s) k).
  assert (sleeplocks k1 !! s = Some l) as Hl1 by (unfold k1; by unlocked).
  mrun (upd_sl_ok s (set_sl_locked 0) l k1 Hl1).
  mrun (upd_sl_ok s (set_sl_pid 0) (set_sl_locked 0 l)
          (set_sleeplocks (<[s:=set_sl_locked 0 l]> (sleeplocks k1)) k1)
          ltac:(cbn; apply lookup_insert_eq)).
  cbn [sleeplocks set_sleeplocks]. rewrite insert_insert_eq.
  set (f1 := set_sleeplocks (<[s := mk_sleeplock 0 0]> (sleeplocks k))).
  assert (set_sleeplocks (<[s:=set_sl_pid 0 (set_sl_locked 0 l)]> (sleeplocks k1))
            (set_sleeplocks (<[s:=set_sl_locked 0 l]> (sleeplocks k1)) k1) = f1 k1) as ->
    by (unfold f1, k1; by unlocked).
  mrun (wakeup_ok (Ch_sleeplock s) (f1 k1)
          (quiet_framed f1 _ _ (quiet_locked (L_sleep s) k Hq))
          (lock_free_framed f1 _ _ _ (lock_free_locked (L_sleep s) L_ptable k ltac:(done) Hfp))).
  exact (release_ok (L_sleep s) (fun k => wake (Ch_sleeplock s) (f1 k)) k Hq Hf _).
Qed.

Lemma holdingsleep_ok s l pr k :
  quiet k -> lock_free (L_sleep s) k -> running k pr -> sleeplocks k !! s = Some l ->
  holdingsleep s k = Ok (Zb (sl_locked l) && (sl_pid l =? pid pr)) k.
Proof.
  intros Hq Hf (p & Hp & Hpr) Hl. unfold holdingsleep. mrun (acquire_ok _ _ Hq Hf).
  mrun (get_sl_ok s l (locked (L_sleep s) k) ltac:(by unlocked)).
  mrun (myproc_ok _ (quiet_locked (L_sleep s) k Hq)).
  rewrite curproc_locked, Hp by done. msimp.
  mrun (get_proc_ok p pr (locked (L_sleep s) k) ltac:(by unlocked)).
  by mrun (release_ok (L_sleep s) (fun k => k) k Hq Hf _).
Qed.

(** A sleep lock that is taken puts the process to sleep on it. *)
Lemma acquiresleep_held s l p k :
  runs_proc k p -> lock_free (L_sleep s) k -> lock_free L_ptable k -> k_sched k = [] ->
  sleeplocks k !! s = Some l -> sl_locked l <> 0 ->
  acquiresleep s k = Stuck (parked (Ch_sleeplock s) p k).
Proof.
  intros Hr Hf Hfp Hs Hl Hz. pose proof Hr as (Hq & _). unfold acquiresleep. mrun (acquire_ok _ _ Hq Hf).
  assert (sleep (Ch_sleeplock s) (Some (L_sleep s)) (locked (L_sleep s) k) = Stuck (parked (Ch_sleeplock s) p k)) as Hst
    by (by apply sleep_stuck).
  unfold bind at 1. rewrite (forever_stuck _ _ (parked (Ch_sleeplock s) p k)); [done|].
  unfold get_sl. msimp. unlocked. rewrite Hl. msimp. unfold Zb. destruct (Z.eqb_spec (sl_locked l) 0); [done|].
  cbn [negb]. unfold bind. by rewrite Hst.
Qed.
End sleeplock_lemmas.

(** ** Calm states

    Process [pr] runs here, nobody holds a lock of the kernel, and nobody
    waits for a sleep lock or for the log. *)

Record calm (k : K) (pr : proc) : Prop := {
  calm_quiet : quiet k;
  calm_running : running k pr;
  calm_free lk : lk ∈ kernel_locks -> lock_free lk k;
  calm_sl s : nobody_on (Ch_sleeplock s) k;
  calm_log : nobody_on Ch_log k }.

Lemma calm_framed f k pr :
  Framed f -> ptable (f k) = ptable k -> calm k pr -> calm (f k) pr.
Proof.
  intros Hf Hp [H1 H2 H3 H4 H5]. split.
  - by apply quiet_framed.
  - by apply running_framed.
  - intros lk Hlk. by apply lock_free_framed, H3.
  - intros s. unfold nobody_on. rewrite Hp. apply H4.
  - unfold nobody_on. rewrite Hp. apply H5.
Qed.

Lemma buf_lock_known i : (i < NBUF)%nat -> L_sleep (SL_buf i) ∈ kernel_locks.
Proof.
  intros H. unfold kernel_locks. rewrite !elem_of_app. right. left.
  apply list_elem_of_fmap. exists i. split; [done|]. apply elem_of_seq. lia.
Qed.
Lemma inode_lock_known i : (i < NINODE)%nat -> L_sleep (SL_inode i) ∈ kernel_locks.
Proof.
  intros H. unfold kernel_locks. rewrite !elem_of_app. right. right.
  apply list_elem_of_fmap. exists i. split; [done|]. apply elem_of_seq. lia.
Qed.

Section calm_lemmas.
Context `{E : Env}.

Lemma calm_acquiresleep s pr k l :
  calm k pr -> L_sleep s ∈ kernel_locks -> sleeplocks k !! s = Some l -> sl_locked l = 0 ->
  acquiresleep s k = Ok tt (hold_sl s (pid pr) k).
Proof. intros [H1 H2 H3 _ _] Hs Hl Hz. eapply acquiresleep_ok; eauto. Qed.

Lemma calm_releasesleep s pr k l :
  calm k pr -> L_sleep s ∈ kernel_locks -> sleeplocks k !! s = Some l ->
  releasesleep s k = Ok tt (drop_sl s k).
Proof.
  intros [H1 H2 H3 H4 _] Hs Hl. rewrite (releasesleep_ok s l k); auto; [|apply H3; left].
  f_equal. apply wake_nobody, H4.
Qed.

Lemma calm_holdingsleep s pr k p :
  calm k pr -> L_sleep s ∈ kernel_locks -> sleeplocks k !! s = Some (mk_sleeplock 1 p) ->
  holdingsleep s k = Ok (p =? pid pr) k.
Proof. intros [H1 H2 H3 _ _] Hs Hl. erewrite holdingsleep_ok by eauto. done. Qed.

Lemma calm_wakeup ch pr k : calm k pr -> wakeup ch k = Ok tt (wake ch k).
Proof. intros [H1 _ H3 _ _]. apply wakeup_ok; [done | apply H3; left]. Qed.
End calm_lemmas.

(** The sample machine satisfies the hypotheses above. *)
Lemma sample_quiet : quiet sample.
Proof.
  exists 0%nat, (mk_cpu 0 [] 0 0 0 1 0 FL_IF (Some 0%nat)).
  split; [vm_compute; reflexivity|]. unfold quiet_cpu; cbn. lia.
Qed.

Lemma sample_runs : runs_proc sample 0.
Proof.
  split_and!; [apply sample_quiet | vm_compute; reflexivity | |].
  - eexists. vm_compute. reflexivity.
  - intros i c H. vm_compute in H. by injection H as <- <-.
Qed.

Lemma sample_free lk : lk ∈ kernel_locks -> lock_free lk sample.
Proof.
  intros H. unfold lock_free, sample. cbn [locks set_k_if set_ncpu set_cpus set_locks].
  apply elem_of_list_to_map.
  - apply (bool_decide_unpack _). vm_compute. exact I.
  - apply list_elem_of_fmap. eauto.
Qed.

Lemma sample_calm : calm sample (set_state RUNNING (set_pid 1 proc0)).
Proof.
  assert (forall ch, nobody_on ch sample) as Hn.
  { intros ch. unfold nobody_on. cbn [ptable sample set_ptable set_sleeplocks set_locks set_cpus
      set_ncpu set_k_if].
    apply Forall_insert; [by apply Forall_replicate; intros [? _] | by intros [? _]]. }
  split; [apply sample_quiet | | apply sample_free | done | done].
  exists 0%nat. split; [apply sample_runs | done].
Qed.

(** A machine on which nothing else happens. *)
Definition idle_env : Env := fun _ k => k.

Lemma wakeup_exact_witness :
  returns (@wakeup idle_env Ch_ticks) sample (fun _ k' => k' = set_ptable (ptable k') sample).
Proof.
  eapply returns_mono.
  - apply (@wakeup_exact idle_env Ch_ticks sample).
    + apply sample_quiet.
    + apply sample_free. left.
  - by intros ? ? [].
Defined.

