(* ===== verification/Kalloc.v ===== *)
(** * The physical page allocator (kalloc.c)

    Free pages form a list threaded through the pages themselves.  The
    invariant says that the list visits distinct, page-aligned pages of the
    allocator's range; the theorems describe kalloc, kfree and the two boot
    phases by the list of free pages they leave. *)

From Stdlib Require Import ZArith Lia.
From stdpp Require Import base gmap list strings numbers.
From S2P Require Import Prelude Strings State Spinlock Sched.

Open Scope Z_scope.
Import string_c string_facts.

(** Addresses that the linker chooses: [end] and [data] of kernel.ld, and the
    task state segment of each entry of [cpus]. *)
Class Layout := {
  end_ : Z;
  data_ : Z;
  ts_addr : nat -> Z }.

(** memlayout.h, mmu.h *)
Definition V2P (a : Z) : Z := u32 (a - KERNBASE).
Definition P2V (a : Z) : Z := u32 (a + KERNBASE).
Definition PGROUNDUP (sz : Z) : Z := Z.land (u32 (sz + PGSIZE - 1)) (Z.lnot (PGSIZE - 1)).
Definition PGROUNDDOWN (a : Z) : Z := Z.land a (Z.lnot (PGSIZE - 1)).

Definition upd_mem (f : mem -> mem) : KM unit :=
  modify (fun k => set_memory (f (memory k)) k).

Section code.
Context `{E : Env} `{L : Layout}.

Definition kfree (v : Z) : KM unit :=
  if negb (v mod PGSIZE =? 0) || (v <? end_) || (PHYSTOP <=? V2P v) then panic "kfree"
  else
    upd_mem (fun m => memset m v 1 PGSIZE) ;;;
    let* ul := reads use_lock in
    (when Zb ul do acquire L_kmem) ;;;
    let* fl := reads freelist in
    upd_mem (fun m => stw m v fl) ;;;
    modify (set_freelist v) ;;;
    let* ul := reads use_lock in
    when Zb ul do release L_kmem.

Definition kalloc : KM Z :=
  let* ul := reads use_lock in
  (when Zb ul do acquire L_kmem) ;;;
  let* r := reads freelist in
  (when negb (r =? 0) do
     let* m := reads memory in modify (set_freelist (ldw m r))) ;;;
  let* ul := reads use_lock in
  (when Zb ul do release L_kmem) ;;;
  ret r.

(** The loop of freerange, for at most [n] pages. *)
Fixpoint freerange_loop (n : nat) (p vend : Z) : KM unit :=
  match n with
  | O => ret tt
  | S n =>
      if p + PGSIZE <=? vend then kfree p ;;; freerange_loop n (p + PGSIZE) vend
      else ret tt
  end.
Definition freerange (vstart vend : Z) : KM unit :=
  let p := PGROUNDUP vstart in
  freerange_loop (Z.to_nat ((vend - p) / PGSIZE)) p vend.

Definition kinit1 (vstart vend : Z) : KM unit :=
  initlock L_kmem ;;;
  modify (set_use_lock 0) ;;;
  freerange vstart vend.

Definition kinit2 (vstart vend : Z) : KM unit :=
  freerange vstart vend ;;;
  modify (set_use_lock 1).
End code.

(** ** Rounding *)

Lemma PGROUNDDOWN_eq a : PGROUNDDOWN a = a - a mod PGSIZE.
Proof.
  unfold PGROUNDDOWN. change (PGSIZE - 1) with (Z.ones 12). rewrite <-Z.ldiff_land.
  rewrite Z.ldiff_ones_r, Z.shiftl_mul_pow2, Z.shiftr_div_pow2 by lia.
  change (2 ^ 12) with PGSIZE. pose proof (Z.div_mod a PGSIZE). klia.
Qed.

Lemma PGROUNDUP_eq sz :
  0 <= sz -> sz + PGSIZE - 1 < 2 ^ 32 ->
  PGROUNDUP sz = (sz + PGSIZE - 1) / PGSIZE * PGSIZE.
Proof.
  intros H0 H1. unfold PGROUNDUP. rewrite u32_small by klia.
  change (Z.land ?a (Z.lnot (PGSIZE - 1))) with (PGROUNDDOWN a). rewrite PGROUNDDOWN_eq.
  pose proof (Z.div_mod (sz + PGSIZE - 1) PGSIZE). klia.
Qed.

Lemma PGROUNDUP_bounds sz :
  0 <= sz -> sz + PGSIZE - 1 < 2 ^ 32 ->
  sz <= PGROUNDUP sz < sz + PGSIZE /\ PGROUNDUP sz mod PGSIZE = 0.
Proof.
  intros H0 H1. rewrite PGROUNDUP_eq by done. split; [|by apply Z.mod_mul].
  pose proof (Z.div_mod (sz + PGSIZE - 1) PGSIZE).
  pose proof (Z.mod_pos_bound (sz + PGSIZE - 1) PGSIZE). klia.
Qed.

(** ** The free list *)

Section spec.
Context `{E : Env} `{L : Layout}.

(** What kfree accepts. *)
Definition good_page (v : Z) : Prop :=
  is_u32 v /\ v mod PGSIZE = 0 /\ end_ <= v /\ V2P v < PHYSTOP.

Fixpoint free_chain (m : mem) (p : Z) (ps : list Z) : Prop :=
  match ps with
  | [] => p = 0
  | q :: ps => p = q /\ free_chain m (ldw m q) ps
  end.

Record kmem_inv (k : K) (ps : list Z) : Prop := {
  inv_chain : free_chain (memory k) (freelist k) ps;
  inv_nodup : NoDup ps;
  inv_good : Forall good_page ps;
  inv_mem : mem_ok (memory k) }.

(** The lock is out of use, or nobody holds it. *)
Definition kmem_ready (k : K) : Prop :=
  use_lock k = 0 \/ (quiet k /\ lock_free L_kmem k).

(** The kernel is linked above KERNBASE. *)
Class LayoutOk : Prop := layout_end : KERNBASE < end_.
Context `{LO : !LayoutOk}.

Lemma good_page_bounds v : good_page v -> KERNBASE < v < KERNBASE + PHYSTOP.
Proof.
  intros (H1 & H2 & H3 & H4). pose proof layout_end. unfold V2P in H4.
  rewrite u32_small in H4; klia.
Qed.

(** Distinct pages do not overlap. *)
Lemma pages_apart v w : good_page v -> good_page w -> v <> w -> v + PGSIZE <= w \/ w + PGSIZE <= v.
Proof.
  intros (_ & Hv & _) (_ & Hw & _) Hne. unfold PGSIZE in *.
  apply Z.mod_divide in Hv as [x ->]; [|lia]. apply Z.mod_divide in Hw as [y ->]; [|lia]. lia.
Qed.

(** A list of free pages is unaffected by stores into any other page. *)
Lemma free_chain_frame m m' v ps p :
  good_page v -> Forall good_page ps -> v ∉ ps ->
  (forall a, ~ (v <= a < v + PGSIZE) -> ldb m' a = ldb m a) ->
  free_chain m p ps -> free_chain m' p ps.
Proof.
  intros Hv Hps Hin Hm. revert p. induction Hps as [|q ps Hq Hps IH]; intros p; cbn; [done|].
  intros [-> Hc]. split; [done|].
  assert (ldw m' q = ldw m q) as ->.
  { unfold ldw. f_equal. apply ldbs_ext. intros b Hb. apply Hm.
    pose proof (pages_apart v q Hv Hq). set_unfold. naive_solver klia. }
  apply IH; [set_solver | done].
Qed.

(** kfree and kalloc as updates of the state. *)
Definition free_page (v : Z) (k : K) : K :=
  set_freelist v (set_memory (stw (memset (memory k) v 1 PGSIZE) v (freelist k)) k).
Definition take_page (k : K) : K := set_freelist (ldw (memory k) (freelist k)) k.

Lemma kfree_ok v k :
  kmem_ready k -> good_page v -> kfree v k = Ok tt (free_page v k).
Proof.
  intros Hr (Hu & Ha & He & Hp). unfold kfree.
  rewrite (proj2 (Z.eqb_eq _ _) Ha), (proj2 (Z.ltb_ge _ _) He), (proj2 (Z.leb_gt _ _) Hp).
  cbn [negb orb]. cbv iota. unfold upd_mem. msimp. cbn [use_lock set_memory].
  set (f1 := fun k => set_memory (memset (memory k) v 1 PGSIZE) k).
  change (set_memory _ k) with (f1 k).
  destruct Hr as [Hr|[Hq Hl]]; [rewrite Hr; cbn; msimp; cbn; rewrite Hr; reflexivity|].
  destruct (Zb (use_lock k)) eqn:El; cbv iota.
  - erewrite bind_ok by (apply acquire_ok;
      [by apply (quiet_framed f1) | by apply (lock_free_framed f1)]).
    msimp. cbn [use_lock set_freelist set_memory]. unlocked.
    change (use_lock (f1 k)) with (use_lock k). rewrite El. cbv iota.
    set (g := fun k' => set_freelist v (set_memory (stw (memory (f1 k)) v (freelist (f1 k))) k')).
    exact (release_ok L_kmem g (f1 k) (quiet_framed f1 k _ Hq) (lock_free_framed f1 _ k _ Hl) _).
  - msimp. cbn. by rewrite El.
Qed.

Lemma kalloc_ok k :
  kmem_ready k ->
  kalloc k = Ok (freelist k) (if freelist k =? 0 then k else take_page k).
Proof.
  intros Hr. unfold kalloc. msimp.
  destruct Hr as [Hr|[Hq Hl]].
  { rewrite Hr. cbn. msimp. destruct (freelist k =? 0); cbn; msimp; cbn; by rewrite Hr. }
  destruct (Zb (use_lock k)) eqn:El; cbv iota.
  - mrun (acquire_ok _ _ Hq Hl). msimp. unlocked.
    destruct (freelist k =? 0); cbn [negb]; cbv iota; msimp;
      cbn [use_lock set_freelist]; unlocked; rewrite El; cbv iota.
    + by mrun (release_ok L_kmem (fun k => k) k Hq Hl _).
    + by mrun (release_ok L_kmem (set_freelist (ldw (memory k) (freelist k))) k Hq Hl _).
  - msimp. destruct (freelist k =? 0); cbn; msimp; cbn; by rewrite El.
Qed.

Lemma free_page_inv v k ps :
  good_page v -> v ∉ ps -> kmem_inv k ps -> kmem_inv (free_page v k) (v :: ps).
Proof.
  intros Hv Hin [Hc Hn Hg Hm]. pose proof (good_page_bounds v Hv).
  assert (is_u32 (freelist k)) as Hf.
  { destruct Hg as [|q ps Hq ?]; cbn in Hc; [rewrite Hc; unfold is_u32; lia|].
    destruct Hc as [-> _]. apply Hq. }
  split; cbn; [| by constructor | by constructor | by apply stw_ok, memset_ok].
  split; [done|]. rewrite ldw_stw_same by done.
  apply (free_chain_frame (memory k) _ v); try done.
  intros a Ha. unfold stw. rewrite ldb_stbs_ne by (rewrite le32_length; klia).
  rewrite ldb_memset by klia. by case_decide.
Qed.

Lemma take_page_inv k p ps :
  kmem_inv k (p :: ps) -> freelist k = p /\ p <> 0 /\ kmem_inv (take_page k) ps.
Proof.
  intros [[Hp Hc] Hn Hg Hm]. apply list.NoDup_cons in Hn as [Hin Hn]. apply list.Forall_cons in Hg as [Hg Hgs].
  pose proof (good_page_bounds p Hg). split; [done|]. split; [klia|].
  split; cbn; try done. by rewrite Hp.
Qed.

(** C24. kalloc hands out the page at the head of the free list, which then is no
    longer free, or returns 0 when no page is free, and changes nothing else. *)
Theorem kalloc_spec k ps :
  kmem_ready k -> kmem_inv k ps ->
  match ps with
  | [] => kalloc k = Ok 0 k
  | p :: ps' =>
      exists k', kalloc k = Ok p k' /\ kmem_inv k' ps' /\ good_page p /\ (p ∉ ps') /\
        k' = set_freelist (freelist k') k
  end.
Proof.
  intros Hr Hi. rewrite kalloc_ok by done. destruct ps as [|p ps].
  - destruct Hi as [Hc _ _ _]. cbn in Hc. by rewrite Hc.
  - destruct (take_page_inv k p ps Hi) as (-> & Hp & Hi').
    rewrite (proj2 (Z.eqb_neq _ _) Hp). eexists. split; [done|].
    destruct Hi as [_ Hn Hg _]. apply list.NoDup_cons in Hn as [? ?]. apply list.Forall_cons in Hg as [? ?].
    by split_and!.
Qed.

(** kfree of an allocated page puts it at the head of the free list, filled
    with junk, and touches no byte outside the page. *)
Theorem kfree_spec v k ps :
  kmem_ready k -> kmem_inv k ps -> good_page v -> v ∉ ps ->
  exists k', kfree v k = Ok tt k' /\ kmem_inv k' (v :: ps) /\
    (forall a, v + 4 <= a < v + PGSIZE -> ldb (memory k') a = 1) /\
    (forall a, ~ (v <= a < v + PGSIZE) -> ldb (memory k') a = ldb (memory k) a).
Proof.
  intros Hr Hi Hv Hin. exists (free_page v k). split; [by apply kfree_ok|].
  split; [by apply free_page_inv|].
  split; intros a Ha; cbn; unfold stw; rewrite ldb_stbs_ne by (rewrite le32_length; klia);
    rewrite ldb_memset by klia; case_decide; try done; klia.
Qed.

(** kfree panics on exactly the addresses that are not pages of the
    allocator's range. *)
Theorem kfree_panics v k :
  is_u32 v -> kmem_ready k -> kfree v k = Panic "kfree" k <-> ~ good_page v.
Proof.
  intros Hu Hr. split.
  - intros H Hg. by rewrite kfree_ok in H.
  - intros Hg. unfold kfree. destruct (_ || _ || _) eqn:Eb; [done|]. exfalso.
    apply Hg. apply orb_false_iff in Eb as [[Eb1 Eb2]%orb_false_iff Eb3].
    apply negb_false_iff in Eb1. unfold good_page. split_and!; klia.
Qed.

(** *** freerange and the two boot phases *)

Definition pages_from (p : Z) (n : nat) : list Z :=
  (fun i => p + Z.of_nat i * PGSIZE) <$> seq 0 n.

Lemma elem_of_pages_from v p n :
  v ∈ pages_from p n <-> exists i, (i < n)%nat /\ v = p + Z.of_nat i * PGSIZE.
Proof.
  unfold pages_from. rewrite list_elem_of_fmap. split.
  - intros (i & -> & Hi%elem_of_seq). exists i. split; [lia | done].
  - intros (i & Hi & ->). exists i. split; [done|]. apply elem_of_seq. lia.
Qed.

Lemma pages_from_S p n : pages_from p (S n) = p :: pages_from (p + PGSIZE) n.
Proof.
  unfold pages_from. cbn. f_equal; [lia|]. rewrite <-fmap_S_seq, <-list_fmap_compose.
  apply list_fmap_ext. intros i x _. cbn. klia.
Qed.

Lemma kmem_ready_framed f k :
  Framed f -> use_lock (f k) = use_lock k -> kmem_ready k -> kmem_ready (f k).
Proof.
  intros Hf Hu [H|[Hq Hl]]; [left; congruence | right].
  split; [by apply quiet_framed | by apply lock_free_framed].
Qed.

Lemma freerange_loop_ok n p vend k ps :
  kmem_ready k -> kmem_inv k ps ->
  ((0 < n)%nat -> p + Z.of_nat n * PGSIZE <= vend) ->
  Forall good_page (pages_from p n) -> (forall v, v ∈ pages_from p n -> v ∉ ps) ->
  exists k', freerange_loop n p vend k = Ok tt k' /\
    kmem_inv k' (reverse (pages_from p n) ++ ps) /\
    k' = set_freelist (freelist k') (set_memory (memory k') k).
Proof.
  revert p k ps. induction n as [|n IH]; intros p k ps Hr Hi Hv Hg Hn.
  { exists k. split_and!; [done | done | by destruct k]. }
  rewrite pages_from_S in *. apply list.Forall_cons in Hg as [Hg Hgs]. cbn [freerange_loop].
  rewrite (proj2 (Z.leb_le _ _)) by klia. mrun (kfree_ok p k Hr Hg).
  assert (p ∉ pages_from (p + PGSIZE) n) as Hp.
  { rewrite elem_of_pages_from. intros (i & _ & H). klia. }
  destruct (IH (p + PGSIZE) (free_page p k) (p :: ps)) as (k' & -> & Hk' & Hf).
  - by apply (kmem_ready_framed (free_page p)).
  - apply free_page_inv; [done | by apply Hn; left | done].
  - klia.
  - done.
  - intros v Hv'. set_unfold. intros [->|?]; [done|]. by apply (Hn v); [right|].
  - exists k'. split_and!; [done | | by rewrite Hf].
    rewrite reverse_cons, <-app_assoc. exact Hk'.
Qed.

(** The whole pages inside a range. *)
Definition in_range (vstart vend v : Z) : Prop :=
  v mod PGSIZE = 0 /\ vstart <= v /\ v + PGSIZE <= vend.

Lemma freerange_pages vstart vend v :
  0 <= vstart -> vstart + PGSIZE - 1 < 2 ^ 32 ->
  v ∈ pages_from (PGROUNDUP vstart) (Z.to_nat ((vend - PGROUNDUP vstart) / PGSIZE)) <->
  in_range vstart vend v.
Proof.
  intros H0 H1. destruct (PGROUNDUP_bounds vstart H0 H1) as [Hb Hm].
  set (p := PGROUNDUP vstart) in *. rewrite elem_of_pages_from. unfold in_range.
  apply Z.mod_divide in Hm as [x Hx]; [|done]. pose proof (Z.div_mod (vend - p) PGSIZE) as Hd.
  pose proof (Z.mod_pos_bound (vend - p) PGSIZE). split.
  - intros (i & Hi & ->). rewrite Hx, <-Z.mul_add_distr_r. split; [by apply Z.mod_mul | klia].
  - intros (Hv & Hlo & Hhi). apply Z.mod_divide in Hv as [y Hy]; [|done].
    exists (Z.to_nat (y - x)). klia.
Qed.

Lemma in_range_good vstart vend v :
  end_ <= vstart -> vend <= KERNBASE + PHYSTOP -> in_range vstart vend v -> good_page v.
Proof.
  intros H1 H2 (H3 & H4 & H5). pose proof layout_end. unfold good_page, V2P.
  rewrite u32_small by klia. split_and!; klia.
Qed.

Lemma freerange_ok vstart vend k ps :
  kmem_ready k -> kmem_inv k ps -> end_ <= vstart -> vstart <= vend <= KERNBASE + PHYSTOP ->
  (forall v, in_range vstart vend v -> v ∉ ps) ->
  exists k' qs, freerange vstart vend k = Ok tt k' /\ kmem_inv k' (qs ++ ps) /\
    (forall v, v ∈ qs <-> in_range vstart vend v) /\
    k' = set_freelist (freelist k') (set_memory (memory k') k).
Proof.
  intros Hr Hi He Hv Hn. pose proof layout_end.
  pose proof (fun v => freerange_pages vstart vend v ltac:(klia) ltac:(klia)) as Hin.
  set (p := PGROUNDUP vstart) in *. set (n := Z.to_nat ((vend - p) / PGSIZE)) in *.
  destruct (PGROUNDUP_bounds vstart ltac:(klia) ltac:(klia)) as [Hb Hm]. fold p in Hb, Hm.
  destruct (freerange_loop_ok n p vend k ps Hr Hi) as (k' & Hk & Hk' & Hf).
  - unfold n. pose proof (Z.mul_div_le (vend - p) PGSIZE). klia.
  - apply list.Forall_forall. intros v Hv'%Hin. eapply in_range_good; [done | | done]. lia.
  - intros v Hv'%Hin. by apply Hn.
  - exists k', (reverse (pages_from p n)). split_and!; [done | done | | done].
    intros v. by rewrite elem_of_reverse.
Qed.

(** The two boot phases, called as main does with the memory below and above
    4 megabytes, leave exactly the pages that kfree accepts on the free list,
    each of them once. *)
Theorem kinit_all_pages k :
  end_ <= KERNBASE + 4 * 1024 * 1024 -> mem_ok (memory k) -> freelist k = 0 ->
  exists k' ps,
    (kinit1 end_ (P2V (4 * 1024 * 1024)) ;;; kinit2 (P2V (4 * 1024 * 1024)) (P2V PHYSTOP)) k
      = Ok tt k' /\
    kmem_inv k' ps /\ use_lock k' = 1 /\ lock_free L_kmem k' /\
    (forall v, v ∈ ps <-> good_page v).
Proof.
  intros He Hm Hf. pose proof layout_end as Hl.
  change (P2V (4 * 1024 * 1024)) with (KERNBASE + 4 * 1024 * 1024).
  change (P2V PHYSTOP) with (KERNBASE + PHYSTOP). set (mid := KERNBASE + 4 * 1024 * 1024).
  unfold kinit1, kinit2, initlock. msimp.
  match goal with |- exists _ _, bind _ _ ?s = _ /\ _ => set (k0 := s) end.
  destruct (freerange_ok end_ mid k0 []) as (k1 & q1 & H1 & Hi1 & Hq1 & Hk1).
  - by left.
  - split; cbn; [done | constructor | constructor | done].
  - lia.
  - unfold mid in *. klia.
  - intros v _. apply not_elem_of_nil.
  - mrun H1. rewrite app_nil_r in Hi1.
    destruct (freerange_ok mid (KERNBASE + PHYSTOP) k1 q1) as (k2 & q2 & H2 & Hi2 & Hq2 & Hk2).
    + left. by rewrite Hk1.
    + done.
    + done.
    + unfold mid. klia.
    + intros v (_ & Hv & _) (_ & _ & Hv')%Hq1. klia.
    + mrun H2. exists (set_use_lock 1 k2), (q2 ++ q1). split_and!; [done | by destruct Hi2 | done | |].
      * unfold lock_free. cbn. rewrite Hk2. cbn. rewrite Hk1. apply lookup_insert_eq.
      * intros v. rewrite elem_of_app, Hq1, Hq2. unfold in_range, mid. split.
        -- intros Hv. apply (in_range_good end_ (KERNBASE + PHYSTOP)); [lia | lia |].
           unfold in_range. unfold mid in He. destruct Hv as [?|?]; split_and!; klia.
        -- intros Hg. pose proof (good_page_bounds v Hg). destruct Hg as (_ & Hv & Hv' & _).
           apply Z.mod_divide in Hv as [x ->]; [|done]. rewrite Z.mod_mul by done.
           unfold mid, PGSIZE, KERNBASE, PHYSTOP in *. lia.
Qed.

End spec.

(** ** A sample memory: one free page *)

Definition sample_layout : Layout := {|
  end_ := KERNBASE + 1134592;
  data_ := KERNBASE + 1081344;
  ts_addr := fun i => KERNBASE + 1122304 + Z.of_nat i * 176 |}.
Lemma sample_layout_ok : @LayoutOk sample_layout.
Proof. unfold LayoutOk. cbn. lia. Qed.

Definition sample_page : Z := KERNBASE + 2097152.
Definition sample_kmem : K := set_use_lock 1 (set_freelist sample_page sample).

Lemma sample_kmem_ready : kmem_ready sample_kmem.
Proof.
  right. split.
  - apply (quiet_framed (fun k => set_use_lock 1 (set_freelist sample_page k))); [apply _|].
    apply sample_quiet.
  - apply sample_free. by apply (bool_decide_unpack _).
Qed.

Lemma sample_page_good : @good_page sample_layout sample_page.
Proof. unfold good_page. cbn. split_and!; done. Qed.

Lemma sample_kmem_inv : @kmem_inv sample_layout sample_kmem [sample_page].
Proof.
  split; [done | | |].
  - apply list.NoDup_cons. split; [set_solver | constructor].
  - constructor; [apply sample_page_good | constructor].
  - apply map_Forall_empty.
Qed.

Lemma kalloc_spec_witness :
  exists k', @kalloc idle_env sample_kmem = Ok sample_page k' /\ @kmem_inv sample_layout k' [].
Proof.
  destruct (@kalloc_spec idle_env sample_layout sample_layout_ok sample_kmem [sample_page]
              sample_kmem_ready sample_kmem_inv) as (k' & H & Hi & _).
  by exists k'.
Defined.

Lemma kfree_spec_witness :
  exists k', @kfree idle_env sample_layout (sample_page + PGSIZE) sample_kmem = Ok tt k' /\
    @kmem_inv sample_layout k' [sample_page + PGSIZE; sample_page].
Proof.
  destruct (@kfree_spec idle_env sample_layout sample_layout_ok (sample_page + PGSIZE)
              sample_kmem [sample_page]) as (k' & H & Hi & _).
  - apply sample_kmem_ready.
  - apply sample_kmem_inv.
  - unfold good_page. cbn. split_and!; done.
  - by apply (bool_decide_unpack _).
  - by exists k'.
Defined.

Lemma kfree_panics_witness :
  @kfree idle_env sample_layout (sample_page + 1) sample_kmem = Panic "kfree" sample_kmem.
Proof.
  apply (@kfree_panics idle_env sample_layout (sample_page + 1) sample_kmem).
  - done.
  - apply sample_kmem_ready.
  - by intros (_ & H & _).
Defined.

Lemma kinit_all_pages_witness :
  exists k' ps, (@kinit1 idle_env sample_layout (KERNBASE + 1134592) (P2V (4 * 1024 * 1024)) ;;;
    @kinit2 idle_env sample_layout (P2V (4 * 1024 * 1024)) (P2V PHYSTOP)) bss = Ok tt k' /\
    @kmem_inv sample_layout k' ps /\ sample_page ∈ ps.
Proof.
  destruct (@kinit_all_pages idle_env sample_layout sample_layout_ok bss)
    as (k' & ps & H & Hi & _ & _ & Hp).
  - cbn. lia.
  - apply map_Forall_empty.
  - done.
  - exists k', ps. split_and!; [exact H | done | apply Hp, sample_page_good].
Defined.
