(* ===== verification/Console.v ===== *)
(** * Console output (the first half of console.c, and uartputc of uart.c)

    The console device is a state of its own: the CGA text cells, the cursor
    registers of the CRT controller, and the serial port.  This file holds the
    output side, which the rest of the kernel uses through cprintf. *)

From Stdlib Require Import ZArith Lia Ascii.
From stdpp Require Import base gmap list strings numbers.
From S2P Require Import Prelude Numeral Strings State Spinlock Sched.

Open Scope Z_scope.

(** Console code runs on the console's own state. *)
Definition on_console {A} (m : M consdev A) : KM A := fun k =>
  match m (console k) with
  | Ok a d => Ok a (set_console d k)
  | Panic msg d => Panic msg (set_console d k)
  | Stuck d => Stuck (set_console d k)
  | Ub w d => Ub w (set_console d k)
  end.

(** ** The code *)

Definition BACKSPACE : Z := 256.

(** The CRT controller's ports: an index register and a data register. *)
Definition outb_crt_index (v : Z) : M consdev unit := modify (set_crtc_idx v).
Definition outb_crt_data (v : Z) : M consdev unit :=
  modify (fun d =>
    if crtc_idx d =? 14 then set_crtc_hi (u8 v) d
    else if crtc_idx d =? 15 then set_crtc_lo (u8 v) d else d).
Definition inb_crt_data : M consdev Z :=
  reads (fun d =>
    if crtc_idx d =? 14 then crtc_hi d else if crtc_idx d =? 15 then crtc_lo d else 0).

(** Cells of the text memory, by index from [crt]. *)
Definition cell (d : consdev) (i : Z) : Z := default 0 (crt d !! i).
Definition put_cell (i v : Z) : M consdev unit :=
  modify (fun d => set_crt (<[i := u16 v]> (crt d)) d).
Definition copy_cell (i j : Z) : M consdev unit :=
  modify (fun d => set_crt (<[i := cell d j]> (crt d)) d).

(** Reading and writing the cursor position, as every function here does. *)
Definition get_pos : M consdev Z :=
  outb_crt_index 14 ;;;
  let* hi := inb_crt_data in
  outb_crt_index 15 ;;;
  let* lo := inb_crt_data in
  ret (Z.lor (Z.shiftl hi 8) lo).
Definition set_pos (pos : Z) : M consdev unit :=
  outb_crt_index 14 ;;;
  outb_crt_data (Z.shiftr pos 8) ;;;
  outb_crt_index 15 ;;;
  outb_crt_data pos.

(** The second half of cgaputc: scroll, move the cursor, blank the cell behind
    the line. *)
Definition cgaputc_tail (pos : Z) : M consdev unit :=
  if (pos <? 0) || (25 * 80 <? pos) then panic "pos under/overflow"
  else
    let* pos :=
      if 24 <=? Z.quot pos 80 then
        for_each (zseq 0 (23 * 80)) (fun i => copy_cell i (i + 80)) ;;;
        for_each (zseq (pos - 80) (24 * 80 - (pos - 80))) (fun i => put_cell i 0) ;;;
        ret (pos - 80)
      else ret pos in
    set_pos pos ;;;
    let* bc := reads back_counter in
    put_cell (pos + bc) (Z.lor 32 1792).

Definition cgaputc (c : Z) : M consdev unit :=
  let* pos := get_pos in
  let* bc := reads back_counter in
  if c =? 10 then cgaputc_tail (pos + (80 - Z.rem pos 80))
  else if c =? BACKSPACE then
    for_each (zseq (pos - 1) (bc + 1)) (fun i => copy_cell i (i + 1)) ;;;
    cgaputc_tail (if 0 <? pos then pos - 1 else pos)
  else
    for_each (zseq_down (pos + bc) bc) (fun i => copy_cell i (i - 1)) ;;;
    put_cell pos (Z.lor (Z.land c 255) 1792) ;;;
    cgaputc_tail (pos + 1).

Definition move_left_cursor : M consdev unit :=
  let* pos := get_pos in
  let* pos :=
    let* v := reads (fun d => cell d (pos - 2)) in
    ret (if negb (v =? Z.lor 36 1792) then pos - 1 else pos) in
  set_pos pos.

Definition move_right_cursor : M consdev unit :=
  let* pos := get_pos in
  set_pos (pos + 1).

(** uartputc polls the line status for at most 128 rounds and then sends the
    byte, whatever the status. *)
Definition uartputc (c : Z) : M consdev unit :=
  let* u := reads uart in
  if negb (Zb u) then ret tt
  else modify (fun d => set_uart_tx (uart_tx d ++ [u8 c]) d).

Definition consputc_dev (c : Z) : M consdev unit :=
  (if c =? BACKSPACE then uartputc 8 ;;; uartputc 32 ;;; uartputc 8 else uartputc c) ;;;
  cgaputc c.

Definition consputc (c : Z) : KM unit :=
  let* p := reads (fun k => panicked (console k)) in
  if Zb p then cli ;;; hang
  else on_console (consputc_dev c).

(** The digit loop of printint: least significant digit first. *)
Definition digit (d : Z) : Z := nth (Z.to_nat d) (bytes "0123456789abcdef") 0.
Definition printint_digits (fuel : nat) (x base : Z) : list Z := digits_of digit fuel x base.

(** The bytes printint puts in [buf], in the order it outputs them.  [buf] has
    16 bytes, enough for base 10 and 16. *)
Definition printint_buf (xx base : Z) (sign : bool) : list Z :=
  let neg := sign && (xx <? 0) in
  let x := if neg then u32 (- xx) else u32 xx in
  reverse (printint_digits 16 x base ++ (if neg then [45] else [])).
Definition printint (xx base : Z) (sign : bool) : KM unit :=
  for_each (printint_buf xx base sign) consputc.

(** Arguments of cprintf: words, and pointers to strings, given by the bytes
    before the NUL. *)
Inductive fmtarg := A_int (z : Z) | A_str (s : list Z) | A_null.

Section cprintf.
Context `{E : Env}.

Fixpoint cprintf_loop (fmt : list Z) (args : list fmtarg) : KM unit :=
  match fmt with
  | [] => ret tt
  | c :: fmt =>
      if c =? 0 then ret tt
      else if negb (c =? 37) then consputc c ;;; cprintf_loop fmt args
      else
        match fmt with
        | [] => ret tt
        | c :: fmt =>
            if c =? 0 then ret tt
            else if c =? 100 then
              match args with
              | A_int z :: args => printint (i32 z) 10 true ;;; cprintf_loop fmt args
              | _ => undefined "cprintf argument"
              end
            else if (c =? 120) || (c =? 112) then
              match args with
              | A_int z :: args => printint (i32 z) 16 false ;;; cprintf_loop fmt args
              | _ => undefined "cprintf argument"
              end
            else if c =? 115 then
              match args with
              | A_str s :: args => for_each s consputc ;;; cprintf_loop fmt args
              | A_null :: args => for_each (bytes "(null)") consputc ;;; cprintf_loop fmt args
              | _ => undefined "cprintf argument"
              end
            else if c =? 37 then consputc 37 ;;; cprintf_loop fmt args
            else consputc 37 ;;; consputc c ;;; cprintf_loop fmt args
        end
  end.

Definition cprintf (fmt : list Z) (args : list fmtarg) : KM unit :=
  let* locking := reads (fun k => cons_locking (console k)) in
  (when Zb locking do acquire L_cons) ;;;
  cprintf_loop fmt args ;;;
  when Zb locking do release L_cons.
End cprintf.

(** ** printint *)

#[export] Instance digit_digits : Digits digit.
Proof. apply digits_check. vm_compute. reflexivity. Qed.

(** printint prints a numeral of its argument: for base 10 or 16, the
    characters it outputs denote the number, with a minus sign exactly when a
    negative number is printed as signed, and they fit its 16-byte buffer. *)
Theorem printint_denotes xx base sign :
  is_i32 xx -> base = 10 \/ base = 16 ->
  denotes_signed base (printint_buf xx base sign) = (if sign then xx else u32 xx) /\
  (length (printint_buf xx base sign) <= 16)%nat.
Proof.
  intros Hx Hb. destruct (numeral_denotes digit 16 xx base sign Hx Hb ltac:(lia)) as [H1 H2].
  split; [exact H1|]. unfold printint_buf. rewrite length_reverse.
  etransitivity; [exact H2 | lia].
Qed.

Lemma printint_denotes_witness :
  denotes_signed 10 (printint_buf (-2147483648) 10 true) = -2147483648.
Proof. apply (printint_denotes (-2147483648) 10 true); [unfold is_i32; lia | by left]. Defined.

(** ** The line on the screen

    The cursor sits inside the line being typed, [back_counter] cells before
    its end.  [shows d p l r]: the cursor is at [p], the cells before it end
    in [l] and the [back_counter] cells from it on are [r].  The functions
    that draw implement an editor with a cursor between [l] and [r]. *)

Definition cursor (d : consdev) : Z := Z.lor (Z.shiftl (crtc_hi d) 8) (crtc_lo d).
Definition cells (d : consdev) (i : Z) (l : list Z) : Prop :=
  forall j v, l !! j = Some v -> cell d (i + Z.of_nat j) = v.
Record shows (d : consdev) (p : Z) (l r : list Z) : Prop := {
  shows_pos : cursor d = p;
  shows_range : Z.of_nat (length l) <= p < 24 * 80;
  shows_back : back_counter d = Z.of_nat (length r);
  shows_left : cells d (p - Z.of_nat (length l)) l;
  shows_right : cells d p r }.

Lemma get_pos_ok d : get_pos d = Ok (cursor d) (set_crtc_idx 15 d).
Proof. reflexivity. Qed.

Definition at_pos (p : Z) (d : consdev) : consdev :=
  set_crtc_idx 15 (set_crtc_hi (u8 (Z.shiftr p 8)) (set_crtc_lo (u8 p) d)).
Lemma set_pos_ok p d : set_pos p d = Ok tt (at_pos p d).
Proof. reflexivity. Qed.

Lemma cursor_at_pos p d : is_u16 p -> cursor (at_pos p d) = p.
Proof.
  intros Hp. unfold cursor, at_pos. cbn [crtc_hi crtc_lo set_crtc_idx set_crtc_hi set_crtc_lo].
  rewrite u8_small.
  2: { rewrite Z.shiftr_div_pow2 by lia. split; [apply Z.div_pos; klia|].
       apply Z.div_lt_upper_bound; klia. }
  unfold u8. rewrite <-Z.land_ones by lia. apply Z.bits_inj'. intros n Hn.
  rewrite Z.lor_spec, Z.land_spec, Z.testbit_ones_nonneg by lia.
  destruct (Z.ltb_spec n 8).
  - rewrite Z.shiftl_spec_low by lia. by rewrite andb_true_r.
  - rewrite Z.shiftl_spec, Z.shiftr_spec by lia. rewrite andb_false_r, orb_false_r. f_equal. lia.
Qed.

Lemma cell_insert d i j v :
  cell (set_crt (<[i := v]> (crt d)) d) j = if decide (i = j) then v else cell d j.
Proof. unfold cell. cbn. rewrite lookup_insert. by case_decide. Qed.

(** The two shifting loops. *)
Lemma shift_left_ok n i o d :
  0 <= n -> 0 < o ->
  exists d', for_each (zseq i n) (fun x => copy_cell x (x + o)) d = Ok tt d' /\
    (forall j, cell d' j = if decide (i <= j < i + n) then cell d (j + o) else cell d j) /\
    d' = set_crt (crt d') d.
Proof.
  intros Hn Ho. revert i d. pattern n. apply natlike_ind; [| |done]; clear n Hn.
  - intros i d. exists d. rewrite zseq_nil by lia. split_and!; [done | | by destruct d].
    intros j. by rewrite decide_False by lia.
  - intros n Hn IH i d. rewrite zseq_cons by lia. cbn [for_each].
    unfold copy_cell at 1. rewrite bind_modify. replace (Z.succ n - 1) with n by lia.
    destruct (IH (i + 1) (set_crt (<[i:=cell d (i + o)]> (crt d)) d)) as (d' & -> & Hc & Hd).
    exists d'. split_and!; [done | | by rewrite Hd].
    intros j. rewrite Hc, !cell_insert. repeat case_decide; subst; try done; lia.
Qed.

Lemma shift_right_ok n i d :
  0 <= n ->
  exists d', for_each (zseq_down i n) (fun x => copy_cell x (x - 1)) d = Ok tt d' /\
    (forall j, cell d' j = if decide (i - n < j <= i) then cell d (j - 1) else cell d j) /\
    d' = set_crt (crt d') d.
Proof.
  intros Hn. revert i d. pattern n. apply natlike_ind; [| |done]; clear n Hn.
  - intros i d. exists d. rewrite zseq_down_nil by lia. split_and!; [done | | by destruct d].
    intros j. by rewrite decide_False by lia.
  - intros n Hn IH i d. rewrite zseq_down_cons by lia. cbn [for_each].
    unfold copy_cell at 1. rewrite bind_modify. replace (Z.succ n - 1) with n by lia.
    destruct (IH (i - 1) (set_crt (<[i:=cell d (i - 1)]> (crt d)) d)) as (d' & -> & Hc & Hd).
    exists d'. split_and!; [done | | by rewrite Hd].
    intros j. rewrite Hc, !cell_insert. repeat case_decide; subst; try done; lia.
Qed.

(** The end of cgaputc when the screen does not scroll. *)
Definition blank : Z := Z.lor 32 1792.
(** A character on screen, black on white. *)
Definition glyph (c : Z) : Z := u16 (Z.lor (Z.land c 255) 1792).
Lemma quot_no_scroll p : 0 <= p < 24 * 80 -> (24 <=? Z.quot p 80) = false.
Proof.
  intros H. rewrite Z.quot_div_nonneg by lia. apply Z.leb_gt, Z.div_lt_upper_bound; lia.
Qed.

Lemma cgaputc_tail_ok p d :
  0 <= p < 24 * 80 ->
  exists d', cgaputc_tail p d = Ok tt d' /\ cursor d' = p /\ back_counter d' = back_counter d /\
    (forall j, cell d' j = if decide (p + back_counter d = j) then blank else cell d j).
Proof.
  intros Hp. unfold cgaputc_tail.
  rewrite (proj2 (Z.ltb_ge p 0)), (proj2 (Z.ltb_ge (25 * 80) p)), quot_no_scroll by lia.
  cbn [orb]. cbv iota. rewrite bind_ret_l. mrun (set_pos_ok p d). msimp.
  eexists. split; [reflexivity|]. split_and!; [|done|].
  - apply cursor_at_pos. klia.
  - intros j. exact (cell_insert (at_pos p d) _ j _).
Qed.

Lemma cells_app d i l r :
  cells d i (l ++ r) <-> cells d i l /\ cells d (i + Z.of_nat (length l)) r.
Proof.
  unfold cells. split.
  - intros H. split; intros j v Hj.
    + apply H. by apply lookup_app_l_Some.
    + rewrite <-Z.add_assoc, <-Nat2Z.inj_add. apply H.
      rewrite lookup_app_r by lia. by replace (length l + j - length l)%nat with j by lia.
  - intros [Hl Hr] j v [Hj|[Hj Hv]]%lookup_app_Some; [by apply Hl|].
    apply Hr in Hv. by replace (i + Z.of_nat j)
      with (i + Z.of_nat (length l) + Z.of_nat (j - length l)) by lia.
Qed.

Lemma cells_ext d d' i i' l :
  (forall j, 0 <= j < Z.of_nat (length l) -> cell d' (i' + j) = cell d (i + j)) ->
  cells d i l -> cells d' i' l.
Proof.
  intros H Hl j v Hj. pose proof (lookup_lt_Some _ _ _ Hj). rewrite H by lia. by apply Hl.
Qed.

(** Typing a character inserts it at the cursor: the rest of the line moves
    one cell to the right and stays visible. *)
Theorem cgaputc_inserts d p l r c :
  shows d p l r -> p + 1 < 24 * 80 -> c <> 10 -> c <> BACKSPACE ->
  returns (cgaputc c) d (fun _ d' =>
    shows d' (p + 1) (l ++ [glyph c]) r /\ cell d' (p + 1 + back_counter d') = blank).
Proof.
  intros [Hp Hr Hb Hl Hrr] Hlim H10 HB. unfold returns, cgaputc. mrun (get_pos_ok d).
  rewrite bind_reads, Hp. cbn [back_counter set_crtc_idx].
  rewrite (proj2 (Z.eqb_neq _ _) H10), (proj2 (Z.eqb_neq _ _) HB).
  destruct (shift_right_ok (back_counter d) (p + back_counter d) (set_crtc_idx 15 d) ltac:(lia))
    as (d1 & H1 & Hc1 & Hd1).
  mrun H1. unfold put_cell. rewrite bind_modify. change (u16 (Z.lor (Z.land c 255) 1792)) with (glyph c).
  destruct (cgaputc_tail_ok (p + 1) (set_crt (<[p:=glyph c]> (crt d1)) d1) ltac:(lia))
    as (d2 & -> & Hcur & Hbc & Hc2).
  assert (back_counter d1 = back_counter d) as Hb1 by (by rewrite Hd1).
  cbn [back_counter set_crt] in Hbc, Hc2. rewrite Hb1 in Hbc, Hc2.
  assert (forall j, cell (set_crtc_idx 15 d) j = cell d j) as Hd by done.
  split; [split|].
  - done.
  - rewrite length_app. cbn. lia.
  - congruence.
  - rewrite length_app. cbn [length]. apply cells_app. split.
    + eapply cells_ext; [|exact Hl]. intros j Hj. rewrite Hc2, cell_insert, Hc1, Hd.
      rewrite !decide_False by lia. f_equal. lia.
    + intros [|j] v [= <-]. rewrite Hc2, cell_insert.
      rewrite decide_False, decide_True by lia. done.
  - eapply cells_ext; [|exact Hrr]. intros j Hj. rewrite Hc2, cell_insert, Hc1, Hd.
    rewrite !decide_False, decide_True by lia. f_equal. lia.
  - rewrite Hbc, Hc2, decide_True; done.
Qed.

(** Backspace removes the character before the cursor and closes the gap. *)
Theorem cgaputc_backspace d p l x r :
  shows d p (l ++ [x]) r ->
  returns (cgaputc BACKSPACE) d (fun _ d' =>
    shows d' (p - 1) l r /\ cell d' (p - 1 + back_counter d') = blank).
Proof.
  intros [Hp Hr Hb Hl Hrr]. rewrite length_app in *. cbn [length] in *.
  unfold returns, cgaputc. mrun (get_pos_ok d). rewrite bind_reads, Hp. cbn [back_counter set_crtc_idx].
  change (BACKSPACE =? 10) with false. change (BACKSPACE =? BACKSPACE) with true. cbv iota.
  destruct (shift_left_ok (back_counter d + 1) (p - 1) 1 (set_crtc_idx 15 d) ltac:(lia) ltac:(lia))
    as (d1 & H1 & Hc1 & Hd1).
  mrun H1. rewrite (proj2 (Z.ltb_lt 0 p)) by lia.
  destruct (cgaputc_tail_ok (p - 1) d1 ltac:(lia)) as (d2 & -> & Hcur & Hbc & Hc2).
  assert (back_counter d1 = back_counter d) as Hb1 by (by rewrite Hd1). rewrite Hb1 in Hbc, Hc2.
  assert (forall j, cell (set_crtc_idx 15 d) j = cell d j) as Hd by done.
  apply cells_app in Hl as [Hl _]. split; [split|].
  - done.
  - lia.
  - congruence.
  - eapply cells_ext; [|exact Hl]. intros j Hj. rewrite Hc2, Hc1, Hd.
    rewrite !decide_False by lia. f_equal. lia.
  - eapply cells_ext; [|exact Hrr]. intros j Hj. rewrite Hc2, Hc1, Hd.
    rewrite decide_False, decide_True by lia. f_equal. lia.
  - rewrite Hbc, Hc2, decide_True; done.
Qed.

(** The prompt, then [ab] with the cursor between the two letters. *)
Definition sample_line : consdev :=
  set_back_counter 1 (set_crtc_lo 3
    (set_crt (list_to_map [(0, glyph 36); (1, glyph 32); (2, glyph 97); (3, glyph 98)]) consdev0)).

Lemma sample_line_shows : shows sample_line 3 ([] ++ [glyph 97]) [glyph 98].
Proof.
  split; [done | cbn; lia | done | |]; intros [|j] v; cbn; intros; simplify_eq; done.
Qed.

Lemma cgaputc_inserts_witness :
  returns (cgaputc 99) sample_line (fun _ d' => shows d' 4 [glyph 97; glyph 99] [glyph 98]).
Proof.
  eapply returns_mono; [apply (cgaputc_inserts sample_line 3 [glyph 97] [glyph 98] 99)|].
  - apply sample_line_shows.
  - lia.
  - done.
  - done.
  - by intros ? ? [? _].
Defined.

Lemma cgaputc_backspace_witness :
  returns (cgaputc BACKSPACE) sample_line (fun _ d' => shows d' 2 [] [glyph 98]).
Proof.
  eapply returns_mono; [apply (cgaputc_backspace sample_line 3 [] (glyph 97) [glyph 98])|].
  - apply sample_line_shows.
  - by intros ? ? [? _].
Defined.
