(* ===== verification/Vm.v ===== *)
(** * Page tables (vm.c)

    Page directories and page tables live in memory and are read and written
    there word by word, as the hardware sees them.  loaduvm, which reads from
    an inode, is in Exec.v. *)

From Stdlib Require Import ZArith Lia.
From stdpp Require Import base gmap list strings numbers.
From S2P Require Import Prelude Strings State Spinlock Sched Kalloc Console.

Open Scope Z_scope.
Import string_c string_facts.

(** ** mmu.h *)

Definition PDX (va : Z) : Z := Z.land (Z.shiftr va 22) 1023.
Definition PTX (va : Z) : Z := Z.land (Z.shiftr va 12) 1023.
Definition PGADDR (d t o : Z) : Z := u32 (Z.lor (Z.lor (Z.shiftl d 22) (Z.shiftl t 12)) o).
Definition PTE_ADDR (pte : Z) : Z := Z.land pte (Z.lnot 4095).
Definition PTE_FLAGS (pte : Z) : Z := Z.land pte 4095.

Definition STA_X : Z := 8.
Definition STA_W : Z := 2.
Definition STA_R : Z := 2.
Definition STS_T32A : Z := 9.

Definition SEG (type base lim dpl : Z) : segdesc :=
  mk_segdesc (Z.land (Z.shiftr lim 12) 65535) (Z.land base 65535)
    (Z.land (Z.shiftr base 16) 255) type 1 dpl 1
    (Z.shiftr lim 28) 0 0 1 1 (Z.shiftr base 24).
Definition SEG16 (type base lim dpl : Z) : segdesc :=
  mk_segdesc (Z.land lim 65535) (Z.land base 65535)
    (Z.land (Z.shiftr base 16) 255) type 1 dpl 1
    (Z.shiftr lim 16) 0 0 1 0 (Z.shiftr base 24).

(** ** The code *)

Definition upd_gdt (n : Z) (d : segdesc) (c : cpu) : cpu :=
  set_gdt (<[Z.to_nat n := d]> (gdt c)) c.

Definition seginit : KM unit :=
  let* i := cpuid in
  upd_cpu i (upd_gdt SEG_KCODE (SEG (Z.lor STA_X STA_R) 0 (2 ^ 32 - 1) 0)) ;;;
  upd_cpu i (upd_gdt SEG_KDATA (SEG STA_W 0 (2 ^ 32 - 1) 0)) ;;;
  upd_cpu i (upd_gdt SEG_UCODE (SEG (Z.lor STA_X STA_R) 0 (2 ^ 32 - 1) DPL_USER)) ;;;
  upd_cpu i (upd_gdt SEG_UDATA (SEG STA_W 0 (2 ^ 32 - 1) DPL_USER)).

Definition ldw_k (a : Z) : KM Z := reads (fun k => ldw (memory k) a).
Definition stw_k (a v : Z) : KM unit := upd_mem (fun m => stw m a v).

Definition lcr3 (v : Z) : KM unit := modify (set_k_cr3 v).

Section code.
Context `{E : Env} `{L : Layout}.

(** The address of the PTE for [va], 0 when there is none. *)
Definition walkpgdir (pgdir va : Z) (alloc : bool) : KM Z :=
  let pde := u32 (pgdir + 4 * PDX va) in
  let* e := ldw_k pde in
  if Zb (Z.land e PTE_P) then
    ret (u32 (P2V (PTE_ADDR e) + 4 * PTX va))
  else if negb alloc then ret 0
  else
    let* pgtab := kalloc in
    if pgtab =? 0 then ret 0
    else
      upd_mem (fun m => memset m pgtab 0 PGSIZE) ;;;
      stw_k pde (Z.lor (Z.lor (Z.lor (V2P pgtab) PTE_P) PTE_W) PTE_U) ;;;
      ret (u32 (pgtab + 4 * PTX va)).

(** The loop of mappages, for at most [n] pages. *)
Fixpoint mappages_loop (n : nat) (pgdir a last pa perm : Z) : KM Z :=
  match n with
  | O => hang
  | S n =>
      let* pte := walkpgdir pgdir a true in
      if pte =? 0 then ret (-1)
      else
        let* e := ldw_k pte in
        if Zb (Z.land e PTE_P) then panic "remap"
        else
          stw_k pte (Z.lor (Z.lor pa perm) PTE_P) ;;;
          if a =? last then ret 0
          else mappages_loop n pgdir (u32 (a + PGSIZE)) last (u32 (pa + PGSIZE)) perm
  end.
Definition mappages (pgdir va size pa perm : Z) : KM Z :=
  let a := PGROUNDDOWN va in
  let last := PGROUNDDOWN (u32 (va + size - 1)) in
  mappages_loop (S (Z.to_nat (u32 (last - a) / PGSIZE))) pgdir a last pa perm.

(** The loop of deallocuvm, for at most [n] pages. *)
Fixpoint deallocuvm_loop (n : nat) (pgdir a oldsz : Z) : KM unit :=
  if negb (a <? oldsz) then ret tt
  else
    match n with
    | O => hang
    | S n =>
        let* pte := walkpgdir pgdir a false in
        let* a :=
          if pte =? 0 then ret (u32 (PGADDR (PDX a + 1) 0 0 - PGSIZE))
          else
            let* e := ldw_k pte in
            (when Zb (Z.land e PTE_P) do
               (let pa := PTE_ADDR e in
                if pa =? 0 then panic "kfree"
                else kfree (P2V pa) ;;; stw_k pte 0)) ;;;
            ret a in
        deallocuvm_loop n pgdir (u32 (a + PGSIZE)) oldsz
    end.
Definition deallocuvm (pgdir oldsz newsz : Z) : KM Z :=
  if oldsz <=? newsz then ret oldsz
  else
    let a := PGROUNDUP newsz in
    deallocuvm_loop (Z.to_nat ((oldsz - a) / PGSIZE + 1)) pgdir a oldsz ;;;
    ret newsz.

Definition freevm (pgdir : Z) : KM unit :=
  if pgdir =? 0 then panic "freevm: no pgdir"
  else
    deallocuvm pgdir KERNBASE 0 ;;;
    for_each (zseq 0 NPDENTRIES) (fun i =>
      let* e := ldw_k (u32 (pgdir + 4 * i)) in
      when Zb (Z.land e PTE_P) do kfree (P2V (PTE_ADDR e))) ;;;
    kfree pgdir.

Record kmap_entry := mk_kmap { km_virt : Z; km_start : Z; km_end : Z; km_perm : Z }.
Definition kmap : list kmap_entry :=
  [ mk_kmap KERNBASE 0 EXTMEM PTE_W;
    mk_kmap KERNLINK (V2P KERNLINK) (V2P data_) 0;
    mk_kmap data_ (V2P data_) PHYSTOP PTE_W;
    mk_kmap DEVSPACE DEVSPACE 0 PTE_W ].

Definition setupkvm : KM Z :=
  let* pgdir := kalloc in
  if pgdir =? 0 then ret 0
  else
    upd_mem (fun m => memset m pgdir 0 PGSIZE) ;;;
    if DEVSPACE <? P2V PHYSTOP then panic "PHYSTOP too high"
    else
      let* r := for_ret kmap (fun e =>
        let* r := mappages pgdir (km_virt e) (u32 (km_end e - km_start e)) (km_start e) (km_perm e) in
        if r <? 0 then freevm pgdir ;;; ret (Some 0) else ret None) in
      match r with
      | Some v => ret v
      | None => ret pgdir
      end.

Definition switchkvm : KM unit :=
  let* p := reads kpgdir in lcr3 (V2P p).

Definition kvmalloc : KM unit :=
  let* p := setupkvm in
  modify (set_kpgdir p) ;;;
  switchkvm.

Definition switchuvm (op : option nat) : KM unit :=
  match op with
  | None => panic "switchuvm: no process"
  | Some p =>
      let* pr := get_proc p in
      if kstack pr =? 0 then panic "switchuvm: no kstack"
      else if pgdir pr =? 0 then panic "switchuvm: no pgdir"
      else
        pushcli ;;;
        let* i := mycpu in
        upd_cpu i (upd_gdt SEG_TSS (SEG16 STS_T32A (ts_addr i) (104 - 1) 0)) ;;;
        let* i := mycpu in
        upd_cpu i (fun c =>
          set_gdt (alter (set_sd_s 0) (Z.to_nat SEG_TSS) (gdt c)) c) ;;;
        let* i := mycpu in
        upd_cpu i (set_ts_ss0 (Z.shiftl SEG_KDATA 3)) ;;;
        let* i := mycpu in
        upd_cpu i (set_ts_esp0 (u32 (kstack pr + KSTACKSIZE))) ;;;
        let* i := mycpu in
        upd_cpu i (set_ts_iomb 65535) ;;;
        lcr3 (V2P (pgdir pr)) ;;;
        popcli
  end.

Definition inituvm (pgdir : Z) (init : list Z) : KM unit :=
  let sz := Z.of_nat (length init) in
  if PGSIZE <=? sz then panic "inituvm: more than a page"
  else
    let* mem := kalloc in
    if mem =? 0 then undefined "inituvm: null page"
    else
      upd_mem (fun m => memset m mem 0 PGSIZE) ;;;
      mappages pgdir 0 PGSIZE (V2P mem) (Z.lor PTE_W PTE_U) ;;;
      upd_mem (fun m => stbs m mem init).

Fixpoint allocuvm_loop (n : nat) (pgdir a oldsz newsz : Z) : KM Z :=
  if negb (a <? newsz) then ret newsz
  else
    match n with
    | O => hang
    | S n =>
        let* mem := kalloc in
        if mem =? 0 then
          cprintf (bytes "allocuvm out of memory
") [] ;;;
          deallocuvm pgdir newsz oldsz ;;;
          ret 0
        else
          upd_mem (fun m => memset m mem 0 PGSIZE) ;;;
          let* r := mappages pgdir a PGSIZE (V2P mem) (Z.lor PTE_W PTE_U) in
          if r <? 0 then
            cprintf (bytes "allocuvm out of memory (2)
") [] ;;;
            deallocuvm pgdir newsz oldsz ;;;
            kfree mem ;;;
            ret 0
          else allocuvm_loop n pgdir (u32 (a + PGSIZE)) oldsz newsz
    end.
Definition allocuvm (pgdir oldsz newsz : Z) : KM Z :=
  if KERNBASE <=? newsz then ret 0
  else if newsz <? oldsz then ret oldsz
  else
    let a := PGROUNDUP oldsz in
    allocuvm_loop (Z.to_nat ((newsz - a) / PGSIZE + 1)) pgdir a oldsz newsz.

Definition clearpteu (pgdir uva : Z) : KM unit :=
  let* pte := walkpgdir pgdir uva false in
  if pte =? 0 then panic "clearpteu"
  else
    let* e := ldw_k pte in
    stw_k pte (Z.land e (Z.lnot PTE_U)).

Fixpoint copyuvm_loop (n : nat) (pgdir d i sz : Z) : KM Z :=
  if negb (i <? sz) then ret d
  else
    match n with
    | O => hang
    | S n =>
        let* pte := walkpgdir pgdir i false in
        if pte =? 0 then panic "copyuvm: pte should exist"
        else
          let* e := ldw_k pte in
          if negb (Zb (Z.land e PTE_P)) then panic "copyuvm: page not present"
          else
            let pa := PTE_ADDR e in
            let flags := PTE_FLAGS e in
            let* mem := kalloc in
            if mem =? 0 then freevm d ;;; ret 0
            else
              upd_mem (fun m => memmove m mem (P2V pa) (Z.to_nat PGSIZE)) ;;;
              let* r := mappages d i PGSIZE (V2P mem) flags in
              if r <? 0 then kfree mem ;;; freevm d ;;; ret 0
              else copyuvm_loop n pgdir d (u32 (i + PGSIZE)) sz
    end.
Definition copyuvm (pgdir sz : Z) : KM Z :=
  let* d := setupkvm in
  if d =? 0 then ret 0
  else copyuvm_loop (Z.to_nat (sz / PGSIZE + 1)) pgdir d 0 sz.

Definition uva2ka (pgdir uva : Z) : KM Z :=
  let* pte := walkpgdir pgdir uva false in
  if pte =? 0 then undefined "uva2ka: null pte"
  else
    let* e := ldw_k pte in
    if Z.land e PTE_P =? 0 then ret 0
    else if Z.land e PTE_U =? 0 then ret 0
    else ret (P2V (PTE_ADDR e)).

(** copyout of the bytes [bs], for at most [n] pages. *)
Fixpoint copyout_loop (n : nat) (pgdir va : Z) (bs : list Z) : KM Z :=
  match bs with
  | [] => ret 0
  | _ =>
      match n with
      | O => hang
      | S n =>
          let va0 := PGROUNDDOWN va in
          let* pa0 := uva2ka pgdir va0 in
          if pa0 =? 0 then ret (-1)
          else
            let len := Z.of_nat (length bs) in
            let cnt := if len <? PGSIZE - (va - va0) then len else PGSIZE - (va - va0) in
            upd_mem (fun m => stbs m (pa0 + (va - va0)) (take (Z.to_nat cnt) bs)) ;;;
            copyout_loop n pgdir (u32 (va0 + PGSIZE)) (drop (Z.to_nat cnt) bs)
      end
  end.
Definition copyout (pgdir va : Z) (bs : list Z) : KM Z :=
  copyout_loop (S (S (length bs / Z.to_nat PGSIZE))) pgdir va bs.
End code.

(** ** Address arithmetic *)

Lemma land_ones_12 a : Z.land a 4095 = a mod PGSIZE.
Proof. change 4095 with (Z.ones 12). by rewrite Z.land_ones by lia. Qed.

Lemma PTE_ADDR_eq a : PTE_ADDR a = a - a mod PGSIZE.
Proof. exact (PGROUNDDOWN_eq a). Qed.

Lemma lor_flags a f : a mod PGSIZE = 0 -> 0 <= f < PGSIZE -> Z.lor a f = a + f.
Proof.
  intros Ha Hf. rewrite <-Z.lxor_lor, <-Z.add_nocarry_lxor; [done | |].
  all: apply Z.bits_inj'; intros n Hn; rewrite Z.land_spec, Z.bits_0;
    destruct (Z.ltb_spec n 12).
  1,3: assert (Z.testbit a n = false) as ->; [|done];
    rewrite <-(Z.mod_pow2_bits_low a 12 n) by lia; change (2 ^ 12) with PGSIZE;
    rewrite Ha; apply Z.bits_0.
  all: rewrite (Z.bits_above_log2 f n), ?andb_false_r; try done; try klia;
    destruct (decide (f = 0)) as [->|]; [cbn; lia|];
    apply Z.log2_lt_pow2; [klia|]; eapply Z.lt_le_trans; [apply Hf|];
    change PGSIZE with (2 ^ 12); apply Z.pow_le_mono_r; lia.
Qed.

Lemma pte_parts a f :
  a mod PGSIZE = 0 -> 0 <= f < PGSIZE ->
  PTE_ADDR (Z.lor a f) = a /\ PTE_FLAGS (Z.lor a f) = f.
Proof.
  intros Ha Hf. rewrite lor_flags by done. rewrite PTE_ADDR_eq. unfold PTE_FLAGS.
  rewrite land_ones_12.
  assert ((a + f) mod PGSIZE = f) as ->.
  { rewrite Z.add_mod, Ha by done. rewrite Z.add_0_l, Z.mod_mod by done.
    apply Z.mod_small. klia. }
  lia.
Qed.

(** A present bit survives the address part of an entry. *)
Lemma flag_of_pte a f b :
  a mod PGSIZE = 0 -> 0 <= f < PGSIZE -> 0 <= b < PGSIZE -> Z.land (Z.lor a f) b = Z.land f b.
Proof.
  intros Ha Hf Hb. rewrite lor_flags by done.
  assert (forall x, Z.land x b = Z.land (x mod PGSIZE) b) as H.
  { intros x. rewrite <-land_ones_12. rewrite <-Z.land_assoc. f_equal.
    rewrite Z.land_comm, land_ones_12. symmetry. apply Z.mod_small. klia. }
  rewrite (H (a + f)). rewrite Z.add_mod, Ha, Z.add_0_l by done.
  by rewrite Z.mod_mod, <-H by done.
Qed.

Lemma PDX_eq va : 0 <= va < 2 ^ 32 -> PDX va = va / 2 ^ 22 /\ 0 <= PDX va < 1024.
Proof.
  intros H. unfold PDX. change 1023 with (Z.ones 10).
  rewrite Z.land_ones, Z.shiftr_div_pow2 by lia.
  assert (0 <= va / 2 ^ 22 < 1024).
  { split; [apply Z.div_pos; lia | apply Z.div_lt_upper_bound; lia]. }
  rewrite Z.mod_small by lia. done.
Qed.

Lemma PTX_eq va : PTX va = va / PGSIZE mod 1024 /\ 0 <= PTX va < 1024.
Proof.
  unfold PTX. change 1023 with (Z.ones 10). rewrite Z.land_ones, Z.shiftr_div_pow2 by lia.
  split; [done|]. apply Z.mod_pos_bound. lia.
Qed.

(** The page a virtual address is in is determined by the two indices. *)
Lemma page_of_indices va va' :
  0 <= va < 2 ^ 32 -> 0 <= va' < 2 ^ 32 ->
  PDX va = PDX va' -> PTX va = PTX va' -> va / PGSIZE = va' / PGSIZE.
Proof.
  intros H H'. destruct (PDX_eq va H) as [-> _], (PDX_eq va' H') as [-> _].
  destruct (PTX_eq va) as [-> _], (PTX_eq va') as [-> _]. intros H1 H2.
  assert (forall x, x / 2 ^ 22 = x / PGSIZE / 1024) as Hd.
  { intros x. rewrite Z.div_div by klia. done. }
  rewrite !Hd in H1. pose proof (Z.div_mod (va / PGSIZE) 1024 ltac:(lia)).
  pose proof (Z.div_mod (va' / PGSIZE) 1024 ltac:(lia)). lia.
Qed.

Lemma P2V_V2P v : is_u32 v -> P2V (V2P v) = v.
Proof.
  intros H. unfold P2V, V2P. rewrite u32_add_l. replace (v - KERNBASE + KERNBASE) with v by lia.
  by apply u32_small.
Qed.

Lemma V2P_aligned v : v mod PGSIZE = 0 -> V2P v mod PGSIZE = 0.
Proof.
  intros H. apply Z.mod_divide in H as [x ->]; [|done]. unfold V2P, u32.
  change KERNBASE with (524288 * PGSIZE). rewrite <-Z.mul_sub_distr_r.
  change (2 ^ 32) with (1048576 * PGSIZE). rewrite Z.mul_mod_distr_r by done.
  by apply Z.mod_mul.
Qed.

(** ** What the hardware sees

    [pte_of m pgdir va] is the entry for [va] in the tables in memory, 0 when
    the directory has no table for it. *)

Definition pde_at (m : mem) (pgdir i : Z) : Z := ldw m (pgdir + 4 * i).
Definition present (e : Z) : bool := Zb (Z.land e PTE_P).
Definition table_of (e : Z) : Z := P2V (PTE_ADDR e).
Definition pte_of (m : mem) (pgdir va : Z) : Z :=
  let e := pde_at m pgdir (PDX va) in
  if present e then ldw m (table_of e + 4 * PTX va) else 0.

Section spec.
Context `{E : Env} `{L : Layout} `{LO : !LayoutOk}.

(** The pages of a page table: the directory and its tables are distinct
    allocator pages, none of them free. *)
Record pgdir_inv (m : mem) (pgdir : Z) (ps : list Z) : Prop := {
  pg_good : good_page pgdir;
  pg_used : pgdir ∉ ps;
  tab_good i : 0 <= i < 1024 -> present (pde_at m pgdir i) = true ->
    good_page (table_of (pde_at m pgdir i)) /\ (table_of (pde_at m pgdir i) ∉ ps) /\
    table_of (pde_at m pgdir i) <> pgdir;
  tab_inj i j : 0 <= i < 1024 -> 0 <= j < 1024 ->
    present (pde_at m pgdir i) = true -> present (pde_at m pgdir j) = true ->
    table_of (pde_at m pgdir i) = table_of (pde_at m pgdir j) -> i = j }.

(** Changing bytes outside of the directory and its tables changes no entry. *)
Lemma tables_frame m m' pgdir ps p :
  pgdir_inv m pgdir ps -> good_page p -> p ∈ ps ->
  (forall a, ~ (p <= a < p + PGSIZE) -> ldb m' a = ldb m a) ->
  (forall i, 0 <= i < 1024 -> pde_at m' pgdir i = pde_at m pgdir i) /\
  (forall va, 0 <= va < 2 ^ 32 -> pte_of m' pgdir va = pte_of m pgdir va).
Proof.
  intros [Hg Hu Ht Hi] Hp Hin Hm.
  assert (forall q, good_page q -> q ∉ ps -> forall i, 0 <= i < 1024 ->
    ldw m' (q + 4 * i) = ldw m (q + 4 * i)) as Hq.
  { intros q Hq Hqs i Hi0. apply ldw_frame. intros b Hb. apply Hm.
    assert (q <> p) by (intros ->; done). pose proof (pages_apart q p Hq Hp). klia. }
  assert (forall i, 0 <= i < 1024 -> pde_at m' pgdir i = pde_at m pgdir i) as Hd
    by (intros i Hi0; by apply Hq).
  split; [done|]. intros va Hva. unfold pte_of. destruct (PDX_eq va Hva) as [_ Hx].
  rewrite Hd by done. destruct (present _) eqn:Ep; [|done].
  destruct (Ht _ Hx Ep) as (H1 & H2 & _). apply Hq; [done | done | apply PTX_eq].
Qed.

Lemma pgdir_inv_frame m m' pgdir ps p :
  pgdir_inv m pgdir ps -> good_page p -> p ∈ ps ->
  (forall a, ~ (p <= a < p + PGSIZE) -> ldb m' a = ldb m a) -> pgdir_inv m' pgdir ps.
Proof.
  intros Hpg Hp Hin Hm. destruct (tables_frame m m' pgdir ps p) as [Hd _]; try done.
  destruct Hpg as [Hg Hu Ht Hi]. split; [done | done | |].
  - intros i Hi0. rewrite Hd by done. by apply Ht.
  - intros i j Hi0 Hj0. rewrite !Hd by done. by apply Hi.
Qed.

Lemma pgdir_inv_sub m pgdir p ps : pgdir_inv m pgdir (p :: ps) -> pgdir_inv m pgdir ps.
Proof.
  intros [Hg Hu Ht Hi]. split; [done | | | done].
  - intros H. by apply Hu; right.
  - intros i Hi0 Hp. destruct (Ht i Hi0 Hp) as (H1 & H2 & H3). split_and!; [done | | done].
    intros H. by apply H2; right.
Qed.
(** *** A new page table *)

Definition table_entry (p : Z) : Z := Z.lor (V2P p) 7.

Lemma table_entry_ok p :
  good_page p ->
  is_u32 (table_entry p) /\ present (table_entry p) = true /\ table_of (table_entry p) = p.
Proof.
  intros Hp. destruct Hp as (Hu & Ha & He & Hv). pose proof (V2P_aligned p Ha) as Hva.
  unfold table_entry, present, table_of.
  rewrite flag_of_pte by (done || klia). destruct (pte_parts (V2P p) 7 Hva ltac:(klia)) as [-> _].
  rewrite P2V_V2P by done. split_and!; [|done|done].
  rewrite lor_flags by (done || klia). pose proof (u32_bound (p - KERNBASE)) as Hb.
  fold (V2P p) in Hb. klia.
Qed.

Lemma ldw_zero m a : (forall b, a <= b < a + 4 -> ldb m b = 0) -> ldw m a = 0.
Proof.
  intros H. unfold ldw. cbn. rewrite !H by lia. done.
Qed.

Definition with_table (m : mem) (pgdir x p : Z) : mem :=
  stw (memset m p 0 PGSIZE) (pgdir + 4 * x) (table_entry p).

Section new_table.
Context (m : mem) (pgdir x p : Z) (ps : list Z).
Context (Hinv : pgdir_inv m pgdir (p :: ps)) (Hp : good_page p) (Hps : p ∉ ps) (Hx : 0 <= x < 1024).
Context (Habs : present (pde_at m pgdir x) = false).

Lemma pgdir_apart_new : pgdir + PGSIZE <= p \/ p + PGSIZE <= pgdir.
Proof.
  apply pages_apart; [apply Hinv | done |]. intros Heq. apply (pg_used _ _ _ Hinv).
  rewrite Heq. by left.
Qed.

Lemma with_table_other a :
  ~ (p <= a < p + PGSIZE) -> ~ (pgdir + 4 * x <= a < pgdir + 4 * x + 4) ->
  ldb (with_table m pgdir x p) a = ldb m a.
Proof.
  intros H1 H2. unfold with_table, stw. rewrite ldb_stbs_ne by (rewrite le32_length; lia).
  rewrite ldb_memset by klia. by case_decide.
Qed.

Lemma with_table_zero a : p <= a < p + PGSIZE -> ldb (with_table m pgdir x p) a = 0.
Proof.
  intros H1. pose proof pgdir_apart_new. unfold with_table, stw.
  rewrite ldb_stbs_ne by (rewrite le32_length; klia). rewrite ldb_memset by klia. by case_decide.
Qed.

Lemma with_table_pde i :
  0 <= i < 1024 ->
  pde_at (with_table m pgdir x p) pgdir i =
  if decide (i = x) then table_entry p else pde_at m pgdir i.
Proof.
  intros Hi. unfold pde_at. case_decide as Hd.
  - subst i. unfold with_table. apply ldw_stw_same. by apply table_entry_ok.
  - apply ldw_frame. intros b Hb. pose proof pgdir_apart_new. apply with_table_other; klia.
Qed.

Lemma with_table_old i :
  0 <= i < 1024 -> i <> x -> present (pde_at m pgdir i) = true ->
  forall j, 0 <= j < 1024 ->
  ldw (with_table m pgdir x p) (table_of (pde_at m pgdir i) + 4 * j) =
  ldw m (table_of (pde_at m pgdir i) + 4 * j).
Proof.
  intros Hi Hne Hpr j Hj. destruct (tab_good _ _ _ Hinv i Hi Hpr) as (Hg & Hin & Hd).
  set (t := table_of (pde_at m pgdir i)) in *.
  assert (t <> p) by (intros Heq; apply Hin; rewrite Heq; by left).
  pose proof (pages_apart t p Hg Hp). pose proof (pages_apart t pgdir Hg (pg_good _ _ _ Hinv)).
  apply ldw_frame. intros b Hb. apply with_table_other; klia.
Qed.

Lemma with_table_pte va :
  0 <= va < 2 ^ 32 -> pte_of (with_table m pgdir x p) pgdir va = pte_of m pgdir va.
Proof.
  intros Hva. unfold pte_of. destruct (PDX_eq va Hva) as [_ Hd]. rewrite with_table_pde by done.
  destruct (PTX_eq va) as [_ Ht]. case_decide as Hdx.
  - rewrite Hdx, Habs. destruct (table_entry_ok p Hp) as (_ & -> & ->).
    apply ldw_zero. intros b Hb. apply with_table_zero. klia.
  - destruct (present (pde_at m pgdir (PDX va))) eqn:Ep; [by apply with_table_old|]. done.
Qed.

Lemma with_table_inv : pgdir_inv (with_table m pgdir x p) pgdir ps.
Proof.
  destruct (pgdir_inv_sub _ _ _ _ Hinv) as [Hg Hu Ht Hi]. destruct (table_entry_ok p Hp) as (_ & Hpr & Htp).
  assert (forall i, 0 <= i < 1024 -> present (pde_at m pgdir i) = true ->
    table_of (pde_at m pgdir i) <> p) as Hnp.
  { intros i Hi0 Hp0 Heq. destruct (tab_good _ _ _ Hinv i Hi0 Hp0) as (_ & Hn & _).
    apply Hn. rewrite Heq. by left. }
  split; [done | done | |].
  - intros i Hi0. rewrite with_table_pde by done. case_decide; [|by apply Ht].
    intros _. rewrite Htp. split_and!; [done | done |]. intros Heq. apply (pg_used _ _ _ Hinv).
    rewrite <-Heq. by left.
  - intros i j Hi0 Hj0. rewrite !with_table_pde by done. repeat case_decide; subst; try done.
    + rewrite Htp. intros _ Hj Heq. by destruct (Hnp j Hj0 Hj (eq_sym Heq)).
    + rewrite Htp. intros Hi' _ Heq. by destruct (Hnp i Hi0 Hi' Heq).
    + by apply Hi.
Qed.
End new_table.

(** *** walkpgdir *)

Lemma pgdir_u32 pgdir x : good_page pgdir -> 0 <= x < 1024 -> u32 (pgdir + 4 * x) = pgdir + 4 * x.
Proof. intros Hg Hx. pose proof (good_page_bounds pgdir Hg). apply u32_small. klia. Qed.

Lemma walkpgdir_present k pgdir ps va alloc :
  pgdir_inv (memory k) pgdir ps -> 0 <= va < 2 ^ 32 ->
  present (pde_at (memory k) pgdir (PDX va)) = true ->
  walkpgdir pgdir va alloc k = Ok (table_of (pde_at (memory k) pgdir (PDX va)) + 4 * PTX va) k.
Proof.
  intros Hi Hva Hp. destruct (PDX_eq va Hva) as [_ Hd]. destruct (PTX_eq va) as [_ Ht].
  unfold walkpgdir, ldw_k. rewrite pgdir_u32 by (done || apply Hi). msimp.
  change (ldw (memory k) (pgdir + 4 * PDX va)) with (pde_at (memory k) pgdir (PDX va)).
  unfold present in Hp. rewrite Hp. unfold ret. f_equal.
  apply pgdir_u32; [by apply (tab_good _ _ _ Hi) | done].
Qed.

Lemma walkpgdir_absent k pgdir ps va :
  pgdir_inv (memory k) pgdir ps -> 0 <= va < 2 ^ 32 ->
  present (pde_at (memory k) pgdir (PDX va)) = false -> walkpgdir pgdir va false k = Ok 0 k.
Proof.
  intros Hi Hva Hp. destruct (PDX_eq va Hva) as [_ Hd].
  unfold walkpgdir, ldw_k. rewrite pgdir_u32 by (done || apply Hi). msimp.
  unfold present, pde_at in Hp. by rewrite Hp.
Qed.

Definition add_table (pgdir x p : Z) (k : K) : K :=
  set_memory (with_table (memory k) pgdir x p) (take_page k).

Lemma walkpgdir_new k pgdir p ps va :
  kmem_ready k -> kmem_inv k (p :: ps) -> pgdir_inv (memory k) pgdir (p :: ps) ->
  0 <= va < 2 ^ 32 -> present (pde_at (memory k) pgdir (PDX va)) = false ->
  walkpgdir pgdir va true k = Ok (p + 4 * PTX va) (add_table pgdir (PDX va) p k).
Proof.
  intros Hr Hk Hi Hva Hp. destruct (PDX_eq va Hva) as [_ Hd]. destruct (PTX_eq va) as [_ Ht].
  destruct (take_page_inv k p ps Hk) as (Hf & Hp0 & _).
  assert (good_page p) as Hg by (destruct Hk as [_ _ Hg _]; by apply list.Forall_cons in Hg as [? _]).
  unfold walkpgdir, ldw_k, stw_k, upd_mem. rewrite pgdir_u32 by (done || apply Hi). msimp.
  unfold present, pde_at in Hp. rewrite Hp. cbn [negb]. cbv iota.
  mrun (kalloc_ok k Hr). rewrite Hf, (proj2 (Z.eqb_neq _ _) Hp0). msimp. unfold ret.
  rewrite pgdir_u32 by done. rewrite <-!Z.lor_assoc. reflexivity.
Qed.

Lemma walkpgdir_nomem k pgdir ps va :
  kmem_ready k -> kmem_inv k [] -> pgdir_inv (memory k) pgdir ps ->
  0 <= va < 2 ^ 32 -> present (pde_at (memory k) pgdir (PDX va)) = false ->
  walkpgdir pgdir va true k = Ok 0 k.
Proof.
  intros Hr Hk Hi Hva Hp. destruct (PDX_eq va Hva) as [_ Hd].
  unfold walkpgdir, ldw_k. rewrite pgdir_u32 by (done || apply Hi). msimp.
  unfold present, pde_at in Hp. rewrite Hp. cbn [negb]. cbv iota.
  mrun (kalloc_ok k Hr). destruct Hk as [Hc _ _ _]. cbn in Hc. by rewrite Hc.
Qed.

Lemma add_table_kmem k pgdir p ps x :
  kmem_inv k (p :: ps) -> pgdir_inv (memory k) pgdir (p :: ps) -> 0 <= x < 1024 ->
  kmem_inv (add_table pgdir x p k) ps.
Proof.
  intros Hk Hi Hx. destruct (take_page_inv k p ps Hk) as (Hf & _ & [Hc Hn Hg Hm]).
  destruct Hk as [_ Hn' Hg' _]. apply list.NoDup_cons in Hn' as [Hnp _].
  apply list.Forall_cons in Hg' as [Hgp _].
  split; cbn; [| done | done |].
  - assert (pgdir ∉ ps) as Hpg by (intros H; apply (pg_used _ _ _ Hi); by right).
    eapply (free_chain_frame (memset (memory k) p 0 PGSIZE) _ pgdir); [apply Hi | done | done | |].
    { intros a Ha. unfold with_table, stw. apply ldb_stbs_ne. rewrite le32_length. klia. }
    eapply (free_chain_frame (memory k) _ p); [done | done | done | | exact Hc].
    intros a Ha. rewrite ldb_memset by klia. by case_decide.
  - unfold with_table. by apply stw_ok, memset_ok.
Qed.
(** *** Storing an entry *)

(** The pages a page table is made of. *)
Definition pt_page (m : mem) (pgdir q : Z) : Prop :=
  q = pgdir \/
  exists i, 0 <= i < 1024 /\ present (pde_at m pgdir i) = true /\ table_of (pde_at m pgdir i) = q.

Section set_entry.
Context (m : mem) (pgdir va e : Z) (ps : list Z).
Context (Hinv : pgdir_inv m pgdir ps) (Hva : 0 <= va < 2 ^ 32) (He : is_u32 e).
Context (Hpres : present (pde_at m pgdir (PDX va)) = true).
Let t := table_of (pde_at m pgdir (PDX va)).
Let m' := stw m (t + 4 * PTX va) e.

Lemma set_entry_table : good_page t /\ (t ∉ ps) /\ t <> pgdir.
Proof. apply (tab_good _ _ _ Hinv); [by apply PDX_eq | done]. Qed.

Lemma set_entry_other a : ~ (t <= a < t + PGSIZE) -> ldb m' a = ldb m a.
Proof.
  intros Ha. destruct (PTX_eq va) as [_ Hx]. unfold m', stw. apply ldb_stbs_ne.
  rewrite le32_length. klia.
Qed.

Lemma set_entry_pde i : 0 <= i < 1024 -> pde_at m' pgdir i = pde_at m pgdir i.
Proof.
  intros Hi. destruct set_entry_table as (Hg & _ & Hne).
  pose proof (pages_apart t pgdir Hg (pg_good _ _ _ Hinv) Hne).
  apply ldw_frame. intros b Hb. apply set_entry_other. klia.
Qed.

Lemma set_entry_same : pte_of m' pgdir va = e.
Proof.
  unfold pte_of. rewrite set_entry_pde by (by apply PDX_eq). rewrite Hpres. fold t.
  unfold m'. by apply ldw_stw_same.
Qed.

Lemma set_entry_ne va' :
  0 <= va' < 2 ^ 32 -> va' / PGSIZE <> va / PGSIZE -> pte_of m' pgdir va' = pte_of m pgdir va'.
Proof.
  intros Hva' Hne. unfold pte_of. destruct (PDX_eq va Hva) as [_ Hd], (PDX_eq va' Hva') as [_ Hd'].
  destruct (PTX_eq va) as [_ Ht], (PTX_eq va') as [_ Ht'].
  rewrite set_entry_pde by done. destruct (present (pde_at m pgdir (PDX va'))) eqn:Ep; [|done].
  destruct (decide (PDX va' = PDX va)) as [Hx|Hx].
  - rewrite Hx. fold t. unfold m'. apply ldw_stw_ne.
    assert (PTX va' <> PTX va) by (intros ?; by apply Hne, page_of_indices). lia.
  - destruct set_entry_table as (Hg & _ & _). destruct (tab_good _ _ _ Hinv _ Hd' Ep) as (Hg' & _ & _).
    assert (table_of (pde_at m pgdir (PDX va')) <> t) as Hnt
      by (intros Heq; by apply Hx, (tab_inj _ _ _ Hinv)).
    pose proof (pages_apart _ _ Hg' Hg Hnt). apply ldw_frame. intros b Hb.
    apply set_entry_other. klia.
Qed.

Lemma set_entry_inv : pgdir_inv m' pgdir ps.
Proof.
  destruct Hinv as [Hg Hu Ht Hi]. split; [done | done | |].
  - intros i Hi0. rewrite set_entry_pde by done. by apply Ht.
  - intros i j Hi0 Hj0. rewrite !set_entry_pde by done. by apply Hi.
Qed.

Lemma set_entry_pt_page q : pt_page m' pgdir q <-> pt_page m pgdir q.
Proof.
  unfold pt_page. f_equiv. apply exist_proper. intros i.
  split; intros (Hi & H1 & H2); rewrite set_entry_pde in * by done; done.
Qed.
End set_entry.

(** *** Mapping a page *)

(** [k'] is [k] with the page of [va] mapped by the entry [e]. *)
Record page_mapped (pgdir va e : Z) (k : K) (ps : list Z) (k' : K) (ps' : list Z) : Prop := {
  mp_kmem : kmem_inv k' ps';
  mp_inv : pgdir_inv (memory k') pgdir ps';
  mp_new : pte_of (memory k') pgdir va = e;
  mp_old va' : 0 <= va' < 2 ^ 32 -> va' / PGSIZE <> va / PGSIZE ->
    pte_of (memory k') pgdir va' = pte_of (memory k) pgdir va';
  mp_free : ps' = ps \/ exists p, ps = p :: ps';
  mp_data q : good_page q -> q ∉ ps -> ~ pt_page (memory k) pgdir q ->
    ~ pt_page (memory k') pgdir q /\
    forall a, q <= a < q + PGSIZE -> ldb (memory k') a = ldb (memory k) a;
  mp_frame : k' = set_freelist (freelist k') (set_memory (memory k') k) }.

Lemma set_entry_kmem k pgdir va e ps :
  pgdir_inv (memory k) pgdir ps -> 0 <= va < 2 ^ 32 ->
  present (pde_at (memory k) pgdir (PDX va)) = true -> kmem_inv k ps ->
  kmem_inv (set_memory (stw (memory k)
    (table_of (pde_at (memory k) pgdir (PDX va)) + 4 * PTX va) e) k) ps.
Proof.
  intros Hi Hva Hp [Hc Hn Hg Hm]. destruct (set_entry_table (memory k) pgdir va ps) as (H1 & H2 & _);
    try done.
  split; cbn; [| done | done | by apply stw_ok].
  eapply free_chain_frame; [exact H1 | done | done | | exact Hc].
  intros a Ha. by apply set_entry_other.
Qed.

Lemma store_entry_mapped k pgdir va e ps :
  kmem_inv k ps -> pgdir_inv (memory k) pgdir ps -> 0 <= va < 2 ^ 32 -> is_u32 e ->
  present (pde_at (memory k) pgdir (PDX va)) = true ->
  page_mapped pgdir va e k ps
    (set_memory (stw (memory k) (table_of (pde_at (memory k) pgdir (PDX va)) + 4 * PTX va) e) k) ps.
Proof.
  intros Hk Hi Hva He Hp. split.
  - by apply set_entry_kmem.
  - by apply set_entry_inv.
  - by apply (set_entry_same (memory k) pgdir va e ps).
  - intros va' Hva' Hne. by apply (set_entry_ne (memory k) pgdir va e ps).
  - by left.
  - intros q Hq Hqs Hnt. cbn [memory set_memory].
    rewrite (set_entry_pt_page (memory k) pgdir va e ps) by done. split; [done|].
    intros a Ha. apply set_entry_other.
    destruct (set_entry_table (memory k) pgdir va ps) as (H1 & _ & _); try done.
    assert (q <> table_of (pde_at (memory k) pgdir (PDX va))) as Hqt.
    { intros ->. apply Hnt. right. exists (PDX va). by split_and!; [apply PDX_eq | apply PDX_eq | |]. }
    pose proof (pages_apart _ _ Hq H1 Hqt). klia.
  - by destruct k.
Qed.

Lemma mappages_one pgdir va pa perm :
  0 <= va < 2 ^ 32 -> va mod PGSIZE = 0 ->
  mappages pgdir va PGSIZE pa perm = mappages_loop 1 pgdir va va pa perm.
Proof.
  intros Hva Hal. apply Z.mod_divide in Hal as [x Hx]; [|done].
  assert (PGROUNDDOWN va = va) as Ha.
  { rewrite PGROUNDDOWN_eq, Hx, Z.mod_mul by done. lia. }
  assert (PGROUNDDOWN (u32 (va + PGSIZE - 1)) = va) as Hl.
  { rewrite u32_small by klia. rewrite PGROUNDDOWN_eq. subst va.
    replace (x * PGSIZE + PGSIZE - 1) with (PGSIZE - 1 + x * PGSIZE) by lia.
    rewrite Z_mod_plus_full, (Z.mod_small (PGSIZE - 1)) by klia. lia. }
  unfold mappages. rewrite Ha, Hl, Z.sub_diag. done.
Qed.

Lemma entry_u32 pa perm :
  is_u32 pa -> pa mod PGSIZE = 0 -> 0 <= perm < PGSIZE -> is_u32 (Z.lor (Z.lor pa perm) PTE_P).
Proof.
  intros Hpa Hal Hpe. rewrite <-Z.lor_assoc.
  assert (0 <= Z.lor perm PTE_P < PGSIZE) as Hl.
  { split; [apply Z.lor_nonneg; unfold PTE_P; lia|]. change PGSIZE with (2 ^ 12).
    destruct (decide (perm = 0)) as [->|]; [done|].
    apply Z.log2_lt_pow2; [|rewrite Z.log2_lor by (unfold PTE_P; lia)].
    - assert (0 <= Z.lor perm PTE_P) by (apply Z.lor_nonneg; unfold PTE_P; lia).
      destruct (Z.eq_dec (Z.lor perm PTE_P) 0) as [H0|]; [|lia].
      apply Z.lor_eq_0_iff in H0 as [? ?]. done.
    - apply Z.max_lub_lt; [|done]. apply Z.log2_lt_pow2; [lia | klia]. }
  rewrite lor_flags by done. apply Z.mod_divide in Hal as [x ->]; [|done]. klia.
Qed.

Lemma add_table_ready k pgdir x p : kmem_ready k -> kmem_ready (add_table pgdir x p k).
Proof. apply (kmem_ready_framed (add_table pgdir x p)); done. Qed.

(** The page table after a new table has been added and an entry stored. *)
Lemma add_table_mapped k pgdir va e p ps :
  kmem_inv k (p :: ps) -> pgdir_inv (memory k) pgdir (p :: ps) -> 0 <= va < 2 ^ 32 -> is_u32 e ->
  present (pde_at (memory k) pgdir (PDX va)) = false ->
  page_mapped pgdir va e k (p :: ps)
    (set_memory (stw (memory (add_table pgdir (PDX va) p k)) (p + 4 * PTX va) e)
      (add_table pgdir (PDX va) p k)) ps.
Proof.
  intros Hk Hi Hva He Hab. destruct (PDX_eq va Hva) as [_ Hx].
  pose proof Hk as [_ Hn Hg _]. apply list.NoDup_cons in Hn as [Hn _].
  apply list.Forall_cons in Hg as [Hg _]. set (k1 := add_table pgdir (PDX va) p k).
  pose proof (add_table_kmem k pgdir p ps (PDX va) Hk Hi Hx) as Hk1.
  pose proof (with_table_inv (memory k) pgdir (PDX va) p ps Hi Hg Hn Hx) as Hi1.
  pose proof (with_table_pde (memory k) pgdir (PDX va) p ps Hi Hg) as Hpde.
  destruct (table_entry_ok p Hg) as (_ & Hpr & Htp).
  assert (pde_at (memory k1) pgdir (PDX va) = table_entry p) as Hd
    by (unfold k1; cbn; rewrite Hpde by done; by rewrite decide_True).
  pose proof (store_entry_mapped k1 pgdir va e ps Hk1 Hi1 Hva He ltac:(by rewrite Hd)) as Hm.
  rewrite Hd, Htp in Hm. destruct Hm as [H1 H2 H3 H4 H5 H6 H7]. split; try done.
  - intros va' Hva' Hne. rewrite H4 by done. by apply (with_table_pte (memory k) pgdir _ p ps).
  - right. by exists p.
  - intros q Hq Hqs Hnt. assert (q <> p /\ q <> pgdir) as [Hqp Hqg].
    { split; [intros ->; apply Hqs; by left | intros ->; apply Hnt; by left]. }
    destruct (H6 q Hq) as [Ha Hb].
    + intros H. apply Hqs. by right.
    + intros [?|(i & Hi0 & Hp0 & Ht0)]; [done|]. unfold k1 in Hp0, Ht0. cbn in Hp0, Ht0.
      rewrite Hpde in Hp0, Ht0 by done. case_decide; [congruence|].
      apply Hnt. right. by exists i.
    + split; [done|]. intros a Ha0. rewrite Hb by done. unfold k1. cbn.
      pose proof (pages_apart q p Hq Hg Hqp). pose proof (pages_apart q pgdir Hq (pg_good _ _ _ Hi) Hqg).
      apply with_table_other; klia.
Qed.

(** mappages of one page installs the entry, allocating a table when the
    directory has none, and leaves every other translation and every other
    page alone; it fails, changing nothing, only when it needs a table and no
    page is free. *)
Lemma mappages_page pgdir va pa perm k ps :
  kmem_ready k -> kmem_inv k ps -> pgdir_inv (memory k) pgdir ps ->
  0 <= va < 2 ^ 32 -> va mod PGSIZE = 0 ->
  is_u32 pa -> pa mod PGSIZE = 0 -> 0 <= perm < PGSIZE ->
  present (pte_of (memory k) pgdir va) = false ->
  (mappages pgdir va PGSIZE pa perm k = Ok (-1) k /\ ps = []) \/
  (exists k' ps', mappages pgdir va PGSIZE pa perm k = Ok 0 k' /\
     page_mapped pgdir va (Z.lor (Z.lor pa perm) PTE_P) k ps k' ps').
Proof.
  intros Hr Hk Hi Hva Hal Hpa Hpal Hpe Hnp. rewrite mappages_one by done.
  pose proof (entry_u32 pa perm Hpa Hpal Hpe) as He. set (e := Z.lor (Z.lor pa perm) PTE_P) in *.
  cbn [mappages_loop]. destruct (present (pde_at (memory k) pgdir (PDX va))) eqn:Ep.
  - right. exists (set_memory (stw (memory k)
      (table_of (pde_at (memory k) pgdir (PDX va)) + 4 * PTX va) e) k), ps.
    split; [|by apply store_entry_mapped].
    destruct (tab_good _ _ _ Hi _ (proj2 (PDX_eq va Hva)) Ep) as (Hg & _).
    destruct (PTX_eq va) as [_ Hx]. pose proof (good_page_bounds _ Hg).
    mrun (walkpgdir_present k pgdir ps va true Hi Hva Ep).
    rewrite (proj2 (Z.eqb_neq _ _)) by klia. unfold ldw_k, stw_k, upd_mem. msimp.
    unfold pte_of in Hnp. rewrite Ep in Hnp. unfold present in Hnp. rewrite Hnp. msimp.
    by rewrite Z.eqb_refl.
  - destruct ps as [|p ps].
    + left. split; [|done]. by mrun (walkpgdir_nomem k pgdir [] va Hr Hk Hi Hva Ep).
    + right. eexists _, ps. split; [|by apply add_table_mapped].
      pose proof Hk as [_ Hn Hg _]. apply list.NoDup_cons in Hn as [Hn _].
      apply list.Forall_cons in Hg as [Hg _].
      destruct (PTX_eq va) as [_ Hx]. pose proof (good_page_bounds _ Hg).
      mrun (walkpgdir_new k pgdir p ps va Hr Hk Hi Hva Ep).
      rewrite (proj2 (Z.eqb_neq _ _)) by klia. unfold ldw_k, stw_k, upd_mem. msimp.
      assert (ldw (memory (add_table pgdir (PDX va) p k)) (p + 4 * PTX va) = 0) as ->.
      { apply ldw_zero. intros b Hb.
        apply (with_table_zero (memory k) pgdir (PDX va) p ps); [done | done | | klia].
        by apply PDX_eq. }
      cbn. msimp. by rewrite Z.eqb_refl.
Qed.

(** *** Growing a process *)

(** [k'] is [k] with [n] fresh zeroed pages mapped from [a] on. *)
Record grown (pgdir a : Z) (n : nat) (k : K) (ps : list Z) (k' : K) (ps' : list Z) : Prop := {
  gr_kmem : kmem_inv k' ps';
  gr_inv : pgdir_inv (memory k') pgdir ps';
  gr_new i : (i < n)%nat -> exists pg, good_page pg /\ pg ∈ ps /\ (pg ∉ ps') /\
    pte_of (memory k') pgdir (a + Z.of_nat i * PGSIZE) = Z.lor (V2P pg) 7 /\
    ~ pt_page (memory k') pgdir pg /\
    forall b, pg <= b < pg + PGSIZE -> ldb (memory k') b = 0;
  gr_inj i j : (i < j < n)%nat ->
    pte_of (memory k') pgdir (a + Z.of_nat i * PGSIZE) <>
    pte_of (memory k') pgdir (a + Z.of_nat j * PGSIZE);
  gr_old va : 0 <= va < 2 ^ 32 -> ~ (a <= va < a + Z.of_nat n * PGSIZE) ->
    pte_of (memory k') pgdir va = pte_of (memory k) pgdir va;
  gr_sub q : q ∈ ps' -> q ∈ ps;
  gr_data q : good_page q -> q ∉ ps -> ~ pt_page (memory k) pgdir q ->
    ~ pt_page (memory k') pgdir q /\
    forall b, q <= b < q + PGSIZE -> ldb (memory k') b = ldb (memory k) b;
  gr_frame : k' = set_freelist (freelist k') (set_memory (memory k') k) }.

(** A page fresh from the allocator, zeroed. *)
Definition zeroed (p : Z) (k : K) : K := set_memory (memset (memory k) p 0 PGSIZE) (take_page k).

Lemma zeroed_mem p k a :
  ldb (memory (zeroed p k)) a = if decide (p <= a < p + PGSIZE) then 0 else ldb (memory k) a.
Proof. cbn. rewrite ldb_memset by klia. by case_decide. Qed.

Lemma zeroed_facts k pgdir p ps :
  kmem_inv k (p :: ps) -> pgdir_inv (memory k) pgdir (p :: ps) ->
  kmem_inv (zeroed p k) ps /\ pgdir_inv (memory (zeroed p k)) pgdir ps /\
  (forall va, 0 <= va < 2 ^ 32 ->
     pte_of (memory (zeroed p k)) pgdir va = pte_of (memory k) pgdir va) /\
  (forall q, pt_page (memory (zeroed p k)) pgdir q <-> pt_page (memory k) pgdir q) /\
  ~ pt_page (memory (zeroed p k)) pgdir p.
Proof.
  intros Hk Hi. destruct (take_page_inv k p ps Hk) as (Hf & Hp0 & [Hc Hn Hg Hm]).
  destruct Hk as [_ Hn' Hg' _]. apply list.NoDup_cons in Hn' as [Hnp _].
  apply list.Forall_cons in Hg' as [Hgp _].
  assert (forall a, ~ (p <= a < p + PGSIZE) -> ldb (memory (zeroed p k)) a = ldb (memory k) a) as Hfr
    by (intros a Ha; rewrite zeroed_mem; by case_decide).
  assert (p ∈ p :: ps) as Hin by left.
  destruct (tables_frame (memory k) (memory (zeroed p k)) pgdir _ p Hi Hgp Hin Hfr) as [Hpde Hpte].
  assert (forall q, pt_page (memory (zeroed p k)) pgdir q <-> pt_page (memory k) pgdir q) as Hpt.
  { intros q. unfold pt_page. f_equiv. apply exist_proper. intros i.
    split; intros (H0 & H1 & H2); rewrite Hpde in * by done; done. }
  split_and!; [| | done | done |].
  - split; cbn; [| done | done | by apply memset_ok].
    eapply free_chain_frame; [exact Hgp | done | done | exact Hfr | exact Hc].
  - apply pgdir_inv_sub with (p := p). eapply pgdir_inv_frame; [exact Hi | exact Hgp | left | exact Hfr].
  - rewrite Hpt. intros [->|(i & H0 & H1 & H2)].
    + by apply (pg_used _ _ _ Hi).
    + destruct (tab_good _ _ _ Hi i H0 H1) as (_ & H & _). by rewrite H2 in H.
Qed.

Lemma V2P_inj p q : good_page p -> good_page q -> V2P p = V2P q -> p = q.
Proof.
  intros Hp Hq H. rewrite <-(P2V_V2P p), <-(P2V_V2P q) by (apply Hp || apply Hq). by rewrite H.
Qed.

Lemma user_entry_inj p q :
  good_page p -> good_page q -> Z.lor (V2P p) 7 = Z.lor (V2P q) 7 -> p = q.
Proof.
  intros Hp Hq H. destruct (table_entry_ok p Hp) as (_ & _ & <-), (table_entry_ok q Hq) as (_ & _ & <-).
  unfold table_entry. by rewrite H.
Qed.

(** One round of allocuvm: a zeroed page is mapped at [a]. *)
Lemma grow_one pgdir a k p ps :
  kmem_ready k -> kmem_inv k (p :: ps) -> pgdir_inv (memory k) pgdir (p :: ps) -> ps <> [] ->
  0 <= a < 2 ^ 32 -> a mod PGSIZE = 0 -> present (pte_of (memory k) pgdir a) = false ->
  exists k' ps', mappages pgdir a PGSIZE (V2P p) (Z.lor PTE_W PTE_U) (zeroed p k) = Ok 0 k' /\
    grown pgdir a 1 k (p :: ps) k' ps' /\ (length ps <= S (length ps'))%nat.
Proof.
  intros Hr Hk Hi Hne Ha Hal Hnp. pose proof Hk as [_ Hn Hg _].
  apply list.NoDup_cons in Hn as [Hn _]. apply list.Forall_cons in Hg as [Hgp _].
  destruct (zeroed_facts k pgdir p ps Hk Hi) as (Hk1 & Hi1 & Hpte & Hpt & Hnpt).
  destruct (mappages_page pgdir a (V2P p) (Z.lor PTE_W PTE_U) (zeroed p k) ps)
    as [[_ ?]|(k' & ps' & Hmap & [H1 H2 H3 H4 H5 H6 H7])]; try done.
  - apply u32_bound.
  - apply V2P_aligned, Hgp.
  - by rewrite Hpte.
  - assert (forall q, q ∈ ps' -> q ∈ ps) as Hsub.
    { destruct H5 as [->|[p' ->]]; [done | intros; by right]. }
    assert (length ps <= S (length ps'))%nat as Hlen by (destruct H5 as [->|[p' ->]]; cbn; lia).
    rewrite <-Z.lor_assoc in H3. change (Z.lor (Z.lor PTE_W PTE_U) PTE_P) with 7 in H3.
    destruct (H6 p Hgp Hn Hnpt) as [Hp1 Hp2].
    exists k', ps'. split; [done|]. split; [split|done]; try done.
    + intros i Hi0. assert (i = 0%nat) as -> by lia. exists p. rewrite Z.mul_0_l, Z.add_0_r.
      split_and!; [done | left | intros ?; by apply Hn, Hsub | done | done |].
      intros b Hb. rewrite Hp2, zeroed_mem by done. by case_decide.
    + intros i j. lia.
    + intros va Hva Hout. rewrite H4; [by apply Hpte | done |].
      intros Heq. apply Hout. pose proof (Z.div_mod va PGSIZE) as Hdm.
      pose proof (Z.mod_pos_bound va PGSIZE). pose proof (Z.div_mod a PGSIZE). klia.
    + intros q Hq. right. by apply Hsub.
    + intros q Hq Hqs Hnq. destruct (H6 q Hq) as [Hq1 Hq2].
      * intros ?. apply Hqs. by right.
      * by rewrite Hpt.
      * split; [done|]. intros b Hb. rewrite Hq2, zeroed_mem by done. case_decide; [|done].
        assert (q <> p) as Hqp by (intros ->; apply Hqs; left).
        pose proof (pages_apart q p Hq Hgp Hqp). klia.
Qed.

Lemma grown_zero pgdir a k ps :
  kmem_inv k ps -> pgdir_inv (memory k) pgdir ps -> grown pgdir a 0 k ps k ps.
Proof. intros Hk Hi. split; try done; try (intros; lia). by destruct k. Qed.

(** Growing by one page and then by [n] more. *)
Lemma grown_cons pgdir a n k ps k1 ps1 k2 ps2 :
  0 <= a -> a + Z.of_nat (S n) * PGSIZE < 2 ^ 32 ->
  grown pgdir a 1 k ps k1 ps1 -> grown pgdir (a + PGSIZE) n k1 ps1 k2 ps2 ->
  grown pgdir a (S n) k ps k2 ps2.
Proof.
  intros Ha Hlim [K1 I1 N1 J1 O1 S1 D1 F1] [K2 I2 N2 J2 O2 S2 D2 F2].
  destruct (N1 0%nat ltac:(lia)) as (p & Hp & Hps & Hps1 & He & Hnt & Hz).
  rewrite Z.mul_0_l, Z.add_0_r in He.
  assert (forall i, a + PGSIZE + Z.of_nat i * PGSIZE = a + Z.of_nat (S i) * PGSIZE) as Hsh by klia.
  assert (pte_of (memory k2) pgdir a = Z.lor (V2P p) 7) as Hfirst by (rewrite O2; [done | klia | klia]).
  destruct (D2 p Hp Hps1 Hnt) as [Hnt2 Hz2]. split; try done.
  - intros [|i] Hi.
    + exists p. rewrite Z.mul_0_l, Z.add_0_r. split_and!; try done.
      * intros H. by apply Hps1, S2.
      * intros b Hb. by rewrite Hz2, Hz.
    + destruct (N2 i ltac:(lia)) as (q & Hq & H1 & H2 & H3 & H4 & H5). rewrite Hsh in H3.
      exists q. split_and!; try done. by apply S1.
  - intros [|i] [|j] Hij; [lia | | lia |].
    + rewrite Z.mul_0_l, Z.add_0_r, Hfirst, <-Hsh.
      destruct (N2 j ltac:(lia)) as (q & Hq & H1 & _ & -> & _). intros Heq.
      apply user_entry_inj in Heq as ->; done.
    + rewrite <-!Hsh. apply J2. lia.
  - intros va Hva Hout. rewrite O2, O1; [done | done | klia | done | klia].
  - intros q Hq. by apply S1, S2.
  - intros q Hq Hqs Hnq. destruct (D1 q Hq Hqs Hnq) as [Hd1 Hd2].
    assert (q ∉ ps1) as Hq1 by (intros H; by apply Hqs, S1).
    destruct (D2 q Hq Hq1 Hd1) as [Hd3 Hd4]. split; [done|]. intros b Hb. by rewrite Hd4, Hd2.
  - rewrite F2, F1. done.
Qed.

Lemma allocuvm_loop_ok n pgdir oldsz newsz : forall fuel a k ps,
  (n <= fuel)%nat -> 0 <= a -> a mod PGSIZE = 0 ->
  newsz <= a + Z.of_nat n * PGSIZE -> ((0 < n)%nat -> a + Z.of_nat n * PGSIZE < newsz + PGSIZE) ->
  newsz < KERNBASE -> kmem_ready k -> kmem_inv k ps -> pgdir_inv (memory k) pgdir ps ->
  (2 * n <= length ps)%nat ->
  (forall i, (i < n)%nat -> present (pte_of (memory k) pgdir (a + Z.of_nat i * PGSIZE)) = false) ->
  exists k' ps', allocuvm_loop fuel pgdir a oldsz newsz k = Ok newsz k' /\
    grown pgdir a n k ps k' ps'.
Proof.
  induction n as [|n IH]; intros fuel a k ps Hf Ha Hal Hlo Hhi Hnk Hr Hk Hi Hlen Hnp.
  - exists k, ps. split; [|by apply grown_zero].
    destruct fuel; cbn [allocuvm_loop]; by rewrite (proj2 (Z.ltb_ge _ _)) by klia.
  - destruct fuel as [|fuel]; [lia|]. specialize (Hhi ltac:(lia)). cbn [allocuvm_loop].
    destruct ps as [|p ps]; [cbn in Hlen; lia|]. cbn [length] in Hlen.
    rewrite (proj2 (Z.ltb_lt a newsz)) by klia. cbn [negb]. cbv iota.
    destruct (take_page_inv k p ps Hk) as (Hfl & Hp0 & _).
    destruct (grow_one pgdir a k p ps) as (k1 & ps1 & Hmap & Hg1 & Hl1); try done.
    + intros ->. cbn in Hlen. lia.
    + klia.
    + specialize (Hnp 0%nat ltac:(lia)). by rewrite Z.mul_0_l, Z.add_0_r in Hnp.
    + destruct (IH fuel (u32 (a + PGSIZE)) k1 ps1) as (k2 & ps2 & Hrun & Hg2);
        rewrite ?(u32_small (a + PGSIZE)) in * by klia; try klia.
      * rewrite Z.add_mod, Hal by done. done.
      * rewrite (gr_frame _ _ _ _ _ _ _ Hg1).
        by apply (kmem_ready_framed (fun k => set_freelist (freelist k1) (set_memory (memory k1) k))).
      * apply Hg1.
      * apply Hg1.
      * intros i Hi0. rewrite (gr_old _ _ _ _ _ _ _ Hg1) by klia.
        replace (a + PGSIZE + Z.of_nat i * PGSIZE) with (a + Z.of_nat (S i) * PGSIZE) by klia.
        apply Hnp. lia.
      * exists k2, ps2. split; [|apply (grown_cons pgdir a n k (p :: ps) k1 ps1); (done || klia)].
        mrun (kalloc_ok k Hr). rewrite Hfl, (proj2 (Z.eqb_neq _ _) Hp0). unfold upd_mem. msimp.
        change (set_memory _ (take_page k)) with (zeroed p k). mrun Hmap.
        exact Hrun.
Qed.

(** C25. allocuvm, when memory suffices, maps every page between the old and the
    new size to its own fresh zeroed page, user accessible and writable, and
    changes no other translation. *)
Theorem allocuvm_spec pgdir oldsz newsz n k ps :
  kmem_ready k -> kmem_inv k ps -> pgdir_inv (memory k) pgdir ps ->
  0 <= oldsz <= newsz -> newsz < KERNBASE ->
  n = Z.to_nat ((PGROUNDUP newsz - PGROUNDUP oldsz) / PGSIZE) -> (2 * n <= length ps)%nat ->
  (forall va, PGROUNDUP oldsz <= va < PGROUNDUP newsz ->
     present (pte_of (memory k) pgdir va) = false) ->
  exists k' ps', allocuvm pgdir oldsz newsz k = Ok newsz k' /\
    grown pgdir (PGROUNDUP oldsz) n k ps k' ps'.
Proof.
  intros Hr Hk Hi Hsz Hnk Hn Hlen Hnp.
  destruct (PGROUNDUP_bounds oldsz ltac:(lia) ltac:(klia)) as [Ho1 Ho2].
  destruct (PGROUNDUP_bounds newsz ltac:(lia) ltac:(klia)) as [Hn1 Hn2].
  set (a := PGROUNDUP oldsz) in *. set (b := PGROUNDUP newsz) in *.
  assert (b = a + Z.of_nat n * PGSIZE) as Hb.
  { apply Z.mod_divide in Ho2 as [x Hx]; [|done]. apply Z.mod_divide in Hn2 as [y Hy]; [|done].
    rewrite Hn, Hx, Hy, <-Z.mul_sub_distr_r, Z.div_mul by done. klia. }
  unfold allocuvm. rewrite (proj2 (Z.leb_gt _ _) Hnk), (proj2 (Z.ltb_ge _ _)) by lia. fold a.
  apply (allocuvm_loop_ok n); try done; try klia.
  - pose proof (Z.div_mod (newsz - a) PGSIZE). pose proof (Z.mod_pos_bound (newsz - a) PGSIZE). klia.
  - intros i Hi0. apply Hnp. klia.
Qed.
End spec.

(** An empty directory and two free pages. *)
Definition sample_pgdir : Z := sample_page + 2 * PGSIZE.
Definition sample_vm : K :=
  set_memory (stw ∅ sample_page (sample_page + PGSIZE)) sample_kmem.

Lemma sample_vm_good i : 0 <= i < 100 -> @good_page sample_layout (sample_page + i * PGSIZE).
Proof.
  intros H. unfold good_page, V2P. cbn [end_ sample_layout].
  assert (u32 (sample_page + i * PGSIZE - KERNBASE) = sample_page + i * PGSIZE - KERNBASE) as ->
    by (apply u32_small; unfold sample_page; klia).
  split_and!; try (unfold sample_page; klia).
  unfold sample_page. change (KERNBASE + 2097152) with (524800 * PGSIZE).
  rewrite <-Z.mul_add_distr_r. by apply Z.mod_mul.
Qed.

Lemma sample_vm_inv :
  @kmem_inv sample_layout sample_vm [sample_page; sample_page + PGSIZE] /\
  @pgdir_inv sample_layout (memory sample_vm) sample_pgdir [sample_page; sample_page + PGSIZE].
Proof.
  pose proof (sample_vm_good 0 ltac:(lia)) as H0. rewrite Z.mul_0_l, Z.add_0_r in H0.
  pose proof (sample_vm_good 1 ltac:(lia)) as H1. rewrite Z.mul_1_l in H1.
  assert (forall a, sample_page + 4 <= a -> ldb (memory sample_vm) a = 0) as Hz.
  { intros a Ha. cbn [memory sample_vm set_memory]. unfold stw. rewrite ldb_stbs_ne; [done|].
    rewrite le32_length. lia. }
  assert (forall i, 0 <= i < 1024 -> pde_at (memory sample_vm) sample_pgdir i = 0) as Hpde.
  { intros i Hi. apply ldw_zero. intros b Hb. apply Hz. unfold sample_pgdir in *. klia. }
  split; split.
  - cbn [free_chain]. split_and!; [done | | ].
    + cbn [memory sample_vm set_memory]. apply ldw_stw_same. apply H1.
    + apply ldw_zero. intros b Hb. apply Hz. klia.
  - by apply (bool_decide_unpack _).
  - repeat constructor; done.
  - apply stw_ok, map_Forall_empty.
  - exact (sample_vm_good 2 ltac:(lia)).
  - by apply (bool_decide_unpack _).
  - intros i Hi. by rewrite Hpde.
  - intros i j Hi Hj. by rewrite Hpde.
Qed.

Lemma allocuvm_spec_witness :
  exists k' ps', @allocuvm idle_env sample_layout sample_pgdir 0 100 sample_vm = Ok 100 k' /\
    @grown sample_layout sample_pgdir 0 1 sample_vm [sample_page; sample_page + PGSIZE] k' ps'.
Proof.
  destruct sample_vm_inv as [Hk Hi].
  apply (@allocuvm_spec idle_env sample_layout sample_layout_ok sample_pgdir 0 100 1 sample_vm
           [sample_page; sample_page + PGSIZE]).
  - apply (kmem_ready_framed (set_memory (memory sample_vm)) sample_kmem); [apply _ | done |].
    apply sample_kmem_ready.
  - exact Hk.
  - exact Hi.
  - lia.
  - klia.
  - reflexivity.
  - cbn. lia.
  - intros va Hva. unfold pte_of. assert (0 <= va < 4096) as Hv by exact Hva.
    destruct (PDX_eq va ltac:(lia)) as [_ Hd]. unfold pde_at.
    rewrite ldw_zero; [done|]. intros b Hb. cbn [memory sample_vm set_memory]. unfold stw.
    rewrite ldb_stbs_ne; [done|]. rewrite le32_length. unfold sample_pgdir in Hb. klia.
Defined.
