(* ===== verification/Disk.v ===== *)
(** * The disk (ide.c and memide.c)

    Both drivers promise the same thing: iderw brings a locked buffer in sync
    with the disk.  [Disk] is the interface that the buffer cache is written
    against, and [DiskOk] the promise.  memide.c, the in-memory disk, is shown
    to keep it; ide.c, whose requests complete in an interrupt handler, is
    modelled with its queue. *)

From Stdlib Require Import ZArith Lia.
From stdpp Require Import base gmap list strings numbers.
From S2P Require Import Prelude Strings State Spinlock Sched.

Open Scope Z_scope.

(** A block that has never been written reads as zeroes. *)
Definition dblock (k : K) (dev blockno : Z) : list Z :=
  default (replicate (Z.to_nat BSIZE) 0) (disk k !! (dev, blockno)).
Definition disk_write (dev blockno : Z) (data : list Z) (k : K) : K :=
  set_k_dwrites (k_dwrites k ++ [(dev, blockno, data)])
    (set_disk (<[(dev, blockno) := data]> (disk k)) k).

Class Disk := iderw : nat -> KM unit.

(** What iderw promises: a dirty buffer is written out, another one read in. *)
Definition synced (i : nat) (b : buf) (k : K) : K :=
  if Zb (Z.land (b_flags b) B_DIRTY) then
    disk_write (b_dev b) (b_blockno b) (b_data b)
      (set_bcache (<[i := set_b_flags (Z.lor (Z.land (b_flags b) (Z.lnot B_DIRTY)) B_VALID) b]> (bcache k)) k)
  else
    set_bcache (<[i := set_b_flags (Z.lor (b_flags b) B_VALID)
                        (set_b_data (dblock k (b_dev b) (b_blockno b)) b)]> (bcache k)) k.

Class DiskOk (D : Disk) := {
  on_disk : Z -> Z -> Prop;
  iderw_ok i b pr k :
    quiet k -> running k pr -> lock_free (L_sleep (SL_buf i)) k -> lock_free L_idelock k ->
    lock_free L_ptable k -> sleeplocks k !! SL_buf i = Some (mk_sleeplock 1 (pid pr)) ->
    bcache k !! i = Some b -> Z.land (b_flags b) (Z.lor B_VALID B_DIRTY) <> B_VALID ->
    on_disk (b_dev b) (b_blockno b) -> iderw i k = Ok tt (synced i b k) }.

(** ** memide.c *)

Module memide.
Section code.
Context `{E : Env}.

(** [disksize] is set by ideinit from the linked image. *)
Definition iderw (disksize : Z) (i : nat) : KM unit :=
  let* h := holdingsleep (SL_buf i) in
  if negb h then panic "iderw: buf not locked"
  else
    let* b := get_buf i in
    if Z.land (b_flags b) (Z.lor B_VALID B_DIRTY) =? B_VALID then panic "iderw: nothing to do"
    else if negb (b_dev b =? 1) then panic "iderw: request not for disk 1"
    else if disksize <=? b_blockno b then panic "iderw: block out of range"
    else
      (if Zb (Z.land (b_flags b) B_DIRTY) then
         upd_buf i (fun b => set_b_flags (Z.land (b_flags b) (Z.lnot B_DIRTY)) b) ;;;
         modify (disk_write (b_dev b) (b_blockno b) (b_data b))
       else
         let* data := reads (fun k => dblock k (b_dev b) (b_blockno b)) in
         upd_buf i (set_b_data data)) ;;;
      upd_buf i (fun b => set_b_flags (Z.lor (b_flags b) B_VALID) b).

Definition ideintr : KM unit := ret tt.
End code.
End memide.

Lemma alter_list_insert {A} (f : A -> A) i x (l : list A) :
  l !! i = Some x -> alter f i l = <[i := f x]> l.
Proof.
  intros H. apply list_eq. intros j. destruct (decide (i = j)) as [<-|].
  - rewrite list_lookup_alter_eq, H, list_lookup_insert_eq; [done | by eapply lookup_lt_Some].
  - by rewrite list_lookup_alter_ne, list_lookup_insert_ne.
Qed.

Lemma get_buf_ok i b k : bcache k !! i = Some b -> get_buf i k = Ok b k.
Proof. intros H. unfold get_buf. msimp. by rewrite H. Qed.
Lemma upd_buf_ok i f b k :
  bcache k !! i = Some b -> upd_buf i f k = Ok tt (set_bcache (<[i := f b]> (bcache k)) k).
Proof. intros H. unfold upd_buf, modify. by rewrite (alter_list_insert f i b). Qed.

Section memide_ok.
Context `{E : Env} (disksize : Z).

(** The driver of memide.c keeps the promise for the blocks of its image. *)
#[local] Instance memide_disk : Disk := memide.iderw disksize.

Lemma memide_sync i b pr k :
  quiet k -> running k pr -> lock_free (L_sleep (SL_buf i)) k ->
  sleeplocks k !! SL_buf i = Some (mk_sleeplock 1 (pid pr)) ->
  bcache k !! i = Some b -> Z.land (b_flags b) (Z.lor B_VALID B_DIRTY) <> B_VALID ->
  b_dev b = 1 -> b_blockno b < disksize -> memide.iderw disksize i k = Ok tt (synced i b k).
Proof.
  intros Hq Hr Hl Hs Hb Hf Hd Hn. unfold memide.iderw.
  mrun (holdingsleep_ok _ _ _ _ Hq Hl Hr Hs). cbn [sl_locked sl_pid]. rewrite Z.eqb_refl.
  change (Zb 1 && true) with true. cbn [negb]. cbv iota.
  mrun (get_buf_ok i b k Hb). rewrite (proj2 (Z.eqb_neq _ _) Hf), Hd, Z.eqb_refl.
  cbn [negb]. cbv iota. rewrite (proj2 (Z.leb_gt _ _) Hn).
  assert (i < length (bcache k))%nat as Hlt by (by eapply lookup_lt_Some).
  unfold synced. destruct (Zb (Z.land (b_flags b) B_DIRTY)); msimp.
  - mrun (upd_buf_ok i (fun b => set_b_flags (Z.land (b_flags b) (Z.lnot B_DIRTY)) b) b k Hb). msimp.
    erewrite upd_buf_ok by (cbn; by rewrite list_lookup_insert_eq).
    cbn [bcache set_bcache disk_write set_k_dwrites set_disk]. rewrite list_insert_insert_eq.
    by rewrite Hd.
  - mrun (upd_buf_ok i (set_b_data (dblock k 1 (b_blockno b))) b k Hb).
    erewrite upd_buf_ok by (cbn; by rewrite list_lookup_insert_eq).
    cbn [bcache set_bcache]. rewrite list_insert_insert_eq. by rewrite Hd.
Qed.

#[local] Instance memide_ok : DiskOk memide_disk.
Proof.
  refine {| on_disk := fun d n => d = 1 /\ n < disksize |}.
  intros i b pr k Hq Hr Hl _ _ Hs Hb Hf [Hd Hn]. by eapply memide_sync.
Defined.
End memide_ok.

(** ** ide.c

    The controller is seen through its registers: the selected drive and
    sector, and the status that [inb(0x1f7)] reads once the drive is ready,
    which only the hardware determines. *)

Module ide.
Definition IDE_DF : Z := 32.
Definition IDE_ERR : Z := 1.

Section code.
Context `{E : Env} (ide_status : K -> Z).

Definition idewait (checkerr : bool) : KM Z :=
  let* r := reads ide_status in
  ret (if checkerr && Zb (Z.land r (Z.lor IDE_DF IDE_ERR)) then -1 else 0).

Definition idestart (ob : option nat) : KM unit :=
  match ob with
  | None => panic "idestart"
  | Some i =>
      let* b := get_buf i in
      if FSSIZE <=? b_blockno b then panic "incorrect blockno"
      else
        let sector := b_blockno b * (BSIZE / 512) in
        idewait false ;;;
        modify (set_ide_sel (Z.land (b_dev b) 1, sector)) ;;;
        when Zb (Z.land (b_flags b) B_DIRTY) do
          modify (disk_write (Z.land (b_dev b) 1) sector (b_data b))
  end.

Definition ideintr : KM unit :=
  acquire L_idelock ;;;
  let* q := reads idequeue in
  match q with
  | None => release L_idelock
  | Some i =>
      let* b := get_buf i in
      modify (set_idequeue (b_qnext b)) ;;;
      (if negb (Zb (Z.land (b_flags b) B_DIRTY)) then
         let* r := idewait true in
         when 0 <=? r do
           (let* sel := reads ide_sel in
            let* data := reads (fun k => dblock k sel.1 sel.2) in
            upd_buf i (set_b_data data))
       else ret tt) ;;;
      upd_buf i (fun b => set_b_flags (Z.lor (b_flags b) B_VALID) b) ;;;
      upd_buf i (fun b => set_b_flags (Z.land (b_flags b) (Z.lnot B_DIRTY)) b) ;;;
      wakeup (Ch_buf i) ;;;
      let* q := reads idequeue in
      (when bool_decide (q <> None) do idestart q) ;;;
      release L_idelock
  end.

(** The end of the queue: the buffer whose [qnext] is null. *)
Fixpoint queue_end (fuel : nat) (bs : list buf) (i : nat) : option nat :=
  match fuel with
  | O => None
  | S fuel =>
      match bs !! i with
      | None => None
      | Some b =>
          match b_qnext b with
          | None => Some i
          | Some j => queue_end fuel bs j
          end
      end
  end.

Definition iderw (i : nat) : KM unit :=
  let* h := holdingsleep (SL_buf i) in
  if negb h then panic "iderw: buf not locked"
  else
    let* b := get_buf i in
    if Z.land (b_flags b) (Z.lor B_VALID B_DIRTY) =? B_VALID then panic "iderw: nothing to do"
    else
      let* h1 := reads havedisk1 in
      if negb (b_dev b =? 0) && negb (Zb h1) then panic "iderw: ide disk 1 not present"
      else
        acquire L_idelock ;;;
        upd_buf i (set_b_qnext None) ;;;
        let* q := reads idequeue in
        (match q with
         | None => modify (set_idequeue (Some i))
         | Some j =>
             let* bs := reads bcache in
             match queue_end (length bs) bs j with
             | Some e => upd_buf e (set_b_qnext (Some i))
             | None => hang
             end
         end) ;;;
        let* q := reads idequeue in
        (when bool_decide (q = Some i) do idestart (Some i)) ;;;
        forever (let* b := get_buf i in
                 if negb (Z.land (b_flags b) (Z.lor B_VALID B_DIRTY) =? B_VALID)
                 then sleep (Ch_buf i) (Some L_idelock) ;;; ret None
                 else ret (Some tt)) ;;;
        release L_idelock.
End code.
End ide.
