(* ===== verification/Bio.v ===== *)
(** * The buffer cache (bio.c)

    Buffers are linked by index in a circular list through [bcache.head],
    which is the entry after the last buffer.  The list is shown to implement
    a sequence in most-recently-used order, and the cache to hold at most one
    copy of a block: what readers see of a block, in the cache or on disk, is
    its view [blk]. *)

From Stdlib Require Import ZArith Lia.
From stdpp Require Import base gmap list strings numbers.
From S2P Require Import Prelude Strings State Spinlock Sched Disk.

Open Scope Z_scope.

Definition HEAD : nat := NBUF.

(** ** The code *)

Section code.
Context `{E : Env} `{D : Disk}.

Definition binit : KM unit :=
  initlock L_bcache ;;;
  upd_buf HEAD (set_b_prev HEAD) ;;;
  upd_buf HEAD (set_b_next HEAD) ;;;
  for_each (seq 0 NBUF) (fun b =>
    let* h := get_buf HEAD in
    upd_buf b (set_b_next (b_next h)) ;;;
    upd_buf b (set_b_prev HEAD) ;;;
    initsleeplock (SL_buf b) ;;;
    let* h := get_buf HEAD in
    upd_buf (b_next h) (set_b_prev b) ;;;
    upd_buf HEAD (set_b_next b)).

(** The two searches of bget, along [b_next] and along [b_prev]. *)
Fixpoint bget_cached (fuel : nat) (b : nat) (dev blockno : Z) : KM (option nat) :=
  if bool_decide (b = HEAD) then ret None
  else
    match fuel with
    | O => hang
    | S fuel =>
        let* bf := get_buf b in
        if (b_dev bf =? dev) && (b_blockno bf =? blockno) then ret (Some b)
        else bget_cached fuel (b_next bf) dev blockno
    end.
Fixpoint bget_unused (fuel : nat) (b : nat) : KM (option nat) :=
  if bool_decide (b = HEAD) then ret None
  else
    match fuel with
    | O => hang
    | S fuel =>
        let* bf := get_buf b in
        if (b_refcnt bf =? 0) && (Z.land (b_flags bf) B_DIRTY =? 0) then ret (Some b)
        else bget_unused fuel (b_prev bf)
    end.

Definition bget (dev blockno : Z) : KM nat :=
  acquire L_bcache ;;;
  let* h := get_buf HEAD in
  let* r := bget_cached NBUF (b_next h) dev blockno in
  match r with
  | Some b =>
      upd_buf b (fun bf => set_b_refcnt (u32 (b_refcnt bf + 1)) bf) ;;;
      release L_bcache ;;;
      acquiresleep (SL_buf b) ;;;
      ret b
  | None =>
      let* h := get_buf HEAD in
      let* r := bget_unused NBUF (b_prev h) in
      match r with
      | Some b =>
          upd_buf b (set_b_dev dev) ;;;
          upd_buf b (set_b_blockno blockno) ;;;
          upd_buf b (set_b_flags 0) ;;;
          upd_buf b (set_b_refcnt 1) ;;;
          release L_bcache ;;;
          acquiresleep (SL_buf b) ;;;
          ret b
      | None => panic "bget: no buffers"
      end
  end.

Definition bread (dev blockno : Z) : KM nat :=
  let* b := bget dev blockno in
  let* bf := get_buf b in
  (when Z.land (b_flags bf) B_VALID =? 0 do iderw b) ;;;
  ret b.

Definition bwrite (b : nat) : KM unit :=
  let* h := holdingsleep (SL_buf b) in
  if negb h then panic "bwrite"
  else
    upd_buf b (fun bf => set_b_flags (Z.lor (b_flags bf) B_DIRTY) bf) ;;;
    iderw b.

(** No one waits for the buffer: move it behind the head of the list. *)
Definition brelse_front (b : nat) : KM unit :=
  let* bf := get_buf b in
  upd_buf (b_next bf) (set_b_prev (b_prev bf)) ;;;
  let* bf := get_buf b in
  upd_buf (b_prev bf) (set_b_next (b_next bf)) ;;;
  let* h := get_buf HEAD in
  upd_buf b (set_b_next (b_next h)) ;;;
  upd_buf b (set_b_prev HEAD) ;;;
  let* h := get_buf HEAD in
  upd_buf (b_next h) (set_b_prev b) ;;;
  upd_buf HEAD (set_b_next b).

Definition brelse (b : nat) : KM unit :=
  let* h := holdingsleep (SL_buf b) in
  if negb h then panic "brelse"
  else
    releasesleep (SL_buf b) ;;;
    acquire L_bcache ;;;
    upd_buf b (fun bf => set_b_refcnt (u32 (b_refcnt bf - 1)) bf) ;;;
    let* bf := get_buf b in
    (when b_refcnt bf =? 0 do brelse_front b) ;;;
    release L_bcache.
End code.

(** ** The list of buffers *)

Definition nxt (bs : list buf) (i : nat) : nat := match bs !! i with Some b => b_next b | None => O end.
Definition prv (bs : list buf) (i : nat) : nat := match bs !! i with Some b => b_prev b | None => O end.

(** From [a] through [l] to [z], linked both ways. *)
Fixpoint links (bs : list buf) (a : nat) (l : list nat) (z : nat) : Prop :=
  match l with
  | [] => nxt bs a = z /\ prv bs z = a
  | x :: l => nxt bs a = x /\ prv bs x = a /\ links bs x l z
  end.

Lemma links_app bs a l1 x l2 z :
  links bs a (l1 ++ x :: l2) z <-> links bs a l1 x /\ links bs x l2 z.
Proof.
  revert a. induction l1 as [|c l1 IH]; intros a; cbn; [tauto|]. rewrite IH. tauto.
Qed.

Lemma links_frame bs bs' a l z :
  (forall i, i ∈ a :: l -> nxt bs' i = nxt bs i) ->
  (forall i, i ∈ l ++ [z] -> prv bs' i = prv bs i) ->
  links bs a l z -> links bs' a l z.
Proof.
  revert a. induction l as [|x l IH]; intros a Hn Hp; cbn.
  - rewrite Hn, Hp by set_solver +. done.
  - intros (H1 & H2 & H3). rewrite Hn, Hp by set_solver +. split_and!; [done | done |].
    apply IH; [intros i Hi; apply Hn; by right | intros i Hi; apply Hp; by right | done].
Qed.

Lemma links_nxt bs a l z : links bs a l z -> nxt bs a ∈ l ++ [z].
Proof. destruct l; cbn; intros [-> _]; set_solver. Qed.
Lemma links_prv bs a l z : links bs a l z -> prv bs z ∈ a :: l.
Proof.
  revert a. induction l as [|x l IH]; intros a; cbn.
  - intros [_ ->]. set_solver.
  - intros (_ & _ & H%IH). set_solver.
Qed.

Lemma links_unlink bs bs' a l1 b l2 z :
  links bs a (l1 ++ b :: l2) z -> NoDup (a :: l1 ++ b :: l2) -> z ∉ l1 ++ b :: l2 ->
  (forall j, nxt bs' j = if decide (j = prv bs b) then nxt bs b else nxt bs j) ->
  (forall j, prv bs' j = if decide (j = nxt bs b) then prv bs b else prv bs j) ->
  links bs' a (l1 ++ l2) z.
Proof.
  intros Hl Hnd Hz Hn Hp. revert a Hl Hnd. induction l1 as [|c l1 IH]; intros a Hl Hnd.
  - cbn in Hl. destruct Hl as (H1 & H2 & H3).
    apply list.NoDup_cons in Hnd as [Ha Hnd]. cbn in Hnd, Ha. apply list.NoDup_cons in Hnd as [Hb Hnd].
    destruct l2 as [|c l2]; cbn in H3 |- *.
    + destruct H3 as [H3 H4]. rewrite Hn, Hp, H2, H3. by rewrite !decide_True by done.
    + destruct H3 as (H3 & H4 & H5). apply list.NoDup_cons in Hnd as [Hc Hnd].
      rewrite Hn, Hp, H2, H3, !decide_True by done. split_and!; [done | done |].
      eapply links_frame; [| |exact H5].
      * intros i Hi. rewrite Hn, H2. rewrite decide_False; [done|]. set_solver +Hi Ha.
      * intros i Hi. rewrite Hp, H3. rewrite decide_False; [done|]. set_solver +Hi Hc Hz.
  - cbn in Hl |- *. destruct Hl as (H1 & H2 & H3).
    apply list.NoDup_cons in Hnd as [Ha Hnd]. pose proof H3 as H4. apply links_app in H4 as [H4 H5].
    pose proof (links_prv _ _ _ _ H4) as Hpb. pose proof (links_nxt _ _ _ _ H5) as Hnb.
    apply list.NoDup_cons in Hnd as [Hc Hnd'].
    split_and!.
    + rewrite Hn, decide_False; [done|]. intros ->. apply Ha. set_solver +Hpb.
    + rewrite Hp, decide_False; [done|]. intros ->. set_solver +Hnb Hc Hz.
    + apply IH; [set_solver +Hz | done |]. by constructor.
Qed.

Lemma links_insert bs bs' h l z b :
  links bs h l z -> NoDup (h :: l) -> z ∉ l -> b ∉ h :: l ++ [z] ->
  (forall j, nxt bs' j = if decide (j = h) then b else if decide (j = b) then nxt bs h else nxt bs j) ->
  (forall j, prv bs' j = if decide (j = nxt bs h) then b else if decide (j = b) then h else prv bs j) ->
  links bs' h (b :: l) z.
Proof.
  intros Hl Hnd Hz Hb Hn Hp. cbn. pose proof (links_nxt _ _ _ _ Hl) as Hnh.
  assert (b <> h /\ b <> nxt bs h) as [Hbh Hbn] by set_solver +Hb Hnh.
  rewrite Hn, Hp, decide_True, decide_False, decide_True by done. split_and!; [done | done |].
  apply list.NoDup_cons in Hnd as [Hh Hnd].
  destruct l as [|c l]; cbn in Hl |- *.
  - destruct Hl as [H1 H2]. rewrite Hn, Hp, decide_False, decide_True by done.
    by rewrite decide_True.
  - destruct Hl as (H1 & H2 & H3). apply list.NoDup_cons in Hnd as [Hc Hnd].
    rewrite Hn, Hp, decide_False, !decide_True by done. split_and!; [done | done |].
    eapply links_frame; [| |exact H3].
    + intros i Hi. rewrite Hn, !decide_False; [done | set_solver +Hi Hb Hh..].
    + intros i Hi. rewrite Hp, !decide_False; [done | |]; [set_solver +Hi Hb|].
      rewrite H1. set_solver +Hi Hc Hz.
Qed.

(** Updates of one buffer, seen through the links. *)
Definition keeps_links (f : buf -> buf) : Prop := forall b, b_next (f b) = b_next b /\ b_prev (f b) = b_prev b.

Lemma nxt_alter_next bs i v j :
  (i < length bs)%nat ->
  nxt (alter (set_b_next v) i bs) j = if decide (j = i) then v else nxt bs j.
Proof.
  intros Hi. unfold nxt. case_decide; subst.
  - rewrite list_lookup_alter_eq. by destruct (lookup_lt_is_Some_2 bs i Hi) as [b ->].
  - by rewrite list_lookup_alter_ne.
Qed.
Lemma prv_alter_prev bs i v j :
  (i < length bs)%nat ->
  prv (alter (set_b_prev v) i bs) j = if decide (j = i) then v else prv bs j.
Proof.
  intros Hi. unfold prv. case_decide; subst.
  - rewrite list_lookup_alter_eq. by destruct (lookup_lt_is_Some_2 bs i Hi) as [b ->].
  - by rewrite list_lookup_alter_ne.
Qed.
Lemma prv_alter_next bs i v j : prv (alter (set_b_next v) i bs) j = prv bs j.
Proof.
  unfold prv. destruct (decide (i = j)) as [->|].
  - rewrite list_lookup_alter_eq. by destruct (bs !! j).
  - by rewrite list_lookup_alter_ne.
Qed.
Lemma nxt_alter_prev bs i v j : nxt (alter (set_b_prev v) i bs) j = nxt bs j.
Proof.
  unfold nxt. destruct (decide (i = j)) as [->|].
  - rewrite list_lookup_alter_eq. by destruct (bs !! j).
  - by rewrite list_lookup_alter_ne.
Qed.
Lemma links_keep bs f i a l z :
  keeps_links f -> links (alter f i bs) a l z <-> links bs a l z.
Proof.
  intros Hf.
  assert (forall j, nxt (alter f i bs) j = nxt bs j /\ prv (alter f i bs) j = prv bs j) as H.
  { intros j. unfold nxt, prv. destruct (decide (i = j)) as [->|].
    - rewrite list_lookup_alter_eq. destruct (bs !! j); cbn; [apply Hf | done].
    - by rewrite list_lookup_alter_ne. }
  split; apply links_frame; intros j _; destruct (H j); congruence.
Qed.

(** The cache's list as a sequence of all buffers, most recently used first. *)
Record mru (bs : list buf) (l : list nat) : Prop := {
  mru_links : links bs HEAD l HEAD;
  mru_perm : l ≡ₚ seq 0 NBUF;
  mru_len : length bs = S NBUF }.

Lemma mru_in bs l i : mru bs l -> i ∈ l <-> (i < NBUF)%nat.
Proof. intros [_ Hp _]. rewrite Hp, elem_of_seq. lia. Qed.
Lemma mru_head bs l : mru bs l -> HEAD ∉ l.
Proof. intros H. rewrite (mru_in bs l) by done. unfold HEAD. lia. Qed.
Lemma mru_nodup bs l : mru bs l -> NoDup (HEAD :: l).
Proof.
  intros H. apply list.NoDup_cons. split; [by eapply mru_head|].
  destruct H as [_ -> _]. apply NoDup_seq.
Qed.

(** *** Searches *)

Definition holds_block (bs : list buf) (dev blockno : Z) (i : nat) : bool :=
  match bs !! i with Some b => (b_dev b =? dev) && (b_blockno b =? blockno) | None => false end.
Definition unused (bs : list buf) (i : nat) : bool :=
  match bs !! i with
  | Some b => (b_refcnt b =? 0) && (Z.land (b_flags b) B_DIRTY =? 0)
  | None => false
  end.

Section searches.
Implicit Types (k : K) (l : list nat).

Lemma bget_cached_links fuel k a l dev blockno :
  links (bcache k) a l HEAD -> HEAD ∉ l -> (length l <= fuel)%nat ->
  Forall (fun i => (i < length (bcache k))%nat) l ->
  bget_cached fuel (nxt (bcache k) a) dev blockno k =
    Ok (find (holds_block (bcache k) dev blockno) l) k.
Proof.
  revert fuel a. induction l as [|x l IH]; intros fuel a Hl Hh Hf Hr; cbn in Hl.
  - destruct Hl as [-> _]. by destruct fuel.
  - destruct Hl as (-> & _ & Hl). destruct fuel as [|fuel]; [cbn in Hf; lia|]. cbn.
    apply list.Forall_cons in Hr as [Hx Hr]. destruct (lookup_lt_is_Some_2 _ _ Hx) as [b Hb].
    rewrite bool_decide_eq_false_2 by (intros ->; apply Hh; left).
    mrun (get_buf_ok x b k Hb). unfold holds_block at 1. rewrite Hb.
    destruct (_ && _); [done|].
    assert (b_next b = nxt (bcache k) x) as -> by (unfold nxt; by rewrite Hb).
    apply IH; [done | intros H; apply Hh; by right | cbn in Hf; lia | done].
Qed.

Lemma bget_unused_links fuel k z l :
  links (bcache k) HEAD l z -> HEAD ∉ l -> (length l <= fuel)%nat ->
  Forall (fun i => (i < length (bcache k))%nat) l ->
  bget_unused fuel (prv (bcache k) z) k = Ok (find (unused (bcache k)) (reverse l)) k.
Proof.
  revert fuel z. induction l as [|x l IH] using rev_ind; intros fuel z Hl Hh Hf Hr.
  - destruct Hl as [_ ->]. by destruct fuel.
  - apply links_app in Hl as [Hl Hl']. cbn in Hl'. destruct Hl' as [_ ->].
    rewrite length_app in Hf. destruct fuel as [|fuel]; [cbn in Hf; lia|].
    rewrite reverse_snoc. cbn.
    apply Forall_app in Hr as [Hr Hx]. apply list.Forall_cons in Hx as [Hx _].
    destruct (lookup_lt_is_Some_2 _ _ Hx) as [b Hb].
    rewrite bool_decide_eq_false_2 by (intros ->; apply Hh, elem_of_app; right; left).
    mrun (get_buf_ok x b k Hb). unfold unused at 1. rewrite Hb.
    destruct (_ && _); [done|].
    assert (b_prev b = prv (bcache k) x) as -> by (unfold prv; by rewrite Hb).
    apply IH; [done | intros H; apply Hh, elem_of_app; by left | cbn in Hf; lia | done].
Qed.

Lemma mru_range bs l : mru bs l -> Forall (fun i => (i < length bs)%nat) l /\ length l = NBUF.
Proof.
  intros H. split.
  - apply list.Forall_forall. intros i Hi%(mru_in bs); [|done]. destruct H as [_ _ ->]. lia.
  - destruct H as [_ -> _]. apply length_seq.
Qed.

Lemma get_head k l : mru (bcache k) l ->
  exists h, get_buf HEAD k = Ok h k /\ b_next h = nxt (bcache k) HEAD /\ b_prev h = prv (bcache k) HEAD.
Proof.
  intros [_ _ Hlen]. destruct (lookup_lt_is_Some_2 (bcache k) HEAD) as [h Hh]; [unfold HEAD; lia|].
  exists h. split; [by apply get_buf_ok|]. unfold nxt, prv. by rewrite Hh.
Qed.
End searches.

(** *** Moving a buffer to the front *)

Definition to_front (b : nat) (bs : list buf) : list buf :=
  let bs1 := alter (set_b_prev (prv bs b)) (nxt bs b) bs in
  let bs2 := alter (set_b_next (nxt bs1 b)) (prv bs1 b) bs1 in
  let bs3 := alter (set_b_next (nxt bs2 HEAD)) b bs2 in
  let bs4 := alter (set_b_prev HEAD) b bs3 in
  let bs5 := alter (set_b_prev b) (nxt bs4 HEAD) bs4 in
  alter (set_b_next b) HEAD bs5.

Lemma get_links i k :
  (i < length (bcache k))%nat ->
  exists b, get_buf i k = Ok b k /\ b_next b = nxt (bcache k) i /\ b_prev b = prv (bcache k) i.
Proof.
  intros Hi. destruct (lookup_lt_is_Some_2 (bcache k) i Hi) as [b Hb].
  exists b. split; [by apply get_buf_ok|]. unfold nxt, prv. by rewrite Hb.
Qed.

Lemma brelse_front_ok i k :
  (i < length (bcache k))%nat -> (HEAD < length (bcache k))%nat ->
  brelse_front i k = Ok tt (set_bcache (to_front i (bcache k)) k).
Proof.
  intros Hi Hh. unfold brelse_front, upd_buf.
  destruct (get_links i k Hi) as (b1 & H1 & N1 & P1). mrun H1. rewrite bind_modify, N1, P1.
  match goal with |- context [bind (get_buf i) _ ?s] => set (k1 := s) end.
  assert (length (bcache k1) = length (bcache k)) as L1 by (unfold k1; cbn; by rewrite length_alter).
  destruct (get_links i k1 ltac:(lia)) as (b2 & H2 & N2 & P2). mrun H2. rewrite bind_modify, N2, P2.
  match goal with |- context [bind (get_buf HEAD) _ ?s] => set (k2 := s) end.
  assert (length (bcache k2) = length (bcache k)) as L2 by (unfold k2; cbn; by rewrite length_alter).
  destruct (get_links HEAD k2 ltac:(lia)) as (b3 & H3 & N3 & P3). mrun H3. rewrite !bind_modify, N3.
  match goal with |- context [bind (get_buf HEAD) _ ?s] => set (k3 := s) end.
  assert (length (bcache k3) = length (bcache k)) as L3 by (unfold k3; cbn; by rewrite !length_alter).
  destruct (get_links HEAD k3 ltac:(lia)) as (b4 & H4 & N4 & P4). mrun H4. rewrite bind_modify, N4.
  reflexivity.
Qed.

Lemma to_front_mru bs l1 b l2 : mru bs (l1 ++ b :: l2) -> mru (to_front b bs) (b :: l1 ++ l2).
Proof.
  intros Hm. pose proof (mru_nodup _ _ Hm) as Hnd. pose proof (mru_head _ _ Hm) as Hh.
  destruct (mru_range _ _ Hm) as [Hr _]. destruct Hm as [Hl Hp Hlen].
  split; [|by rewrite <-Hp, Permutation_middle | unfold to_front; by rewrite !length_alter].
  assert (forall i, i ∈ HEAD :: l1 ++ b :: l2 -> (i < length bs)%nat) as Hrange.
  { intros i [->|Hi]%elem_of_cons; [rewrite Hlen; unfold HEAD; lia|].
    rewrite list.Forall_forall in Hr. by apply Hr. }
  pose proof Hl as Hl'. apply links_app in Hl' as [Ha Hb].
  pose proof (links_prv _ _ _ _ Ha) as Hpb. pose proof (links_nxt _ _ _ _ Hb) as Hnb.
  assert (b < length bs)%nat as Hbl by (apply Hrange; set_solver +).
  assert (prv bs b < length bs)%nat as Hpl by (apply Hrange; set_solver +Hpb).
  assert (nxt bs b < length bs)%nat as Hnl by (apply Hrange; set_solver +Hnb).
  assert (HEAD < length bs)%nat as Hhl by (rewrite Hlen; unfold HEAD; lia).
  apply list.NoDup_cons in Hnd as [_ Hnd]. apply list.NoDup_app in Hnd as (Hnd1 & Hd & Hnd2).
  apply list.NoDup_cons in Hnd2 as [Hb2 Hnd2].
  assert (b <> HEAD) as Hbh by (intros ->; apply Hh; set_solver +).
  unfold to_front.
  set (bs1 := alter (set_b_prev (prv bs b)) (nxt bs b) bs).
  assert (nxt bs1 b = nxt bs b) as Hn1 by apply nxt_alter_prev.
  assert (prv bs1 b = prv bs b) as Hp1.
  { unfold bs1. rewrite prv_alter_prev by done. rewrite decide_False; [done|].
    intros Heq. rewrite <-Heq in Hnb. set_solver +Hnb Hb2 Hbh. }
  rewrite Hn1, Hp1. set (bs2 := alter (set_b_next (nxt bs b)) (prv bs b) bs1).
  assert (links bs2 HEAD (l1 ++ l2) HEAD) as Hl2.
  { apply (links_unlink bs bs2 HEAD l1 b l2 HEAD Hl); [|done| |].
    - apply list.NoDup_cons. split; [done|]. apply list.NoDup_app. split_and!; [done | done |].
      apply list.NoDup_cons. done.
    - intros j. unfold bs2. rewrite nxt_alter_next by (unfold bs1; by rewrite length_alter).
      case_decide; [done|]. apply nxt_alter_prev.
    - intros j. unfold bs2. rewrite prv_alter_next. unfold bs1. by rewrite prv_alter_prev. }
  assert (length bs2 = length bs) as Hlen2 by (unfold bs2, bs1; by rewrite !length_alter).
  pose proof (links_nxt _ _ _ _ Hl2) as Hnh.
  assert (nxt bs2 HEAD < length bs)%nat as Hnhl by (apply Hrange; set_solver +Hnh).
  assert (b ∉ HEAD :: (l1 ++ l2) ++ [HEAD]) as Hbn.
  { specialize (Hd b). set_solver +Hbh Hd Hb2. }
  apply (links_insert bs2 _ HEAD (l1 ++ l2) HEAD b Hl2).
  - apply list.NoDup_cons. split; [set_solver +Hh|]. apply list.NoDup_app. split_and!; [done | | done].
    intros x Hx. specialize (Hd x Hx). set_solver +Hd.
  - set_solver +Hh.
  - done.
  - intros j. rewrite nxt_alter_next by (rewrite !length_alter; lia). case_decide; [done|].
    rewrite !nxt_alter_prev. rewrite nxt_alter_next by lia. done.
  - intros j. rewrite prv_alter_next, prv_alter_prev by (rewrite !length_alter, nxt_alter_prev,
      nxt_alter_next, decide_False by (done || lia); lia).
    rewrite nxt_alter_prev, nxt_alter_next, (decide_False (P := HEAD = b)) by (done || lia).
    case_decide; [done|]. rewrite prv_alter_prev by (rewrite length_alter; lia).
    case_decide; [done|]. by rewrite prv_alter_next.
Qed.

(** ** Buffers up to their links *)

Definition core (b : buf) : buf := set_b_next 0 (set_b_prev 0 b).
Definition bufc (k : K) (i : nat) : option buf := core <$> bcache k !! i.

Lemma bufc_Some k i b : bcache k !! i = Some b -> bufc k i = Some (core b).
Proof. intros H. unfold bufc. by rewrite H. Qed.

Lemma bufc_inv k i c : bufc k i = Some c -> exists b, bcache k !! i = Some b /\ core b = c.
Proof. unfold bufc. intros (b & -> & Hb)%fmap_Some. eauto. Qed.

Lemma bufc_insert k i b j :
  (i < length (bcache k))%nat ->
  bufc (set_bcache (<[i := b]> (bcache k)) k) j = if decide (i = j) then Some (core b) else bufc k j.
Proof.
  intros Hi. unfold bufc. cbn. rewrite list_lookup_insert.
  repeat case_decide; try done; naive_solver.
Qed.

Lemma core_to_front b bs : core <$> to_front b bs = core <$> bs.
Proof.
  assert (forall f i (bs : list buf), (forall b, core (f b) = core b) -> core <$> alter f i bs = core <$> bs)
    as H.
  { intros f i bs' Hf. apply list_eq. intros j. rewrite !list_lookup_fmap.
    destruct (decide (i = j)) as [->|].
    - rewrite list_lookup_alter_eq. destruct (bs' !! j); cbn; [by rewrite Hf | done].
    - by rewrite list_lookup_alter_ne. }
  unfold to_front. rewrite !H; done.
Qed.

(** Two buffers are recycled or found by their core only. *)
Lemma holds_block_bufc k d n i :
  holds_block (bcache k) d n i =
  match bufc k i with Some b => (b_dev b =? d) && (b_blockno b =? n) | None => false end.
Proof. unfold holds_block, bufc. by destruct (bcache k !! i). Qed.
Lemma unused_bufc k i :
  unused (bcache k) i =
  match bufc k i with
  | Some b => (b_refcnt b =? 0) && (Z.land (b_flags b) B_DIRTY =? 0)
  | None => false
  end.
Proof. unfold unused, bufc. by destruct (bcache k !! i). Qed.

(** ** The cache in a calm state

    [bio k p H P l]: process [p] holds the buffers [H] and no others are in
    use, the buffers [P] are pinned dirty by the log, and the list is [l].  A
    buffer that is neither held nor pinned agrees with the disk. *)

Record bio (k : K) (p : Z) (H P : gset nat) (l : list nat) : Prop := {
  bio_mru : mru (bcache k) l;
  bio_uniq i j b c : (i < NBUF)%nat -> (j < NBUF)%nat -> bufc k i = Some b -> bufc k j = Some c ->
    b_dev b <> 0 -> b_dev b = b_dev c -> b_blockno b = b_blockno c -> i = j;
  bio_flags i b : (i < NBUF)%nat -> bufc k i = Some b ->
    (b_flags b = 0 \/ b_flags b = 2 \/ b_flags b = 6) /\ (i ∈ P <-> b_flags b = 6);
  bio_data i b : (i < NBUF)%nat -> bufc k i = Some b -> length (b_data b) = Z.to_nat BSIZE;
  bio_held i b : (i < NBUF)%nat -> bufc k i = Some b -> i ∈ H ->
    b_refcnt b = 1 /\ b_dev b <> 0 /\ b_flags b <> 0 /\
    sleeplocks k !! SL_buf i = Some (mk_sleeplock 1 p);
  bio_free i b : (i < NBUF)%nat -> bufc k i = Some b -> i ∉ H ->
    b_refcnt b = 0 /\ sleeplocks k !! SL_buf i = Some (mk_sleeplock 0 0) /\
    (b_flags b = 2 -> b_data b = dblock k (b_dev b) (b_blockno b));
  bio_range i : i ∈ H \/ i ∈ P -> (i < NBUF)%nat;
  bio_disk d n : length (dblock k d n) = Z.to_nat BSIZE }.

(** What a reader sees of a block. *)
Definition blk (k : K) (d n : Z) : list Z :=
  match find (holds_block (bcache k) d n) (seq 0 NBUF) with
  | Some i =>
      match bufc k i with
      | Some b => if b_flags b =? 0 then dblock k d n else b_data b
      | None => dblock k d n
      end
  | None => dblock k d n
  end.

Lemma find_Some_spec {A} (f : A -> bool) l x : find f l = Some x -> x ∈ l /\ f x = true.
Proof. intros [H1 H2]%find_some. split; [by apply list_elem_of_In | done]. Qed.
Lemma find_None_spec {A} (f : A -> bool) l x : find f l = None -> x ∈ l -> f x = false.
Proof. intros H Hx. eapply find_none; [done | by apply list_elem_of_In]. Qed.

Lemma find_ext {A} (f g : A -> bool) l : (forall x, f x = g x) -> find f l = find g l.
Proof. intros H. induction l as [|x l IH]; cbn; [done|]. by rewrite H, IH. Qed.

Lemma holds_block_true k d n i :
  holds_block (bcache k) d n i = true ->
  exists b, bufc k i = Some b /\ b_dev b = d /\ b_blockno b = n.
Proof.
  rewrite holds_block_bufc. destruct (bufc k i) as [b|]; [|done].
  intros [H1 H2]%andb_true_iff. exists b. split_and!; [done | lia | lia].
Qed.

Section view.
Context (k : K) (p : Z) (H P : gset nat) (l : list nat) (B : bio k p H P l).

Lemma bufc_is_Some i : (i < NBUF)%nat -> exists b, bufc k i = Some b.
Proof.
  intros Hi. destruct (lookup_lt_is_Some_2 (bcache k) i) as [b Hb].
  - rewrite (mru_len _ _ (bio_mru _ _ _ _ _ B)). lia.
  - exists (core b). by apply bufc_Some.
Qed.

Lemma find_block i b :
  (i < NBUF)%nat -> bufc k i = Some b -> b_dev b <> 0 ->
  forall l', (forall j, j ∈ l' -> (j < NBUF)%nat) -> i ∈ l' ->
  find (holds_block (bcache k) (b_dev b) (b_blockno b)) l' = Some i.
Proof.
  intros Hi Hb Hd l' Hl' Hin.
  destruct (find _ l') as [j|] eqn:Ef.
  - apply find_Some_spec in Ef as [Hj Hh]. apply holds_block_true in Hh as (c & Hc & H1 & H2).
    f_equal. symmetry. by apply (bio_uniq _ _ _ _ _ B i j b c); auto.
  - pose proof (find_None_spec _ _ i Ef Hin) as Hf. rewrite holds_block_bufc, Hb in Hf. lia.
Qed.

Lemma blk_cached i b :
  (i < NBUF)%nat -> bufc k i = Some b -> b_dev b <> 0 -> b_flags b <> 0 ->
  blk k (b_dev b) (b_blockno b) = b_data b.
Proof.
  intros Hi Hb Hd Hf. unfold blk. rewrite (find_block i b); try done.
  - rewrite Hb. by rewrite (proj2 (Z.eqb_neq _ _) Hf).
  - intros j Hj%elem_of_seq. lia.
  - apply elem_of_seq. lia.
Qed.

Lemma blk_uncached d n :
  (forall i b, (i < NBUF)%nat -> bufc k i = Some b -> b_dev b = d -> b_blockno b = n -> b_flags b = 0) ->
  blk k d n = dblock k d n.
Proof.
  intros Hn. unfold blk. destruct (find _ _) as [i|] eqn:Ef; [|done].
  apply find_Some_spec in Ef as [Hi Hh]. apply elem_of_seq in Hi.
  apply holds_block_true in Hh as (b & Hb & H1 & H2). rewrite Hb.
  by rewrite (Hn i b) by (done || lia).
Qed.

Lemma blk_length d n : length (blk k d n) = Z.to_nat BSIZE.
Proof.
  unfold blk. destruct (find _ _) as [i|] eqn:Ef; [|apply B].
  apply find_Some_spec in Ef as [Hi _]. apply elem_of_seq in Hi.
  destruct (bufc k i) as [b|] eqn:Hb; [|apply B]. destruct (_ =? _); [apply B|].
  eapply (bio_data _ _ _ _ _ B); [|done]. lia.
Qed.
End view.

(** ** bread *)

(** The state after buffer [i] has been taken, with contents [b]. *)
Definition got (i : nat) (p : Z) (b : buf) (k : K) : K :=
  hold_sl (SL_buf i) p (set_bcache (<[i := b]> (bcache k)) k).

#[export] Instance framed_got i p b : Framed (got i p b).
Proof. by intros ? ? ? ? ? ?. Qed.

Lemma calm_got i p b k pr : calm k pr -> calm (got i p b k) pr.
Proof. by apply calm_framed; [apply framed_got|]. Qed.

(** [b] is block [(d, n)] read into buffer [i], whose entry was [b0]. *)
Record fetched (k : K) (P : gset nat) (d n : Z) (i : nat) (b0 b : buf) : Prop := {
  ft_range : (i < NBUF)%nat;
  ft_old : bcache k !! i = Some b0;
  ft_links : b_next b = b_next b0 /\ b_prev b = b_prev b0;
  ft_only j c : (j < NBUF)%nat -> bufc k j = Some c -> b_dev c = d -> b_blockno c = n -> j = i;
  ft_addr : b_dev b = d /\ b_blockno b = n /\ b_refcnt b = 1;
  ft_flags : (b_flags b = 2 \/ b_flags b = 6) /\ (i ∈ P <-> b_flags b = 6);
  ft_pinned : i ∈ P -> b_dev b0 = d /\ b_blockno b0 = n;
  ft_data : b_data b = blk k d n }.

Section fetch.
Context (k : K) (p : Z) (H P : gset nat) (l : list nat) (B : bio k p H P l).
Context (d n : Z) (i : nat) (b0 b : buf) (F : fetched k P d n i b0 b) (Hd : d <> 0) (Hi : i ∉ H).

Lemma got_range : (i < length (bcache k))%nat.
Proof. eapply lookup_lt_Some, F. Qed.

Lemma got_bufc j : bufc (got i p b k) j = if decide (i = j) then Some (core b) else bufc k j.
Proof. apply (bufc_insert k i b j), got_range. Qed.

Lemma got_mru : mru (bcache (got i p b k)) l.
Proof.
  destruct (bio_mru _ _ _ _ _ B) as [Hl Hp Hlen]. split; [|done|cbn; by rewrite length_insert].
  cbn. eapply links_frame; [| |exact Hl]; intros j _; unfold nxt, prv;
    rewrite list_lookup_insert; case_decide as Hc; try done; destruct Hc as [<- _];
    rewrite (ft_old _ _ _ _ _ _ _ F); apply F.
Qed.

Lemma got_bio : bio (got i p b k) p ({[i]} ∪ H) P l.
Proof.
  pose proof (bufc_Some _ _ _ (ft_old _ _ _ _ _ _ _ F)) as Hb0.
  destruct (ft_addr _ _ _ _ _ _ _ F) as (Ha1 & Ha2 & Ha3).
  destruct (ft_flags _ _ _ _ _ _ _ F) as [Hf1 Hf2]. split.
  - apply got_mru.
  - intros x y bx bc Hx Hy. rewrite !got_bufc. repeat case_decide; subst; intros; simplify_eq; try done.
    + cbn in *. symmetry. eapply (ft_only _ _ _ _ _ _ _ F); eauto; congruence.
    + cbn in *. eapply (ft_only _ _ _ _ _ _ _ F); eauto; congruence.
    + by eapply (bio_uniq _ _ _ _ _ B).
  - intros x bx Hx. rewrite got_bufc. case_decide; subst; intros; simplify_eq; cbn.
    + split; [tauto | done].
    + by eapply (bio_flags _ _ _ _ _ B).
  - intros x bx Hx. rewrite got_bufc. case_decide; subst; intros; simplify_eq; cbn.
    + rewrite (ft_data _ _ _ _ _ _ _ F). by eapply blk_length.
    + by eapply (bio_data _ _ _ _ _ B).
  - intros x bx Hx. rewrite got_bufc. case_decide; subst; intros; simplify_eq; cbn.
    + rewrite lookup_insert_eq. split_and!; [done | congruence | lia | done].
    + rewrite lookup_insert_ne by congruence. eapply (bio_held _ _ _ _ _ B); eauto. set_solver.
  - intros x bx Hx. rewrite got_bufc. case_decide; subst; intros; simplify_eq; cbn; [set_solver|].
    rewrite lookup_insert_ne by congruence. eapply (bio_free _ _ _ _ _ B); eauto. set_solver.
  - intros x [[->%elem_of_singleton|Hx]%elem_of_union|Hx];
      [apply F | by apply (bio_range _ _ _ _ _ B); left | by apply (bio_range _ _ _ _ _ B); right].
  - apply B.
Qed.

(** Fetching a block changes what no reader sees. *)
Lemma got_blk d' n' : d' <> 0 -> blk (got i p b k) d' n' = blk k d' n'.
Proof.
  intros Hd'. pose proof got_bio as B'. pose proof (bufc_Some _ _ _ (ft_old _ _ _ _ _ _ _ F)) as Hb0.
  destruct (ft_addr _ _ _ _ _ _ _ F) as (Ha1 & Ha2 & Ha3).
  destruct (ft_flags _ _ _ _ _ _ _ F) as [Hf1 Hf2].
  assert (bufc (got i p b k) i = Some (core b)) as Hbi by (rewrite got_bufc; by case_decide).
  destruct (decide (d' = d /\ n' = n)) as [[-> ->]|Hne].
  { pose proof (blk_cached _ _ _ _ _ B' i (core b) ltac:(apply F) Hbi) as Hc. cbn in Hc.
    rewrite Ha1, Ha2 in Hc. rewrite Hc by (done || lia). apply F. }
  destruct (find (holds_block (bcache (got i p b k)) d' n') (seq 0 NBUF)) as [j|] eqn:Ef.
  - apply find_Some_spec in Ef as [Hj Hh]. apply elem_of_seq in Hj.
    apply holds_block_true in Hh as (c & Hc & Hc1 & Hc2). pose proof Hc as Hck.
    rewrite got_bufc in Hck. case_decide; [simplify_eq; naive_solver|].
    unfold blk. rewrite <-Hc1, <-Hc2.
    rewrite (find_block _ _ _ _ _ B' j c), (find_block _ _ _ _ _ B j c);
      try done; try lia; try (intros x Hx%elem_of_seq; lia); try (apply elem_of_seq; lia).
    by rewrite Hc, Hck.
  - assert (blk (got i p b k) d' n' = dblock k d' n') as -> by (unfold blk; by rewrite Ef).
    symmetry. unfold blk.
    destruct (find (holds_block (bcache k) d' n') (seq 0 NBUF)) as [j|] eqn:Ef'; [|done].
    apply find_Some_spec in Ef' as [Hj Hh]. pose proof Hj as Hj'. apply elem_of_seq in Hj'.
    apply holds_block_true in Hh as (c & Hc & Hc1 & Hc2). rewrite Hc.
    destruct (decide (i = j)) as [<-|Hij].
    + simplify_eq. destruct (b_flags (core b0) =? 0) eqn:E0; [done|].
      destruct (bio_flags _ _ _ _ _ B i _ ltac:(lia) Hb0) as [[?|[H2|H6]] HP]; [lia | |].
      * destruct (bio_free _ _ _ _ _ B i _ ltac:(lia) Hb0 Hi) as (_ & _ & Hd2). by apply Hd2.
      * destruct (ft_pinned _ _ _ _ _ _ _ F) as [? ?]; [by apply HP|].
        exfalso. apply Hne. split; [by rewrite <-H0 | by rewrite <-H1].
    + pose proof (find_None_spec _ _ j Ef Hj) as Hf.
      rewrite holds_block_bufc, got_bufc in Hf. rewrite decide_False in Hf by done.
      rewrite Hc in Hf. lia.
Qed.
End fetch.

(** The block is in the cache, or there is a buffer to put it in. *)
Definition cached (k : K) (d n : Z) : Prop :=
  exists i, (i < NBUF)%nat /\ holds_block (bcache k) d n i = true.
Definition room (H P : gset nat) : Prop := exists i, (i < NBUF)%nat /\ (i ∉ H) /\ (i ∉ P).

Lemma room_size H P : (size H + size P < NBUF)%nat -> room H P.
Proof.
  intros Hs. destruct (set_choose_or_empty (list_to_set (seq 0 NBUF) ∖ (H ∪ P) : gset nat)) as [[i Hi]|He].
  - exists i. apply elem_of_difference in Hi as [Hi Hn]. rewrite elem_of_list_to_set, elem_of_seq in Hi.
    split; [lia|]. set_solver +Hn.
  - assert ((list_to_set (seq 0 NBUF) : gset nat) ⊆ H ∪ P) as Hsub.
    { intros x Hx. destruct (decide (x ∈ H ∪ P)); [done|]. exfalso.
      apply (not_elem_of_empty (C := gset nat) x), He. by apply elem_of_difference. }
    apply subseteq_size in Hsub. rewrite size_list_to_set in Hsub by apply NoDup_seq.
    rewrite length_seq in Hsub. pose proof (size_union_alt H P) as Hu.
    assert (P ∖ H ⊆ P) as Hd by set_solver +. apply subseteq_size in Hd. lia.
Qed.

Definition recycled (d n : Z) (b : buf) : buf :=
  set_b_refcnt 1 (set_b_flags 0 (set_b_blockno n (set_b_dev d b))).

Section bread_ok.
Context `{E : Env} `{D : Disk} `{DO : !DiskOk D}.
Context (k : K) (pr : proc) (H P : gset nat) (l : list nat).
Context (C : calm k pr) (B : bio k (pid pr) H P l).

Lemma calm_bcache : lock_free L_bcache k.
Proof. apply C. unfold kernel_locks. set_solver +. Qed.

Lemma unused_free i : unused (bcache k) i = true -> (i < NBUF)%nat -> (i ∉ H) /\ (i ∉ P).
Proof.
  rewrite unused_bufc. destruct (bufc k i) as [b|] eqn:Hb; [|done]. intros [H1 H2]%andb_true_iff Hi.
  split; intros Hin.
  - destruct (bio_held _ _ _ _ _ B i b Hi Hb Hin) as (? & _). lia.
  - destruct (bio_flags _ _ _ _ _ B i b Hi Hb) as [_ [HP _]]. rewrite (HP Hin) in H2. done.
Qed.

Lemma free_unused i : i ∉ H -> i ∉ P -> (i < NBUF)%nat -> unused (bcache k) i = true.
Proof.
  intros Hh Hp Hi. rewrite unused_bufc. destruct (bufc_is_Some _ _ _ _ _ B i Hi) as [b Hb]. rewrite Hb.
  destruct (bio_free _ _ _ _ _ B i b Hi Hb Hh) as (-> & _).
  destruct (bio_flags _ _ _ _ _ B i b Hi Hb) as [[-> | [-> | H6]] HP]; [done | done|].
  by apply HP in H6.
Qed.

(** The end of both branches of bget. *)
Lemma bget_finish i b b0 :
  (i < NBUF)%nat -> i ∉ H -> bcache k !! i = Some b0 ->
  (release L_bcache ;;; acquiresleep (SL_buf i) ;;; ret i)
    (set_bcache (<[i := b]> (bcache k)) (locked L_bcache k)) = Ok i (got i (pid pr) b k).
Proof.
  intros Hi Hh Hb0. pose proof C as [Hq _ _ _ _].
  mrun (release_ok L_bcache (set_bcache (<[i := b]> (bcache k))) k Hq calm_bcache _).
  destruct (bio_free _ _ _ _ _ B i _ Hi (bufc_Some _ _ _ Hb0) Hh) as (_ & Hs & _).
  mrun (calm_acquiresleep (SL_buf i) pr (set_bcache (<[i:=b]> (bcache k)) k) (mk_sleeplock 0 0)
    (calm_framed (set_bcache (<[i:=b]> (bcache k))) k pr _ eq_refl C) (buf_lock_known i Hi) Hs eq_refl).
  done.
Qed.

Lemma bget_ok d n :
  d <> 0 -> (forall i b, i ∈ H -> bufc k i = Some b -> ~ (b_dev b = d /\ b_blockno b = n)) ->
  room H P \/ cached k d n ->
  exists i b0 b, bget d n k = Ok i (got i (pid pr) b k) /\ (i ∉ H) /\ (i < NBUF)%nat /\
    bcache k !! i = Some b0 /\
    ((holds_block (bcache k) d n i = true /\ b = set_b_refcnt 1 b0) \/
     ((i ∉ P) /\ (forall j, (j < NBUF)%nat -> holds_block (bcache k) d n j = false) /\
      b = recycled d n b0)).
Proof.
  intros Hd Hnh Hroom. pose proof C as [Hq _ _ _ _]. pose proof (bio_mru _ _ _ _ _ B) as Hm.
  destruct (mru_range _ _ Hm) as [Hr Hlen]. unfold bget.
  mrun (acquire_ok L_bcache k Hq calm_bcache). set (k1 := locked L_bcache k).
  assert (bcache k1 = bcache k) as Hk1 by (unfold k1; by unlocked).
  assert (mru (bcache k1) l) as Hm1 by (by rewrite Hk1).
  destruct (get_head k1 l Hm1) as (h & Hh & Hhn & Hhp). mrun Hh. rewrite Hhn.
  erewrite bind_ok by (apply (bget_cached_links NBUF k1 HEAD l d n); [apply Hm1 |
    by eapply mru_head | lia | by rewrite Hk1]). cbv beta. rewrite Hk1.
  destruct (find (holds_block (bcache k) d n) l) as [i|] eqn:Ef.
  - apply find_Some_spec in Ef as [Hi Hhb]. apply (mru_in _ _ _ Hm) in Hi.
    pose proof (holds_block_true _ _ _ _ Hhb) as (c & Hc & Hc1 & Hc2).
    destruct (bufc_inv _ _ _ Hc) as (b0 & Hb0 & <-).
    assert (i ∉ H) as Hin by (intros Hin; by apply (Hnh i (core b0) Hin Hc)).
    exists i, b0, (set_b_refcnt 1 b0). split_and!; [|done|done|done|by left].
    rewrite <-(bget_finish i (set_b_refcnt 1 b0) b0 Hi Hin Hb0).
    mrun (upd_buf_ok i (fun bf => set_b_refcnt (u32 (b_refcnt bf + 1)) bf) b0 k1
            ltac:(by rewrite Hk1)). rewrite Hk1.
    destruct (bio_free _ _ _ _ _ B i _ Hi Hc Hin) as (Hrc & _). cbn in Hrc. by rewrite Hrc.
  - mrun Hh. rewrite Hhp.
    erewrite bind_ok by (apply (bget_unused_links NBUF k1 HEAD l); [apply Hm1 |
      by eapply mru_head | lia | by rewrite Hk1]). cbv beta. rewrite Hk1.
    assert (forall j, (j < NBUF)%nat -> holds_block (bcache k) d n j = false) as Hno.
    { intros j Hj. eapply find_None_spec; [exact Ef|]. by apply (mru_in _ _ _ Hm). }
    destruct (find (unused (bcache k)) (reverse l)) as [i|] eqn:Eu.
    + apply find_Some_spec in Eu as [Hi Hun]. rewrite elem_of_reverse in Hi.
      apply (mru_in _ _ _ Hm) in Hi. destruct (unused_free i Hun Hi) as [Hin HiP].
      destruct (bufc_is_Some _ _ _ _ _ B i Hi) as [c Hc]. destruct (bufc_inv _ _ _ Hc) as (b0 & Hb0 & <-).
      exists i, b0, (recycled d n b0). split_and!; [|done|done|done|by right].
      rewrite <-(bget_finish i (recycled d n b0) b0 Hi Hin Hb0). unfold upd_buf. msimp.
      cbn [bcache set_bcache]. rewrite !list_alter_alter_eq, Hk1.
      by rewrite (alter_list_insert _ i b0).
    + exfalso. destruct Hroom as [(j & Hj & Hjh & HjP)|(j & Hj & Hjb)].
      * pose proof (free_unused j Hjh HjP Hj) as Hun.
        pose proof (find_None_spec _ _ j Eu) as Hfn. rewrite elem_of_reverse in Hfn.
        rewrite Hfn in Hun; [done|]. by apply (mru_in _ _ _ Hm).
      * by rewrite Hno in Hjb.
Qed.

Lemma fetched_hit d n i b0 b :
  d <> 0 -> (i < NBUF)%nat -> bcache k !! i = Some b0 -> b_dev b0 = d -> b_blockno b0 = n ->
  (b_flags b0 <> 0 /\ b = set_b_refcnt 1 b0 \/
   b_flags b0 = 0 /\ b = set_b_flags 2 (set_b_data (dblock k d n) (set_b_refcnt 1 b0))) ->
  fetched k P d n i b0 b.
Proof.
  intros Hd Hi Hb0 <- <- Hcase. pose proof (bufc_Some _ _ _ Hb0) as Hc.
  destruct (bio_flags _ _ _ _ _ B i _ Hi Hc) as [Hf HP]. cbn in Hf, HP.
  assert (forall j c, (j < NBUF)%nat -> bufc k j = Some c -> b_dev c = b_dev b0 ->
    b_blockno c = b_blockno b0 -> j = i) as Honly.
  { intros j c Hj Hcj H1 H2. apply (bio_uniq _ _ _ _ _ B j i c (core b0)); try done. congruence. }
  destruct Hcase as [[Hnz ->]|[Hz ->]]; split; cbn; try done.
  - split; [lia | done].
  - symmetry. by apply (blk_cached _ _ _ _ _ B i (core b0)).
  - split; [lia|]. split; [|done]. intros ?%HP. lia.
  - symmetry. apply blk_uncached. intros j c Hj Hcj H1 H2.
    assert (j = i) as -> by eauto. by simplify_eq.
Qed.

Lemma fetched_miss d n i b0 :
  (i < NBUF)%nat -> i ∉ P -> bcache k !! i = Some b0 ->
  (forall j, (j < NBUF)%nat -> holds_block (bcache k) d n j = false) ->
  fetched k P d n i b0 (set_b_flags 2 (set_b_data (dblock k d n) (recycled d n b0))).
Proof.
  intros Hi HiP Hb0 Hno.
  assert (forall j c, (j < NBUF)%nat -> bufc k j = Some c -> b_dev c = d -> b_blockno c = n -> False)
    as Hnone.
  { intros j c Hj Hc H1 H2. specialize (Hno j Hj). rewrite holds_block_bufc, Hc in Hno. lia. }
  split; cbn; try done.
  - intros j c Hj Hc H1 H2. by destruct (Hnone j c).
  - split; [lia|]. split; [done | lia].
  - symmetry. apply blk_uncached. intros j c Hj Hc H1 H2. by destruct (Hnone j c).
Qed.

(** Reading in a buffer just taken. *)
Lemma iderw_got d n i b :
  (i < NBUF)%nat -> (i < length (bcache k))%nat -> b_flags b = 0 -> b_dev b = d -> b_blockno b = n ->
  on_disk d n ->
  iderw i (got i (pid pr) b k) =
    Ok tt (got i (pid pr) (set_b_flags 2 (set_b_data (dblock k d n) b)) k).
Proof.
  intros Hi Hlen Hf Hd Hn Hon. pose proof (calm_got i (pid pr) b k pr C) as [C1 C2 C3 _ _].
  erewrite iderw_ok; [| exact C1 | exact C2 | by apply C3, buf_lock_known
    | apply C3; unfold kernel_locks; set_solver + | apply C3; left | apply lookup_insert_eq
    | cbn; by apply list_lookup_insert_eq | by rewrite Hf | by rewrite Hd, Hn].
  unfold synced. rewrite Hf, Hd, Hn. change (Zb (Z.land 0 B_DIRTY)) with false. cbv iota.
  change (bcache (got i (pid pr) b k)) with (<[i := b]> (bcache k)).
  by rewrite list_insert_insert_eq.
Qed.

Lemma bread_ok d n :
  d <> 0 -> (forall i b, i ∈ H -> bufc k i = Some b -> ~ (b_dev b = d /\ b_blockno b = n)) ->
  room H P \/ cached k d n -> on_disk d n ->
  exists i b0 b, bread d n k = Ok i (got i (pid pr) b k) /\ (i ∉ H) /\ fetched k P d n i b0 b.
Proof.
  intros Hd Hnh Hroom Hon.
  destruct (bget_ok d n Hd Hnh Hroom) as (i & b0 & b & Hget & Hin & Hi & Hb0 & Hcase).
  assert (i < length (bcache k))%nat as Hlen by (by eapply lookup_lt_Some).
  unfold bread. mrun Hget.
  mrun (get_buf_ok i b (got i (pid pr) b k) ltac:(cbn; by apply list_lookup_insert_eq)).
  destruct Hcase as [[Hhb ->]|(HiP & Hno & ->)].
  - pose proof (holds_block_true _ _ _ _ Hhb) as (c & Hc & Hc1 & Hc2).
    rewrite (bufc_Some _ _ _ Hb0) in Hc. injection Hc as <-. cbn in Hc1, Hc2.
    destruct (bio_flags _ _ _ _ _ B i _ Hi (bufc_Some _ _ _ Hb0)) as [Hf _]. cbn in Hf.
    destruct (decide (b_flags b0 = 0)) as [Hz|Hz].
    + exists i, b0, (set_b_flags 2 (set_b_data (dblock k d n) (set_b_refcnt 1 b0))).
      split_and!; [|done|]; [|apply fetched_hit; auto].
      cbn [b_flags set_b_refcnt]. rewrite Hz. cbn.
      by mrun (iderw_got d n i (set_b_refcnt 1 b0) Hi Hlen Hz Hc1 Hc2 Hon).
    + exists i, b0, (set_b_refcnt 1 b0). split_and!; [|done|]; [|apply fetched_hit; auto].
      cbn [b_flags set_b_refcnt]. by destruct Hf as [?|[-> | ->]].
  - exists i, b0, (set_b_flags 2 (set_b_data (dblock k d n) (recycled d n b0))).
    split_and!; [|done|]; [|by apply fetched_miss].
    by mrun (iderw_got d n i (recycled d n b0) Hi Hlen eq_refl eq_refl eq_refl Hon).
Qed.
End bread_ok.

(** ** Held buffers *)

Definition put (i : nat) (b : buf) (k : K) : K := set_bcache (<[i := b]> (bcache k)) k.

#[export] Instance framed_put i b : Framed (put i b).
Proof. by intros ? ? ? ? ? ?. Qed.

(** [b'] is [b] with other contents or another dirty bit. *)
Record revised (b b' : buf) : Prop := {
  rv_links : b_next b' = b_next b /\ b_prev b' = b_prev b;
  rv_addr : b_dev b' = b_dev b /\ b_blockno b' = b_blockno b /\ b_refcnt b' = b_refcnt b;
  rv_flags : b_flags b' = 2 \/ b_flags b' = 6;
  rv_data : length (b_data b') = Z.to_nat BSIZE }.

Definition repin (i : nat) (b : buf) (P : gset nat) : gset nat :=
  if b_flags b =? 6 then {[i]} ∪ P else P ∖ {[i]}.

Lemma repin_same i b P : (i ∈ P <-> b_flags b = 6) -> repin i b P = P.
Proof.
  intros HP. unfold repin. destruct (Z.eqb_spec (b_flags b) 6) as [Hf|Hf].
  - apply HP in Hf. apply set_eq. set_solver +Hf.
  - apply set_eq. intros x. assert (i ∉ P) as Hn by tauto. set_solver +Hn.
Qed.

Section held.
Context (k : K) (p : Z) (H P : gset nat) (l : list nat) (B : bio k p H P l).
Context (i : nat) (b : buf) (Hi : i ∈ H) (Hb : bcache k !! i = Some b).

Lemma held_range : (i < NBUF)%nat /\ (i < length (bcache k))%nat.
Proof. split; [apply (bio_range _ _ _ _ _ B); by left | by eapply lookup_lt_Some]. Qed.

Lemma held_facts :
  b_refcnt b = 1 /\ b_dev b <> 0 /\ (b_flags b = 2 \/ b_flags b = 6) /\
  length (b_data b) = Z.to_nat BSIZE /\ sleeplocks k !! SL_buf i = Some (mk_sleeplock 1 p) /\
  blk k (b_dev b) (b_blockno b) = b_data b /\ (i ∈ P <-> b_flags b = 6).
Proof.
  destruct held_range as [Hr _]. pose proof (bufc_Some _ _ _ Hb) as Hc.
  destruct (bio_held _ _ _ _ _ B i _ Hr Hc Hi) as (H1 & H2 & H3 & H4). cbn in H1, H2, H3.
  destruct (bio_flags _ _ _ _ _ B i _ Hr Hc) as [H5 H6]. cbn in H5, H6.
  pose proof (bio_data _ _ _ _ _ B i _ Hr Hc) as H7.
  split_and!; try done; [tauto|]. by apply (blk_cached _ _ _ _ _ B i (core b)).
Qed.

Lemma put_bufc b' j : bufc (put i b' k) j = if decide (i = j) then Some (core b') else bufc k j.
Proof. apply (bufc_insert k i b' j), held_range. Qed.

Lemma put_bio b' : revised b b' -> bio (put i b' k) p H (repin i b' P) l.
Proof.
  intros [Hl (Ha1 & Ha2 & Ha3) Hf Hd]. destruct held_range as [Hr Hlen].
  destruct held_facts as (H1 & H2 & H3 & H4 & H5 & _ & HP). pose proof (bufc_Some _ _ _ Hb) as Hc.
  assert (forall j, j <> i -> (j ∈ repin i b' P <-> j ∈ P)) as Hrp.
  { intros j Hj. unfold repin. destruct (_ =? _); set_solver +Hj. }
  assert (i ∈ repin i b' P <-> b_flags b' = 6) as Hrp'.
  { unfold repin. destruct (Z.eqb_spec (b_flags b') 6) as [He|He]; set_solver +He. }
  split.
  - destruct (bio_mru _ _ _ _ _ B) as [Hk Hp Hlen']. split; [|done|cbn; by rewrite length_insert].
    cbn. eapply links_frame; [| |exact Hk]; intros j _; unfold nxt, prv; rewrite list_lookup_insert;
      case_decide as Hcd; try done; destruct Hcd as [<- _]; rewrite Hb; apply Hl.
  - intros x y bx bc Hx Hy. rewrite !put_bufc. repeat case_decide; subst; intros; simplify_eq; try done.
    + cbn in *. eapply (bio_uniq _ _ _ _ _ B _ _ (core b) _); eauto; cbn; congruence.
    + cbn in *. eapply (bio_uniq _ _ _ _ _ B _ _ _ (core b)); eauto; cbn; congruence.
    + by eapply (bio_uniq _ _ _ _ _ B).
  - intros x bx Hx. rewrite put_bufc. case_decide; subst; intros; simplify_eq; cbn.
    + split; [tauto | done].
    + rewrite Hrp by congruence. by eapply (bio_flags _ _ _ _ _ B).
  - intros x bx Hx. rewrite put_bufc. case_decide; subst; intros; simplify_eq; cbn; [done|].
    by eapply (bio_data _ _ _ _ _ B).
  - intros x bx Hx. rewrite put_bufc. case_decide; subst; intros; simplify_eq; cbn.
    + split_and!; [congruence | congruence | lia | done].
    + by eapply (bio_held _ _ _ _ _ B).
  - intros x bx Hx. rewrite put_bufc. case_decide; subst; intros; simplify_eq; cbn; try done.
    by eapply (bio_free _ _ _ _ _ B).
  - intros x [Hx|Hx]; [by apply (bio_range _ _ _ _ _ B); left|].
    destruct (decide (x = i)) as [->|Hne]; [done|]. apply Hrp in Hx; [|done].
    by apply (bio_range _ _ _ _ _ B); right.
  - apply B.
Qed.

Lemma put_blk b' d n :
  revised b b' -> d <> 0 ->
  blk (put i b' k) d n =
  if decide (d = b_dev b /\ n = b_blockno b) then b_data b' else blk k d n.
Proof.
  intros Hrv Hd. pose proof (put_bio b' Hrv) as B'. destruct Hrv as [_ (Ha1 & Ha2 & _) Hf _].
  destruct held_range as [Hr Hlen]. destruct held_facts as (_ & H2 & H3 & _ & _ & Hbk & _).
  assert (bufc (put i b' k) i = Some (core b')) as Hbi by (rewrite put_bufc; by case_decide).
  case_decide as Hc.
  - destruct Hc as [-> ->]. rewrite <-Ha1, <-Ha2.
    apply (blk_cached _ _ _ _ _ B' i (core b')); try done; cbn; [congruence | lia].
  - assert (forall j, holds_block (bcache (put i b' k)) d n j = holds_block (bcache k) d n j) as Hh.
    { intros j. rewrite !holds_block_bufc, put_bufc. case_decide; [subst|done].
      rewrite (bufc_Some _ _ _ Hb). cbn. by rewrite Ha1, Ha2. }
    unfold blk. rewrite (find_ext _ _ _ Hh).
    destruct (find (holds_block (bcache k) d n) (seq 0 NBUF)) as [j|] eqn:Ef; [|done].
    rewrite put_bufc. case_decide; [subst|done].
    apply find_Some_spec in Ef as [_ Hh']. apply holds_block_true in Hh' as (c & Hcc & H4 & H5).
    rewrite (bufc_Some _ _ _ Hb) in Hcc. injection Hcc as <-. cbn in *. naive_solver.
Qed.
End held.

(** Writing a block that a held buffer caches. *)
Section disk_write.
Context (k : K) (p : Z) (H P : gset nat) (l : list nat) (B : bio k p H P l).
Context (i : nat) (b : buf) (Hi : i ∈ H) (Hb : bcache k !! i = Some b).
Context (data : list Z) (Hdata : length data = Z.to_nat BSIZE).
Let k' := disk_write (b_dev b) (b_blockno b) data k.

Lemma dblock_disk_write d n :
  dblock k' d n = if decide (d = b_dev b /\ n = b_blockno b) then data else dblock k d n.
Proof.
  unfold k', dblock, disk_write. cbn. rewrite lookup_insert. repeat case_decide; naive_solver.
Qed.

Lemma disk_write_bio : bio k' p H P l.
Proof.
  destruct (held_range _ _ _ _ _ B i b Hi Hb) as [Hr Hlen].
  destruct (held_facts _ _ _ _ _ B i b Hi Hb) as (_ & H2 & _). pose proof (bufc_Some _ _ _ Hb) as Hc.
  destruct B as [B1 B2 B3 B4 B5 B6 B7 B8]. split; try done.
  - intros x bx Hx Hbx Hn. destruct (B6 x bx Hx Hbx Hn) as (H3 & H4 & H5). split_and!; [done | done |].
    intros Hf. rewrite dblock_disk_write. case_decide as Hd; [|by apply H5]. exfalso.
    destruct Hd as [Hd1 Hd2]. assert (i = x) as ->; [|done].
    apply (B2 i x (core b) bx); try done.
  - intros d n. rewrite dblock_disk_write. case_decide; [done | apply B8].
Qed.

Lemma disk_write_blk d n : blk k' d n = blk k d n.
Proof.
  destruct (held_range _ _ _ _ _ B i b Hi Hb) as [Hr Hlen].
  destruct (held_facts _ _ _ _ _ B i b Hi Hb) as (_ & H2 & Hf & _ & _ & Hbk & _).
  destruct (decide (d = b_dev b /\ n = b_blockno b)) as [[-> ->]|Hne].
  - rewrite Hbk. apply (blk_cached _ _ _ _ _ disk_write_bio i (core b)); try done; cbn; [|lia].
    by apply (bufc_Some k).
  - assert (dblock k' d n = dblock k d n) as Hd by (rewrite dblock_disk_write; by case_decide).
    unfold blk. rewrite Hd. reflexivity.
Qed.
End disk_write.

Section bwrite_brelse.
Context `{E : Env} `{D : Disk} `{DO : !DiskOk D}.
Context (k : K) (pr : proc) (H P : gset nat) (l : list nat).
Context (C : calm k pr) (B : bio k (pid pr) H P l).
Context (i : nat) (b : buf) (Hi : i ∈ H) (Hb : bcache k !! i = Some b).

(** bwrite puts the buffer's contents on disk; the buffer is clean. *)
Definition written : K := disk_write (b_dev b) (b_blockno b) (b_data b) (put i (set_b_flags 2 b) k).

Lemma bwrite_ok : on_disk (b_dev b) (b_blockno b) -> bwrite i k = Ok tt written.
Proof.
  intros Hon. destruct (held_range _ _ _ _ _ B i b Hi Hb) as [Hr Hlen].
  destruct (held_facts _ _ _ _ _ B i b Hi Hb) as (_ & _ & Hf & _ & Hs & _ & _).
  unfold bwrite. mrun (calm_holdingsleep (SL_buf i) pr k (pid pr) C (buf_lock_known i Hr) Hs).
  rewrite Z.eqb_refl. cbn [negb]. cbv iota.
  mrun (upd_buf_ok i (fun bf => set_b_flags (Z.lor (b_flags bf) B_DIRTY) bf) b k Hb).
  set (b1 := set_b_flags (Z.lor (b_flags b) B_DIRTY) b).
  assert (Z.lor (b_flags b) B_DIRTY = 6) as Hl by (by destruct Hf as [-> | ->]).
  pose proof (calm_framed (put i b1) k pr _ eq_refl C) as [C1 C2 C3 _ _].
  change (set_bcache (<[i := b1]> (bcache k)) k) with (put i b1 k).
  erewrite iderw_ok; [| exact C1 | exact C2 | by apply C3, buf_lock_known
    | apply C3; unfold kernel_locks; set_solver + | apply C3; left | exact Hs
    | cbn; by apply list_lookup_insert_eq | unfold b1; cbn; by rewrite Hl | exact Hon].
  unfold synced, b1. cbn [b_flags set_b_flags b_dev b_blockno b_data]. rewrite Hl.
  change (Zb (Z.land 6 B_DIRTY)) with true. cbv iota. unfold written, put.
  cbn [bcache set_bcache]. by rewrite list_insert_insert_eq.
Qed.

Lemma revised_clean : revised b (set_b_flags 2 b).
Proof.
  destruct (held_facts _ _ _ _ _ B i b Hi Hb) as (_ & _ & _ & Hd & _). split; cbn; auto.
Qed.

Lemma written_calm : calm written pr.
Proof.
  apply (calm_framed (fun k => disk_write (b_dev b) (b_blockno b) (b_data b) (put i (set_b_flags 2 b) k)));
    done.
Qed.

Lemma written_bio : bio written (pid pr) H (P ∖ {[i]}) l.
Proof.
  pose proof (put_bio _ _ _ _ _ B i b Hi Hb _ revised_clean) as B'.
  destruct (held_range _ _ _ _ _ B i b Hi Hb) as [Hr Hlen].
  destruct (held_facts _ _ _ _ _ B i b Hi Hb) as (_ & _ & _ & Hd & _).
  apply (disk_write_bio _ _ _ _ _ B' i (set_b_flags 2 b) Hi); [|done].
  cbn. by apply list_lookup_insert_eq.
Qed.

Lemma written_blk d n : d <> 0 -> blk written d n = blk k d n.
Proof.
  intros Hdz. pose proof (put_bio _ _ _ _ _ B i b Hi Hb _ revised_clean) as B'.
  destruct (held_range _ _ _ _ _ B i b Hi Hb) as [Hr Hlen].
  destruct (held_facts _ _ _ _ _ B i b Hi Hb) as (_ & _ & _ & Hd & _ & Hbk & _).
  pose proof (disk_write_blk _ _ _ _ _ B' i (set_b_flags 2 b) Hi
    ltac:(cbn; by apply list_lookup_insert_eq) (b_data b) Hd d n) as Hw.
  change (disk_write _ _ _ _) with written in Hw. rewrite Hw.
  rewrite (put_blk _ _ _ _ _ B i b Hi Hb _ d n revised_clean Hdz).
  case_decide as Hc; [|done]. destruct Hc as [-> ->]. by rewrite Hbk.
Qed.

(** brelse hands the buffer back and moves it to the front of the list. *)
Definition released : K :=
  set_bcache (to_front i (<[i := set_b_refcnt 0 b]> (bcache k))) (drop_sl (SL_buf i) k).

Lemma released_calm : calm released pr.
Proof.
  apply (calm_framed (fun k' => set_bcache (bcache released) (set_sleeplocks (sleeplocks released) k')));
    done.
Qed.

Lemma brelse_ok : brelse i k = Ok tt released.
Proof.
  destruct (held_range _ _ _ _ _ B i b Hi Hb) as [Hr Hlen].
  destruct (held_facts _ _ _ _ _ B i b Hi Hb) as (Hrc & _ & _ & _ & Hs & _).
  unfold brelse. mrun (calm_holdingsleep (SL_buf i) pr k (pid pr) C (buf_lock_known i Hr) Hs).
  rewrite Z.eqb_refl. cbn [negb]. cbv iota.
  mrun (calm_releasesleep (SL_buf i) pr k _ C (buf_lock_known i Hr) Hs).
  set (k1 := drop_sl (SL_buf i) k).
  assert (quiet k1) as Hq by (apply (quiet_framed (drop_sl (SL_buf i))); [apply _ | apply C]).
  assert (lock_free L_bcache k1) as Hlf
    by (apply (lock_free_framed (drop_sl (SL_buf i))); [apply _ | by eapply calm_bcache]).
  mrun (acquire_ok L_bcache k1 Hq Hlf). set (k2 := locked L_bcache k1).
  assert (bcache k2 = bcache k) as Hk2 by (unfold k2; by unlocked).
  mrun (upd_buf_ok i (fun bf => set_b_refcnt (u32 (b_refcnt bf - 1)) bf) b k2 ltac:(by rewrite Hk2)).
  rewrite Hrc, Hk2. change (u32 (1 - 1)) with 0. set (bs := <[i:=set_b_refcnt 0 b]> (bcache k)).
  assert (length bs = S NBUF) as Hbl
    by (unfold bs; rewrite length_insert; apply (mru_len _ _ (bio_mru _ _ _ _ _ B))).
  mrun (get_buf_ok i (set_b_refcnt 0 b) (set_bcache bs k2)
          ltac:(cbn; unfold bs; by apply list_lookup_insert_eq)).
  cbn [b_refcnt set_b_refcnt]. change (0 =? 0) with true. cbv iota.
  mrun (brelse_front_ok i (set_bcache bs k2) ltac:(cbn; lia) ltac:(cbn; unfold HEAD; lia)).
  exact (release_ok L_bcache (set_bcache (to_front i bs)) k1 Hq Hlf _).
Qed.

Lemma released_bufc j :
  bufc released j = if decide (i = j) then Some (core (set_b_refcnt 0 b)) else bufc k j.
Proof.
  transitivity (bufc (put i (set_b_refcnt 0 b) k) j); [|by apply (put_bufc _ _ _ _ _ B i b)].
  unfold bufc, released, put. cbn [bcache set_bcache].
  by rewrite <-!list_lookup_fmap, core_to_front.
Qed.

Lemma released_bio :
  i ∈ P \/ b_data b = dblock k (b_dev b) (b_blockno b) ->
  exists l', bio released (pid pr) (H ∖ {[i]}) P (i :: l').
Proof.
  intros Hclean. destruct (held_range _ _ _ _ _ B i b Hi Hb) as [Hr Hlen].
  destruct (held_facts _ _ _ _ _ B i b Hi Hb) as (H1 & H2 & H3 & H4 & H5 & _ & HP).
  pose proof (bufc_Some _ _ _ Hb) as Hc.
  assert (i ∈ l) as Hil by (by apply (mru_in _ _ i (bio_mru _ _ _ _ _ B))).
  apply list_elem_of_split in Hil as (l1 & l2 & Hl12). exists (l1 ++ l2). split.
  - apply to_front_mru. destruct (bio_mru _ _ _ _ _ B) as [Hk Hp Hl].
    rewrite Hl12 in Hk, Hp. split; [|done|by rewrite length_insert].
    eapply links_frame; [| |exact Hk]; intros j _; unfold nxt, prv; rewrite list_lookup_insert;
      case_decide as Hcd; try done; destruct Hcd as [<- _]; by rewrite Hb.
  - intros x y bx bc Hx Hy. rewrite !released_bufc.
    repeat case_decide; subst; intros; simplify_eq; try done.
    + cbn in *. by eapply (bio_uniq _ _ _ _ _ B _ _ (core b) _).
    + cbn in *. by eapply (bio_uniq _ _ _ _ _ B _ _ _ (core b)).
    + by eapply (bio_uniq _ _ _ _ _ B).
  - intros x bx Hx. rewrite released_bufc. case_decide; subst; intros; simplify_eq; cbn.
    + split; [tauto | done].
    + by eapply (bio_flags _ _ _ _ _ B).
  - intros x bx Hx. rewrite released_bufc. case_decide; subst; intros; simplify_eq; cbn; [done|].
    by eapply (bio_data _ _ _ _ _ B).
  - intros x bx Hx. rewrite released_bufc. case_decide; subst; intros; simplify_eq; cbn; [set_solver|].
    rewrite lookup_insert_ne by congruence. eapply (bio_held _ _ _ _ _ B); eauto. set_solver.
  - intros x bx Hx. rewrite released_bufc. case_decide; subst; intros; simplify_eq; cbn.
    + rewrite lookup_insert_eq. split_and!; [done | done |]. intros Hf2.
      destruct Hclean as [HiP|Hd]; [|exact Hd]. apply HP in HiP. lia.
    + rewrite lookup_insert_ne by congruence. eapply (bio_free _ _ _ _ _ B); eauto. set_solver.
  - intros x [Hx|Hx]; apply (bio_range _ _ _ _ _ B); [left; set_solver | by right].
  - apply B.
Qed.

Lemma released_blk d n : blk released d n = blk k d n.
Proof.
  assert (forall j, holds_block (bcache released) d n j = holds_block (bcache k) d n j) as Hh.
  { intros j. rewrite !holds_block_bufc, released_bufc. case_decide; [subst|done].
    by rewrite (bufc_Some _ _ _ Hb). }
  unfold blk. rewrite (find_ext _ _ _ Hh).
  destruct (find (holds_block (bcache k) d n) (seq 0 NBUF)) as [j|] eqn:Ef; [|done].
  rewrite released_bufc. case_decide; [subst|done]. by rewrite (bufc_Some _ _ _ Hb).
Qed.
End bwrite_brelse.

(** ** What the cache promises *)

Section promises.
Context `{E : Env} `{D : Disk} `{DO : !DiskOk D}.

(** C23. bread returns a buffer that the caller alone holds and that contains the
    block as last written by anyone; the cache stays well formed, in
    particular it holds the block once, and no block changes for any reader,
    although another block may have been evicted. *)
Theorem bread_spec k pr H P l d n :
  calm k pr -> bio k (pid pr) H P l -> d <> 0 -> on_disk d n ->
  (forall i b, i ∈ H -> bufc k i = Some b -> ~ (b_dev b = d /\ b_blockno b = n)) ->
  room H P \/ cached k d n ->
  returns (bread d n) k (fun i k' =>
    (i ∉ H) /\ calm k' pr /\ bio k' (pid pr) ({[i]} ∪ H) P l /\
    (exists b, bcache k' !! i = Some b /\ b_dev b = d /\ b_blockno b = n /\ b_data b = blk k d n) /\
    (forall d' n', d' <> 0 -> blk k' d' n' = blk k d' n')).
Proof.
  intros C B Hd Hon Hnh Hroom.
  destruct (bread_ok k pr H P l C B d n Hd Hnh Hroom Hon) as (i & b0 & b & Hrun & Hi & F).
  eapply returns_ok; [exact Hrun|]. split_and!.
  - done.
  - by apply calm_got.
  - by eapply got_bio.
  - exists b. destruct (ft_addr _ _ _ _ _ _ _ F) as (H1 & H2 & _). split_and!; [|done|done|apply F].
    cbn. apply list_lookup_insert_eq. by eapply lookup_lt_Some, F.
  - intros d' n' Hd'. by eapply got_blk.
Qed.

(** A block written through the cache is on disk and every reader sees it. *)
Theorem bwrite_spec k pr H P l i b :
  calm k pr -> bio k (pid pr) H P l -> i ∈ H -> bcache k !! i = Some b ->
  on_disk (b_dev b) (b_blockno b) ->
  returns (bwrite i) k (fun _ k' =>
    bio k' (pid pr) H (P ∖ {[i]}) l /\
    (forall d n, dblock k' d n =
       if decide (d = b_dev b /\ n = b_blockno b) then b_data b else dblock k d n) /\
    (forall d n, d <> 0 -> blk k' d n = blk k d n) /\
    k_dwrites k' = k_dwrites k ++ [(b_dev b, b_blockno b, b_data b)]).
Proof.
  intros C B Hi Hb Hon. eapply returns_ok; [by eapply bwrite_ok|]. split_and!.
  - by eapply written_bio.
  - intros d n. rewrite (dblock_disk_write (put i (set_b_flags 2 b) k) b (b_data b)). done.
  - intros d n Hd. by eapply written_blk.
  - done.
Qed.

(** brelse puts the buffer first in the list and leaves every block as it was,
    provided the buffer has been written or pinned by the log. *)
Theorem brelse_spec k pr H P l i b :
  calm k pr -> bio k (pid pr) H P l -> i ∈ H -> bcache k !! i = Some b ->
  i ∈ P \/ b_data b = dblock k (b_dev b) (b_blockno b) ->
  returns (brelse i) k (fun _ k' =>
    (exists l', bio k' (pid pr) (H ∖ {[i]}) P (i :: l')) /\
    (forall d n, blk k' d n = blk k d n)).
Proof.
  intros C B Hi Hb Hc. eapply returns_ok; [by eapply brelse_ok|]. split; [by eapply released_bio|].
  intros d n. by eapply released_blk.
Qed.

(** When every buffer is held or pinned, reading a block that is not cached
    panics: there is nothing left to recycle. *)
Theorem bget_exhausted k pr H P l d n :
  calm k pr -> bio k (pid pr) H P l ->
  (forall i, (i < NBUF)%nat -> i ∈ H \/ i ∈ P) ->
  (forall i, (i < NBUF)%nat -> holds_block (bcache k) d n i = false) ->
  exists k', bread d n k = Panic "bget: no buffers" k'.
Proof.
  intros C B Hall Hno. pose proof (bio_mru _ _ _ _ _ B) as Hm.
  destruct (mru_range _ _ Hm) as [Hr Hlen]. unfold bread, bget. rewrite bind_assoc.
  mrun (acquire_ok L_bcache k (calm_quiet _ _ C) (calm_bcache k pr C)).
  set (k1 := locked L_bcache k).
  assert (bcache k1 = bcache k) as Hk1 by (unfold k1; by unlocked).
  assert (mru (bcache k1) l) as Hm1 by (by rewrite Hk1).
  destruct (get_head k1 l Hm1) as (h & Hh & Hhn & Hhp).
  assert (bget_cached NBUF (b_next h) d n k1 = Ok None k1) as Hc.
  { rewrite Hhn, (bget_cached_links NBUF k1 HEAD l d n);
      [| apply Hm1 | by eapply mru_head | lia | by rewrite Hk1].
    f_equal. rewrite Hk1. destruct (find _ _) as [j|] eqn:Ef; [|done].
    apply find_Some_spec in Ef as [Hj Ht]. rewrite Hno in Ht; [done|]. by apply (mru_in _ _ _ Hm). }
  assert (bget_unused NBUF (b_prev h) k1 = Ok None k1) as Hu.
  { rewrite Hhp, (bget_unused_links NBUF k1 HEAD l);
      [| apply Hm1 | by eapply mru_head | lia | by rewrite Hk1].
    f_equal. rewrite Hk1. destruct (find _ _) as [j|] eqn:Ef; [|done].
    apply find_Some_spec in Ef as [Hj Ht]. rewrite elem_of_reverse in Hj.
    apply (mru_in _ _ _ Hm) in Hj. destruct (unused_free k pr H P l B j Ht Hj).
    by destruct (Hall j Hj). }
  exists k1. msimp. mrun Hh. msimp. mrun Hc. msimp. mrun Hh. msimp. by mrun Hu.
Qed.
End promises.

(** ** A sample cache: what binit builds *)

Definition binit_sample : K := match binit sample with Ok _ k => k | _ => sample end.
Definition sample_fs : K :=
  set_bcache (bcache binit_sample) (set_sleeplocks (sleeplocks binit_sample) sample).
Definition fresh_buf (b : buf) : bool :=
  (b_dev b =? 0) && (b_flags b =? 0) && (b_refcnt b =? 0) &&
  Nat.eqb (length (b_data b)) (Z.to_nat BSIZE).

Lemma sample_fs_bufs : forallb fresh_buf (bcache sample_fs) = true.
Proof. vm_compute. reflexivity. Qed.
Lemma sample_fs_fresh i b : bufc sample_fs i = Some b -> fresh_buf b = true.
Proof.
  intros (c & Hc & <-)%bufc_inv. pose proof sample_fs_bufs as Hall. rewrite forallb_forall in Hall.
  apply (Hall c). apply list_elem_of_In. by eapply list_elem_of_lookup_2.
Qed.
Lemma sample_fs_locks :
  forallb (fun i => bool_decide (sleeplocks sample_fs !! SL_buf i = Some (mk_sleeplock 0 0)))
    (seq 0 NBUF) = true.
Proof. vm_compute. reflexivity. Qed.

Lemma sample_fs_mru : mru (bcache sample_fs) (reverse (seq 0 NBUF)).
Proof.
  split; [|by rewrite reverse_Permutation | vm_compute; reflexivity].
  vm_compute. repeat split.
Qed.

#[global] Opaque binit_sample.

Lemma calm_set_cache bs sl k pr : calm k pr -> calm (set_bcache bs (set_sleeplocks sl k)) pr.
Proof. by apply (calm_framed (fun k => set_bcache bs (set_sleeplocks sl k))). Qed.

Lemma sample_fs_calm : calm sample_fs (set_state RUNNING (set_pid 1 proc0)).
Proof. unfold sample_fs. apply calm_set_cache, sample_calm. Qed.

Lemma sample_fs_bio : bio sample_fs 1 ∅ ∅ (reverse (seq 0 NBUF)).
Proof.
  pose proof sample_fs_fresh as Hf. unfold fresh_buf in Hf.
  pose proof sample_fs_locks as Hl. rewrite forallb_forall in Hl.
  assert (forall i b, bufc sample_fs i = Some b -> b_dev b = 0 /\ b_flags b = 0 /\ b_refcnt b = 0 /\
    length (b_data b) = Z.to_nat BSIZE) as Hb.
  { intros i b H. specialize (Hf i b H). rewrite !andb_true_iff, !Z.eqb_eq, Nat.eqb_eq in Hf. tauto. }
  split.
  - apply sample_fs_mru.
  - intros i j b c _ _ H%Hb. tauto.
  - intros i b _ H%Hb. split; [tauto|]. split; [by intros ?%not_elem_of_empty | lia].
  - intros i b _ H%Hb. tauto.
  - by intros i b _ _ ?%not_elem_of_empty.
  - intros i b Hi H%Hb _. split_and!; [tauto | | lia].
    specialize (Hl i). rewrite <-list_elem_of_In in Hl.
    apply (bool_decide_eq_true_1 _), Hl, elem_of_seq. lia.
  - by intros i [?%not_elem_of_empty|?%not_elem_of_empty].
  - intros d n. unfold dblock. change (disk sample_fs) with (disk sample).
    change (disk sample) with (∅ : gmap (Z * Z) (list Z)).
    rewrite lookup_empty. apply length_replicate.
Qed.

(** The in-memory disk of 1000 blocks under the sample cache. *)
Definition sample_disk : Disk := @memide.iderw idle_env 1000.
Definition sample_disk_ok : DiskOk sample_disk := @memide_ok idle_env 1000.

Lemma room_empty : room ∅ ∅.
Proof. exists 0%nat. split; [unfold NBUF; lia | split; apply not_elem_of_empty]. Qed.

Lemma bread_spec_witness :
  returns (@bread idle_env sample_disk 1 5) sample_fs (fun i k' =>
    bio k' 1 ({[i]} ∪ ∅) ∅ (reverse (seq 0 NBUF))).
Proof.
  eapply returns_mono.
  - apply (@bread_spec idle_env sample_disk sample_disk_ok sample_fs
      (set_state RUNNING (set_pid 1 proc0)) ∅ ∅ (reverse (seq 0 NBUF)) 1 5).
    + apply sample_fs_calm.
    + apply sample_fs_bio.
    + done.
    + cbn. lia.
    + by intros i b ?%not_elem_of_empty.
    + left. apply room_empty.
  - cbn. intros i k' (_ & _ & H & _). exact H.
Defined.

(** A block has just been read. *)
Lemma sample_read :
  exists i b0 b, @bread idle_env sample_disk 1 5 sample_fs = Ok i (got i 1 b sample_fs) /\
    i ∈ ({[i]} ∪ ∅ : gset nat) /\ fetched sample_fs ∅ 1 5 i b0 b /\
    bio (got i 1 b sample_fs) 1 ({[i]} ∪ ∅) ∅ (reverse (seq 0 NBUF)) /\
    bcache (got i 1 b sample_fs) !! i = Some b /\
    b_data b = dblock (got i 1 b sample_fs) 1 5.
Proof.
  destruct (@bread_ok idle_env sample_disk sample_disk_ok sample_fs _ ∅ ∅ _ sample_fs_calm
              sample_fs_bio 1 5) as (i & b0 & b & Hrun & Hi & F).
  - done.
  - by intros i b ?%not_elem_of_empty.
  - left. apply room_empty.
  - cbn. lia.
  - exists i, b0, b. split_and!; [exact Hrun | set_solver + | exact F | | |].
    + by eapply got_bio; [apply sample_fs_bio | exact F | |].
    + apply list_lookup_insert_eq. exact (lookup_lt_Some _ _ _ (ft_old _ _ _ _ _ _ _ F)).
    + change (dblock (got i 1 b sample_fs) 1 5) with (dblock sample_fs 1 5).
      rewrite (ft_data _ _ _ _ _ _ _ F). apply blk_uncached. intros j c _ Hc _ _.
      pose proof (sample_fs_fresh j c Hc) as Hf. unfold fresh_buf in Hf.
      rewrite !andb_true_iff, !Z.eqb_eq in Hf. tauto.
Qed.

Lemma bwrite_spec_witness :
  exists i k1, @bread idle_env sample_disk 1 5 sample_fs = Ok i k1 /\
    returns (@bwrite idle_env sample_disk i) k1 (fun _ k' => length (k_dwrites k') = 1%nat).
Proof.
  destruct sample_read as (i & b0 & b & Hrun & Hi & F & B & Hb & Hd).
  exists i, (got i 1 b sample_fs). split; [exact Hrun|].
  destruct (ft_addr _ _ _ _ _ _ _ F) as (Ha1 & Ha2 & _).
  eapply returns_mono.
  - apply (@bwrite_spec idle_env sample_disk sample_disk_ok (got i 1 b sample_fs)
      (set_state RUNNING (set_pid 1 proc0)) ({[i]} ∪ ∅) ∅ (reverse (seq 0 NBUF)) i b).
    + apply calm_got, sample_fs_calm.
    + exact B.
    + exact Hi.
    + exact Hb.
    + cbn. lia.
  - cbn. intros _ k' (_ & _ & _ & ->). done.
Defined.

Lemma brelse_spec_witness :
  exists i k1, @bread idle_env sample_disk 1 5 sample_fs = Ok i k1 /\
    returns (@brelse idle_env i) k1 (fun _ k' =>
      exists l', bio k' 1 (({[i]} ∪ ∅) ∖ {[i]}) ∅ (i :: l')).
Proof.
  destruct sample_read as (i & b0 & b & Hrun & Hi & F & B & Hb & Hd).
  exists i, (got i 1 b sample_fs). split; [exact Hrun|].
  destruct (ft_addr _ _ _ _ _ _ _ F) as (Ha1 & Ha2 & _).
  eapply returns_mono.
  - apply (@brelse_spec idle_env (got i 1 b sample_fs)
      (set_state RUNNING (set_pid 1 proc0)) ({[i]} ∪ ∅) ∅ (reverse (seq 0 NBUF)) i b).
    + apply calm_got, sample_fs_calm.
    + exact B.
    + exact Hi.
    + exact Hb.
    + right. rewrite Ha1, Ha2. exact Hd.
  - cbn. intros _ k' (H & _). exact H.
Defined.

(** Every buffer pinned by a logged write. *)
Definition pinned_buf (i : nat) (b : buf) : buf :=
  set_b_flags 6 (set_b_blockno (100 + Z.of_nat i) (set_b_dev 1 b)).
Definition pin_all (k : K) : K := set_bcache (imap pinned_buf (bcache k)) k.

Lemma pin_all_bufc k i b :
  bufc (pin_all k) i = Some b -> exists c, bufc k i = Some c /\ b = pinned_buf i c.
Proof.
  unfold bufc. cbn [bcache pin_all set_bcache]. rewrite list_lookup_imap.
  destruct (bcache k !! i) as [c|]; [|done]. intros [= <-]. by exists (core c).
Qed.

Lemma pin_all_bio k p l : bio k p ∅ ∅ l -> bio (pin_all k) p ∅ (list_to_set (seq 0 NBUF)) l.
Proof.
  intros B. assert (forall i, i ∈ (list_to_set (seq 0 NBUF) : gset nat) <-> (i < NBUF)%nat) as Hin.
  { intros i. rewrite elem_of_list_to_set, elem_of_seq. lia. }
  split.
  - destruct (bio_mru _ _ _ _ _ B) as [Hl Hp Hlen]. split; [|done|cbn; by rewrite length_imap].
    eapply links_frame; [| |exact Hl]; intros i _; unfold nxt, prv; cbn; rewrite list_lookup_imap;
      by destruct (bcache k !! i).
  - intros i j b c _ _ (b' & _ & ->)%pin_all_bufc (c' & _ & ->)%pin_all_bufc.
    cbn [b_blockno pinned_buf set_b_flags set_b_blockno]. lia.
  - intros i b Hi (b' & _ & ->)%pin_all_bufc. rewrite Hin. cbn. tauto.
  - intros i b Hi (b' & Hb & ->)%pin_all_bufc. exact (bio_data _ _ _ _ _ B i b' Hi Hb).
  - by intros i b _ _ ?%not_elem_of_empty.
  - intros i b Hi (b' & Hb & ->)%pin_all_bufc Hn.
    destruct (bio_free _ _ _ _ _ B i b' Hi Hb Hn) as (H1 & H2 & _).
    split_and!; [exact H1 | exact H2 | intros Hf; discriminate Hf].
  - intros i [?%not_elem_of_empty|Hi]; [done|]. by apply Hin.
  - apply B.
Qed.

Lemma pin_all_no_block k d n i :
  n < 100 -> holds_block (bcache (pin_all k)) d n i = false.
Proof.
  intros Hn. rewrite holds_block_bufc. destruct (bufc (pin_all k) i) as [b|] eqn:Eb; [|done].
  apply pin_all_bufc in Eb as (c & _ & ->).
  change ((1 =? d) && (100 + Z.of_nat i =? n) = false). rewrite (proj2 (Z.eqb_neq (100 + Z.of_nat i) n)) by lia. apply andb_false_r.
Qed.

Lemma pin_all_calm k pr : calm k pr -> calm (pin_all k) pr.
Proof. by apply (calm_framed pin_all). Qed.

Lemma bget_exhausted_witness :
  exists k', @bread idle_env sample_disk 1 5 (pin_all sample_fs) = Panic "bget: no buffers" k'.
Proof.
  apply (@bget_exhausted idle_env sample_disk (pin_all sample_fs)
    (set_state RUNNING (set_pid 1 proc0)) ∅ (list_to_set (seq 0 NBUF)) (reverse (seq 0 NBUF)) 1 5).
  - apply pin_all_calm, sample_fs_calm.
  - apply pin_all_bio, sample_fs_bio.
  - intros i Hi. right. rewrite elem_of_list_to_set, elem_of_seq. lia.
  - intros i Hi. apply pin_all_no_block. lia.
Defined.
