(* ===== verification/Cache.v ===== *)
(** * The buffer cache as the file system uses it

    The lemmas of Bio.v packaged for the layers above: [cache k pr H P] says
    that process [pr] holds the buffers [H] and that the log has pinned [P];
    each operation is described by the buffer it touches, by the sequence of
    disk writes it performs, and by what readers see afterwards. *)

From Stdlib Require Import ZArith Lia.
From stdpp Require Import base gmap list strings numbers.
From S2P Require Import Prelude Strings State Spinlock Sched Disk Bio.

Open Scope Z_scope.

(** ** Block contents under a sequence of writes *)

Abbreviation blocks := (Z -> Z -> list Z).
Abbreviation writes := (list (Z * Z * list Z)).

Definition upd (f : blocks) (d n : Z) (v : list Z) : blocks :=
  fun d' n' => if decide (d' = d /\ n' = n) then v else f d' n'.
Fixpoint wr (ws : writes) (f : blocks) : blocks :=
  match ws with
  | [] => f
  | (d, n, v) :: ws => wr ws (upd f d n v)
  end.

Lemma wr_app ws1 ws2 f : wr (ws1 ++ ws2) f = wr ws2 (wr ws1 f).
Proof. revert f. induction ws1 as [|[[d n] v] ws1 IH]; intros f; cbn; [done | apply IH]. Qed.

Lemma upd_eq f d n v : upd f d n v d n = v.
Proof. unfold upd. by rewrite decide_True. Qed.
Lemma upd_ne f d n v d' n' : ~ (d' = d /\ n' = n) -> upd f d n v d' n' = f d' n'.
Proof. intros H. unfold upd. by rewrite decide_False. Qed.

(** A block that no write touches keeps its contents. *)
Lemma wr_untouched ws f d n :
  (forall v, (d, n, v) ∉ ws) -> wr ws f d n = f d n.
Proof.
  revert f. induction ws as [|[[d' n'] v'] ws IH]; intros f H; cbn; [done|].
  rewrite IH by (intros v Hv; apply (H v); by right). apply upd_ne.
  intros [-> ->]. apply (H v'). by left.
Qed.

Lemma wr_ext ws f g d n :
  (forall d n, f d n = g d n) -> wr ws f d n = wr ws g d n.
Proof.
  revert f g. induction ws as [|[[d' n'] v'] ws IH]; intros f g H; cbn; [apply H|].
  apply IH. intros x y. unfold upd. case_decide; [done | apply H].
Qed.

Lemma wr_ext_dev ws f g d n :
  (forall d n, d <> 0 -> f d n = g d n) -> d <> 0 -> wr ws f d n = wr ws g d n.
Proof.
  revert f g. induction ws as [|[[d' n'] v'] ws IH]; intros f g H Hd; cbn; [by apply H|].
  apply IH; [|done]. intros x y Hx. unfold upd. case_decide; [done | by apply H].
Qed.

(** ** States of the cache *)

(** [k'] is [k] after input and output through the cache, with the disk
    writes [ws]. *)
Record io (k k' : K) (ws : writes) : Prop := {
  io_frame : k' = set_k_dwrites (k_dwrites k') (set_disk (disk k')
                    (set_bcache (bcache k') (set_sleeplocks (sleeplocks k') k)));
  io_dwrites : k_dwrites k' = k_dwrites k ++ ws;
  io_disk d n : dblock k' d n = wr ws (dblock k) d n;
  io_inodes i : sleeplocks k' !! SL_inode i = sleeplocks k !! SL_inode i }.

Lemma io_trans k1 k2 k3 ws1 ws2 : io k1 k2 ws1 -> io k2 k3 ws2 -> io k1 k3 (ws1 ++ ws2).
Proof.
  intros [F1 D1 B1 N1] [F2 D2 B2 N2]. split.
  - rewrite F2, F1. done.
  - by rewrite D2, D1, app_assoc.
  - intros d n. rewrite B2, wr_app. by apply wr_ext.
  - intros i. by rewrite N2.
Qed.

Lemma io_refl k : io k k [].
Proof. split; [by destruct k | by rewrite app_nil_r | done | done]. Qed.

Record cache (k : K) (pr : proc) (H P : gset nat) : Prop := {
  ca_calm : calm k pr;
  ca_bio : exists l, bio k (pid pr) H P l }.

Lemma io_klog k k' ws : io k k' ws -> klog k' = klog k.
Proof. intros [F _ _ _]. by rewrite F. Qed.

(** Changes outside of the cache and of the disk. *)
Lemma bio_other k k' p H P l :
  bcache k' = bcache k -> (forall i, sleeplocks k' !! SL_buf i = sleeplocks k !! SL_buf i) ->
  disk k' = disk k -> bio k p H P l -> bio k' p H P l.
Proof.
  intros E1 E2 E3 [B1 B2 B3 B4 B5 B6 B7 B8].
  assert (forall i, bufc k' i = bufc k i) as Eb by (intros i; unfold bufc; by rewrite E1).
  assert (forall d n, dblock k' d n = dblock k d n) as Ed by (intros d n; unfold dblock; by rewrite E3).
  split; rewrite ?E1; try done.
  - intros i j b c. rewrite !Eb. apply B2.
  - intros i b. rewrite Eb. apply B3.
  - intros i b. rewrite Eb. apply B4.
  - intros i b. rewrite Eb, E2. apply B5.
  - intros i b. rewrite Eb, E2, Ed. apply B6.
  - intros d n. rewrite Ed. apply B8.
Qed.

Lemma blk_other k k' d n : bcache k' = bcache k -> disk k' = disk k -> blk k' d n = blk k d n.
Proof. intros E1 E2. unfold blk, bufc, dblock. by rewrite E1, E2. Qed.

Lemma cache_other f k pr H P :
  Framed f -> ptable (f k) = ptable k -> bcache (f k) = bcache k ->
  (forall i, sleeplocks (f k) !! SL_buf i = sleeplocks k !! SL_buf i) -> disk (f k) = disk k ->
  cache k pr H P -> cache (f k) pr H P.
Proof.
  intros Hf H1 H2 H3 H4 [C [l B]]. split; [by apply calm_framed|]. exists l. by apply (bio_other k).
Qed.

(** ** The operations *)

Section ops.
Context `{E : Env} `{D : Disk} `{DO : !DiskOk D}.

(** A clean cached block agrees with the disk. *)
Lemma blk_clean k p H P l d n :
  bio k p H P l ->
  (forall i b, (i < NBUF)%nat -> bufc k i = Some b -> b_dev b = d -> b_blockno b = n ->
     (i ∉ H) /\ (i ∉ P)) ->
  blk k d n = dblock k d n.
Proof.
  intros B Hc. unfold blk.
  destruct (find (holds_block (bcache k) d n) (seq 0 NBUF)) as [i|] eqn:Ef; [|done].
  apply find_Some_spec in Ef as [Hi Hh]. apply elem_of_seq in Hi.
  apply holds_block_true in Hh as (b & Hb & Hd & Hn). rewrite Hb.
  destruct (Hc i b ltac:(lia) Hb Hd Hn) as [HiH HiP].
  destruct (bio_flags _ _ _ _ _ B i b ltac:(lia) Hb) as [[->|[Hf|Hf]] HP]; [done | | tauto].
  destruct (bio_free _ _ _ _ _ B i b ltac:(lia) Hb HiH) as (_ & _ & Hdat).
  rewrite Hf, Hdat by done. cbn. congruence.
Qed.

(** The block a buffer is assigned to. *)
Definition baddr (k : K) (i : nat) : option (Z * Z) := (fun c => (b_dev c, b_blockno c)) <$> bufc k i.
Definition none_at (k : K) (S : gset nat) (d n : Z) : Prop := forall i, i ∈ S -> baddr k i <> Some (d, n).

Lemma baddr_Some k i c : bufc k i = Some c -> baddr k i = Some (b_dev c, b_blockno c).
Proof. intros H. unfold baddr. by rewrite H. Qed.

Lemma baddr_cached k i d n : (i < NBUF)%nat -> baddr k i = Some (d, n) -> cached k d n.
Proof.
  intros Hi Ha. exists i. split; [done|]. rewrite holds_block_bufc. unfold baddr in Ha.
  destruct (bufc k i) as [c|]; [|done]. injection Ha as <- <-. by rewrite !Z.eqb_refl.
Qed.

Lemma none_at_empty k d n : none_at k ∅ d n.
Proof. intros i Hi. by apply not_elem_of_empty in Hi. Qed.

Lemma bread_at k pr H P d n :
  cache k pr H P -> d <> 0 -> on_disk d n -> none_at k H d n -> room H P \/ cached k d n ->
  exists i c k', bread d n k = Ok i k' /\ cache k' pr ({[i]} ∪ H) P /\ (i ∉ H) /\ io k k' [] /\
    bufc k' i = Some c /\ b_dev c = d /\ b_blockno c = n /\ b_data c = blk k d n /\
    (forall j, j <> i -> bufc k' j = bufc k j) /\
    (forall d' n', d' <> 0 -> blk k' d' n' = blk k d' n') /\
    (i ∈ P -> baddr k i = Some (d, n)) /\ (i ∉ P -> b_data c = dblock k d n).
Proof.
  intros [C [l B]] Hd Hon Hnh Hroom.
  destruct (bread_ok k pr H P l C B d n Hd) as (i & b0 & b & Hrun & Hi & F); [|done|done|].
  { intros i c HiH Hc [H1 H2]. apply (Hnh i HiH). rewrite (baddr_Some k i c Hc). congruence. }
  pose proof (ft_addr _ _ _ _ _ _ _ F) as (Ha1 & Ha2 & _).
  exists i, (core b), (got i (pid pr) b k). split_and!; try done.
  - split; [by apply calm_got|]. exists l. by eapply got_bio.
  - split; [by destruct k | cbn; by rewrite app_nil_r | done |]. intros x. cbn. by rewrite ?lookup_insert_ne.
  - rewrite (got_bufc k (pid pr) P d n i b0 b F). by rewrite decide_True.
  - exact (ft_data _ _ _ _ _ _ _ F).
  - intros j Hj. rewrite (got_bufc k (pid pr) P d n i b0 b F). by rewrite decide_False.
  - intros d' n' Hd'. by eapply got_blk.
  - intros HiP. destruct (ft_pinned _ _ _ _ _ _ _ F HiP) as [H1 H2].
    rewrite (baddr_Some k i (core b0)) by apply bufc_Some, F. cbn. congruence.
  - intros HiP. cbn. rewrite (ft_data _ _ _ _ _ _ _ F). eapply blk_clean; [exact B|].
    intros j c Hj Hc H1 H2. rewrite (ft_only _ _ _ _ _ _ _ F j c Hj Hc H1 H2). done.
Qed.

(** An update of a held buffer that keeps its address. *)
Lemma upd_buf_at k pr H P i c f :
  cache k pr H P -> i ∈ H -> bufc k i = Some c ->
  (forall b, core (f b) = f (core b)) -> (forall b, revised b b -> core b = c -> revised b (f b)) ->
  exists k', upd_buf i f k = Ok tt k' /\ cache k' pr H (repin i (f c) P) /\ io k k' [] /\
    bufc k' i = Some (f c) /\ (forall j, j <> i -> bufc k' j = bufc k j) /\
    (forall d n, d <> 0 -> blk k' d n =
       if decide (d = b_dev c /\ n = b_blockno c) then b_data (f c) else blk k d n).
Proof.
  intros [C [l B]] Hi Hc Hf Hrv. destruct (bufc_inv _ _ _ Hc) as (b & Hb & <-).
  destruct (held_facts _ _ _ _ _ B i b Hi Hb) as (_ & _ & Hfl & Hlen & _).
  assert (revised b (f b)) as Hr by (apply Hrv; [by split | done]).
  exists (put i (f b) k). split_and!.
  - by apply upd_buf_ok.
  - split; [by apply (calm_framed (put i (f b)))|]. exists l.
    pose proof (put_bio _ _ _ _ _ B i b Hi Hb (f b) Hr) as B'. rewrite <-Hf. exact B'.
  - split; [by destruct k | cbn; by rewrite app_nil_r | done |]. intros x. cbn. by rewrite ?lookup_insert_ne.
  - rewrite (put_bufc _ _ _ _ _ B i b Hi Hb). rewrite decide_True by done. by rewrite Hf.
  - intros j Hj. rewrite (put_bufc _ _ _ _ _ B i b Hi Hb). by rewrite decide_False.
  - intros d n Hd. rewrite (put_blk _ _ _ _ _ B i b Hi Hb _ d n Hr Hd). rewrite <-Hf. done.
Qed.

Lemma bwrite_at k pr H P i c :
  cache k pr H P -> i ∈ H -> bufc k i = Some c -> on_disk (b_dev c) (b_blockno c) ->
  exists k', bwrite i k = Ok tt k' /\ cache k' pr H (P ∖ {[i]}) /\
    io k k' [(b_dev c, b_blockno c, b_data c)] /\
    bufc k' i = Some (set_b_flags 2 c) /\ (forall j, j <> i -> bufc k' j = bufc k j) /\
    (forall d n, d <> 0 -> blk k' d n = blk k d n).
Proof.
  intros [C [l B]] Hi Hc Hon. destruct (bufc_inv _ _ _ Hc) as (b & Hb & <-).
  exists (written k i b). split_and!.
  - by eapply bwrite_ok.
  - split; [by apply written_calm|]. exists l. by apply written_bio.
  - split; [by destruct k | done | | done]. intros d n.
    rewrite (dblock_disk_write (put i (set_b_flags 2 b) k) b (b_data b)). done.
  - change (bufc (written k i b)) with (bufc (put i (set_b_flags 2 b) k)).
    rewrite (put_bufc _ _ _ _ _ B i b Hi Hb). by rewrite decide_True.
  - intros j Hj. change (bufc (written k i b)) with (bufc (put i (set_b_flags 2 b) k)).
    rewrite (put_bufc _ _ _ _ _ B i b Hi Hb). by rewrite decide_False.
  - intros d n Hd. by eapply written_blk.
Qed.

Lemma brelse_at k pr H P i c :
  cache k pr H P -> i ∈ H -> bufc k i = Some c ->
  i ∈ P \/ b_data c = dblock k (b_dev c) (b_blockno c) ->
  exists k', brelse i k = Ok tt k' /\ cache k' pr (H ∖ {[i]}) P /\ io k k' [] /\
    bufc k' i = Some (set_b_refcnt 0 c) /\ (forall j, j <> i -> bufc k' j = bufc k j) /\
    (forall d n, blk k' d n = blk k d n).
Proof.
  intros [C [l B]] Hi Hc Hcl. destruct (bufc_inv _ _ _ Hc) as (b & Hb & <-).
  exists (released k i b). split_and!.
  - by eapply brelse_ok.
  - split; [by apply released_calm|].
    destruct (released_bio k pr H P l C B i b Hi Hb Hcl) as [l' B']. by exists (i :: l').
  - split; [by destruct k | cbn; by rewrite app_nil_r | done |]. intros x. cbn. by rewrite ?lookup_insert_ne.
  - rewrite (released_bufc k pr H P l B i b Hi Hb). by rewrite decide_True.
  - intros j Hj. rewrite (released_bufc k pr H P l B i b Hi Hb). by rewrite decide_False.
  - intros d n. by eapply released_blk.
Qed.

Lemma get_buf_at k i c : bufc k i = Some c -> exists b, get_buf i k = Ok b k /\ core b = c.
Proof. intros (b & Hb & <-)%bufc_inv. exists b. split; [by apply get_buf_ok | done]. Qed.
End ops.
