(* ===== verification/Log.v ===== *)
(** * The log (log.c, with readsb of fs.c)

    Blocks modified by file system calls are pinned in the cache, and commit
    writes them to the log, then the header, then their home locations.  The
    theorems give the exact sequence of disk writes of a commit and show that,
    wherever a crash cuts it, recovery leaves all of the transaction or none
    of it. *)

From Stdlib Require Import ZArith Lia.
From stdpp Require Import base gmap list strings numbers.
From S2P Require Import Prelude Strings State Spinlock Sched Disk Bio Cache.

Open Scope Z_scope.

(** Words of a block. *)
Definition word (data : list Z) (i : Z) : Z := of_le (slice (4 * Z.to_nat i) 4 data).
Definition set_word (i v : Z) (data : list Z) : list Z := splice (4 * Z.to_nat i) (le32 v) data.

(** ** The code *)

Section code.
Context `{E : Env} `{D : Disk}.

Definition readsb (dev : Z) : KM superblock :=
  let* bp := bread dev 1 in
  let* b := get_buf bp in
  let d := b_data b in
  let sb := mk_superblock (word d 0) (word d 1) (word d 2) (word d 3) (word d 4) (word d 5) (word d 6) in
  brelse bp ;;;
  ret sb.

(** [log.lh.block[i]]; the array has LOGSIZE entries. *)
Definition get_lh_block (i : Z) : KM Z :=
  let* lg := reads klog in deref "log.lh.block" (lh_block lg !! Z.to_nat i).
Definition put_lh_block (i v : Z) : KM unit :=
  let* lg := reads klog in
  if bool_decide (Z.to_nat i < length (lh_block lg))%nat
  then upd_log (fun lg => set_lh_block (<[Z.to_nat i := v]> (lh_block lg)) lg)
  else undefined "log.lh.block".

Definition install_trans_body (tail : Z) : KM unit :=
  let* lg := reads klog in
  let* lbuf := bread (lg_dev lg) (lg_start lg + tail + 1) in
  let* blockno := get_lh_block tail in
  let* lg := reads klog in
  let* dbuf := bread (lg_dev lg) blockno in
  let* lb := get_buf lbuf in
  upd_buf dbuf (set_b_data (b_data lb)) ;;;
  bwrite dbuf ;;;
  brelse lbuf ;;;
  brelse dbuf.
Definition install_trans : KM unit :=
  let* n := reads (fun k => lh_n (klog k)) in
  for_each (zseq 0 n) install_trans_body.

Definition read_head : KM unit :=
  let* lg := reads klog in
  let* buf := bread (lg_dev lg) (lg_start lg) in
  let* b := get_buf buf in
  upd_log (set_lh_n (i32 (word (b_data b) 0))) ;;;
  let* n := reads (fun k => lh_n (klog k)) in
  for_each (zseq 0 n) (fun i => put_lh_block i (i32 (word (b_data b) (i + 1)))) ;;;
  brelse buf.

Definition write_head : KM unit :=
  let* lg := reads klog in
  let* buf := bread (lg_dev lg) (lg_start lg) in
  let* n := reads (fun k => lh_n (klog k)) in
  upd_buf buf (fun b => set_b_data (set_word 0 n (b_data b)) b) ;;;
  for_each (zseq 0 n) (fun i =>
    let* v := get_lh_block i in
    upd_buf buf (fun b => set_b_data (set_word (i + 1) v (b_data b)) b)) ;;;
  bwrite buf ;;;
  brelse buf.

Definition recover_from_log : KM unit :=
  read_head ;;;
  install_trans ;;;
  upd_log (set_lh_n 0) ;;;
  write_head.

(** [sizeof(struct logheader)] is 4 + 4 * LOGSIZE. *)
Definition initlog (dev : Z) : KM unit :=
  if BSIZE <=? 4 + 4 * LOGSIZE then panic "initlog: too big logheader"
  else
    initlock L_log ;;;
    let* sb := readsb dev in
    upd_log (set_lg_start (sb_logstart sb)) ;;;
    upd_log (set_lg_size (sb_nlog sb)) ;;;
    upd_log (set_lg_dev dev) ;;;
    recover_from_log.

Definition begin_op : KM unit :=
  acquire L_log ;;;
  forever
    (let* lg := reads klog in
     if Zb (lg_committing lg) then sleep Ch_log (Some L_log) ;;; ret None
     else if LOGSIZE <? lh_n lg + (lg_outstanding lg + 1) * MAXOPBLOCKS then
       sleep Ch_log (Some L_log) ;;; ret None
     else
       upd_log (fun lg => set_lg_outstanding (lg_outstanding lg + 1) lg) ;;;
       release L_log ;;;
       ret (Some tt)).

Definition write_log_body (tail : Z) : KM unit :=
  let* lg := reads klog in
  let* to := bread (lg_dev lg) (lg_start lg + tail + 1) in
  let* blockno := get_lh_block tail in
  let* lg := reads klog in
  let* from := bread (lg_dev lg) blockno in
  let* fb := get_buf from in
  upd_buf to (set_b_data (b_data fb)) ;;;
  bwrite to ;;;
  brelse from ;;;
  brelse to.
Definition write_log : KM unit :=
  let* n := reads (fun k => lh_n (klog k)) in
  for_each (zseq 0 n) write_log_body.

Definition commit : KM unit :=
  let* n := reads (fun k => lh_n (klog k)) in
  when 0 <? n do
    (write_log ;;;
     write_head ;;;
     install_trans ;;;
     upd_log (set_lh_n 0) ;;;
     write_head).

Definition end_op : KM unit :=
  acquire L_log ;;;
  upd_log (fun lg => set_lg_outstanding (lg_outstanding lg - 1) lg) ;;;
  let* lg := reads klog in
  if Zb (lg_committing lg) then panic "log.committing"
  else
    let* do_commit :=
      if lg_outstanding lg =? 0 then upd_log (set_lg_committing 1) ;;; ret true
      else wakeup Ch_log ;;; ret false in
    release L_log ;;;
    when do_commit do
      (commit ;;;
       acquire L_log ;;;
       upd_log (set_lg_committing 0) ;;;
       wakeup Ch_log ;;;
       release L_log).

(** The search of log_write: the first of the [n] logged blocks that is
    [blockno], or [n]. *)
Fixpoint log_find (n : nat) (i : Z) (bs : list Z) (blockno : Z) : Z :=
  match n, bs with
  | S n, b :: bs => if b =? blockno then i else log_find n (i + 1) bs blockno
  | _, _ => i
  end.

Definition log_write (b : nat) : KM unit :=
  let* lg := reads klog in
  if (LOGSIZE <=? lh_n lg) || (lg_size lg - 1 <=? lh_n lg) then panic "too big a transaction"
  else if lg_outstanding lg <? 1 then panic "log_write outside of trans"
  else
    acquire L_log ;;;
    let* bf := get_buf b in
    let* lg := reads klog in
    let i := log_find (Z.to_nat (lh_n lg)) 0 (lh_block lg) (b_blockno bf) in
    put_lh_block i (b_blockno bf) ;;;
    (when i =? lh_n lg do upd_log (fun lg => set_lh_n (lh_n lg + 1) lg)) ;;;
    upd_buf b (fun bf => set_b_flags (Z.lor (b_flags bf) B_DIRTY) bf) ;;;
    release L_log.
End code.

(** ** The header block *)

Fixpoint set_words (i : Z) (vs : list Z) (data : list Z) : list Z :=
  match vs with
  | [] => data
  | v :: vs => set_words (i + 1) vs (set_word i v data)
  end.

(** The header block for the logged blocks [A], written over [data]. *)
Definition head_data (A : list Z) (data : list Z) : list Z :=
  set_words 1 A (set_word 0 (Z.of_nat (length A)) data).

Lemma set_word_length i v data :
  0 <= i -> 4 * i + 4 <= Z.of_nat (length data) -> length (set_word i v data) = length data.
Proof. intros Hi Hl. apply splice_length. rewrite le32_length. lia. Qed.

Lemma word_set_word i j v data :
  0 <= i -> 0 <= j -> 4 * i + 4 <= Z.of_nat (length data) -> is_u32 v ->
  word (set_word i v data) j = if decide (i = j) then v else word data j.
Proof.
  intros Hi Hj Hl Hv. unfold word, set_word. case_decide as Hd.
  - subst j. change 4%nat with (length (le32 v)) at 2. rewrite slice_splice_same.
    + by apply of_le_le32.
    + rewrite le32_length. lia.
  - f_equal. apply slice_splice_other; rewrite le32_length; lia.
Qed.

Lemma set_words_length i vs data :
  0 <= i -> 4 * (i + Z.of_nat (length vs)) <= Z.of_nat (length data) ->
  length (set_words i vs data) = length data.
Proof.
  revert i data. induction vs as [|v vs IH]; intros i data Hi Hl; cbn [set_words length] in *; [done|].
  rewrite IH; rewrite ?set_word_length; lia.
Qed.

Lemma word_set_words i vs data j :
  0 <= i -> 0 <= j -> 4 * (i + Z.of_nat (length vs)) <= Z.of_nat (length data) -> Forall is_u32 vs ->
  word (set_words i vs data) j =
  if decide (i <= j < i + Z.of_nat (length vs)) then nth (Z.to_nat (j - i)) vs 0 else word data j.
Proof.
  intros Hi Hj Hl Hv. revert i data Hi Hl. induction Hv as [|v vs Hv Hvs IH]; intros i data Hi Hl;
    cbn [set_words length] in *.
  - by rewrite decide_False by lia.
  - rewrite IH; rewrite ?set_word_length; try lia. rewrite word_set_word by (done || lia).
    repeat case_decide; try lia; try done.
    + replace (Z.to_nat (j - i)) with (S (Z.to_nat (j - (i + 1)))) by lia. done.
    + subst. by replace (Z.to_nat (j - j)) with 0%nat by lia.
Qed.

(** Reading the header back. *)
Lemma head_data_spec A data :
  (length A <= Z.to_nat LOGSIZE)%nat -> length data = Z.to_nat BSIZE -> Forall is_u32 A ->
  length (head_data A data) = Z.to_nat BSIZE /\
  word (head_data A data) 0 = Z.of_nat (length A) /\
  forall i v, A !! i = Some v -> word (head_data A data) (Z.of_nat i + 1) = v.
Proof.
  intros HA Hd Hu. change (Z.to_nat LOGSIZE) with 30%nat in HA. change (Z.to_nat BSIZE) with 512%nat in *.
  assert (length (set_word 0 (Z.of_nat (length A)) data) = 512%nat) as Hl
    by (rewrite set_word_length; lia).
  unfold head_data. split_and!.
  - rewrite set_words_length; lia.
  - rewrite word_set_words by (done || lia). rewrite decide_False by lia.
    rewrite word_set_word by (lia || klia). by rewrite decide_True.
  - intros i v Hi. pose proof (lookup_lt_Some _ _ _ Hi). rewrite word_set_words by (done || lia).
    rewrite decide_True by lia. replace (Z.to_nat (Z.of_nat i + 1 - 1)) with i by lia.
    by apply nth_lookup_Some.
Qed.

(** ** One block of write_log and of install_trans *)

(** From [k] to [k'] with no buffer held, with the writes [ws], and with the
    pinned buffers going from [P] to [P']. *)
Record stepped (pr : proc) (k : K) (P : gset nat) (k' : K) (P' : gset nat) (ws : writes) : Prop := {
  st_cache : cache k' pr ∅ P';
  st_io : io k k' ws;
  st_blk d n : d <> 0 -> blk k' d n = wr ws (blk k) d n;
  st_sub : P' ⊆ P;
  st_addr j : j ∈ P' -> baddr k' j = baddr k j }.

Lemma stepped_trans pr k1 P1 k2 P2 k3 P3 ws1 ws2 :
  stepped pr k1 P1 k2 P2 ws1 -> stepped pr k2 P2 k3 P3 ws2 -> stepped pr k1 P1 k3 P3 (ws1 ++ ws2).
Proof.
  intros [C1 I1 B1 S1 A1] [C2 I2 B2 S2 A2]. split.
  - done.
  - by eapply io_trans.
  - intros d n Hd. rewrite B2 by done. rewrite wr_app.
    by apply wr_ext_dev.
  - by etransitivity.
  - intros j Hj. rewrite A2 by done. apply A1. by apply S2.
Qed.

Section steps.
Context `{E : Env} `{D : Disk} `{DO : !DiskOk D}.
Implicit Types (k : K) (P : gset nat).

Lemma repin_data i v c P : (i ∈ P <-> b_flags c = 6) -> repin i (set_b_data v c) P = P.
Proof. intros H. by apply repin_same. Qed.

(** Copying a block over another one through two held buffers: the common
    middle of the two loops. *)
Lemma copy_block k pr H P src dst cs cd :
  cache k pr H P -> src ∈ H -> dst ∈ H -> src <> dst ->
  bufc k src = Some cs -> bufc k dst = Some cd -> on_disk (b_dev cd) (b_blockno cd) ->
  exists k', (let* b := get_buf src in upd_buf dst (set_b_data (b_data b)) ;;; bwrite dst) k = Ok tt k' /\
    cache k' pr H (P ∖ {[dst]}) /\ io k k' [(b_dev cd, b_blockno cd, b_data cs)] /\
    bufc k' dst = Some (set_b_flags 2 (set_b_data (b_data cs) cd)) /\
    (forall j, j <> dst -> bufc k' j = bufc k j) /\
    (forall d n, d <> 0 -> blk k' d n = upd (blk k) (b_dev cd) (b_blockno cd) (b_data cs) d n).
Proof.
  intros Hca Hs Hd Hne Hcs Hcd Hon. pose proof Hca as [C [l B]].
  destruct (bufc_inv _ _ _ Hcs) as (bs & Hbs & <-). destruct (bufc_inv _ _ _ Hcd) as (bd & Hbd & <-).
  destruct (held_facts _ _ _ _ _ B src bs Hs Hbs) as (_ & _ & _ & Hlen & _).
  destruct (held_facts _ _ _ _ _ B dst bd Hd Hbd) as (_ & _ & Hfl & _ & _ & _ & HP).
  mrun (get_buf_ok src bs k Hbs).
  destruct (upd_buf_at k pr H P dst (core bd) (set_b_data (b_data bs)) Hca Hd Hcd)
    as (k1 & H1 & C1 & I1 & Hb1 & Ho1 & Hv1).
  - done.
  - intros b [[R1 R2] R3 R4 R5] _. by split.
  - rewrite repin_data in C1 by done.
    destruct (bwrite_at k1 pr H P dst (set_b_data (b_data bs) (core bd)) C1 Hd Hb1 Hon)
      as (k2 & H2 & C2 & I2 & Hb2 & Ho2 & Hv2).
    exists k2. split_and!; try done.
    + by mrun H1.
    + exact (io_trans _ _ _ _ _ I1 I2).
    + intros j Hj. rewrite Ho2, Ho1; done.
    + intros d n Hdz. rewrite Hv2, Hv1 by done. unfold upd. done.
Qed.

Lemma get_lh_block_ok k i v : lh_block (klog k) !! Z.to_nat i = Some v -> get_lh_block i k = Ok v k.
Proof. intros H. unfold get_lh_block. msimp. by rewrite H. Qed.

Lemma write_log_step k pr P tail a :
  let d := lg_dev (klog k) in let t := lg_start (klog k) + tail + 1 in
  cache k pr ∅ P -> d <> 0 -> on_disk d t -> on_disk d a -> a <> t ->
  lh_block (klog k) !! Z.to_nat tail = Some a ->
  room ∅ P -> none_at k P d t -> (exists j, j ∈ P /\ baddr k j = Some (d, a)) ->
  exists k', write_log_body tail k = Ok tt k' /\ stepped pr k P k' P [(d, t, blk k d a)].
Proof.
  intros d t Hca Hd Hont Hona Hat Hlh Hroom Hnt (j & HjP & Hja). unfold write_log_body. msimp. fold d t.
  destruct (bread_at k pr ∅ P d t Hca Hd Hont (none_at_empty k d t) (or_introl Hroom))
    as (ti & ct & k1 & R1 & C1 & _ & I1 & Hct & Ht1 & Ht2 & _ & Ho1 & Hv1 & HtP & _).
  assert (ti ∉ P) as HtnP by (intros Hin; by apply (Hnt ti Hin), HtP).
  mrun R1. pose proof (io_klog _ _ _ I1) as Hkl1.
  mrun (get_lh_block_ok k1 tail a ltac:(by rewrite Hkl1)). msimp. rewrite Hkl1. fold d.
  assert (j <> ti) as Hjt by (intros ->; done).
  destruct (bread_at k1 pr ({[ti]} ∪ ∅) P d a C1 Hd Hona) as
    (fi & cf & k2 & R2 & C2 & Hfi & I2 & Hcf & Hf1 & Hf2 & Hfd & Ho2 & Hv2 & HfP & HfnP).
  { intros x Hx. assert (x = ti) as -> by set_solver +Hx. rewrite (baddr_Some _ _ _ Hct). congruence. }
  { right. apply (baddr_cached k1 j); [|unfold baddr; by rewrite Ho1].
    destruct Hca as [_ [l B]]. apply (bio_range _ _ _ _ _ B). by right. }
  mrun R2. assert (fi <> ti) as Hft by set_solver +Hfi.
  assert (bufc k2 ti = Some ct) as Hct2 by (by rewrite Ho2).
  destruct (copy_block k2 pr ({[fi]} ∪ ({[ti]} ∪ ∅)) P fi ti cf ct C2) as
    (k3 & R3 & C3 & I3 & Hb3 & Ho3 & Hv3); try done; [set_solver + | set_solver + | by rewrite Ht1, Ht2|].
  rewrite Ht1, Ht2, Hfd in *. rewrite Hv1 in * by done.
  replace (P ∖ {[ti]}) with P in C3 by (apply set_eq; set_solver +HtnP).
  rewrite (bind_block _ _ _ _ _ _ _ R3).
  assert (bufc k3 fi = Some cf) as Hcf3 by (by rewrite Ho3).
  destruct (brelse_at k3 pr ({[fi]} ∪ ({[ti]} ∪ ∅)) P fi cf C3) as
    (k4 & R4 & C4 & I4 & Hb4 & Ho4 & Hv4); [set_solver + | done | |].
  { destruct (decide (fi ∈ P)) as [?|Hn]; [by left | right]. rewrite (io_disk _ _ _ I3).
    rewrite Hf1, Hf2. cbn [wr]. rewrite upd_ne by naive_solver. rewrite (io_disk _ _ _ I2). cbn [wr].
    by rewrite Hfd, HfnP. }
  mrun R4. assert (bufc k4 ti = Some (set_b_flags 2 (set_b_data (blk k d a) ct))) as Hct4
    by (by rewrite Ho4).
  destruct (brelse_at k4 pr (({[fi]} ∪ ({[ti]} ∪ ∅)) ∖ {[fi]}) P ti
              (set_b_flags 2 (set_b_data (blk k d a) ct)) C4) as
    (k5 & R5 & C5 & I5 & Hb5 & Ho5 & Hv5); [set_solver +Hft | exact Hct4 | |].
  { right. cbn [b_data b_dev b_blockno set_b_flags set_b_data]. rewrite (io_disk _ _ _ I4). cbn [wr].
    rewrite (io_disk _ _ _ I3). cbn [wr]. by rewrite Ht1, Ht2, upd_eq. }
  exists k5. split; [done|].
  replace ((({[fi]} ∪ ({[ti]} ∪ ∅)) ∖ {[fi]}) ∖ {[ti]}) with (∅ : gset nat) in C5
    by (apply set_eq; set_solver +).
  split; [done | | | done |].
  - exact (io_trans _ _ _ _ _ (io_trans _ _ _ _ _ (io_trans _ _ _ _ _ (io_trans _ _ _ _ _ I1 I2) I3) I4) I5).
  - intros d' n' Hd'. rewrite Hv5, Hv4, Hv3 by done. cbn [wr]. unfold upd. case_decide; [done|].
    by rewrite Hv2, Hv1.
  - intros x Hx. assert (x <> ti) as Hxt by (intros ->; done).
    destruct (decide (x = fi)) as [->|Hxf].
    + unfold baddr at 1. rewrite Ho5, Hb4 by done. cbn. rewrite Hf1, Hf2.
      symmetry. unfold baddr. rewrite <-Ho1 by done. by apply HfP.
    + unfold baddr. by rewrite Ho5, Ho4, Ho3, Ho2, Ho1.
Qed.

(** No two buffers are assigned to the same block. *)
Lemma baddr_inj k pr H P i j d n :
  cache k pr H P -> (i < NBUF)%nat -> (j < NBUF)%nat -> d <> 0 ->
  baddr k i = Some (d, n) -> baddr k j = Some (d, n) -> i = j.
Proof.
  intros [_ [l B]] Hi Hj Hd. unfold baddr.
  destruct (bufc k i) as [b|] eqn:Hb; [|done]. destruct (bufc k j) as [c|] eqn:Hc; [|done].
  intros [= H1 H2] [= H3 H4]. apply (bio_uniq _ _ _ _ _ B i j b c); congruence.
Qed.

Lemma cache_range k pr H P i : cache k pr H P -> i ∈ H \/ i ∈ P -> (i < NBUF)%nat.
Proof. intros [_ [l B]]. apply (bio_range _ _ _ _ _ B). Qed.

Lemma install_trans_step k pr P tail a :
  let d := lg_dev (klog k) in let t := lg_start (klog k) + tail + 1 in
  cache k pr ∅ P -> d <> 0 -> on_disk d t -> on_disk d a -> a <> t ->
  lh_block (klog k) !! Z.to_nat tail = Some a ->
  room ∅ P -> none_at k P d t ->
  (exists j, j ∈ P /\ baddr k j = Some (d, a)) \/ (forall x, room {[x]} P) ->
  exists k' P', install_trans_body tail k = Ok tt k' /\ stepped pr k P k' P' [(d, a, blk k d t)] /\
    (forall j, j ∈ P' <-> j ∈ P /\ baddr k j <> Some (d, a)).
Proof.
  intros d t Hca Hd Hont Hona Hat Hlh Hroom Hnt Hroom2. unfold install_trans_body. msimp. fold d t.
  destruct (bread_at k pr ∅ P d t Hca Hd Hont (none_at_empty k d t) (or_introl Hroom))
    as (li & cl & k1 & R1 & C1 & _ & I1 & Hcl & Hl1 & Hl2 & Hld & Ho1 & Hv1 & HlP & HlnP).
  assert (li ∉ P) as HlnP' by (intros Hin; by apply (Hnt li Hin), HlP).
  specialize (HlnP HlnP'). mrun R1. pose proof (io_klog _ _ _ I1) as Hkl1.
  mrun (get_lh_block_ok k1 tail a ltac:(by rewrite Hkl1)). msimp. rewrite Hkl1. fold d.
  replace ({[li]} ∪ ∅) with ({[li]} : gset nat) in C1 by (apply set_eq; set_solver +).
  destruct (bread_at k1 pr {[li]} P d a C1 Hd Hona) as
    (di & cd & k2 & R2 & C2 & Hdi & I2 & Hcd & Hd1 & Hd2 & _ & Ho2 & Hv2 & HdP & _).
  { intros x ->%elem_of_singleton. rewrite (baddr_Some _ _ _ Hcl). congruence. }
  { destruct Hroom2 as [(j & HjP & Hja)|Hr]; [right | left; apply Hr].
    apply (baddr_cached k1 j); [by eapply cache_range; [exact Hca|right]|].
    assert (j <> li) by (intros ->; done). unfold baddr. by rewrite Ho1. }
  mrun R2. assert (di <> li) as Hdl by set_solver +Hdi.
  assert (bufc k2 li = Some cl) as Hcl2 by (by rewrite Ho2).
  destruct (copy_block k2 pr ({[di]} ∪ {[li]}) P li di cl cd C2) as
    (k3 & R3 & C3 & I3 & Hb3 & Ho3 & Hv3); try done; [set_solver + | set_solver + | by rewrite Hd1, Hd2|].
  rewrite Hd1, Hd2, Hld in *. rewrite (bind_block _ _ _ _ _ _ _ R3).
  assert (bufc k3 li = Some cl) as Hcl3 by (by rewrite Ho3).
  destruct (brelse_at k3 pr ({[di]} ∪ {[li]}) (P ∖ {[di]}) li cl C3) as
    (k4 & R4 & C4 & I4 & Hb4 & Ho4 & Hv4); [set_solver + | done | |].
  { right. rewrite (io_disk _ _ _ I3), Hl1, Hl2. cbn [wr]. rewrite upd_ne by naive_solver.
    rewrite (io_disk _ _ _ I2). cbn [wr]. rewrite (io_disk _ _ _ I1). cbn [wr]. by rewrite Hld, HlnP. }
  mrun R4. assert (bufc k4 di = Some (set_b_flags 2 (set_b_data (blk k d t) cd))) as Hcd4
    by (by rewrite Ho4).
  destruct (brelse_at k4 pr (({[di]} ∪ {[li]}) ∖ {[li]}) (P ∖ {[di]}) di
              (set_b_flags 2 (set_b_data (blk k d t) cd)) C4) as
    (k5 & R5 & C5 & I5 & Hb5 & Ho5 & Hv5); [set_solver +Hdl | exact Hcd4 | |].
  { right. cbn [b_data b_dev b_blockno set_b_flags set_b_data]. rewrite (io_disk _ _ _ I4). cbn [wr].
    rewrite (io_disk _ _ _ I3). cbn [wr]. by rewrite Hd1, Hd2, upd_eq. }
  replace ((({[di]} ∪ {[li]}) ∖ {[li]}) ∖ {[di]}) with (∅ : gset nat) in C5
    by (apply set_eq; set_solver +).
  exists k5, (P ∖ {[di]}). split; [done|]. split.
  - split; [done | | | set_solver + |].
    + exact (io_trans _ _ _ _ _ (io_trans _ _ _ _ _ (io_trans _ _ _ _ _ (io_trans _ _ _ _ _ I1 I2) I3) I4) I5).
    + intros d' n' Hd'. rewrite Hv5, Hv4, Hv3 by done. cbn [wr]. unfold upd. case_decide; [done|].
      by rewrite Hv2, Hv1.
    + intros x [Hx Hxd]%elem_of_difference. assert (x <> di) by set_solver +Hxd.
      assert (x <> li) by (intros ->; done). unfold baddr. by rewrite Ho5, Ho4, Ho3, Ho2, Ho1.
  - intros j. rewrite elem_of_difference, elem_of_singleton. split.
    + intros [HjP Hjd]. split; [done|]. intros Hja. apply Hjd.
      assert (j <> li) by (intros ->; done).
      apply (baddr_inj k2 pr _ P j di d a C2); [by eapply cache_range; [exact C2|right]
        | eapply cache_range; [exact C2|left; set_solver +] | done | |].
      * unfold baddr. by rewrite Ho2, Ho1.
      * rewrite (baddr_Some _ _ _ Hcd). congruence.
    + intros [HjP Hja]. split; [done|]. intros ->. apply Hja. specialize (HdP HjP).
      unfold baddr in *. by rewrite <-Ho1.
Qed.

(** *** The loop of write_head *)

Lemma write_head_loop k pr P bi c L i m :
  cache k pr {[bi]} P -> bufc k bi = Some c -> lh_block (klog k) = L ->
  0 <= i -> 0 <= m -> i + m <= Z.of_nat (length L) -> 4 * (i + m + 1) <= BSIZE ->
  exists k', for_each (zseq i m) (fun i =>
      let* v := get_lh_block i in
      upd_buf bi (fun b => set_b_data (set_word (i + 1) v (b_data b)) b)) k = Ok tt k' /\
    cache k' pr {[bi]} P /\ io k k' [] /\
    bufc k' bi = Some (set_b_data (set_words (i + 1) (take (Z.to_nat m) (drop (Z.to_nat i) L)) (b_data c)) c) /\
    (forall j, j <> bi -> bufc k' j = bufc k j) /\
    (forall d n, d <> 0 -> ~ (d = b_dev c /\ n = b_blockno c) -> blk k' d n = blk k d n).
Proof.
  intros Hca Hc HL Hi Hm. revert k c i Hca Hc HL Hi. pattern m. apply natlike_ind; [| |done]; clear m Hm.
  - intros k c i Hca Hc HL Hi _ _. exists k. rewrite zseq_nil by lia. cbn.
    split_and!; try done; [apply io_refl|]. by destruct c.
  - intros m Hm IH k c i Hca Hc HL Hi Hlen Hbs. rewrite zseq_cons by lia. cbn [for_each].
    destruct (lookup_lt_is_Some_2 L (Z.to_nat i)) as [v Hv]; [lia|].
    rewrite bind_assoc. mrun (get_lh_block_ok k i v ltac:(by rewrite HL)).
    pose proof Hca as [_ [l B]]. destruct (bufc_inv _ _ _ Hc) as (b & Hb & Hbc).
    destruct (held_facts _ _ _ _ _ B bi b ltac:(set_solver +) Hb) as (_ & _ & Hfl & Hdl & _ & _ & HP).
    destruct (upd_buf_at k pr {[bi]} P bi c
                (fun b => set_b_data (set_word (i + 1) v (b_data b)) b) Hca ltac:(set_solver +) Hc)
      as (k1 & H1 & C1 & I1 & Hb1 & Ho1 & Hv1).
    { done. }
    { intros x [R1 R2 R3 R4] _. split; try done. cbn [b_data set_b_data]. rewrite set_word_length; [done | lia | klia]. }
    rewrite repin_data in C1 by (by rewrite <-Hbc).
    mrun H1. replace (Z.succ m - 1) with m by lia.
    destruct (IH k1 (set_b_data (set_word (i + 1) v (b_data c)) c) (i + 1)) as
      (k2 & H2 & C2 & I2 & Hb2 & Ho2 & Hv2); try done; try lia.
    { by rewrite (io_klog _ _ _ I1). }
    exists k2. split_and!; try done.
    + exact (io_trans _ _ _ _ _ I1 I2).
    + rewrite Hb2. f_equal. cbn [b_data set_b_data].
      replace (Z.to_nat (Z.succ m)) with (S (Z.to_nat m)) by lia.
      rewrite (drop_S L v (Z.to_nat i) Hv). cbn [take set_words].
      replace (S (Z.to_nat i)) with (Z.to_nat (i + 1)) by lia. done.
    + intros j Hj. by rewrite Ho2, Ho1.
    + intros d n Hd Hn. rewrite Hv2, Hv1 by done. by rewrite decide_False.
Qed.

Lemma write_head_ok k pr P A :
  let d := lg_dev (klog k) in let s := lg_start (klog k) in
  cache k pr ∅ P -> d <> 0 -> on_disk d s -> none_at k P d s -> room ∅ P ->
  lh_n (klog k) = Z.of_nat (length A) -> take (length A) (lh_block (klog k)) = A ->
  (length A <= Z.to_nat LOGSIZE)%nat ->
  exists k', write_head k = Ok tt k' /\ stepped pr k P k' P [(d, s, head_data A (blk k d s))].
Proof.
  intros d s Hca Hd Hon Hnp Hroom Hn HA Hsz. unfold write_head. msimp. fold d s.
  destruct (bread_at k pr ∅ P d s Hca Hd Hon (none_at_empty k d s) (or_introl Hroom))
    as (bi & c & k1 & R1 & C1 & _ & I1 & Hc & Hc1 & Hc2 & Hcd & Ho1 & Hv1 & HcP & _).
  assert (bi ∉ P) as HbP by (intros Hin; by apply (Hnp bi Hin), HcP).
  replace ({[bi]} ∪ ∅) with ({[bi]} : gset nat) in C1 by (apply set_eq; set_solver +).
  mrun R1. msimp. rewrite (io_klog _ _ _ I1), Hn.
  pose proof C1 as [_ [l B]]. destruct (bufc_inv _ _ _ Hc) as (b & Hb & Hbc).
  destruct (held_facts _ _ _ _ _ B bi b ltac:(set_solver +) Hb) as (_ & _ & Hfl & Hdl & _ & _ & HP).
  destruct (upd_buf_at k1 pr {[bi]} P bi c
    (fun b => set_b_data (set_word 0 (Z.of_nat (length A)) (b_data b)) b) C1 ltac:(set_solver +) Hc)
    as (k2 & R2 & C2 & I2 & Hb2 & Ho2 & Hv2).
  { done. }
  { intros x [X1 X2 X3 X4] _. split; try done. cbn [b_data set_b_data].
    rewrite set_word_length; [done | lia | klia]. }
  rewrite repin_data in C2 by (by rewrite <-Hbc). mrun R2.
  set (c2 := set_b_data (set_word 0 (Z.of_nat (length A)) (b_data c)) c) in *.
  pose proof (io_klog _ _ _ (io_trans _ _ _ _ _ I1 I2)) as Hkl2.
  assert (length A <= length (lh_block (klog k)))%nat as HlA by (rewrite <-HA at 1; rewrite length_take; lia).
  destruct (write_head_loop k2 pr P bi c2 (lh_block (klog k)) 0 (Z.of_nat (length A)))
    as (k3 & R3 & C3 & I3 & Hb3 & Ho3 & Hv3); try done; try lia; [by rewrite Hkl2 | klia|].
  mrun R3. rewrite drop_0, Nat2Z.id, HA in Hb3.
  assert (b_data c2 = set_word 0 (Z.of_nat (length A)) (blk k d s)) as Hd2 by (unfold c2; cbn; by rewrite Hcd).
  rewrite Hd2 in Hb3. fold (head_data A (blk k d s)) in Hb3.
  set (c3 := set_b_data (head_data A (blk k d s)) c2) in *.
  assert (b_dev c3 = d /\ b_blockno c3 = s /\ b_data c3 = head_data A (blk k d s)) as (E1 & E2 & E3) by done.
  destruct (bwrite_at k3 pr {[bi]} P bi c3 C3 ltac:(set_solver +) Hb3 ltac:(by rewrite E1, E2))
    as (k4 & R4 & C4 & I4 & Hb4 & Ho4 & Hv4).
  replace (P ∖ {[bi]}) with P in C4 by (apply set_eq; set_solver +HbP). rewrite E1, E2, E3 in I4.
  mrun R4. destruct (brelse_at k4 pr {[bi]} P bi _ C4 ltac:(set_solver +) Hb4)
    as (k5 & R5 & C5 & I5 & Hb5 & Ho5 & Hv5).
  { right. rewrite (io_disk _ _ _ I4). cbn [wr b_data b_dev b_blockno set_b_flags].
    by rewrite E1, E2, E3, upd_eq. }
  replace ({[bi]} ∖ {[bi]}) with (∅ : gset nat) in C5 by (apply set_eq; set_solver +).
  exists k5. split; [done|]. split; [done | | | done |].
  - exact (io_trans _ _ _ _ _ (io_trans _ _ _ _ _ (io_trans _ _ _ _ _ (io_trans _ _ _ _ _ I1 I2) I3) I4) I5).
  - intros d' n' Hd'. rewrite Hv5, Hv4 by done. cbn [wr]. unfold upd. case_decide as Hdn.
    + destruct Hdn as [-> ->]. destruct C3 as [_ [l3 B3]].
      rewrite <-E1, <-E2 at 1. rewrite (blk_cached _ _ _ _ _ B3 bi c3); [done | | done | by rewrite E1 |].
      * apply (bio_range _ _ _ _ _ B3). left. set_solver +.
      * destruct (bufc_inv _ _ _ Hb3) as (b3 & Hb3' & Hbc3). apply (f_equal b_flags) in Hbc3.
        change (b_flags b3 = b_flags c) in Hbc3. change (b_flags c <> 0).
        destruct (held_facts _ _ _ _ _ B3 bi b3 ltac:(set_solver +) Hb3') as (_ & _ & Hf3 & _). lia.
    + assert (~ (d' = b_dev c /\ n' = b_blockno c)) as Hne by (by rewrite Hc1, Hc2).
      rewrite Hv3 by done. rewrite Hv2 by done. rewrite decide_False by (by rewrite Hc1, Hc2). by apply Hv1.
  - intros x Hx. assert (x <> bi) by (intros ->; done). unfold baddr. by rewrite Ho5, Ho4, Ho3, Ho2, Ho1.
Qed.

(** ** The loops *)

Fixpoint log_writes (d t : Z) (Vs : list (list Z)) : writes :=
  match Vs with
  | [] => []
  | V :: Vs => (d, t, V) :: log_writes d (t + 1) Vs
  end.
Definition home_writes (d : Z) (A : list Z) (Vs : list (list Z)) : writes :=
  zip_with (fun a V => (d, a, V)) A Vs.

(** The log's blocks are on the disk, and none of them is itself logged. *)
Definition log_area (k : K) (P : gset nat) (d s : Z) : Prop :=
  forall t, s <= t < s + LOGSIZE -> on_disk d t /\ none_at k P d t.
Definition outside (s a : Z) : Prop := ~ (s <= a < s + LOGSIZE).

Lemma log_area_stepped pr k P k' P' ws d s :
  stepped pr k P k' P' ws -> log_area k P d s -> log_area k' P' d s.
Proof.
  intros [_ _ _ Hsub Ha] Hl t Ht. destruct (Hl t Ht) as [Hon Hn]. split; [done|].
  intros j Hj. rewrite Ha by done. apply Hn. by apply Hsub.
Qed.

Lemma write_log_loop A : forall k pr P i,
  let d := lg_dev (klog k) in let s := lg_start (klog k) in
  cache k pr ∅ P -> d <> 0 -> 0 <= i -> i + Z.of_nat (length A) < LOGSIZE ->
  (forall j a, A !! j = Some a -> lh_block (klog k) !! (Z.to_nat i + j)%nat = Some a) ->
  log_area k P d s -> room ∅ P ->
  (forall a, a ∈ A -> on_disk d a /\ outside s a /\ exists j, j ∈ P /\ baddr k j = Some (d, a)) ->
  exists k', for_each (zseq i (Z.of_nat (length A))) write_log_body k = Ok tt k' /\
    stepped pr k P k' P (log_writes d (s + i + 1) ((fun a => blk k d a) <$> A)).
Proof.
  induction A as [|a A IH]; intros k pr P i d s Hca Hd Hi Hlen Hlh Har Hroom HA.
  { exists k. cbn. rewrite zseq_nil by lia. split; [done|]. split; try done. apply io_refl. }
  cbn [length] in *. rewrite zseq_cons by lia. cbn [for_each].
  destruct (HA a ltac:(left)) as (Hona & Hout & Hpin). unfold outside in Hout.
  destruct (write_log_step k pr P i a) as (k1 & R1 & S1); try done.
  - apply Har. unfold s in *. klia.
  - intros ->. apply Hout. klia.
  - specialize (Hlh 0%nat a eq_refl). by rewrite Nat.add_0_r in Hlh.
  - apply Har. klia.
  - pose proof (io_klog _ _ _ (st_io _ _ _ _ _ _ S1)) as Hkl. mrun R1.
    replace (Z.of_nat (S (length A)) - 1) with (Z.of_nat (length A)) by lia.
    destruct (IH k1 pr P (i + 1)) as (k2 & R2 & S2); rewrite ?Hkl; fold d s; try done; try lia.
    + apply S1.
    + intros j b Hj. replace (Z.to_nat (i + 1) + j)%nat with (Z.to_nat i + S j)%nat by lia.
      by apply Hlh.
    + by eapply log_area_stepped.
    + intros b Hb. destruct (HA b ltac:(by right)) as (H1 & H2 & j & Hj & Hja).
      split_and!; [done | done |]. exists j. split; [done|].
      by rewrite (st_addr _ _ _ _ _ _ S1 j Hj).
    + exists k2. split; [done|]. rewrite Hkl in S2. fold d s in S2.
      assert ((fun a => blk k1 d a) <$> A = (fun a => blk k d a) <$> A) as HV.
      { apply list_fmap_ext. intros j b Hj. rewrite (st_blk _ _ _ _ _ _ S1) by done. cbn [wr].
        apply upd_ne. intros [_ Hbt]. destruct (HA b) as (_ & H2 & _).
        - right. by eapply list_elem_of_lookup_2.
        - apply H2. subst b. klia. }
      rewrite HV in S2. replace (s + (i + 1) + 1) with (s + i + 1 + 1) in S2 by lia.
      exact (stepped_trans _ _ _ _ _ _ _ _ _ S1 S2).
Qed.

Lemma install_trans_loop A : forall k pr P i,
  let d := lg_dev (klog k) in let s := lg_start (klog k) in
  cache k pr ∅ P -> d <> 0 -> 0 <= i -> i + Z.of_nat (length A) < LOGSIZE -> NoDup A ->
  (forall j a, A !! j = Some a -> lh_block (klog k) !! (Z.to_nat i + j)%nat = Some a) ->
  log_area k P d s -> room ∅ P ->
  (forall a, a ∈ A -> on_disk d a /\ outside s a) ->
  (forall a, a ∈ A -> exists j, j ∈ P /\ baddr k j = Some (d, a)) \/ (forall x, room {[x]} P) ->
  exists k' P', for_each (zseq i (Z.of_nat (length A))) install_trans_body k = Ok tt k' /\
    stepped pr k P k' P' (home_writes d A ((fun j => blk k d (s + 1 + i + Z.of_nat j)) <$> seq 0 (length A))) /\
    (forall j, j ∈ P' <-> j ∈ P /\ forall a, a ∈ A -> baddr k j <> Some (d, a)).
Proof.
  induction A as [|a A IH]; intros k pr P i d s Hca Hd Hi Hlen Hnd Hlh Har Hroom HA Hpin.
  { exists k, P. cbn. rewrite zseq_nil by lia. split; [done|]. split.
    - split; try done. apply io_refl.
    - intros j. split; [|tauto]. intros Hj. split; [done|]. by intros a ?%not_elem_of_nil. }
  cbn [length] in *. rewrite zseq_cons by lia. cbn [for_each].
  apply list.NoDup_cons in Hnd as [Hna Hnd].
  destruct (HA a ltac:(left)) as (Hona & Hout). unfold outside in Hout.
  destruct (install_trans_step k pr P i a) as (k1 & P1 & R1 & S1 & HP1); try done.
  - apply Har. unfold s in *. klia.
  - intros ->. apply Hout. klia.
  - specialize (Hlh 0%nat a eq_refl). by rewrite Nat.add_0_r in Hlh.
  - apply Har. klia.
  - destruct Hpin as [Hp|Hr]; [left; apply Hp; left | by right].
  - fold d s in S1, HP1. pose proof (io_klog _ _ _ (st_io _ _ _ _ _ _ S1)) as Hkl. mrun R1.
    replace (Z.of_nat (S (length A)) - 1) with (Z.of_nat (length A)) by lia.
    assert (forall S, room S P -> room S P1) as Hrm.
    { intros S (x & H1 & H2 & H3). exists x. split_and!; [done | done |].
      intros Hx. apply H3. by apply HP1. }
    destruct (IH k1 pr P1 (i + 1)) as (k2 & P2 & R2 & S2 & HP2); rewrite ?Hkl; fold d s; try done; try lia.
    + apply S1.
    + intros j b Hj. replace (Z.to_nat (i + 1) + j)%nat with (Z.to_nat i + S j)%nat by lia.
      by apply Hlh.
    + by eapply log_area_stepped.
    + by apply Hrm.
    + intros b Hb. apply HA. by right.
    + destruct Hpin as [Hp|Hr]; [left | right; intros x; by apply Hrm].
      intros b Hb. destruct (Hp b ltac:(by right)) as (j & Hj & Hja). exists j.
      assert (j ∈ P1) as Hj1.
      { apply HP1. split; [done|]. intros Heq. rewrite Hja in Heq. injection Heq as ->. done. }
      split; [done|]. by rewrite (st_addr _ _ _ _ _ _ S1 j Hj1).
    + exists k2, P2. split; [done|]. rewrite Hkl in S2, HP2. fold d s in S2, HP2. split.
      * assert ((fun j => blk k1 d (s + 1 + (i + 1) + Z.of_nat j)) <$> seq 0 (length A) =
                (fun j => blk k d (s + 1 + i + Z.of_nat j)) <$> seq 1 (length A)) as HV.
        { rewrite <-fmap_S_seq, <-list_fmap_compose. apply list_fmap_ext. intros j x Hj. cbn [compose].
          apply lookup_seq in Hj as [-> Hj].
          rewrite (st_blk _ _ _ _ _ _ S1) by done. cbn [wr]. rewrite upd_ne.
          - f_equal. lia.
          - intros [_ Heq]. apply Hout. klia. }
        rewrite HV in S2. cbn [seq fmap list_fmap home_writes zip_with].
        replace (s + 1 + i + Z.of_nat 0) with (s + i + 1) by lia.
        exact (stepped_trans _ _ _ _ _ _ _ _ _ S1 S2).
      * intros j. rewrite HP2, HP1. split.
        -- intros [[Hj Hja] Hjb]. split; [done|]. intros b [->|Hb]%elem_of_cons; [done|].
           rewrite <-(st_addr _ _ _ _ _ _ S1 j); [by apply Hjb | by apply HP1].
        -- intros [Hj Hjb]. assert (baddr k j <> Some (d, a)) as Hja by (apply Hjb; left).
           split; [done|]. intros b Hb. rewrite (st_addr _ _ _ _ _ _ S1 j); [|by apply HP1].
           apply Hjb. by right.
Qed.

(** ** commit *)

(** The log holds a transaction on the blocks [A]: each of them is pinned, and
    nothing else is. *)
Record txn (k : K) (pr : proc) (H P : gset nat) (A : list Z) : Prop := {
  tx_cache : cache k pr H P;
  tx_dev : lg_dev (klog k) <> 0;
  tx_n : lh_n (klog k) = Z.of_nat (length A);
  tx_blocks : take (length A) (lh_block (klog k)) = A;
  tx_len : (length A < Z.to_nat LOGSIZE)%nat;
  tx_cap : length (lh_block (klog k)) = Z.to_nat LOGSIZE;
  tx_nodup : NoDup A;
  tx_range : Forall (fun a => 0 <= a < 2 ^ 31) A;
  tx_area t : lg_start (klog k) <= t < lg_start (klog k) + LOGSIZE -> on_disk (lg_dev (klog k)) t;
  tx_home a : a ∈ A -> on_disk (lg_dev (klog k)) a /\ outside (lg_start (klog k)) a;
  tx_pin a : a ∈ A -> exists j, j ∈ P /\ baddr k j = Some (lg_dev (klog k), a);
  tx_pins j : j ∈ P -> exists a, a ∈ A /\ baddr k j = Some (lg_dev (klog k), a) }.

Lemma txn_area k pr H P A : txn k pr H P A -> log_area k P (lg_dev (klog k)) (lg_start (klog k)).
Proof.
  intros T t Ht. split; [by apply (tx_area _ _ _ _ _ T)|]. intros j Hj Hja.
  destruct (tx_pins _ _ _ _ _ T j Hj) as (a & Ha & Hja'). rewrite Hja in Hja'. injection Hja' as ->.
  by apply (tx_home _ _ _ _ _ T a Ha).
Qed.

(** No more buffers are pinned than there are blocks in the transaction. *)
Lemma txn_size k pr H P A : txn k pr H P A -> (size P <= length A)%nat.
Proof.
  intros T. unfold size, set_size. cbn.
  rewrite <-(length_fmap (baddr k)), <-(length_fmap (fun a => Some (lg_dev (klog k), a)) A).
  apply submseteq_length, NoDup_submseteq.
  - apply NoDup_fmap_2_strong; [|apply NoDup_elements]. intros i j Hi Hj Hij.
    apply elem_of_elements in Hi, Hj. destruct (tx_pins _ _ _ _ _ T i Hi) as (a & _ & Ha).
    rewrite Ha in Hij. pose proof (tx_cache _ _ _ _ _ T) as Hc.
    apply (baddr_inj k pr H P i j (lg_dev (klog k)) a Hc); try done.
    + by eapply cache_range; [exact Hc | right].
    + by eapply cache_range; [exact Hc | right].
    + apply T.
  - intros x (j & -> & Hj)%list_elem_of_fmap. apply elem_of_elements in Hj.
    destruct (tx_pins _ _ _ _ _ T j Hj) as (a & Ha & Hja). apply list_elem_of_fmap. by exists a.
Qed.

(** A buffer is left as long as fewer than NBUF are pinned or held. *)
Lemma txn_room k pr H P A : txn k pr H P A -> (size H + length A < NBUF)%nat -> room H P.
Proof.
  intros T Hs. apply room_size. pose proof (txn_size _ _ _ _ _ T). lia.
Qed.

(** Blocks that the transaction does not mention are clean. *)
Lemma txn_clean k pr H P A n :
  txn k pr H P A -> (forall i, i ∈ H -> baddr k i <> Some (lg_dev (klog k), n)) -> n ∉ A ->
  blk k (lg_dev (klog k)) n = dblock k (lg_dev (klog k)) n.
Proof.
  intros T HH Hn. pose proof (tx_cache _ _ _ _ _ T) as [_ [l B]]. eapply blk_clean; [exact B|].
  intros i b Hi Hb Hd Hbn. 
  assert (baddr k i = Some (lg_dev (klog k), n)) as Hia by (rewrite (baddr_Some _ _ _ Hb); congruence).
  split; [intros Hi'; by apply (HH i Hi')|]. intros HiP.
  destruct (tx_pins _ _ _ _ _ T i HiP) as (a & Ha & Hia').
  congruence.
Qed.

(** The disk writes of the commit of the blocks [A] with contents [Vs], where
    the header block held [h]. *)
Definition commit_writes (d s : Z) (A : list Z) (Vs : list (list Z)) (h : list Z) : writes :=
  log_writes d (s + 1) Vs ++ [(d, s, head_data A h)] ++ home_writes d A Vs ++
  [(d, s, head_data [] (head_data A h))].

Lemma wr_log_writes d t Vs f n :
  wr (log_writes d t Vs) f d n =
  if decide (t <= n < t + Z.of_nat (length Vs)) then nth (Z.to_nat (n - t)) Vs [] else f d n.
Proof.
  revert t f. induction Vs as [|V Vs IH]; intros t f; cbn [log_writes wr length].
  - by rewrite decide_False by lia.
  - rewrite IH. repeat case_decide; try lia.
    + replace (Z.to_nat (n - t)) with (S (Z.to_nat (n - (t + 1)))) by lia. done.
    + assert (n = t) as -> by lia. rewrite upd_eq. by replace (Z.to_nat (t - t)) with 0%nat by lia.
    + by rewrite upd_ne by lia.
Qed.

Lemma wr_home_writes_other d A Vs f n : n ∉ A -> wr (home_writes d A Vs) f d n = f d n.
Proof.
  intros Hn. apply wr_untouched. intros v Hv. unfold home_writes in Hv.
  apply elem_of_lookup_zip_with in Hv as (i & a & w & [= <- <-] & Ha & _).
  apply Hn. by eapply list_elem_of_lookup_2.
Qed.

Lemma wr_home_writes d A Vs f j a v :
  NoDup A -> A !! j = Some a -> Vs !! j = Some v -> wr (home_writes d A Vs) f d a = v.
Proof.
  intros Hnd. revert Vs f j. induction Hnd as [|b A Hb Hnd IH]; intros Vs f j Ha Hv; [done|].
  destruct Vs as [|w Vs]; [done|]. destruct j as [|j]; cbn in Ha, Hv.
  - injection Ha as ->. injection Hv as ->. cbn.
    change (wr (home_writes d A Vs) (upd f d a v) d a = v).
    rewrite wr_home_writes_other by done. apply upd_eq.
  - by apply (IH Vs _ j).
Qed.

Lemma stepped_klog pr k P k' P' ws : stepped pr k P k' P' ws -> klog k' = klog k.
Proof. intros S. apply (io_klog _ _ _ (st_io _ _ _ _ _ _ S)). Qed.

(** Looking at the log area through the writes of commit's first two steps. *)
Lemma logged_block d s A Vs h f (j : nat) V :
  Vs !! j = Some V ->
  wr (log_writes d (s + 1) Vs ++ [(d, s, head_data A h)]) f d (s + 1 + Z.of_nat j) = V.
Proof.
  intros Hj. pose proof (lookup_lt_Some _ _ _ Hj). rewrite wr_app. cbn [wr].
  rewrite upd_ne by lia. rewrite wr_log_writes, decide_True by lia.
  replace (Z.to_nat (s + 1 + Z.of_nat j - (s + 1))) with j by lia. by apply nth_lookup_Some.
Qed.

(** What a log operation leaves: a clean cache with nothing pinned, the header
    cleared in memory, and the given writes on the disk. *)
Record flushed (pr : proc) (k k' : K) (ws : writes) : Prop := {
  fl_cache : cache k' pr ∅ ∅;
  fl_log : klog k' = set_lh_n 0 (set_lh_block (lh_block (klog k')) (klog k));
  fl_dwrites : k_dwrites k' = k_dwrites k ++ ws;
  fl_disk d n : dblock k' d n = wr ws (dblock k) d n;
  fl_blk d n : d <> 0 -> blk k' d n = wr ws (blk k) d n;
  fl_cap : length (lh_block (klog k')) = length (lh_block (klog k));
  fl_frame : k' = set_klog (klog k') (set_k_dwrites (k_dwrites k') (set_disk (disk k')
    (set_bcache (bcache k') (set_sleeplocks (sleeplocks k') k))));
  fl_inodes i : sleeplocks k' !! SL_inode i = sleeplocks k !! SL_inode i }.

(** The common end of commit and of recovery. *)
Lemma clear_head k k3 pr P ws :
  let d := lg_dev (klog k3) in let s := lg_start (klog k3) in
  stepped pr k P k3 ∅ ws -> d <> 0 -> on_disk d s -> klog k3 = klog k ->
  exists k', (upd_log (set_lh_n 0) ;;; write_head) k3 = Ok tt k' /\
    flushed pr k k' (ws ++ [(d, s, head_data [] (blk k3 d s))]).
Proof.
  intros d s S3 Hd Hon Hkl. set (k4 := set_klog (set_lh_n 0 (klog k3)) k3).
  change (upd_log (set_lh_n 0) k3) with (Ok tt k4).
  assert (upd_log (set_lh_n 0) k3 = Ok tt k4) as R by done. mrun R.
  assert (forall d n, blk k4 d n = blk k3 d n) as Hb4 by (intros; by apply blk_other).
  destruct (write_head_ok k4 pr ∅ []) as (k5 & R5 & S5); try done.
  - apply (cache_other (fun k => set_klog (set_lh_n 0 (klog k)) k) k3); try done. apply S3.
  - exists 0%nat. split_and!; [unfold NBUF; lia | set_solver + | set_solver +].
  - cbn; lia.
  - exists k5. split; [done|]. change (lg_dev (klog k4)) with d in *.
    change (lg_start (klog k4)) with s in *. rewrite Hb4 in S5.
    pose proof (st_io _ _ _ _ _ _ S3) as [F3 D3 B3 N3]. pose proof (st_io _ _ _ _ _ _ S5) as [F5 D5 B5 N5].
    split.
    + apply S5.
    + rewrite (stepped_klog _ _ _ _ _ _ S5). cbn [k4 klog set_klog]. rewrite Hkl. by destruct (klog k).
    + rewrite D5. cbn [k4 k_dwrites set_klog]. by rewrite D3, app_assoc.
    + intros d' n. rewrite B5, wr_app. apply wr_ext. intros x y. apply B3.
    + intros d' n Hd'. rewrite (st_blk _ _ _ _ _ _ S5) by done. rewrite wr_app. cbn [wr]. unfold upd.
      case_decide; [done|]. rewrite Hb4. by apply S3.
    + rewrite (stepped_klog _ _ _ _ _ _ S5). cbn. by rewrite Hkl.
    + rewrite F5. unfold k4. rewrite F3. done.
    + intros i. rewrite N5. apply N3.
Qed.

(** *** What commit does *)
Lemma commit_ok k pr P A :
  let d := lg_dev (klog k) in let s := lg_start (klog k) in
  txn k pr ∅ P A -> A <> [] ->
  exists k', commit k = Ok tt k' /\
    flushed pr k k' (commit_writes d s A ((fun a => blk k d a) <$> A) (blk k d s)).
Proof.
  intros d s T Hne. pose proof (txn_area _ _ _ _ _ T) as Har.
  pose proof (tx_len _ _ _ _ _ T) as Hlen.
  assert (room ∅ P) as Hroom by (eapply txn_room; [exact T | rewrite size_empty; klia]).
  pose proof T as [Hca Hd Hn HA _ _ Hnd _ Hon Hhome Hpin Hpins].
  fold d s in Hd, Hon, Hhome, Hpin, Hpins, Har.
  assert (length A <> 0%nat) as Hl0 by (by destruct A).
  assert (forall j a, A !! j = Some a -> lh_block (klog k) !! (Z.to_nat 0 + j)%nat = Some a) as Hlh.
  { intros j a Hj. rewrite <-HA in Hj. apply lookup_take_Some in Hj as [Hj _]. done. }
  assert (Z.of_nat (length A) < LOGSIZE) as HlZ by klia.
  unfold commit, write_log. msimp. rewrite Hn.
  replace (0 <? Z.of_nat (length A)) with true by lia. msimp. rewrite Hn.
  destruct (write_log_loop A k pr P 0) as (k1 & R1 & S1); try done; [naive_solver|]. fold d s in S1.
  mrun R1. replace (s + 0 + 1) with (s + 1) in S1 by lia.
  pose proof (stepped_klog _ _ _ _ _ _ S1) as Hk1.
  destruct (write_head_ok k1 pr P A) as (k2 & R2 & S2); rewrite ?Hk1; fold d s; try done.
  { apply S1. } { apply Hon. klia. }
  { apply (log_area_stepped _ _ _ _ _ _ _ _ S1 Har). klia. } { klia. }
  mrun R2. rewrite Hk1 in S2. fold d s in S2.
  assert (blk k1 d s = blk k d s) as Hh1.
  { rewrite (st_blk _ _ _ _ _ _ S1) by done. rewrite wr_log_writes. by rewrite decide_False by lia. }
  rewrite Hh1 in S2. pose proof (stepped_trans _ _ _ _ _ _ _ _ _ S1 S2) as S12. clear S1 S2.
  pose proof (stepped_klog _ _ _ _ _ _ S12) as Hk2.
  unfold install_trans. msimp. rewrite Hk2, Hn.
  destruct (install_trans_loop A k2 pr P 0) as (k3 & P3 & R3 & S3 & HP3); rewrite ?Hk2; fold d s; try done.
  { apply S12. } { by eapply log_area_stepped. }
  { left. intros a Ha. destruct (Hpin a Ha) as (j & Hj & Hja). exists j. split; [done|].
    by rewrite (st_addr _ _ _ _ _ _ S12 j Hj). }
  mrun R3. rewrite Hk2 in S3, HP3. fold d s in S3, HP3.
  assert (P3 = ∅) as ->.
  { apply elem_of_equiv_empty_L. intros j [Hj Hja]%HP3. destruct (Hpins j Hj) as (a & Ha & Hja').
    apply (Hja a Ha). by rewrite (st_addr _ _ _ _ _ _ S12 j Hj). }
  replace ((fun j : nat => blk k2 d (s + 1 + 0 + Z.of_nat j)) <$> seq 0 (length A))
    with ((fun a => blk k d a) <$> A) in S3.
  2: { apply list_eq_same_length with (n := length A); [by rewrite length_fmap, length_seq | by rewrite length_fmap|].
       intros j V V' Hj HV HV'. rewrite list_lookup_fmap, lookup_seq_lt in HV' by lia. injection HV' as <-.
       rewrite (st_blk _ _ _ _ _ _ S12) by done. replace (s + 1 + 0) with (s + 1) by lia.
       symmetry. by apply logged_block. }
  pose proof (stepped_trans _ _ _ _ _ _ _ _ _ S12 S3) as S123.
  destruct (clear_head k k3 pr P _ S123) as (k4 & R4 & F4);
    rewrite ?(stepped_klog _ _ _ _ _ _ S123); fold d s; try done. { apply Hon. klia. }
  exists k4. split; [done|]. rewrite (stepped_klog _ _ _ _ _ _ S123) in F4. fold d s in F4.
  assert (blk k3 d s = head_data A (blk k d s)) as Hh3.
  { rewrite (st_blk _ _ _ _ _ _ S3) by done. rewrite wr_home_writes_other.
    - rewrite (st_blk _ _ _ _ _ _ S12) by done. rewrite wr_app. apply upd_eq.
    - intros Hs. apply (Hhome s Hs). klia. }
  rewrite Hh3 in F4. unfold commit_writes. rewrite <-!app_assoc in F4. done.
Qed.

(** ** Recovery *)

(** The block numbers a header lists. *)
Definition head_blocks (h : list Z) : list Z :=
  (fun i => i32 (word h (i + 1))) <$> zseq 0 (i32 (word h 0)).

(** A header that recovery can follow: it fits, and it names distinct blocks
    of the disk outside of the log. *)
Record good_head (d s : Z) (h : list Z) : Prop := {
  gh_n : 0 <= i32 (word h 0) < LOGSIZE;
  gh_nodup : NoDup (head_blocks h);
  gh_home a : a ∈ head_blocks h -> on_disk d a /\ outside s a }.

Lemma head_blocks_length h : length (head_blocks h) = Z.to_nat (i32 (word h 0)).
Proof. unfold head_blocks. by rewrite length_fmap, zseq_length. Qed.

Lemma put_lh_loop (g : Z -> Z) k i m :
  0 <= i -> 0 <= m -> i + m <= Z.of_nat (length (lh_block (klog k))) ->
  exists L, for_each (zseq i m) (fun i => put_lh_block i (g i)) k =
      Ok tt (set_klog (set_lh_block L (klog k)) k) /\
    length L = length (lh_block (klog k)) /\
    forall j, L !! j = if decide (i <= Z.of_nat j < i + m) then Some (g (Z.of_nat j))
                       else lh_block (klog k) !! j.
Proof.
  intros Hi Hm. revert k i Hi. pattern m. apply natlike_ind; [| |done]; clear m Hm.
  - intros k i Hi _. exists (lh_block (klog k)). rewrite zseq_nil by lia. cbn. split_and!.
    + by destruct k as [?]; destruct klog.
    + done.
    + intros j. by rewrite decide_False by lia.
  - intros m Hm IH k i Hi Hlen. rewrite zseq_cons by lia. cbn [for_each].
    set (k1 := set_klog (set_lh_block (<[Z.to_nat i := g i]> (lh_block (klog k))) (klog k)) k).
    assert (put_lh_block i (g i) k = Ok tt k1) as R1.
    { unfold put_lh_block. msimp. by rewrite bool_decide_true by lia. }
    mrun R1. replace (Z.succ m - 1) with m by lia.
    destruct (IH k1 (i + 1)) as (L & R & HL & Hj); [lia | cbn; rewrite length_insert; lia |].
    exists L. split_and!; [done | cbn in HL; by rewrite length_insert in HL|].
    intros j. rewrite Hj. cbn [k1 klog set_klog lh_block set_lh_block].
    repeat case_decide; try lia; try done.
    + replace (Z.to_nat i) with j by lia. rewrite list_lookup_insert_eq by lia. do 2 f_equal. lia.
    + by rewrite list_lookup_insert_ne by lia.
Qed.

Record loaded (pr : proc) (k k' : K) (h : list Z) : Prop := {
  ld_cache : cache k' pr ∅ ∅;
  ld_n : lh_n (klog k') = Z.of_nat (length (head_blocks h));
  ld_blocks : take (length (head_blocks h)) (lh_block (klog k')) = head_blocks h;
  ld_log : klog k' = set_lh_n (lh_n (klog k')) (set_lh_block (lh_block (klog k')) (klog k));
  ld_dwrites : k_dwrites k' = k_dwrites k;
  ld_disk d n : dblock k' d n = dblock k d n;
  ld_blk d n : d <> 0 -> blk k' d n = blk k d n;
  ld_cap : length (lh_block (klog k')) = length (lh_block (klog k));
  ld_frame : k' = set_klog (klog k') (set_k_dwrites (k_dwrites k') (set_disk (disk k')
    (set_bcache (bcache k') (set_sleeplocks (sleeplocks k') k))));
  ld_inodes i : sleeplocks k' !! SL_inode i = sleeplocks k !! SL_inode i }.

Lemma read_head_ok k pr :
  let d := lg_dev (klog k) in let s := lg_start (klog k) in
  cache k pr ∅ ∅ -> d <> 0 -> on_disk d s -> length (lh_block (klog k)) = Z.to_nat LOGSIZE ->
  0 <= i32 (word (blk k d s) 0) <= LOGSIZE ->
  exists k', read_head k = Ok tt k' /\ loaded pr k k' (blk k d s).
Proof.
  intros d s Hca Hd Hon Hlen Hn. unfold read_head. msimp. fold d s.
  destruct (bread_at k pr ∅ ∅ d s Hca Hd Hon (none_at_empty k d s))
    as (bi & c & k1 & R1 & C1 & _ & I1 & Hc & Hc1 & Hc2 & Hcd & Ho1 & Hv1 & _ & Hcl).
  { left. exists 0%nat. split_and!; [unfold NBUF; lia | set_solver + | set_solver +]. }
  replace ({[bi]} ∪ ∅) with ({[bi]} : gset nat) in C1 by (apply set_eq; set_solver +).
  mrun R1. destruct (get_buf_at k1 bi c Hc) as (b & Rb & Hbc). mrun Rb.
  assert (b_data b = blk k d s) as Hbd by (rewrite <-Hcd, <-Hbc; done).
  rewrite Hbd. set (h := blk k d s) in *. set (n := i32 (word h 0)) in *.
  set (k2 := set_klog (set_lh_n n (klog k1)) k1).
  assert (upd_log (set_lh_n n) k1 = Ok tt k2) as R2 by done. mrun R2. msimp.
  change (lh_n (klog k2)) with n. pose proof (io_klog _ _ _ I1) as Hk1.
  destruct (put_lh_loop (fun i => i32 (word h (i + 1))) k2 0 n) as (L & R3 & HL & HLj); [lia | lia | |].
  { cbn. rewrite Hk1, Hlen. klia. }
  mrun R3. set (k3 := set_klog _ _).
  assert (cache k3 pr {[bi]} ∅) as C3
    by (apply (cache_other (fun k => set_klog (set_lh_block L (set_lh_n n (klog k))) k) k1); done).
  destruct (brelse_at k3 pr {[bi]} ∅ bi c C3 ltac:(set_solver +) Hc) as (k4 & R4 & C4 & I4 & _ & _ & Hv4).
  { right. rewrite Hc1, Hc2. change (dblock k3) with (dblock k1). rewrite (io_disk _ _ _ I1). cbn [wr].
    apply Hcl. set_solver +. }
  exists k4. split; [done|]. pose proof (io_klog _ _ _ I4) as Hk4.
  assert (length (head_blocks h) = Z.to_nat n) as Hlb by apply head_blocks_length.
  split; rewrite ?Hk4, ?Hlb.
  - by replace ({[bi]} ∖ {[bi]}) with (∅ : gset nat) in C4 by (apply set_eq; set_solver +).
  - cbn. lia.
  - change (lh_block (klog k3)) with L. apply list_eq_same_length with (n := Z.to_nat n);
      [done | rewrite length_take, HL; cbn; rewrite Hk1, Hlen; klia|].
    intros j x y Hj Hx Hy. apply lookup_take_Some in Hx as [Hx _].
    rewrite HLj, decide_True in Hx by lia. unfold head_blocks in Hy. fold n in Hy.
    rewrite list_lookup_fmap, zseq_lookup in Hy by lia. cbn in Hy. injection Hx as <-. injection Hy as <-.
    do 2 f_equal.
  - cbn. by rewrite Hk1.
  - rewrite (io_dwrites _ _ _ I4). cbn. rewrite (io_dwrites _ _ _ I1). by rewrite !app_nil_r.
  - intros d' n'. rewrite (io_disk _ _ _ I4). exact (io_disk _ _ _ I1 d' n').
  - intros d' n' Hd'. rewrite Hv4. rewrite <-Hv1 by done. by apply blk_other.
  - cbn. rewrite HL. cbn. by rewrite Hk1.
  - rewrite (io_frame _ _ _ I4). unfold k3, k2. rewrite (io_frame _ _ _ I1). done.
  - intros i. rewrite (io_inodes _ _ _ I4). apply I1.
Qed.

(** The disk writes of recovery from the blocks [f]. *)
Definition recover_writes (d s : Z) (f : blocks) : writes :=
  let A := head_blocks (f d s) in
  home_writes d A ((fun j => f d (s + 1 + Z.of_nat j)) <$> seq 0 (length A)) ++
  [(d, s, head_data [] (f d s))].

Lemma cache_clean k pr d n : cache k pr ∅ ∅ -> blk k d n = dblock k d n.
Proof. intros [_ [l B]]. eapply blk_clean; [exact B|]. intros. split; set_solver +. Qed.

Lemma recover_ok k pr :
  let d := lg_dev (klog k) in let s := lg_start (klog k) in
  cache k pr ∅ ∅ -> d <> 0 -> (forall t, s <= t < s + LOGSIZE -> on_disk d t) ->
  length (lh_block (klog k)) = Z.to_nat LOGSIZE -> good_head d s (blk k d s) ->
  exists k', recover_from_log k = Ok tt k' /\ flushed pr k k' (recover_writes d s (blk k)).
Proof.
  intros d s Hca Hd Har Hlen [Hn Hnd Hhome]. unfold recover_from_log.
  destruct (read_head_ok k pr) as (k1 & R1 & L1); try done. { apply Har. klia. } { fold d s. lia. }
  fold d s in L1. mrun R1. destruct L1 as [C1 N1 B1 G1 W1 Dk1 V1 Cp1 Fr1 Nd1].
  assert (lg_dev (klog k1) = d /\ lg_start (klog k1) = s) as [D1 S1] by (by rewrite G1).
  set (A := head_blocks (blk k d s)) in *.
  assert (length A = Z.to_nat (i32 (word (blk k d s) 0))) as HlA by apply head_blocks_length.
  unfold install_trans. msimp. rewrite N1.
  destruct (install_trans_loop A k1 pr ∅ 0) as (k2 & P2 & R2 & S2 & HP2); rewrite ?D1, ?S1; try done.
  - klia.
  - intros j a Hj. rewrite <-B1 in Hj. by apply lookup_take_Some in Hj as [Hj _].
  - intros t Ht. split; [by apply Har|]. intros j Hj. set_solver +Hj.
  - apply room_size. rewrite size_empty. unfold NBUF. lia.
  - right. intros x. apply room_size. rewrite size_singleton, size_empty. unfold NBUF. lia.
  - rewrite ?D1, ?S1 in S2. mrun R2. assert (P2 = ∅) as ->.
    { apply elem_of_equiv_empty_L. intros j [Hj _]%HP2. set_solver +Hj. }
    pose proof (stepped_klog _ _ _ _ _ _ S2) as Hk2.
    destruct (clear_head k1 k2 pr ∅ _ S2) as (k3 & R3 & F3); rewrite ?Hk2, ?D1, ?S1; try done.
    { apply Har. klia. }
    exists k3. split; [done|]. rewrite Hk2, D1, S1 in F3.
    assert (blk k2 d s = blk k d s) as Hh.
    { rewrite (st_blk _ _ _ _ _ _ S2) by done. rewrite wr_home_writes_other; [by apply V1|].
      intros Hs. apply (Hhome s Hs). klia. }
    replace ((fun j : nat => blk k1 d (s + 1 + 0 + Z.of_nat j)) <$> seq 0 (length A))
      with ((fun j : nat => blk k d (s + 1 + Z.of_nat j)) <$> seq 0 (length A)) in F3
      by (apply list_fmap_ext; intros; rewrite V1 by done; f_equal; lia).
    rewrite Hh in F3. destruct F3 as [F1 F2 F5 F6 F7 F7' F8 F9]. split; try done.
    + rewrite F2, G1. done.
    + by rewrite F5, W1.
    + intros d' n'. rewrite F6. by apply wr_ext.
    + intros d' n' Hd'. rewrite F7 by done. by apply wr_ext_dev.
    + by rewrite F7'.
    + rewrite F8, Fr1. done.
    + intros i. by rewrite F9.
Qed.

(** ** Crashes *)

Lemma head_blocks_data A h :
  (length A < Z.to_nat LOGSIZE)%nat -> length h = Z.to_nat BSIZE -> Forall (fun a => 0 <= a < 2 ^ 31) A ->
  i32 (word (head_data A h) 0) = Z.of_nat (length A) /\ head_blocks (head_data A h) = A.
Proof.
  intros Hl Hh HA. assert (Forall is_u32 A) as Hu by (eapply list.Forall_impl; [exact HA | intros; klia]).
  destruct (head_data_spec A h ltac:(lia) Hh Hu) as (_ & H0 & Hi).
  assert (i32 (word (head_data A h) 0) = Z.of_nat (length A)) as Hn
    by (rewrite H0; apply i32_small; klia).
  split; [done|]. unfold head_blocks. rewrite Hn.
  apply list_eq_same_length with (n := length A); [done | by rewrite length_fmap, zseq_length, Nat2Z.id|].
  intros j x y Hj Hx Hy. rewrite list_lookup_fmap, zseq_lookup in Hx by lia. cbn [fmap option_fmap option_map] in Hx.
  injection Hx as <-. replace (0 + Z.of_nat j + 1) with (Z.of_nat j + 1) by lia. rewrite (Hi j y Hy).
  pose proof (Forall_lookup_1 _ _ _ _ HA Hy). apply i32_small. cbn in *. klia.
Qed.

Lemma head_cleared A h :
  (length A < Z.to_nat LOGSIZE)%nat -> length h = Z.to_nat BSIZE -> Forall (fun a => 0 <= a < 2 ^ 31) A ->
  i32 (word (head_data [] (head_data A h)) 0) = 0.
Proof.
  intros Hl Hh HA. apply (head_blocks_data [] (head_data A h)); [cbn; klia | | done].
  apply head_data_spec; [lia | done |]. eapply list.Forall_impl; [exact HA|]. intros; klia.
Qed.

Lemma good_head_empty d s x : i32 (word x 0) = 0 -> good_head d s x.
Proof.
  intros Hx. assert (head_blocks x = []) as He by (unfold head_blocks; by rewrite Hx, zseq_nil by lia).
  split; rewrite ?He, ?Hx; [klia | constructor|]. by intros a ?%not_elem_of_nil.
Qed.

(** Recovery from an empty header changes nothing outside of the log. *)
Lemma recover_none d s f n :
  i32 (word (f d s) 0) = 0 -> outside s n -> wr (recover_writes d s f) f d n = f d n.
Proof.
  intros Hz Hn. unfold recover_writes, head_blocks. rewrite Hz. rewrite zseq_nil by lia.
  cbn. apply upd_ne. intros [_ ->]. apply Hn. klia.
Qed.

(** Recovery from the header of [A] installs the logged contents. *)
Lemma recover_some d s f A Vs n :
  head_blocks (f d s) = A -> length Vs = length A ->
  (forall j V, Vs !! j = Some V -> f d (s + 1 + Z.of_nat j) = V) ->
  outside s n -> wr (recover_writes d s f) f d n = wr (home_writes d A Vs) f d n.
Proof.
  intros HA Hl HV Hn. unfold recover_writes. rewrite HA. rewrite wr_app. cbn [wr].
  rewrite upd_ne by (intros [_ ->]; apply Hn; klia). f_equal.
  replace ((fun j : nat => f d (s + 1 + Z.of_nat j)) <$> seq 0 (length A)) with Vs; [done|].
  apply list_eq_same_length with (n := length A); [by rewrite length_fmap, length_seq | done |].
  intros j x y Hj Hx Hy. rewrite list_lookup_fmap, lookup_seq_lt in Hy by lia. injection Hy as <-.
  symmetry. by apply HV.
Qed.

(** The home writes decide the contents of the home blocks. *)
Lemma home_writes_base d A Vs f g n :
  NoDup A -> length Vs = length A -> (n ∉ A -> f d n = g d n) ->
  wr (home_writes d A Vs) f d n = wr (home_writes d A Vs) g d n.
Proof.
  intros Hnd Hl Hfg. destruct (decide (n ∈ A)) as [[j Hj]%list_elem_of_lookup_1|Hn].
  - destruct (lookup_lt_is_Some_2 Vs j) as [V HV]; [rewrite Hl; by eapply lookup_lt_Some|].
    by rewrite !(wr_home_writes d A Vs _ j n V).
  - rewrite !(wr_home_writes_other d A Vs) by done. by apply Hfg.
Qed.

(** Writing the home blocks over a part of the same writes. *)
Lemma home_writes_again d A Vs f m n :
  NoDup A -> length Vs = length A ->
  wr (home_writes d A Vs) (wr (take m (home_writes d A Vs)) f) d n = wr (home_writes d A Vs) f d n.
Proof.
  intros Hnd Hl. apply home_writes_base; [done | done |]. intros Hn.
  apply wr_untouched. intros v Hv.
  apply Hn. apply list_elem_of_lookup_1 in Hv as [j Hj].
  apply lookup_take_Some in Hj as [Hj _].
  apply lookup_zip_with_Some in Hj as (a & w & [= -> ->] & Ha & _). by eapply list_elem_of_lookup_2.
Qed.

(** Writes to home blocks leave the log alone. *)
Lemma home_prefix_log d s A Vs f m t :
  (forall a, a ∈ A -> outside s a) -> s <= t < s + LOGSIZE ->
  wr (take m (home_writes d A Vs)) f d t = f d t.
Proof.
  intros Hout Ht. apply wr_untouched. intros v [j [Hj _]%lookup_take_Some]%list_elem_of_lookup_1.
  apply lookup_zip_with_Some in Hj as (a & w & [= -> ->] & Ha & _).
  apply (Hout a); [by eapply list_elem_of_lookup_2 | done].
Qed.

Lemma log_writes_take d t Vs m : take m (log_writes d t Vs) = log_writes d t (take m Vs).
Proof.
  revert t m. induction Vs as [|V Vs IH]; intros t [|m]; cbn; [done..|]. by rewrite IH.
Qed.

Lemma log_writes_length d t Vs : length (log_writes d t Vs) = length Vs.
Proof. revert t. induction Vs as [|V Vs IH]; intros t; cbn; [done | by rewrite IH]. Qed.

Section crash.
Context (d s : Z) (A : list Z) (Vs : list (list Z)) (f : blocks).
Context (HlA : (length A < Z.to_nat LOGSIZE)%nat) (HlV : length Vs = length A) (Hnd : NoDup A).
Context (Hrange : Forall (fun a => 0 <= a < 2 ^ 31) A).
Context (Hhome : forall a, a ∈ A -> on_disk d a /\ outside s a).
Context (Hh : length (f d s) = Z.to_nat BSIZE) (Hz : i32 (word (f d s) 0) = 0).

Abbreviation h := (f d s).
Abbreviation hA := (head_data A h).

Lemma good_head_A : good_head d s hA.
Proof. destruct (head_blocks_data A h HlA Hh Hrange) as [H1 H2]. split; rewrite ?H1, ?H2; [klia | done | done]. Qed.

Lemma log_prefix_outside m n : ~ (s + 1 <= n < s + LOGSIZE) ->
  wr (log_writes d (s + 1) (take m Vs)) f d n = f d n.
Proof.
  intros Hn. rewrite wr_log_writes. rewrite decide_False; [done|]. rewrite length_take. klia.
Qed.

(** The blocks after the log and its header are written, and [m] home blocks. *)
Abbreviation mid m := (wr (take m (home_writes d A Vs)) (wr (log_writes d (s + 1) Vs ++ [(d, s, hA)]) f)).

Lemma mid_head m : mid m d s = hA.
Proof.
  rewrite (home_prefix_log d s) by (naive_solver || klia). rewrite wr_app. apply upd_eq.
Qed.

Lemma mid_log m j V : Vs !! j = Some V -> mid m d (s + 1 + Z.of_nat j) = V.
Proof.
  intros Hj. pose proof (lookup_lt_Some _ _ _ Hj). rewrite (home_prefix_log d s); [|naive_solver|klia].
  by apply logged_block.
Qed.

Lemma logged_outside n : outside s n ->
  wr (log_writes d (s + 1) Vs ++ [(d, s, hA)]) f d n = f d n.
Proof.
  intros Hn. rewrite wr_app. cbn [wr]. rewrite upd_ne by (intros [_ ->]; apply Hn; klia).
  rewrite wr_log_writes. apply decide_False. unfold outside in Hn. klia.
Qed.

Lemma mid_recovers m n : outside s n ->
  wr (recover_writes d s (mid m)) (mid m) d n = wr (home_writes d A Vs) f d n.
Proof.
  intros Hn. rewrite (recover_some d s (mid m) A Vs n); try done.
  - rewrite home_writes_again by done. apply home_writes_base; [done | done |]. intros _.
    by apply logged_outside.
  - rewrite mid_head. by apply head_blocks_data.
  - intros j V. apply mid_log.
Qed.

(** The contents after the first [m] writes of commit, and recovery. *)
Lemma crash_recovers m :
  let g := wr (take m (commit_writes d s A Vs h)) f in
  good_head d s (g d s) /\
  forall n, outside s n ->
    wr (recover_writes d s g) g d n = if decide (m <= length A)%nat then f d n else wr (home_writes d A Vs) f d n.
Proof.
  unfold commit_writes. rewrite take_app, log_writes_length, HlV. case_decide as Hm.
  - replace (m - length A)%nat with 0%nat by lia. rewrite take_0, app_nil_r, log_writes_take.
    assert (wr (log_writes d (s + 1) (take m Vs)) f d s = h) as Hg by (apply log_prefix_outside; klia).
    rewrite Hg. split; [by apply good_head_empty|]. intros n Hn. rewrite recover_none; [|by rewrite Hg | done].
    apply log_prefix_outside. unfold outside in Hn. klia.
  - rewrite (take_ge (log_writes _ _ _)) by (rewrite log_writes_length; lia).
    destruct (m - length A)%nat as [|m'] eqn:Em; [lia|]. cbn [app take]. rewrite take_app.
    assert (length (home_writes d A Vs) = length A) as HlH by (unfold home_writes; rewrite length_zip_with; lia).
    rewrite HlH. change ((d, s, hA) :: ?l) with ([(d, s, hA)] ++ l). rewrite app_assoc.
    destruct (m' - length A)%nat as [|m''] eqn:Em'.
    + rewrite take_0, app_nil_r, wr_app. rewrite mid_head. split; [apply good_head_A|].
      intros n Hn. by apply mid_recovers.
    + rewrite (take_ge (home_writes d A Vs)) by lia. cbn [take]. rewrite take_nil, app_assoc.
      set (g := wr _ f). assert (g d s = head_data [] hA) as Hg by (unfold g; rewrite wr_app; apply upd_eq).
      rewrite Hg. split; [by apply good_head_empty, head_cleared|]. intros n Hn.
      rewrite recover_none by (rewrite ?Hg; auto using head_cleared).
      unfold g. rewrite wr_app. cbn [wr]. rewrite upd_ne by (intros [_ ->]; apply Hn; klia).
      rewrite wr_app. apply home_writes_base; [done | done |]. intros _. by apply logged_outside.
Qed.
End crash.

Section commit_facts.
Context (k : K) (pr : proc) (P : gset nat) (A : list Z) (T : txn k pr ∅ P A).
Abbreviation d := (lg_dev (klog k)).
Abbreviation s := (lg_start (klog k)).
Abbreviation Vs := ((fun a => blk k d a) <$> A).

Lemma txn_blk_length n : length (blk k d n) = Z.to_nat BSIZE.
Proof. destruct (tx_cache _ _ _ _ _ T) as [_ [l B]]. by eapply blk_length. Qed.

Lemma txn_head : blk k d s = dblock k d s.
Proof.
  eapply txn_clean; [exact T | intros i Hi; set_solver +Hi|]. intros Hs.
  apply (tx_home _ _ _ _ _ T s Hs). klia.
Qed.

(** The home writes bring the disk up to what readers see. *)
Lemma txn_installs n : wr (home_writes d A Vs) (dblock k) d n = blk k d n.
Proof.
  destruct (decide (n ∈ A)) as [[j Hj]%list_elem_of_lookup_1|Hn].
  - apply (wr_home_writes d A Vs _ j n); [apply T | done |]. by rewrite list_lookup_fmap, Hj.
  - rewrite wr_home_writes_other by done. symmetry.
    eapply txn_clean; [exact T | intros i Hi; set_solver +Hi | done].
Qed.

Lemma commit_writes_blk f n :
  (forall n, outside s n -> n ∉ A -> f d n = blk k d n) -> outside s n ->
  wr (commit_writes d s A Vs (blk k d s)) f d n = blk k d n.
Proof.
  intros Hf Hn. unfold commit_writes. rewrite !app_assoc, wr_app. cbn [wr].
  rewrite upd_ne by (intros [_ ->]; apply Hn; klia). rewrite wr_app.
  rewrite (home_writes_base d A Vs _ (fun d n => blk k d n)).
  - destruct (decide (n ∈ A)) as [[j Hj]%list_elem_of_lookup_1|Hna].
    + apply (wr_home_writes d A Vs _ j n); [apply T | done |]. by rewrite list_lookup_fmap, Hj.
    + by rewrite wr_home_writes_other.
  - apply T.
  - by rewrite length_fmap.
  - intros Hna. rewrite wr_app. cbn [wr]. rewrite upd_ne by (intros [_ ->]; apply Hn; klia).
    rewrite wr_log_writes, decide_False; [by apply Hf|]. rewrite length_fmap.
    pose proof (tx_len _ _ _ _ _ T). unfold outside in Hn. klia.
Qed.
End commit_facts.

(** Recovery cut after [m] of its writes, and run again. *)
Lemma recover_cut d s f m :
  good_head d s (f d s) -> length (f d s) = Z.to_nat BSIZE ->
  let g := wr (take m (recover_writes d s f)) f in
  good_head d s (g d s) /\ forall n, outside s n ->
    wr (recover_writes d s g) g d n = wr (recover_writes d s f) f d n.
Proof.
  intros Hg Hlen g.
  set (A := head_blocks (f d s)). set (Vs := (fun j => f d (s + 1 + Z.of_nat j)) <$> seq 0 (length A)).
  assert (length Vs = length A) as HlV by (unfold Vs; by rewrite length_fmap, length_seq).
  assert (recover_writes d s f = home_writes d A Vs ++ [(d, s, head_data [] (f d s))]) as Hw by done.
  assert (length (home_writes d A Vs) = length A) as HlH by (unfold home_writes; rewrite length_zip_with; lia).
  assert (length A < Z.to_nat LOGSIZE)%nat as HlA.
  { unfold A. rewrite head_blocks_length. pose proof (gh_n _ _ _ Hg). lia. }
  unfold g. rewrite Hw, take_app, HlH. destruct (m - length A)%nat as [|m'] eqn:Em.
  - rewrite take_0, app_nil_r. set (g' := wr _ f).
    assert (g' d s = f d s) as Hgs by (apply (home_prefix_log d s); [apply Hg | klia]).
    rewrite Hgs. split; [done|]. intros n Hn. rewrite (recover_some d s g' A Vs n); try done; [|by rewrite Hgs|].
    + unfold g'. rewrite home_writes_again by (apply Hg || done). rewrite wr_app. cbn [wr].
      by rewrite upd_ne by (intros [_ ->]; apply Hn; klia).
    + intros j V HV. pose proof (lookup_lt_Some _ _ _ HV). unfold g'.
      rewrite (home_prefix_log d s); [|apply Hg | klia]. unfold Vs in HV.
      rewrite list_lookup_fmap, lookup_seq_lt in HV by lia. by injection HV as <-.
  - rewrite (take_ge (home_writes d A Vs)) by lia. cbn [take]. rewrite take_nil.
    set (g' := wr _ f). assert (g' d s = head_data [] (f d s)) as Hgs by (unfold g'; rewrite wr_app; apply upd_eq).
    assert (i32 (word (g' d s) 0) = 0) as Hz
      by (rewrite Hgs; apply (head_blocks_data [] (f d s)); [cbn; klia | done | done]).
    split; [by apply good_head_empty|]. intros n Hn. by apply recover_none.
Qed.

(** A machine that has started again from the blocks [f] of the log's device:
    a cache without held or pinned buffers, and the log's geometry read. *)
Record rebooted (k : K) (pr : proc) (d s : Z) (f : blocks) : Prop := {
  rb_cache : cache k pr ∅ ∅;
  rb_dev : lg_dev (klog k) = d;
  rb_start : lg_start (klog k) = s;
  rb_cap : length (lh_block (klog k)) = Z.to_nat LOGSIZE;
  rb_disk n : dblock k d n = f d n }.

Lemma recover_writes_ext d s f g :
  (forall n, f d n = g d n) -> recover_writes d s f = recover_writes d s g.
Proof.
  intros H. unfold recover_writes. rewrite H. do 2 f_equal. apply list_fmap_ext. intros. apply H.
Qed.
Lemma wr_ext_one ws f g d n :
  (forall n, f d n = g d n) -> wr ws f d n = wr ws g d n.
Proof.
  revert f g. induction ws as [|[[d' n'] v'] ws IH]; intros f g H; cbn; [apply H|].
  apply IH. intros y. unfold upd. case_decide; [done | apply H].
Qed.

Lemma recover_rebooted k pr d s f :
  rebooted k pr d s f -> d <> 0 -> (forall t, s <= t < s + LOGSIZE -> on_disk d t) ->
  good_head d s (f d s) ->
  exists k', recover_from_log k = Ok tt k' /\ flushed pr k k' (recover_writes d s f) /\
    forall n, blk k' d n = wr (recover_writes d s f) f d n.
Proof.
  intros [R1 <- <- R4 R5] Hd Hon Hg.
  assert (forall n, blk k (lg_dev (klog k)) n = f (lg_dev (klog k)) n) as Hb
    by (intros n; rewrite <-R5; by eapply cache_clean).
  destruct (recover_ok k pr R1 Hd Hon R4) as (k' & R & F); [by rewrite Hb|].
  rewrite (recover_writes_ext _ _ _ f) in F by done.
  exists k'. split_and!; [done | done |]. intros n. rewrite (fl_blk _ _ _ _ F) by done. by apply wr_ext_one.
Qed.

(** What the writes of a commit leave. *)
Lemma commit_effect k pr P A k' :
  let d := lg_dev (klog k) in let s := lg_start (klog k) in
  txn k pr ∅ P A -> flushed pr k k' (commit_writes d s A ((fun a => blk k d a) <$> A) (blk k d s)) ->
  i32 (word (dblock k' d s) 0) = 0 /\
  forall n, outside s n -> blk k' d n = blk k d n /\ dblock k' d n = blk k d n.
Proof.
  intros d s T [F1 F2 F5 F6 F7]. split.
  - rewrite F6. unfold commit_writes. rewrite !app_assoc, wr_app. cbn [wr]. rewrite upd_eq.
    apply head_cleared; try apply T. by eapply txn_blk_length.
  - intros n Hn. split; [rewrite F7 by apply T | rewrite F6];
      (eapply commit_writes_blk; [exact T | | done]); [done|].
    intros x Hx Hxa. symmetry. eapply txn_clean; [exact T | intros i Hi; set_solver +Hi | done].
Qed.

(** The commit of a transaction performs exactly the writes
    log, header, home blocks, cleared header; it is invisible to readers, and
    afterwards the disk itself holds what readers see, nothing is pinned, and
    the header on the disk is empty again. *)
Theorem commit_durable k pr P A :
  let d := lg_dev (klog k) in let s := lg_start (klog k) in
  txn k pr ∅ P A -> A <> [] ->
  exists k', commit k = Ok tt k' /\
    k_dwrites k' = k_dwrites k ++ commit_writes d s A ((fun a => blk k d a) <$> A) (blk k d s) /\
    cache k' pr ∅ ∅ /\ lh_n (klog k') = 0 /\ i32 (word (dblock k' d s) 0) = 0 /\
    forall n, outside s n -> blk k' d n = blk k d n /\ dblock k' d n = blk k d n.
Proof.
  intros d s T Hne. destruct (commit_ok k pr P A T Hne) as (k' & R & F). fold d s in F.
  exists k'. destruct (commit_effect k pr P A k' T F) as [Hz Hv].
  split_and!; try done; [apply F | apply F | by rewrite (fl_log _ _ _ _ F)].
Qed.

(** Recovery after a crash in a commit, and when there was nothing to commit. *)
Definition recovers (d s : Z) (f g : Z -> list Z) (h : blocks) : Prop :=
  forall kr pr', rebooted kr pr' d s h ->
  exists kr', recover_from_log kr = Ok tt kr' /\ cache kr' pr' ∅ ∅ /\ lh_n (klog kr') = 0 /\
    ((forall n, outside s n -> blk kr' d n = f n) \/ (forall n, outside s n -> blk kr' d n = g n)).

Lemma commit_crash k pr P A m :
  let d := lg_dev (klog k) in let s := lg_start (klog k) in
  let ws := commit_writes d s A ((fun a => blk k d a) <$> A) (blk k d s) in
  txn k pr ∅ P A -> A <> [] -> i32 (word (dblock k d s) 0) = 0 ->
  forall kr pr', rebooted kr pr' d s (wr (take m ws) (dblock k)) ->
  exists kr', recover_from_log kr = Ok tt kr' /\ cache kr' pr' ∅ ∅ /\ lh_n (klog kr') = 0 /\
    forall n, outside s n -> blk kr' d n = if decide (m <= length A)%nat then dblock k d n else blk k d n.
Proof.
  intros d s ws T Hne Hz kr pr' Rb.
  pose proof (txn_head k pr P A T) as Hhd. fold d s in Hhd. unfold ws in Rb.
  rewrite Hhd in Rb. destruct (crash_recovers d s A ((fun a => blk k d a) <$> A) (dblock k)) with (m := m)
    as [Hg Hrec]; try apply T; try done.
  { by rewrite length_fmap. } { rewrite <-Hhd. by eapply txn_blk_length. }
  destruct (recover_rebooted kr pr' d s _ Rb) as (kr' & Rr & Fr & Hb); [apply T | apply T | done |].
  exists kr'. split_and!; [done | apply Fr | by rewrite (fl_log _ _ _ _ Fr) |].
  intros n Hn. rewrite Hb, Hrec by done. case_decide; [done|]. by eapply txn_installs.
Qed.

Lemma recovers_commit k pr P A m :
  let d := lg_dev (klog k) in let s := lg_start (klog k) in
  let ws := commit_writes d s A ((fun a => blk k d a) <$> A) (blk k d s) in
  txn k pr ∅ P A -> A <> [] -> i32 (word (dblock k d s) 0) = 0 ->
  recovers d s (dblock k d) (blk k d) (wr (take m ws) (dblock k)).
Proof.
  intros d s ws T Hne Hz kr pr' Rb. destruct (commit_crash k pr P A m T Hne Hz kr pr' Rb) as (kr' & R & C & L & Hb).
  exists kr'. split_and!; try done. case_decide; [by left | by right].
Qed.

Lemma recovers_idle d s (f : blocks) :
  d <> 0 -> (forall t, s <= t < s + LOGSIZE -> on_disk d t) -> i32 (word (f d s) 0) = 0 -> recovers d s (f d) (f d) f.
Proof.
  intros Hd Hon Hz kr pr' Rb.
  destruct (recover_rebooted kr pr' d s f Rb Hd Hon (good_head_empty d s _ Hz)) as (kr' & Rr & Fr & Hb).
  exists kr'. split_and!; [done | apply Fr | by rewrite (fl_log _ _ _ _ Fr) |]. left.
  intros n Hn. rewrite Hb. by apply recover_none.
Qed.

(** C1. Crash atomicity.  Cut the writes of a commit after any number
    [m] of them and recover: every block outside of the log has its old
    contents when the header was not yet written ([m] at most the number of
    logged blocks), and otherwise every one has its new contents. *)
Theorem commit_atomic k pr P A :
  let d := lg_dev (klog k) in let s := lg_start (klog k) in
  txn k pr ∅ P A -> A <> [] -> i32 (word (dblock k d s) 0) = 0 ->
  exists k' ws, commit k = Ok tt k' /\ k_dwrites k' = k_dwrites k ++ ws /\
    forall m kr pr', rebooted kr pr' d s (wr (take m ws) (dblock k)) ->
    exists kr', recover_from_log kr = Ok tt kr' /\ cache kr' pr' ∅ ∅ /\ lh_n (klog kr') = 0 /\
      forall n, outside s n ->
        blk kr' d n = if decide (m <= length A)%nat then dblock k d n else blk k d n.
Proof.
  intros d s T Hne Hz. destruct (commit_ok k pr P A T Hne) as (k' & R & F). fold d s in F.
  eexists k', _. split_and!; [done | apply F|]. intros m. by apply (commit_crash k pr P A m).
Qed.

(** C10. Recovery can itself be interrupted.  Cut its writes anywhere
    and recover again: the blocks outside of the log are those of an
    uninterrupted recovery. *)
Theorem recover_again k pr d s f m k2 pr2 :
  rebooted k pr d s f -> d <> 0 -> (forall t, s <= t < s + LOGSIZE -> on_disk d t) ->
  good_head d s (f d s) -> length (f d s) = Z.to_nat BSIZE ->
  exists k' ws, recover_from_log k = Ok tt k' /\ k_dwrites k' = k_dwrites k ++ ws /\
    (rebooted k2 pr2 d s (wr (take m ws) f) ->
     exists k2', recover_from_log k2 = Ok tt k2' /\
       forall n, outside s n -> blk k2' d n = blk k' d n).
Proof.
  intros Rb Hd Hon Hg Hlen. destruct (recover_rebooted k pr d s f Rb Hd Hon Hg) as (k' & R & F & Hb).
  exists k', (recover_writes d s f). split_and!; [done | apply F|]. intros Rb2.
  destruct (recover_cut d s f m Hg Hlen) as [Hg2 Hsame].
  destruct (recover_rebooted k2 pr2 d s _ Rb2 Hd Hon Hg2) as (k2' & R2 & F2 & Hb2).
  exists k2'. split; [done|]. intros n Hn. rewrite Hb2, Hb. by apply Hsame.
Qed.
End steps.
