(* ===== verification/Tx.v ===== *)
(** * Transactions as the file system uses them (log.c)

    Between begin_op and end_op a file system call reads blocks, changes them
    and passes them to log_write.  This file states what that guarantees:
    nothing reaches the disk, the changed blocks join the transaction of
    Log.v, and begin_op's reservation keeps the transaction within the log. *)

From Stdlib Require Import ZArith Lia.
From stdpp Require Import base gmap list strings numbers.
From S2P Require Import Prelude Strings State Spinlock Sched Disk Bio Cache Log.

Open Scope Z_scope.

(** The log's list after log_write of block [n] ("log absorption"). *)
Definition absorb (A : list Z) (n : Z) : list Z := if decide (n ∈ A) then A else A ++ [n].

Lemma absorb_length A n : (length A <= length (absorb A n) <= S (length A))%nat.
Proof. unfold absorb. case_decide; rewrite ?length_app; cbn; lia. Qed.

Lemma elem_of_absorb A n x : x ∈ absorb A n <-> x ∈ A \/ x = n.
Proof. unfold absorb. case_decide; set_solver. Qed.

Lemma absorb_in A n : n ∈ A -> absorb A n = A.
Proof. intros H. unfold absorb. by rewrite decide_True. Qed.

Lemma log_find_spec n : forall i bs x,
  (n <= length bs)%nat ->
  (x ∈ take n bs /\ exists j, log_find n i bs x = i + Z.of_nat j /\ (j < n)%nat /\ bs !! j = Some x) \/
  ((x ∉ take n bs) /\ log_find n i bs x = i + Z.of_nat n).
Proof.
  induction n as [|n IH]; intros i bs x Hn.
  { right. cbn. split; [apply not_elem_of_nil | lia]. }
  destruct bs as [|b bs]; cbn in Hn; [lia|]. cbn [log_find take]. destruct (Z.eqb_spec b x) as [->|Hb].
  - left. split; [left|]. exists 0%nat. split_and!; [lia | lia | done].
  - destruct (IH (i + 1) bs x ltac:(lia)) as [[Hin (j & Hj & Hlt & Hx)]|[Hnot Hj]].
    + left. split; [by right|]. exists (S j). split_and!; [lia | lia | done].
    + right. split; [|lia]. by intros [->|?]%elem_of_cons.
Qed.

(** ** Steps of a file system call *)

(** [k'] is [k] after such steps: only the cache and the log's list differ,
    and nothing was written to the disk. *)
Record op (k k' : K) : Prop := {
  op_frame : k' = set_klog (klog k') (set_k_dwrites (k_dwrites k') (set_disk (disk k')
    (set_bcache (bcache k') (set_sleeplocks (sleeplocks k') k))));
  op_log : klog k' = set_lh_n (lh_n (klog k')) (set_lh_block (lh_block (klog k')) (klog k));
  op_dwrites : k_dwrites k' = k_dwrites k;
  op_disk d n : dblock k' d n = dblock k d n;
  op_inodes i : sleeplocks k' !! SL_inode i = sleeplocks k !! SL_inode i }.

#[export] Instance op_preorder : PreOrder op.
Proof.
  split.
  - intros k. split; try done; [by destruct k | by destruct (klog k)].
  - intros k1 k2 k3 [F1 L1 W1 D1 N1] [F2 L2 W2 D2 N2]. split.
    + rewrite F2, F1. done.
    + rewrite L2, L1. done.
    + by rewrite W2.
    + intros d n. by rewrite D2.
    + intros i. by rewrite N2.
Qed.

Lemma io_op k k' : io k k' [] -> op k k'.
Proof.
  intros [F W D N]. assert (klog k' = klog k) as Hk by (by rewrite F). split.
  - rewrite Hk, F. by destruct k.
  - rewrite Hk. by destruct (klog k).
  - by rewrite W, app_nil_r.
  - done.
  - done.
Qed.

Lemma op_geometry k k' : op k k' ->
  lg_dev (klog k') = lg_dev (klog k) /\ lg_start (klog k') = lg_start (klog k) /\
  lg_size (klog k') = lg_size (klog k) /\ lg_outstanding (klog k') = lg_outstanding (klog k) /\
  lg_committing (klog k') = lg_committing (klog k).
Proof. intros [_ L _ _ _]. by rewrite L. Qed.

Section tx.
Context `{E : Env} `{D : Disk} `{DO : !DiskOk D}.
Implicit Types (k : K) (H P : gset nat) (A : list Z).

Lemma txn_step k k' pr H H' P A :
  txn k pr H P A -> cache k' pr H' P -> klog k' = klog k ->
  (forall j, j ∈ P -> baddr k' j = baddr k j) -> txn k' pr H' P A.
Proof.
  intros [_ ? ? ? ? ? ? ? ? ? Hpin Hpins] Hc Hk Ha. split; rewrite ?Hk; try done.
  - intros a HaA. destruct (Hpin a HaA) as (j & Hj & Hja). exists j. by rewrite Ha.
  - intros j Hj. rewrite Ha by done. by apply Hpins.
Qed.

(** A transaction in progress, with the buffers [H] held. *)
Record tx (k : K) (pr : proc) (H : gset nat) (A : list Z) : Prop := {
  tx_txn : exists P, txn k pr H P A;
  tx_open : 1 <= lg_outstanding (klog k);
  tx_size : lg_size (klog k) = LOGSIZE }.

(** [log_write], with what it adds to the list. *)
Definition logged (b : nat) (n : Z) (A : list Z) (k : K) : K :=
  set_bcache (alter (fun bf => set_b_flags (Z.lor (b_flags bf) B_DIRTY) bf) b (bcache k))
    (set_klog (set_lh_n (Z.of_nat (length (absorb A n)))
       (set_lh_block (<[Z.to_nat (log_find (length A) 0 (lh_block (klog k)) n) := n]> (lh_block (klog k)))
          (klog k))) k).

Lemma log_write_run k pr H P A b c :
  txn k pr H P A -> 1 <= lg_outstanding (klog k) ->
  Z.of_nat (length A) < LOGSIZE -> Z.of_nat (length A) < lg_size (klog k) - 1 ->
  bufc k b = Some c ->
  log_write b k = Ok tt (logged b (b_blockno c) A k).
Proof.
  intros T Ho Hl Hs Hc. pose proof T as [[Cm _] _ Hn HA _ Hcap _ _ _ _ _ _].
  destruct (bufc_inv _ _ _ Hc) as (bf & Hb & <-). pose proof Cm as [Hq _ Hf _ _].
  assert (lock_free L_log k) as Hlf by (apply Hf; by apply (bool_decide_unpack _)).
  unfold log_write. msimp. rewrite Hn.
  replace (LOGSIZE <=? Z.of_nat (length A)) with false by lia.
  replace (lg_size (klog k) - 1 <=? Z.of_nat (length A)) with false by lia.
  replace (lg_outstanding (klog k) <? 1) with false by lia. cbn [orb]. cbv iota.
  mrun (acquire_ok L_log k Hq Hlf).
  mrun (get_buf_ok b bf (locked L_log k) ltac:(unlocked; done)). msimp. unlocked. rewrite Hn, Nat2Z.id.
  set (bn := b_blockno bf). set (i := log_find (length A) 0 (lh_block (klog k)) bn).
  assert (length A <= length (lh_block (klog k)))%nat as HlA by (rewrite Hcap; lia).
  assert ((bn ∈ A /\ i < Z.of_nat (length A)) \/ ((bn ∉ A) /\ i = Z.of_nat (length A))) as Hi.
  { destruct (log_find_spec (length A) 0 (lh_block (klog k)) bn HlA) as [[H1 (j & Hj & Hlt & _)]|[H1 H2]];
      rewrite HA in H1; [left | right]; (split; [done | unfold i; lia]). }
  unfold put_lh_block. msimp. unlocked. rewrite bool_decide_true by (destruct Hi; lia). msimp.
  pose (f := fun k0 => set_bcache (alter (fun bf => set_b_flags (Z.lor (b_flags bf) B_DIRTY) bf) b (bcache k0))
    (set_klog (set_lh_n (Z.of_nat (length (absorb A bn)))
       (set_lh_block (<[Z.to_nat i := bn]> (lh_block (klog k0))) (klog k0))) k0)).
  transitivity (release L_log (f (locked L_log k)));
    [|by rewrite (release_ok L_log f k Hq Hlf _)].
  unfold absorb in f. destruct Hi as [[H1 H2]|[H1 ->]].
  - replace (i =? Z.of_nat (length A)) with false by lia. cbv iota. msimp. unfold f.
    rewrite decide_True by done. rewrite <-Hn, <-(locked_obs (fun k => lh_n (klog k)) L_log k). reflexivity.
  - rewrite Z.eqb_refl. msimp. unfold f. rewrite decide_False by done. rewrite length_app.
    replace (Z.of_nat (length A + length [bn])) with (lh_n (klog k) + 1) by (rewrite Hn; cbn; lia).
    rewrite <-(locked_obs (fun k => lh_n (klog k)) L_log k). reflexivity.
Qed.

(** The list that log_write leaves. *)
Lemma absorb_list A L n :
  (length A < length L)%nat -> take (length A) L = A ->
  take (length (absorb A n)) (<[Z.to_nat (log_find (length A) 0 L n) := n]> L) = absorb A n.
Proof.
  intros Hl HA. unfold absorb.
  destruct (log_find_spec (length A) 0 L n ltac:(lia)) as [[Hin (j & -> & Hj & Hx)]|[Hout ->]];
    rewrite HA in *.
  - rewrite decide_True by done. rewrite Z.add_0_l, Nat2Z.id. by rewrite list_insert_id.
  - rewrite decide_False by done. rewrite Z.add_0_l, Nat2Z.id, length_app.
    replace (length A + length [n])%nat with (S (length A)) by (cbn; lia).
    rewrite (take_S_r _ _ n) by (by apply list_lookup_insert_eq).
    by rewrite take_insert_ge, HA by lia.
Qed.

Lemma absorb_nodup A n : NoDup A -> NoDup (absorb A n).
Proof.
  intros H. unfold absorb. case_decide as Hn; [done|]. apply list.NoDup_app. split_and!; [done | | apply NoDup_singleton].
  intros x Hx ->%list_elem_of_singleton. done.
Qed.

Lemma logged_facts k pr H P A b c :
  txn k pr H P A -> b ∈ H -> bufc k b = Some c -> b_dev c = lg_dev (klog k) ->
  (S (length A) < Z.to_nat LOGSIZE)%nat -> on_disk (b_dev c) (b_blockno c) ->
  outside (lg_start (klog k)) (b_blockno c) -> 0 <= b_blockno c < 2 ^ 31 ->
  let k' := logged b (b_blockno c) A k in
  txn k' pr H ({[b]} ∪ P) (absorb A (b_blockno c)) /\ op k k' /\
  bufc k' b = Some (set_b_flags 6 c) /\ (forall j, j <> b -> bufc k' j = bufc k j) /\
  (forall d n, d <> 0 -> blk k' d n = blk k d n).
Proof.
  intros T Hb Hc Hdev Hlen Hon Hout Hrg k'.
  pose proof T as [Hca Hd Hn HA _ Hcap Hnd Hr Harea Hhome Hpin Hpins].
  set (lg' := set_lh_n (Z.of_nat (length (absorb A (b_blockno c))))
       (set_lh_block (<[Z.to_nat (log_find (length A) 0 (lh_block (klog k)) (b_blockno c)) := b_blockno c]>
          (lh_block (klog k))) (klog k))).
  set (k1 := set_klog lg' k).
  assert (cache k1 pr H P) as C1 by (by apply (cache_other (set_klog lg') k)).
  assert (b_flags c = 2 \/ b_flags c = 6) as Hfl.
  { destruct Hca as [_ [l B]]. destruct (bufc_inv _ _ _ Hc) as (bf & Hbf & <-).
    by destruct (held_facts _ _ _ _ _ B b bf Hb Hbf) as (_ & _ & Hfl & _). }
  assert (set_b_flags (Z.lor (b_flags c) B_DIRTY) c = set_b_flags 6 c) as Hc6
    by (destruct Hfl as [->| ->]; done).
  destruct (upd_buf_at k1 pr H P b c (fun bf => set_b_flags (Z.lor (b_flags bf) B_DIRTY) bf) C1 Hb Hc)
    as (k2 & R2 & C2 & I2 & Hb2 & Ho2 & Hv2).
  { done. }
  { intros x [R1 R2 R3 R4] Hx. split; try done. right. apply (f_equal b_flags) in Hx.
    change (b_flags x = b_flags c) in Hx. cbn [b_flags set_b_flags]. rewrite Hx.
    by destruct Hfl as [->| ->]. }
  assert (k2 = k') as -> by (by injection R2 as <-). rewrite Hc6 in *.
  unfold repin in C2. cbn [b_flags set_b_flags Z.eqb] in C2. change (6 =? 6) with true in C2. cbv iota in C2.
  assert (forall j, baddr k' j = baddr k j) as Hba.
  { intros j. unfold baddr. destruct (decide (j = b)) as [->|Hj]; [|by rewrite Ho2].
    rewrite Hb2. change (bufc k1 b) with (bufc k b). by rewrite Hc. }
  split_and!; [| | done | done |].
  - split; try done.
    + change (lh_block (klog k')) with (lh_block lg'). apply absorb_list; [lia | done].
    + pose proof (absorb_length A (b_blockno c)). lia.
    + cbn. by rewrite length_insert.
    + by apply absorb_nodup.
    + unfold absorb. case_decide; [done|]. by apply list.Forall_app_2, list.Forall_singleton.
    + intros a [Ha| ->]%elem_of_absorb; [by apply Hhome|].
      change (lg_dev (klog k')) with (lg_dev (klog k)). by rewrite <-Hdev.
    + intros a Ha%elem_of_absorb. change (lg_dev (klog k')) with (lg_dev (klog k)).
      destruct (decide (a = b_blockno c)) as [->|Hne].
      * exists b. split; [set_solver +|]. rewrite Hba, (baddr_Some _ _ _ Hc). congruence.
      * destruct Ha as [Ha|?]; [|done]. destruct (Hpin a Ha) as (j & Hj & Hja). exists j.
        split; [set_solver +Hj|]. by rewrite Hba.
    + intros j Hj. rewrite Hba. change (lg_dev (klog k')) with (lg_dev (klog k)).
      apply elem_of_union in Hj as [->%elem_of_singleton|Hj].
      * exists (b_blockno c). split; [apply elem_of_absorb; by right|].
        rewrite (baddr_Some _ _ _ Hc). congruence.
      * destruct (Hpins j Hj) as (a & Ha & Hja). exists a. split; [|done]. apply elem_of_absorb. by left.
  - split; [by destruct k | by destruct k as [? ? ? ? ? ? ? ? ? ? ? ? ? ? ? ? ? ? ? ? [] ] | done | done | done].
  - intros d n Hdz. rewrite Hv2 by done. case_decide as Hdn; [|by apply blk_other].
    destruct Hdn as [-> ->]. cbn [b_data set_b_flags]. symmetry.
    destruct Hca as [_ [l B]]. eapply blk_cached; [exact B | | done | done |].
    + apply (bio_range _ _ _ _ _ B). by left.
    + lia.
Qed.

(** ** The blocks of the log's device *)

(** What readers see of block [n]. *)
Definition fsb (k : K) (n : Z) : list Z := blk k (lg_dev (klog k)) n.
Definition fupd (f : Z -> list Z) (n : Z) (v : list Z) : Z -> list Z :=
  fun n' => if decide (n' = n) then v else f n'.

(** The assignment and the contents of buffer [i]; [at_buf k i n v] says that
    it is assigned to block [n] and contains [v]. *)
Definition bufd (k : K) (i : nat) : option (Z * Z * list Z) :=
  (fun c => (b_dev c, b_blockno c, b_data c)) <$> bufc k i.
Definition at_buf (k : K) (i : nat) (n : Z) (v : list Z) : Prop := bufd k i = Some (lg_dev (klog k), n, v).

(** A block that log_write accepts. *)
Definition loggable (k : K) (n : Z) : Prop :=
  on_disk (lg_dev (klog k)) n /\ outside (lg_start (klog k)) n /\ 0 <= n < 2 ^ 31.

(** From [k] with the transaction [A] to [k'] with [A']: the buffers [H] are
    held afterwards, the ones of [F] kept their contents, and readers see
    [g]. *)
Record tstep (pr : proc) (F : gset nat) (k : K) (k' : K) (H : gset nat) (A' : list Z)
    (g : Z -> list Z) : Prop := {
  ts_tx : tx k' pr H A';
  ts_op : op k k';
  ts_kept j : j ∈ F -> bufd k' j = bufd k j;
  ts_fsb n : fsb k' n = g n }.

Lemma loggable_op k k' n : op k k' -> loggable k n <-> loggable k' n.
Proof. intros O. unfold loggable. by destruct (op_geometry k k' O) as (-> & -> & _). Qed.

Lemma at_buf_inv k i n v : at_buf k i n v ->
  exists c, bufc k i = Some c /\ b_dev c = lg_dev (klog k) /\ b_blockno c = n /\ b_data c = v.
Proof.
  unfold at_buf, bufd. intros H. destruct (bufc k i) as [c|]; [|done]. exists c. by injection H as -> -> ->.
Qed.
Lemma at_buf_intro k i c :
  bufc k i = Some c -> b_dev c = lg_dev (klog k) -> at_buf k i (b_blockno c) (b_data c).
Proof. intros H1 H2. unfold at_buf, bufd. rewrite H1. cbn. by rewrite H2. Qed.
Lemma bufd_eq k k' j : bufc k' j = bufc k j -> bufd k' j = bufd k j.
Proof. intros H. unfold bufd. by rewrite H. Qed.

(** Held buffers that were kept have the same assignment before and after. *)
Lemma at_buf_kept pr F k k' H A g j m v :
  tstep pr F k k' H A g -> j ∈ F -> at_buf k' j m v <-> at_buf k j m v.
Proof.
  intros [_ O K _] Hj. unfold at_buf. rewrite K by done. by destruct (op_geometry _ _ O) as (-> & _).
Qed.

Lemma tstep_weaken pr F F' k k' H A g : tstep pr F k k' H A g -> F' ⊆ F -> tstep pr F' k k' H A g.
Proof. intros [T O K B] Hsub. split; try done. intros j Hj. apply K. by apply Hsub. Qed.

Lemma tstep_trans pr F F1 F2 k1 k2 k3 H A g A' H' g' :
  tstep pr F1 k1 k2 H A g -> tstep pr F2 k2 k3 H' A' g' -> F ⊆ F1 -> F ⊆ F2 ->
  tstep pr F k1 k3 H' A' g'.
Proof.
  intros [T1 O1 K1 B1] [T2 O2 K2 B2] Hs1 Hs2. split; [done | by etransitivity | | done].
  intros j Hj. rewrite K2 by (by apply Hs2). apply K1. by apply Hs1.
Qed.

Lemma tstep_ext pr F k k' H A g g' :
  tstep pr F k k' H A g -> (forall n, g n = g' n) -> tstep pr F k k' H A g'.
Proof. intros [T O K B] Hg. split; try done. intros n. by rewrite B. Qed.

Lemma tstep_refl pr k H A : tx k pr H A -> tstep pr H k k H A (fsb k).
Proof. intros T. by split. Qed.

(** A held buffer of a logged block is pinned. *)
Lemma logged_pinned k pr H P A i n v :
  txn k pr H P A -> i ∈ H -> at_buf k i n v -> n ∈ A -> i ∈ P.
Proof.
  intros T Hi (c & Hc & Hd & <- & _)%at_buf_inv Hn. destruct (tx_pin _ _ _ _ _ T _ Hn) as (j & Hj & Hja).
  pose proof (tx_cache _ _ _ _ _ T) as Hca.
  assert (i = j) as ->; [|done].
  apply (baddr_inj k pr H P i j (lg_dev (klog k)) (b_blockno c) Hca); try done.
  - eapply cache_range; [exact Hca | by left].
  - eapply cache_range; [exact Hca | by right].
  - apply T.
  - rewrite (baddr_Some _ _ _ Hc). congruence.
Qed.

Lemma tx_bread k pr H A n :
  tx k pr H A -> (size H + length A < NBUF)%nat -> on_disk (lg_dev (klog k)) n ->
  (forall i v, i ∈ H -> ~ at_buf k i n v) ->
  exists i k', bread (lg_dev (klog k)) n k = Ok i k' /\ (i ∉ H) /\ tstep pr H k k' ({[i]} ∪ H) A (fsb k) /\
    at_buf k' i n (fsb k n) /\ (n ∈ A \/ fsb k n = dblock k' (lg_dev (klog k)) n).
Proof.
  intros [[P T] Ho Hs] Hroom Hon Hnone. pose proof (tx_cache _ _ _ _ _ T) as Hca.
  assert (none_at k H (lg_dev (klog k)) n) as Hna.
  { intros i Hi Hia. unfold baddr in Hia. destruct (bufc k i) as [c|] eqn:Hc; [|done].
    injection Hia as H1 <-. apply (Hnone i (b_data c) Hi). by apply at_buf_intro. }
  destruct (bread_at k pr H P (lg_dev (klog k)) n Hca (tx_dev _ _ _ _ _ T) Hon Hna)
    as (i & c & k' & R & C & Hi & I & Hc & Hd & Hn & Hdat & Ho' & Hv & HiP & HnP).
  { left. by eapply txn_room. }
  pose proof (io_klog _ _ _ I) as Hk. exists i, k'. split_and!; [done | done | | |].
  - split; [| by apply io_op | |].
    + split; rewrite ?Hk; [|done..]. exists P. apply (txn_step k k' pr H); try done.
      intros j Hj. unfold baddr. destruct (decide (j = i)) as [->|Hne]; [|by rewrite Ho'].
      rewrite Hc. cbn. rewrite Hd, Hn. symmetry. by apply HiP.
    + intros j Hj. apply bufd_eq, Ho'. set_solver +Hj Hi.
    + intros m. unfold fsb. rewrite Hk. apply Hv. apply T.
  - unfold fsb. rewrite <-Hdat, <-Hn. apply at_buf_intro; [done | by rewrite Hk].
  - destruct (decide (i ∈ P)) as [Hp|Hp].
    + left. destruct (tx_pins _ _ _ _ _ T i Hp) as (a & Ha & Hia). rewrite (HiP Hp) in Hia.
      by injection Hia as ->.
    + right. rewrite (io_disk _ _ _ I). cbn [wr]. unfold fsb. rewrite <-Hdat. by apply HnP.
Qed.

Lemma tx_brelse k pr H A i n v :
  tx k pr H A -> i ∈ H -> at_buf k i n v -> n ∈ A \/ v = dblock k (lg_dev (klog k)) n ->
  exists k', brelse i k = Ok tt k' /\ tstep pr (H ∖ {[i]}) k k' (H ∖ {[i]}) A (fsb k).
Proof.
  intros [[P T] Ho Hs] Hi Hat Hcl. pose proof Hat as (c & Hc & Hd & Hn & Hv)%at_buf_inv.
  destruct (brelse_at k pr H P i c (tx_cache _ _ _ _ _ T) Hi Hc) as (k' & R & C & I & Hc' & Ho' & Hb).
  { destruct Hcl as [Hl|Hl]; [left; by eapply logged_pinned | right; congruence]. }
  pose proof (io_klog _ _ _ I) as Hk. exists k'. split; [done|]. split; [| by apply io_op | |].
  - split; rewrite ?Hk; [|done..]. exists P. apply (txn_step k k' pr H); try done.
    intros j Hj. unfold baddr. destruct (decide (j = i)) as [->|Hne]; [|by rewrite Ho'].
    by rewrite Hc', Hc.
  - intros j Hj. apply bufd_eq, Ho'. set_solver +Hj.
  - intros m. unfold fsb. rewrite Hk. apply Hb.
Qed.

Lemma tx_upd k pr H A i n v f :
  tx k pr H A -> i ∈ H -> at_buf k i n v -> length (f v) = Z.to_nat BSIZE ->
  exists k', upd_buf i (fun b => set_b_data (f (b_data b)) b) k = Ok tt k' /\
    tstep pr (H ∖ {[i]}) k k' H A (fupd (fsb k) n (f v)) /\ at_buf k' i n (f v) /\
    (forall m, dblock k' (lg_dev (klog k)) m = dblock k (lg_dev (klog k)) m).
Proof.
  intros [[P T] Ho Hs] Hi (c & Hc & Hd & <- & <-)%at_buf_inv Hlen.
  pose proof (tx_cache _ _ _ _ _ T) as Hca. pose proof Hca as [_ [l B]].
  destruct (bufc_inv _ _ _ Hc) as (bf & Hbf & Hbc).
  destruct (held_facts _ _ _ _ _ B i bf Hi Hbf) as (_ & _ & Hfl & _ & _ & _ & HP).
  destruct (upd_buf_at k pr H P i c (fun b => set_b_data (f (b_data b)) b) Hca Hi Hc)
    as (k' & R & C & I & Hb' & Ho' & Hv).
  { done. }
  { intros x [R1 R2 R3 R4] Hx. split; try done. cbn [b_data set_b_data].
    apply (f_equal b_data) in Hx. change (b_data x = b_data c) in Hx. by rewrite Hx. }
  rewrite repin_data in C by (by rewrite <-Hbc).
  pose proof (io_klog _ _ _ I) as Hk. exists k'. split_and!; [done | | |].
  - split; [| by apply io_op | |].
    + split; rewrite ?Hk; [|done..]. exists P. apply (txn_step k k' pr H); try done.
      intros j Hj. unfold baddr. destruct (decide (j = i)) as [->|Hne]; [|by rewrite Ho'].
      by rewrite Hb', Hc.
    + intros j Hj. apply bufd_eq, Ho'. set_solver +Hj.
    + intros m. unfold fsb, fupd. rewrite Hk, Hv by apply T. rewrite Hd.
      repeat case_decide; try done; naive_solver.
  - apply (at_buf_intro k' i (set_b_data (f (b_data c)) c)); [done | by rewrite Hk].
  - intros m. by rewrite (io_disk _ _ _ I).
Qed.

Lemma tx_log_write k pr H A i n v :
  tx k pr H A -> i ∈ H -> at_buf k i n v -> loggable k n -> Z.of_nat (length A) < LOGSIZE - 1 ->
  exists k', log_write i k = Ok tt k' /\ tstep pr H k k' H (absorb A n) (fsb k).
Proof.
  intros [[P T] Ho Hs] Hi (c & Hc & Hd & Hn & Hv)%at_buf_inv (Hon & Hout & Hr) Hlen. subst n.
  destruct (logged_facts k pr H P A i c T Hi Hc Hd) as (T' & O & Hb & Hb' & Hf).
  { klia. } { by rewrite Hd. } { done. } { done. }
  exists (logged i (b_blockno c) A k). split.
  - apply (log_write_run k pr H P); try done; [lia|]. rewrite Hs. lia.
  - destruct (op_geometry _ _ O) as (G1 & G2 & G3 & G4 & _). split; [| done | |].
    + split; rewrite ?G3, ?G4; [|done..]. by exists ({[i]} ∪ P).
    + intros j Hj. destruct (decide (j = i)) as [->|Hne]; [|by apply bufd_eq, Hb'].
      unfold bufd. by rewrite Hb, Hc.
    + intros m. unfold fsb. rewrite G1. apply Hf. apply T.
Qed.

(** Changing a held block, logging it and letting go of it. *)
Lemma tx_finish k pr H A i n v f :
  tx k pr H A -> i ∈ H -> at_buf k i n v -> loggable k n -> Z.of_nat (length A) < LOGSIZE - 1 ->
  length (f v) = Z.to_nat BSIZE ->
  exists k', (upd_buf i (fun b => set_b_data (f (b_data b)) b) ;;; log_write i ;;; brelse i) k = Ok tt k' /\
    tstep pr (H ∖ {[i]}) k k' (H ∖ {[i]}) (absorb A n) (fupd (fsb k) n (f v)).
Proof.
  intros T Hi Hat Hl HA Hlen.
  destruct (tx_upd k pr H A i n v f T Hi Hat Hlen) as (k1 & R1 & S1 & At1 & _).
  destruct (tx_log_write k1 pr H A i n (f v) (ts_tx _ _ _ _ _ _ _ S1) Hi At1) as (k2 & R2 & S2); [|done|].
  { by apply (loggable_op k k1); [apply S1|]. }
  destruct (tx_brelse k2 pr H (absorb A n) i n (f v) (ts_tx _ _ _ _ _ _ _ S2) Hi) as (k3 & R3 & S3).
  { by apply (at_buf_kept _ _ _ _ _ _ _ _ _ _ S2 Hi). } { left. apply elem_of_absorb. by right. }
  exists k3. split; [mrun R1; by mrun R2|].
  assert (H ∖ {[i]} ⊆ H) as Hsub by set_solver +.
  pose proof (tstep_trans _ _ _ _ _ _ _ _ _ _ _ _ _ S2 S3 Hsub (reflexivity _)) as S23.
  pose proof (tstep_trans _ _ _ _ _ _ _ _ _ _ _ _ _ S1 S23 (reflexivity _) (reflexivity _)) as S.
  apply (tstep_ext _ _ _ _ _ _ _ _ S).
  intros m. rewrite (ts_fsb _ _ _ _ _ _ _ S2). apply (ts_fsb _ _ _ _ _ _ _ S1).
Qed.

(** Reading a block and changing it. *)
Lemma tx_change k pr H A n f :
  tx k pr H A -> (size H + length A < NBUF)%nat -> Z.of_nat (length A) < LOGSIZE - 1 -> loggable k n ->
  (forall i v, i ∈ H -> ~ at_buf k i n v) -> length (f (fsb k n)) = Z.to_nat BSIZE ->
  exists k', (let* i := bread (lg_dev (klog k)) n in
              upd_buf i (fun b => set_b_data (f (b_data b)) b) ;;; log_write i ;;; brelse i) k = Ok tt k' /\
    tstep pr H k k' H (absorb A n) (fupd (fsb k) n (f (fsb k n))).
Proof.
  intros T Hr HA Hl Hnone Hlen. pose proof Hl as (Hon & _).
  destruct (tx_bread k pr H A n T Hr Hon Hnone) as (i & k1 & R1 & Hi & S1 & At1 & _).
  destruct (tx_finish k1 pr ({[i]} ∪ H) A i n (fsb k n) f) as (k2 & R2 & S2); try done; [apply S1 | set_solver + | |].
  { by apply (loggable_op k k1); [apply S1|]. }
  replace (({[i]} ∪ H) ∖ {[i]}) with H in S2 by (apply set_eq; set_solver +Hi).
  exists k2. split; [by mrun R1|].
  apply (tstep_ext _ _ _ _ _ _ _ _
    (tstep_trans _ _ _ _ _ _ _ _ _ _ _ _ _ S1 S2 (reflexivity _) (reflexivity _))).
  intros m. unfold fupd. case_decide; [done | apply S1].
Qed.

Lemma tx_fsb_length k pr H A n : tx k pr H A -> length (fsb k n) = Z.to_nat BSIZE.
Proof. intros [[P T] _ _]. destruct (tx_cache _ _ _ _ _ T) as [_ [l B]]. by eapply blk_length. Qed.

(** ** begin_op and end_op *)

Definition add_outstanding (n : Z) (k : K) : K :=
  set_klog (set_lg_outstanding (lg_outstanding (klog k) + n) (klog k)) k.

Lemma begin_op_ok k pr :
  calm k pr -> lg_committing (klog k) = 0 ->
  lh_n (klog k) + (lg_outstanding (klog k) + 1) * MAXOPBLOCKS <= LOGSIZE ->
  begin_op k = Ok tt (add_outstanding 1 k).
Proof.
  intros [Hq _ Hf _ _] Hc Hr. assert (lock_free L_log k) as Hlf by (apply Hf; by apply (bool_decide_unpack _)).
  unfold begin_op. mrun (acquire_ok L_log k Hq Hlf). apply forever_done. msimp. unlocked.
  rewrite Hc. change (Zb 0) with false. cbv iota.
  replace (LOGSIZE <? _) with false by lia. unfold upd_log. msimp.
  by mrun (release_ok L_log (add_outstanding 1) k Hq Hlf _).
Qed.


(** The part of end_op under the lock. *)
Definition closing (k : K) : K :=
  set_klog (set_lg_committing 1 (set_lg_outstanding (lg_outstanding (klog k) - 1) (klog k))) k.
Definition reopened (k : K) : K := set_klog (set_lg_committing 0 (klog k)) k.

Lemma end_op_last k pr :
  calm k pr -> lg_committing (klog k) = 0 -> lg_outstanding (klog k) = 1 ->
  end_op k = (commit ;;; acquire L_log ;;; upd_log (set_lg_committing 0) ;;;
              wakeup Ch_log ;;; release L_log) (closing k).
Proof.
  intros [Hq _ Hf _ _] Hc Ho. assert (lock_free L_log k) as Hlf by (apply Hf; by apply (bool_decide_unpack _)).
  unfold end_op. mrun (acquire_ok L_log k Hq Hlf). unfold upd_log at 1. msimp.
  set (k1 := set_klog _ (locked L_log k)). change (lg_committing (klog k1)) with (lg_committing (klog (locked L_log k))).
  change (lg_outstanding (klog k1)) with (lg_outstanding (klog (locked L_log k)) - 1). unlocked. rewrite Hc, Ho.
  change (Zb 0) with false. cbv iota. change (1 - 1 =? 0) with true. cbv iota. unfold upd_log at 1. msimp.
  unfold k1. cbn [klog set_klog]. by mrun (release_ok L_log closing k Hq Hlf _).
Qed.

Lemma reopen k pr : calm k pr ->
  (acquire L_log ;;; upd_log (set_lg_committing 0) ;;; wakeup Ch_log ;;; release L_log) k = Ok tt (reopened k).
Proof.
  intros C. pose proof C as [Hq _ Hf _ Hl]. assert (lock_free L_log k) as Hlf by (apply Hf; by apply (bool_decide_unpack _)).
  mrun (acquire_ok L_log k Hq Hlf). unfold upd_log. msimp.
  set (k1 := set_klog _ (locked L_log k)).
  assert (quiet k1) as Hq1 by (apply (quiet_framed reopened); [done | by apply quiet_locked]).
  assert (lock_free L_ptable k1) as Hp1
    by (apply (lock_free_framed reopened); [done|]; apply lock_free_locked; [done | apply Hf; left]).
  mrun (wakeup_ok Ch_log k1 Hq1 Hp1). rewrite wake_nobody.
  - exact (release_ok L_log reopened k Hq Hlf _).
  - unfold nobody_on. cbn [k1 ptable set_klog]. by unlocked.
Qed.

(** Nothing is in progress in the file system: the log is open, empty and
    cleared on the disk. *)
Record idle (k : K) (pr : proc) : Prop := {
  id_txn : txn k pr ∅ ∅ [];
  id_committing : lg_committing (klog k) = 0;
  id_outstanding : lg_outstanding (klog k) = 0;
  id_size : lg_size (klog k) = LOGSIZE;
  id_head : i32 (word (dblock k (lg_dev (klog k)) (lg_start (klog k))) 0) = 0 }.

(** From [k], at the end of the only call, to the idle state [k']: what
    readers saw is on the disk, and a crash in between leaves either that or
    the blocks that were on the disk in [k]. *)
Record committed (pr : proc) (k k' : K) : Prop := {
  cm_idle : idle k' pr;
  cm_log : klog k' = set_lg_outstanding 0 (set_lh_n 0 (set_lh_block (lh_block (klog k')) (klog k)));
  cm_frame : k' = set_klog (klog k') (set_k_dwrites (k_dwrites k') (set_disk (disk k')
    (set_bcache (bcache k') (set_sleeplocks (sleeplocks k') k))));
  cm_inodes i : sleeplocks k' !! SL_inode i = sleeplocks k !! SL_inode i;
  cm_fsb n : outside (lg_start (klog k)) n -> fsb k' n = fsb k n;
  cm_crash : exists ws, k_dwrites k' = k_dwrites k ++ ws /\ (forall d n, dblock k' d n = wr ws (dblock k) d n) /\
    forall m, recovers (lg_dev (klog k)) (lg_start (klog k)) (dblock k (lg_dev (klog k))) (fsb k)
      (wr (take m ws) (dblock k)) }.

Lemma idle_fsb k pr n : idle k pr -> dblock k (lg_dev (klog k)) n = fsb k n.
Proof. intros I. symmetry. eapply cache_clean, I. Qed.

Lemma txn_closing k pr P A : txn k pr ∅ P A -> txn (closing k) pr ∅ P A.
Proof.
  intros [Hca ? ? ? ? ? ? ? ? ? Hpin Hpins]. split; try done. by apply (cache_other closing).
Qed.

Lemma txn_nil k pr H P : txn k pr H P [] -> P = ∅.
Proof.
  intros T. apply elem_of_equiv_empty_L. intros j Hj. by destruct (tx_pins _ _ _ _ _ T j Hj) as (? & ?%not_elem_of_nil & _).
Qed.

Lemma txn_idle k pr :
  cache k pr ∅ ∅ -> lg_dev (klog k) <> 0 -> lh_n (klog k) = 0 -> length (lh_block (klog k)) = Z.to_nat LOGSIZE ->
  (forall t, lg_start (klog k) <= t < lg_start (klog k) + LOGSIZE -> on_disk (lg_dev (klog k)) t) ->
  txn k pr ∅ ∅ [].
Proof.
  intros C Hd Hn Hl Ha. split; try done; try (by intros ? ?%not_elem_of_nil); [cbn; klia | apply NoDup_nil_2].
Qed.

Lemma end_op_ok k pr A :
  tx k pr ∅ A -> lg_committing (klog k) = 0 -> lg_outstanding (klog k) = 1 ->
  i32 (word (dblock k (lg_dev (klog k)) (lg_start (klog k))) 0) = 0 ->
  exists k', end_op k = Ok tt k' /\ committed pr k k'.
Proof.
  intros [[P T] _ Hsz] Hc Ho Hz. pose proof (tx_cache _ _ _ _ _ T) as [Cm _].
  rewrite (end_op_last k pr Cm Hc Ho). pose proof (txn_closing _ _ _ _ T) as T1.
  destruct A as [|a A].
  - assert (commit (closing k) = Ok tt (closing k)) as R1.
    { unfold commit. msimp. rewrite (tx_n _ _ _ _ _ T1). done. }
    pose proof (txn_nil _ _ _ _ T) as ->.
    mrun R1. rewrite (reopen (closing k) pr) by (by apply T1). exists (reopened (closing k)). split; [done|].
    assert (lh_n (klog k) = 0) as Hn by (by rewrite (tx_n _ _ _ _ _ T)).
    split; try done.
    + split; try done; [|cbn; lia]. apply txn_idle; [by apply (cache_other reopened), T1 | apply T | done | apply T | apply T].
    + clear -Ho Hc Hn. cbn. destruct (klog k). cbn in *. by subst.
    + exists []. rewrite app_nil_r. split_and!; [done | done |]. intros m kr pr'. rewrite take_nil. cbn [wr].
      intros Rb. destruct (recovers_idle _ _ (dblock k) (tx_dev _ _ _ _ _ T) (tx_area _ _ _ _ _ T) Hz kr pr' Rb)
        as (kr' & R & C & L & [H|H]); exists kr'; (split_and!; [done | done | done | by left]).
  - destruct (commit_ok (closing k) pr P (a :: A) T1) as (k1 & R1 & F); [done|].
    pose proof (commit_effect (closing k) pr P (a :: A) k1 T1 F) as [Hh Hv]. mrun R1.
    rewrite (reopen k1 pr) by apply F. exists (reopened k1). split; [done|].
    pose proof (fl_log _ _ _ _ F) as L1. 
    assert (lg_dev (klog (reopened k1)) = lg_dev (klog k)) as Hd by (cbn; by rewrite L1).
    split.
    + split; [apply txn_idle | done | | |].
      * by apply (cache_other reopened), F.
      * rewrite Hd. apply T.
      * cbn. by rewrite L1.
      * cbn. rewrite (fl_cap _ _ _ _ F). apply T.
      * cbn. rewrite L1. apply T.
      * cbn. rewrite L1. cbn. lia.
      * cbn. by rewrite L1.
      * cbn. rewrite L1. exact Hh.
    + clear -Ho Hc L1. cbn. rewrite L1. cbn. destruct (klog k). cbn in *. by subst.
    + rewrite (fl_frame _ _ _ _ F) at 1. done.
    + apply F.
    + intros n Hn. unfold fsb. rewrite Hd. rewrite (blk_other k1 (reopened k1)) by done. by apply Hv.
    + eexists. split_and!; [apply F | apply F |]. intros m. exact (recovers_commit (closing k) pr P (a :: A) m T1 ltac:(done) Hz).
Qed.

(** The end of the last file system call commits the transaction: its blocks
    reach the disk, readers see no change, the log is open again. *)
Theorem end_op_commits k pr A :
  let d := lg_dev (klog k) in let s := lg_start (klog k) in
  tx k pr ∅ A -> lg_committing (klog k) = 0 -> lg_outstanding (klog k) = 1 ->
  A <> [] ->
  exists k', end_op k = Ok tt k' /\ cache k' pr ∅ ∅ /\
    k_dwrites k' = k_dwrites k ++ commit_writes d s A (fsb k <$> A) (fsb k s) /\
    lg_committing (klog k') = 0 /\ lg_outstanding (klog k') = 0 /\ lh_n (klog k') = 0 /\
    forall n, outside s n -> fsb k' n = fsb k n /\ dblock k' d n = fsb k n.
Proof.
  intros d s [[P T] _ _] Hc Ho Hne. pose proof (tx_cache _ _ _ _ _ T) as [Cm _].
  rewrite (end_op_last k pr Cm Hc Ho).
  pose proof (txn_closing _ _ _ _ T) as T1.
  destruct (commit_ok (closing k) pr P A T1 Hne) as (k1 & R1 & F).
  pose proof (commit_effect (closing k) pr P A k1 T1 F) as [_ Hv].
  change (lg_dev (klog (closing k))) with d in *. change (lg_start (klog (closing k))) with s in *.
  destruct F as [C1 L1 W1 _ _]. mrun R1. rewrite (reopen k1 pr) by apply C1.
  assert (lg_dev (klog (reopened k1)) = d) as Hd by (cbn; by rewrite L1).
  exists (reopened k1). split_and!; try done.
  - by apply (cache_other reopened).
  - cbn. rewrite L1. cbn. rewrite Ho. done.
  - cbn. by rewrite L1.
  - intros n Hn. destruct (Hv n Hn) as [H1 H2]. unfold fsb. rewrite Hd.
    split; [|exact H2]. rewrite (blk_other k1 (reopened k1)) by done. exact H1.
Qed.

(** The end of a call that is not the last one writes nothing. *)
Lemma end_op_not_last k pr :
  calm k pr -> lg_committing (klog k) = 0 -> 1 < lg_outstanding (klog k) ->
  end_op k = Ok tt (add_outstanding (-1) k).
Proof.
  intros C Hc Ho. pose proof C as [Hq _ Hf _ Hl].
  assert (lock_free L_log k) as Hlf by (apply Hf; by apply (bool_decide_unpack _)).
  unfold end_op. mrun (acquire_ok L_log k Hq Hlf). unfold upd_log at 1. msimp.
  set (k1 := set_klog _ (locked L_log k)). change (lg_committing (klog k1)) with (lg_committing (klog (locked L_log k))).
  change (lg_outstanding (klog k1)) with (lg_outstanding (klog (locked L_log k)) - 1). unlocked. rewrite Hc.
  change (Zb 0) with false. cbv iota. replace (lg_outstanding (klog k) - 1 =? 0) with false by lia. msimp.
  assert (quiet k1) as Hq1 by (apply (quiet_framed (add_outstanding (-1))); [done | by apply quiet_locked]).
  assert (lock_free L_ptable k1) as Hp1
    by (apply (lock_free_framed (add_outstanding (-1))); [done|]; apply lock_free_locked; [done | apply Hf; left]).
  mrun (wakeup_ok Ch_log k1 Hq1 Hp1). rewrite wake_nobody.
  - msimp. change k1 with (add_outstanding (-1) (locked L_log k)).
    by mrun (release_ok L_log (add_outstanding (-1)) k Hq Hlf _).
  - unfold nobody_on. cbn [k1 ptable set_klog]. by unlocked.
Qed.

(** log_write refuses a block when the log already lists [log.size - 1], even
    a block that is listed: with the default log of LOGSIZE blocks the last of
    the LOGSIZE blocks that begin_op's test admits cannot be used. *)
Theorem log_write_full b k :
  lg_size (klog k) = LOGSIZE -> lh_n (klog k) = LOGSIZE - 1 ->
  log_write b k = Panic "too big a transaction" k.
Proof.
  intros Hs Hn. unfold log_write. msimp. rewrite Hs, Hn. done.
Qed.
End tx.

(** ** A machine with one logged block *)

Definition sample_lg : log := mk_log 2 30 1 0 1 0 (replicate 30 0).

Section samples.
#[local] Existing Instance idle_env.
#[local] Existing Instance sample_disk.
#[local] Existing Instance sample_disk_ok.

Lemma open_tx k pr l :
  calm k pr -> bio k (pid pr) ∅ ∅ l -> tx (set_klog sample_lg k) pr ∅ [].
Proof.
  intros C B. split; [|done..]. exists ∅. split; try done.
  - apply (cache_other (set_klog sample_lg)); try done. split; [done | by exists l].
  - cbn; klia.
  - apply NoDup_nil_2.
  - intros t Ht. cbn in *. klia.
  - by intros a ?%not_elem_of_nil.
  - by intros a ?%not_elem_of_nil.
Qed.

Definition sample_pr : proc := set_state RUNNING (set_pid 1 proc0).

Lemma sample_open : tx (set_klog sample_lg sample_fs) sample_pr ∅ [].
Proof. exact (open_tx sample_fs sample_pr _ sample_fs_calm sample_fs_bio). Qed.

(** Block 50 changed in a transaction. *)
Lemma log_one k pr :
  tx k pr ∅ [] -> klog k = sample_lg -> exists k', tx k' pr ∅ [50] /\ op k k'.
Proof.
  intros T Hk. destruct (tx_change k pr ∅ [] 50 (fun v => <[0%nat := 1]> v) T) as (k' & _ & S).
  - rewrite size_empty. unfold NBUF. cbn. lia.
  - cbn. klia.
  - unfold loggable, outside. rewrite Hk. cbn. klia.
  - by intros i v ?%not_elem_of_empty.
  - rewrite length_insert. by eapply tx_fsb_length.
  - exists k'. split; apply S.
Qed.

Lemma sample_tx :
  exists k P, txn k sample_pr ∅ P [50] /\ tx k sample_pr ∅ [50] /\
    lg_committing (klog k) = 0 /\ lg_outstanding (klog k) = 1 /\
    i32 (word (dblock k (lg_dev (klog k)) (lg_start (klog k))) 0) = 0.
Proof.
  destruct (log_one _ _ sample_open eq_refl) as (k & T & O). destruct (op_geometry _ _ O) as (G1 & G2 & _ & G4 & G5).
  pose proof T as [[P Tn] _ _]. exists k, P. rewrite G1, G2, G4, G5. rewrite (op_disk _ _ O). done.
Qed.

Lemma commit_durable_witness :
  exists k P k', txn k sample_pr ∅ P [50] /\ commit k = Ok tt k' /\ cache k' sample_pr ∅ ∅.
Proof.
  destruct sample_tx as (k & P & Tn & _).
  destruct (commit_durable k sample_pr P [50] Tn) as (k' & R & _ & C & _); [done|].
  exists k, P, k'. done.
Defined.

Lemma commit_atomic_witness :
  exists k P k' ws, txn k sample_pr ∅ P [50] /\ commit k = Ok tt k' /\ k_dwrites k' = k_dwrites k ++ ws.
Proof.
  destruct sample_tx as (k & P & Tn & _ & _ & _ & Hz).
  destruct (commit_atomic k sample_pr P [50] Tn) as (k' & ws & R & W & _);
    [done | done |].
  exists k, P, k', ws. done.
Defined.

Lemma end_op_commits_witness :
  exists k k', tx k sample_pr ∅ [50] /\ end_op k = Ok tt k' /\ lh_n (klog k') = 0.
Proof.
  destruct sample_tx as (k & P & _ & T & Hc & Ho & _).
  destruct (end_op_commits k sample_pr [50] T Hc Ho) as (k' & R & _ & _ & _ & _ & Hn & _);
    [done|].
  exists k, k'. done.
Defined.

Lemma log_write_full_witness :
  exists k, log_write 0%nat k = Panic "too big a transaction" k.
Proof.
  exists (set_klog (set_lh_n 29 sample_lg) sample_fs). apply log_write_full; reflexivity.
Defined.

(** A machine that starts from a disk whose log lists block 50. *)
Definition crashed_disk : gmap (Z * Z) (list Z) :=
  {[ (1, 2) := head_data [50] (replicate 512 0) ]}.
Definition crashed (k : K) : K := set_klog (set_lg_outstanding 0 sample_lg) (set_disk crashed_disk k).

Lemma crashed_block d n :
  dblock (crashed sample_fs) d n =
  if decide ((d, n) = (1, 2)) then head_data [50] (replicate 512 0) else replicate 512 0.
Proof.
  unfold dblock. cbn [disk crashed set_klog set_disk]. unfold crashed_disk.
  case_decide as Hd; [by rewrite Hd, lookup_singleton_eq | by rewrite lookup_singleton_ne].
Qed.

Lemma crashed_rebooted k pr l :
  calm k pr -> bio k (pid pr) ∅ ∅ l -> (forall i b, bufc k i = Some b -> b_flags b = 0) ->
  rebooted (crashed k) pr 1 2 (dblock (crashed k)).
Proof.
  intros C [B1 B2 B3 B4 B5 B6 B7 B8] Hf. split; try done. split; [by apply (calm_framed crashed)|].
  exists l. split; try done.
  - intros i b Hi Hb Hn. destruct (B6 i b Hi Hb Hn) as (H1 & H2 & _). split_and!; [done | done |].
    intros H2'. change (bufc (crashed k) i) with (bufc k i) in Hb. rewrite (Hf i b Hb) in H2'. done.
  - intros d n. unfold dblock. cbn [disk crashed set_klog set_disk]. unfold crashed_disk.
    destruct (decide ((1, 2) = (d, n))) as [<-|Hd]; [by rewrite lookup_singleton_eq | by rewrite lookup_singleton_ne].
Qed.

Lemma recover_again_witness :
  exists k', recover_from_log (crashed sample_fs) = Ok tt k'.
Proof.
  assert (dblock (crashed sample_fs) 1 2 = head_data [50] (replicate 512 0)) as Hd by (by rewrite crashed_block).
  destruct (head_blocks_data [50] (replicate 512 0)) as [H0 HA];
    [cbn; klia | by rewrite length_replicate | repeat constructor; lia |].
  destruct (recover_again (crashed sample_fs) sample_pr 1 2 (dblock (crashed sample_fs)) 1
              (crashed sample_fs) sample_pr) as (k' & ws & R & _).
  - eapply crashed_rebooted; [apply sample_fs_calm | apply sample_fs_bio|].
    intros i b Hb. pose proof (sample_fs_fresh i b Hb) as Hf. unfold fresh_buf in Hf.
    rewrite !andb_true_iff, !Z.eqb_eq in Hf. tauto.
  - done.
  - intros t Ht. cbn. klia.
  - rewrite Hd. split; rewrite ?H0, ?HA; [cbn; klia | apply NoDup_singleton|].
    intros a ->%list_elem_of_singleton. unfold outside. cbn. klia.
  - rewrite Hd. apply head_data_spec; [cbn; klia | by rewrite length_replicate | repeat constructor; klia].
  - exists k'. exact R.
Defined.

End samples.
