(* ===== verification/Fs.v ===== *)
(** * The file system (fs.c)

    Blocks, inodes, file contents, directories and path names.  A buffer that
    is passed by address to be filled ([readi]'s [dst], [stati]'s [st],
    [skipelem]'s [name]) is a result of the function, one that is passed to
    be read ([writei]'s [src]) a list of bytes. *)

From Stdlib Require Import ZArith Lia.
From stdpp Require Import base gmap list strings numbers.
From S2P Require Import Prelude Strings State Spinlock Sched Console Disk Bio Log.

Import string_c string_facts.
Open Scope Z_scope.

(** The device functions that consoleinit installs in devsw. *)
Class Devsw := {
  dev_read : nat -> nat -> Z -> KM (Z * list Z);
  dev_write : nat -> nat -> list Z -> KM Z }.

(** ** On-disk structures *)

Record dinode := mk_dinode {
  d_type : Z;
  d_major : Z;
  d_minor : Z;
  d_nlink : Z;
  d_size : Z;
  d_addrs : list Z }.

Definition short_at (data : list Z) (off : nat) : Z := i16 (of_le (slice off 2 data)).
Definition uint_at (data : list Z) (off : nat) : Z := of_le (slice off 4 data).

(** Inode [i] of an inode block; a [struct dinode] has 64 bytes. *)
Definition get_dinode (data : list Z) (i : Z) : dinode :=
  let o := (64 * Z.to_nat i)%nat in
  mk_dinode (short_at data o) (short_at data (o + 2)) (short_at data (o + 4)) (short_at data (o + 6))
    (uint_at data (o + 8)) ((fun j => uint_at data (o + 12 + 4 * j)) <$> seq 0 13).
Definition dinode_bytes (d : dinode) : list Z :=
  le16 (d_type d) ++ le16 (d_major d) ++ le16 (d_minor d) ++ le16 (d_nlink d) ++ le32 (d_size d) ++
  concat (le32 <$> d_addrs d).
Definition put_dinode (i : Z) (d : dinode) (data : list Z) : list Z :=
  splice (64 * Z.to_nat i)%nat (dinode_bytes d) data.

Record dirent := mk_dirent { de_inum : Z; de_name : list Z }.
Definition get_dirent (bs : list Z) : dirent :=
  mk_dirent (of_le (slice 0 2 bs)) (slice 2 DIRSIZ bs).
Definition dirent_bytes (de : dirent) : list Z := le16 (de_inum de) ++ de_name de.

Record stat := mk_stat { st_type : Z; st_dev : Z; st_ino : Z; st_nlink : Z; st_size : Z }.

Definition BBLOCK (b : Z) (sb : superblock) : Z := u32 (b / BPB + sb_bmapstart sb).
Definition IBLOCK (i : Z) (sb : superblock) : Z := u32 (i / IPB + sb_inodestart sb).

(** ** Blocks *)

Definition bit_mask (bi : Z) : Z := Z.shiftl 1 (bi mod 8).
Definition byte_at (data : list Z) (i : Z) : Z := nth (Z.to_nat i) data 0.

(** The inner loop of balloc: the first free bit of the map block for the
    blocks from [b] on. *)
Fixpoint balloc_scan (n : nat) (bi b size : Z) (data : list Z) : option Z :=
  match n with
  | O => None
  | S n =>
      if b + bi <? size then
        if Z.land (byte_at data (bi / 8)) (bit_mask bi) =? 0 then Some bi
        else balloc_scan n (bi + 1) b size data
      else None
  end.

Section code.
Context `{E : Env} `{D : Disk} `{DV : Devsw}.

Definition bzero (dev bno : Z) : KM unit :=
  let* bp := bread dev bno in
  upd_buf bp (fun b => set_b_data (replicate (Z.to_nat BSIZE) 0) b) ;;;
  log_write bp ;;;
  brelse bp.

(** One map block: allocates the first free block that it covers. *)
Definition balloc_body (dev : Z) (sb : superblock) (b : Z) : KM (option Z) :=
  let* bp := bread dev (BBLOCK b sb) in
  let* bf := get_buf bp in
  match balloc_scan (Z.to_nat BPB) 0 b (sb_size sb) (b_data bf) with
  | Some bi =>
      upd_buf bp (fun bf => set_b_data
        (<[Z.to_nat (bi / 8) := Z.lor (byte_at (b_data bf) (bi / 8)) (bit_mask bi)]> (b_data bf)) bf) ;;;
      log_write bp ;;;
      brelse bp ;;;
      bzero dev (b + bi) ;;;
      ret (Some (b + bi))
  | None => brelse bp ;;; ret None
  end.

Definition balloc (dev : Z) : KM Z :=
  let* sb := reads sb in
  let* r := for_ret ((fun j => j * BPB) <$> zseq 0 ((sb_size sb + BPB - 1) / BPB)) (balloc_body dev sb) in
  match r with
  | Some b => ret b
  | None => panic "balloc: out of blocks"
  end.

Definition bfree (dev b : Z) : KM unit :=
  let* sb := reads sb in
  let* bp := bread dev (BBLOCK b sb) in
  let bi := b mod BPB in
  let* bf := get_buf bp in
  if Z.land (byte_at (b_data bf) (bi / 8)) (bit_mask bi) =? 0 then panic "freeing free block"
  else
    upd_buf bp (fun bf => set_b_data
      (<[Z.to_nat (bi / 8) := Z.land (byte_at (b_data bf) (bi / 8)) (Z.lnot (bit_mask bi))]> (b_data bf)) bf) ;;;
    log_write bp ;;;
    brelse bp.

(** ** Inodes *)

Definition iinit (dev : Z) : KM unit :=
  initlock L_icache ;;;
  for_each (seq 0 NINODE) (fun i => initsleeplock (SL_inode i)) ;;;
  let* s := readsb dev in
  modify (set_sb s) ;;;
  cprintf (bytes "sb: size %d nblocks %d ninodes %d nlog %d logstart %d inodestart %d bmap start %d" ++ [10])
    [A_int (sb_size s); A_int (sb_nblocks s); A_int (sb_ninodes s); A_int (sb_nlog s);
     A_int (sb_logstart s); A_int (sb_inodestart s); A_int (sb_bmapstart s)].

(** The search of iget: the entry that holds the inode, or else the first
    free one. *)
Definition iget_cached (ips : list inode) (dev inum : Z) : option nat :=
  fst <$> list_find (fun ip => 0 < i_ref ip /\ i_dev ip = dev /\ i_inum ip = inum) ips.
Definition iget_empty (ips : list inode) : option nat :=
  fst <$> list_find (fun ip => i_ref ip = 0) ips.

Definition iget (dev inum : Z) : KM nat :=
  acquire L_icache ;;;
  let* ips := reads icache in
  match iget_cached ips dev inum with
  | Some i =>
      upd_inode i (fun ip => set_i_ref (i_ref ip + 1) ip) ;;;
      release L_icache ;;;
      ret i
  | None =>
      match iget_empty ips with
      | None => panic "iget: no inodes"
      | Some i =>
          upd_inode i (fun ip => set_i_valid 0 (set_i_ref 1 (set_i_inum inum (set_i_dev dev ip)))) ;;;
          release L_icache ;;;
          ret i
      end
  end.

Definition ialloc (dev type : Z) : KM nat :=
  let* sb := reads sb in
  let* r := for_ret (zseq 1 (sb_ninodes sb - 1)) (fun inum =>
    let* bp := bread dev (IBLOCK inum sb) in
    let* bf := get_buf bp in
    if d_type (get_dinode (b_data bf) (inum mod IPB)) =? 0 then
      upd_buf bp (fun bf => set_b_data
        (put_dinode (inum mod IPB) (mk_dinode type 0 0 0 0 (replicate 13 0)) (b_data bf)) bf) ;;;
      log_write bp ;;;
      brelse bp ;;;
      let* ip := iget dev inum in
      ret (Some ip)
    else
      brelse bp ;;; ret None) in
  match r with
  | Some ip => ret ip
  | None => panic "ialloc: no inodes"
  end.

Definition iupdate (i : nat) : KM unit :=
  let* sb := reads sb in
  let* ip := get_inode i in
  let* bp := bread (i_dev ip) (IBLOCK (i_inum ip) sb) in
  upd_buf bp (fun bf => set_b_data
    (put_dinode (i_inum ip mod IPB)
       (mk_dinode (i_type ip) (i_major ip) (i_minor ip) (i_nlink ip) (i_size ip) (i_addrs ip)) (b_data bf)) bf) ;;;
  log_write bp ;;;
  brelse bp.

Definition idup (i : nat) : KM nat :=
  acquire L_icache ;;;
  upd_inode i (fun ip => set_i_ref (i_ref ip + 1) ip) ;;;
  release L_icache ;;;
  ret i.

Definition ilock (oi : option nat) : KM unit :=
  match oi with
  | None => panic "ilock"
  | Some i =>
      let* ip := get_inode i in
      if i_ref ip <? 1 then panic "ilock"
      else
        acquiresleep (SL_inode i) ;;;
        let* ip := get_inode i in
        when i_valid ip =? 0 do
          (let* sb := reads sb in
           let* bp := bread (i_dev ip) (IBLOCK (i_inum ip) sb) in
           let* bf := get_buf bp in
           let d := get_dinode (b_data bf) (i_inum ip mod IPB) in
           upd_inode i (fun ip => set_i_addrs (d_addrs d) (set_i_size (d_size d) (set_i_nlink (d_nlink d)
             (set_i_minor (d_minor d) (set_i_major (d_major d) (set_i_type (d_type d) ip)))))) ;;;
           brelse bp ;;;
           upd_inode i (set_i_valid 1) ;;;
           let* ip := get_inode i in
           when i_type ip =? 0 do panic "ilock: no type")
  end.

Definition iunlock (oi : option nat) : KM unit :=
  match oi with
  | None => panic "iunlock"
  | Some i =>
      let* h := holdingsleep (SL_inode i) in
      let* ip := get_inode i in
      if negb h || (i_ref ip <? 1) then panic "iunlock"
      else releasesleep (SL_inode i)
  end.

(** ** Inode content *)

Definition get_addr (i : nat) (bn : Z) : KM Z :=
  let* ip := get_inode i in deref "addrs" (i_addrs ip !! Z.to_nat bn).
Definition put_addr (i : nat) (bn addr : Z) : KM unit :=
  upd_inode i (fun ip => set_i_addrs (<[Z.to_nat bn := addr]> (i_addrs ip)) ip).

Definition itrunc (i : nat) : KM unit :=
  for_each (zseq 0 NDIRECT) (fun j =>
    let* ip := get_inode i in
    let* a := get_addr i j in
    when Zb a do (bfree (i_dev ip) a ;;; put_addr i j 0)) ;;;
  let* ip := get_inode i in
  let* a := get_addr i NDIRECT in
  (when Zb a do
    (let* bp := bread (i_dev ip) a in
     for_each (zseq 0 NINDIRECT) (fun j =>
       let* bf := get_buf bp in
       let aj := word (b_data bf) j in
       when Zb aj do bfree (i_dev ip) aj) ;;;
     brelse bp ;;;
     let* a := get_addr i NDIRECT in
     bfree (i_dev ip) a ;;;
     put_addr i NDIRECT 0)) ;;;
  upd_inode i (set_i_size 0) ;;;
  iupdate i.

Definition iput (i : nat) : KM unit :=
  acquiresleep (SL_inode i) ;;;
  let* ip := get_inode i in
  (when Zb (i_valid ip) && (i_nlink ip =? 0) do
    (acquire L_icache ;;;
     let* ip := get_inode i in
     let r := i_ref ip in
     release L_icache ;;;
     when r =? 1 do
       (itrunc i ;;;
        upd_inode i (set_i_type 0) ;;;
        iupdate i ;;;
        upd_inode i (set_i_valid 0)))) ;;;
  releasesleep (SL_inode i) ;;;
  acquire L_icache ;;;
  upd_inode i (fun ip => set_i_ref (i_ref ip - 1) ip) ;;;
  release L_icache.

Definition iunlockput (i : nat) : KM unit :=
  iunlock (Some i) ;;;
  iput i.

(** The address of the indirect block, allocated if necessary. *)
Definition bmap_indirect (i : nat) : KM Z :=
  let* ip := get_inode i in
  let* addr := get_addr i NDIRECT in
  if addr =? 0 then
    let* addr := balloc (i_dev ip) in
    put_addr i NDIRECT addr ;;;
    ret addr
  else ret addr.

(** Entry [bn] of the indirect block [ind]. *)
Definition bmap_entry (dev ind bn : Z) : KM Z :=
  let* bp := bread dev ind in
  let* bf := get_buf bp in
  let addr := word (b_data bf) bn in
  let* addr :=
    if addr =? 0 then
      let* addr := balloc dev in
      upd_buf bp (fun bf => set_b_data (set_word bn addr (b_data bf)) bf) ;;;
      log_write bp ;;;
      ret addr
    else ret addr in
  brelse bp ;;;
  ret addr.

Definition bmap (i : nat) (bn : Z) : KM Z :=
  let* ip := get_inode i in
  if bn <? NDIRECT then
    let* addr := get_addr i bn in
    if addr =? 0 then
      let* addr := balloc (i_dev ip) in
      put_addr i bn addr ;;;
      ret addr
    else ret addr
  else
    let bn := bn - NDIRECT in
    if bn <? NINDIRECT then
      let* ind := bmap_indirect i in
      bmap_entry (i_dev ip) ind bn
    else panic "bmap: out of range".

Definition stati (i : nat) : KM stat :=
  let* ip := get_inode i in
  ret (mk_stat (i_type ip) (i_dev ip) (i_inum ip) (i_nlink ip) (i_size ip)).

(** How much of [left] bytes from [off] on lies in the block of [off]. *)
Definition chunk (off left : Z) : Z := Z.min left (BSIZE - off mod BSIZE).

(** The loop of readi, with [left = n - tot]; the bytes it delivers. *)
Fixpoint readi_loop (fuel : nat) (i : nat) (off left : Z) : KM (list Z) :=
  match fuel with
  | O => ret []
  | S fuel =>
      if 0 <? left then
        let* ip := get_inode i in
        let* addr := bmap i (off / BSIZE) in
        let* bp := bread (i_dev ip) addr in
        let m := chunk off left in
        let* bf := get_buf bp in
        let bs := slice (Z.to_nat (off mod BSIZE)) (Z.to_nat m) (b_data bf) in
        brelse bp ;;;
        let* rest := readi_loop fuel i (off + m) (left - m) in
        ret (bs ++ rest)
      else ret []
  end.

Definition readi (i : nat) (off n : Z) : KM (Z * list Z) :=
  let* ip := get_inode i in
  if i_type ip =? T_DEV then
    let* ds := reads devsw_read in
    if (i_major ip <? 0) || (NDEV <=? i_major ip) then ret (-1, [])
    else
      match ds !! Z.to_nat (i_major ip) with
      | Some (Some f) => dev_read f i n
      | _ => ret (-1, [])
      end
  else if (i_size ip <? off) || (u32 (off + n) <? off) then ret (-1, [])
  else
    let n := if i_size ip <? u32 (off + n) then u32 (i_size ip - off) else n in
    let* bs := readi_loop (Z.to_nat n) i off n in
    ret (n, bs).

(** The loop of writei over the bytes left to write; it returns the final
    [off]. *)
Fixpoint writei_loop (fuel : nat) (i : nat) (off : Z) (src : list Z) : KM Z :=
  match fuel with
  | O => ret off
  | S fuel =>
      if 0 <? Z.of_nat (length src) then
        let* ip := get_inode i in
        let* addr := bmap i (off / BSIZE) in
        let* bp := bread (i_dev ip) addr in
        let m := chunk off (Z.of_nat (length src)) in
        upd_buf bp (fun bf => set_b_data
          (splice (Z.to_nat (off mod BSIZE)) (take (Z.to_nat m) src) (b_data bf)) bf) ;;;
        log_write bp ;;;
        brelse bp ;;;
        writei_loop fuel i (off + m) (drop (Z.to_nat m) src)
      else ret off
  end.

Definition writei (i : nat) (src : list Z) (off : Z) : KM Z :=
  let n := Z.of_nat (length src) in
  let* ip := get_inode i in
  if i_type ip =? T_DEV then
    let* ds := reads devsw_write in
    if (i_major ip <? 0) || (NDEV <=? i_major ip) then ret (-1)
    else
      match ds !! Z.to_nat (i_major ip) with
      | Some (Some f) => dev_write f i src
      | _ => ret (-1)
      end
  else if (i_size ip <? off) || (u32 (off + n) <? off) then ret (-1)
  else if MAXFILE * BSIZE <? u32 (off + n) then ret (-1)
  else
    let* off := writei_loop (length src) i off src in
    let* ip := get_inode i in
    (when (0 <? n) && (i_size ip <? off) do
      (upd_inode i (set_i_size off) ;;; iupdate i)) ;;;
    ret n.

(** ** Directories *)

Definition namecmp (s t : list Z) : Z := strncmp s t DIRSIZ.

(** The offsets [0, 16, ...] below [size]. *)
Definition dir_offs (size : Z) : list Z := (fun j => j * 16) <$> zseq 0 ((size + 15) / 16).

Definition dirlookup (i : nat) (name : list Z) : KM (option (nat * Z)) :=
  let* dp := get_inode i in
  if negb (i_type dp =? T_DIR) then panic "dirlookup not DIR"
  else
    for_ret (dir_offs (i_size dp)) (fun off =>
      let* (r, bs) := readi i off 16 in
      if negb (r =? 16) then panic "dirlookup read"
      else
        let de := get_dirent bs in
        if de_inum de =? 0 then ret None
        else if namecmp name (de_name de) =? 0 then
          let* ip := iget (i_dev dp) (de_inum de) in
          ret (Some (ip, off))
        else ret None).

(** The loop of dirlink: the offset of the first free entry. *)
Definition dirlink_slot (i : nat) (size : Z) : KM (option Z) :=
  for_ret (dir_offs size) (fun off =>
    let* (r, bs) := readi i off 16 in
    if negb (r =? 16) then panic "dirlink read"
    else if de_inum (get_dirent bs) =? 0 then ret (Some off)
    else ret None).

Definition dirlink (i : nat) (name : list Z) (inum : Z) : KM Z :=
  let* found := dirlookup i name in
  match found with
  | Some (ip, _) => iput ip ;;; ret (-1)
  | None =>
      let* dp := get_inode i in
      let* r := dirlink_slot i (i_size dp) in
      let off := default (16 * ((i_size dp + 15) / 16)) r in
      let* w := writei i (dirent_bytes (mk_dirent (u16 inum) (strncpy name DIRSIZ))) off in
      if negb (w =? 16) then panic "dirlink"
      else ret 0
  end.

(** ** Paths *)

Definition slash : Z := 47.

Fixpoint skip_slashes (path : list Z) : list Z :=
  match path with
  | c :: rest => if c =? slash then skip_slashes rest else path
  | [] => []
  end.
(** The path element at the front, and what follows it. *)
Fixpoint take_elem (path : list Z) : list Z * list Z :=
  match path with
  | c :: rest =>
      if (c =? slash) || (c =? 0) then ([], path)
      else let '(s, r) := take_elem rest in (c :: s, r)
  | [] => ([], [])
  end.

Definition skipelem (path name : list Z) : option (list Z * list Z) :=
  let path := skip_slashes path in
  if hd0 path =? 0 then None
  else
    let '(s, path) := take_elem path in
    let len := length s in
    let name :=
      if (DIRSIZ <=? len)%nat then splice 0 (take DIRSIZ s) name
      else splice 0 (s ++ [0]) name in
    Some (skip_slashes path, name).

(** The loop of namex; [path] gets shorter in every iteration. *)
Fixpoint namex_loop (fuel : nat) (ip : nat) (path : list Z) (parent : bool) (name : list Z)
    : KM (option nat * list Z) :=
  match fuel with
  | O => hang
  | S fuel =>
      match skipelem path name with
      | None =>
          if parent then iput ip ;;; ret (None, name)
          else ret (Some ip, name)
      | Some (path, name) =>
          ilock (Some ip) ;;;
          let* i := get_inode ip in
          if negb (i_type i =? T_DIR) then iunlockput ip ;;; ret (None, name)
          else if parent && (hd0 path =? 0) then iunlock (Some ip) ;;; ret (Some ip, name)
          else
            let* next := dirlookup ip name in
            match next with
            | None => iunlockput ip ;;; ret (None, name)
            | Some (next, _) => iunlockput ip ;;; namex_loop fuel next path parent name
            end
      end
  end.

Definition namex (path : list Z) (parent : bool) (name : list Z) : KM (option nat * list Z) :=
  let* ip :=
    if hd0 path =? slash then iget ROOTDEV ROOTINO
    else
      let* op := myproc in
      let* p := deref "proc" op in
      let* pr := get_proc p in
      let* cwd := deref "cwd" (cwd pr) in
      idup cwd in
  namex_loop (S (length path)) ip path parent name.

Definition namei (path : list Z) : KM (option nat) :=
  let* (ip, _) := namex path false (replicate DIRSIZ 0) in ret ip.
Definition nameiparent (path name : list Z) : KM (option nat * list Z) := namex path true name.
End code.

(** ** Path elements *)

(** The reference: the non-empty pieces between slashes, up to the NUL. *)
Definition flush (cur : list Z) : list (list Z) := match cur with [] => [] | _ => [cur] end.
Fixpoint elems_from (cur path : list Z) : list (list Z) :=
  match path with
  | [] => flush cur
  | c :: rest =>
      if c =? 0 then flush cur
      else if c =? slash then flush cur ++ elems_from [] rest
      else elems_from (cur ++ [c]) rest
  end.
Definition elems (path : list Z) : list (list Z) := elems_from [] path.

Lemma elems_skip path : elems (skip_slashes path) = elems path.
Proof.
  induction path as [|c path IH]; [done|]. cbn [skip_slashes]. destruct (Z.eqb_spec c slash) as [->|Hc]; [|done].
  rewrite IH. done.
Qed.

Lemma skip_slashes_hd path : hd0 (skip_slashes path) <> slash.
Proof.
  induction path as [|c path IH]; [done|]. cbn [skip_slashes]. by destruct (Z.eqb_spec c slash) as [->|Hc].
Qed.

Lemma skip_slashes_length path : (length (skip_slashes path) <= length path)%nat.
Proof.
  induction path as [|c path IH]; [done|]. cbn [skip_slashes]. destruct (c =? slash); cbn in *; lia.
Qed.

Lemma take_elem_spec path s r :
  take_elem path = (s, r) ->
  path = s ++ r /\ Forall (fun c => c <> slash /\ c <> 0) s /\ (hd0 r = slash \/ hd0 r = 0).
Proof.
  revert s r. induction path as [|c path IH]; intros s r H; cbn [take_elem] in H.
  { injection H as <- <-. split_and!; [done | constructor | by right]. }
  destruct (Z.eqb_spec c slash) as [->|Hs]; [injection H as <- <-; split_and!; [done | constructor | by left]|].
  destruct (Z.eqb_spec c 0) as [->|H0]; [injection H as <- <-; split_and!; [done | constructor | by right]|].
  cbn [orb] in H. destruct (take_elem path) as [s' r'] eqn:Ht. injection H as <- <-.
  destruct (IH s' r' eq_refl) as (-> & Hf & Hr). split_and!; [done | by constructor | done].
Qed.

Lemma elems_from_app cur s r :
  Forall (fun c => c <> slash /\ c <> 0) s -> elems_from cur (s ++ r) = elems_from (cur ++ s) r.
Proof.
  intros Hf. revert cur. induction Hf as [|c s [H1 H2] Hf IH]; intros cur; cbn; [by rewrite app_nil_r|].
  rewrite (proj2 (Z.eqb_neq c 0) H2), (proj2 (Z.eqb_neq c slash) H1), IH. by rewrite <-app_assoc.
Qed.

Lemma elems_from_hd cur r : cur <> [] -> hd0 r = slash \/ hd0 r = 0 -> elems_from cur r = cur :: elems r.
Proof.
  intros Hc Hr. assert (flush cur = [cur]) as Hf by (by destruct cur).
  destruct r as [|c r]; cbn in *; [by rewrite Hf|]. unfold elems. cbn.
  destruct Hr as [->| ->]; cbn; rewrite Hf; done.
Qed.

Lemma elems_nil_hd path : hd0 path <> slash -> hd0 path = 0 <-> elems path = [].
Proof.
  intros Hs. destruct path as [|c path]; cbn in *; [done|]. unfold elems. cbn.
  rewrite (proj2 (Z.eqb_neq c slash) Hs). destruct (Z.eqb_spec c 0) as [->|H0]; [done|].
  split; [done|]. assert (forall cur path, cur <> [] -> elems_from cur path <> []) as Hne.
  { clear. intros cur path. revert cur. induction path as [|c path IH]; intros cur Hc; cbn.
    - by destruct cur.
    - destruct (c =? 0); [by destruct cur|]. destruct (c =? slash); [by destruct cur|].
      apply IH. by destruct cur. }
  intros H. by apply Hne in H.
Qed.

Lemma cstr_no_nul n s rest :
  Forall (fun c => c <> 0) s -> (length s = n \/ hd0 rest = 0) -> (length s <= n)%nat ->
  cstr n (s ++ rest) = s.
Proof.
  intros Hs. revert n. induction Hs as [|c s Hc Hs IH]; intros n Hr Hl.
  - cbn in *. destruct n as [|n]; [by destruct rest|]. destruct Hr as [?|Hr]; [done|].
    destruct rest as [|x rest]; [done|]. cbn in *. by rewrite Hr.
  - destruct n as [|n]; cbn in Hl; [lia|]. cbn. rewrite (proj2 (Z.eqb_neq c 0) Hc). f_equal.
    apply IH; [|lia]. destruct Hr as [Hr|Hr]; [left; cbn in Hr; lia | by right].
Qed.

Lemma splice_0 {A} (new l : list A) : splice 0 new l = new ++ drop (length new) l.
Proof. done. Qed.

(** skipelem splits off the first path element.  It returns null
    exactly when no element is left; otherwise [name] holds the element (its
    first DIRSIZ bytes), the returned path holds the remaining elements, has
    no leading slash, is empty exactly when the element was the last one, and
    is shorter than the argument. *)
Theorem skipelem_spec path name :
  length name = DIRSIZ ->
  match skipelem path name with
  | None => elems path = []
  | Some (path', name') =>
      exists e, elems path = e :: elems path' /\ cstr DIRSIZ name' = take DIRSIZ e /\
        length name' = DIRSIZ /\ (hd0 path' = 0 <-> elems path' = []) /\
        (length path' < length path)%nat
  end.
Proof.
  intros Hn. unfold skipelem. rewrite <-(elems_skip path). pose proof (skip_slashes_length path) as Hlen.
  pose proof (skip_slashes_hd path) as Hhd. generalize dependent (skip_slashes path). intros p Hlen Hhd.
  destruct (Z.eqb_spec (hd0 p) 0) as [H0|H0]; [by apply elems_nil_hd|].
  destruct (take_elem p) as [s r] eqn:Ht. apply take_elem_spec in Ht as (-> & Hf & Hr).
  assert (s <> []) as Hs by (intros ->; cbn in *; tauto).
  assert (Forall (fun c => c <> 0) s) as Hnz by (eapply list.Forall_impl; [exact Hf|]; tauto).
  exists s. split_and!.
  - rewrite elems_skip. unfold elems at 1. rewrite elems_from_app by done. by apply elems_from_hd.
  - rewrite !splice_0. destruct (Nat.leb_spec DIRSIZ (length s)) as [Hl|Hl].
    + assert (length (take DIRSIZ s) = DIRSIZ) as Hlt by (rewrite length_take; lia).
      apply cstr_no_nul; [by apply Forall_take | by left | lia].
    + rewrite <-app_assoc, take_ge by lia. apply cstr_no_nul; [done | by right | lia].
  - destruct (Nat.leb_spec DIRSIZ (length s)) as [Hl|Hl].
    + rewrite splice_length; [done|]. rewrite length_take. lia.
    + rewrite splice_length; [done|]. rewrite length_app. cbn. lia.
  - apply elems_nil_hd, skip_slashes_hd.
  - pose proof (skip_slashes_length r). rewrite length_app in Hlen. destruct s; [done|]. cbn in *. lia.
Qed.

Lemma skipelem_spec_witness :
  exists p' n', skipelem (bytes "///a//bb") (replicate 14 9) = Some (p', n') /\
    elems (bytes "///a//bb") = [97] :: elems p'.
Proof.
  pose proof (skipelem_spec (bytes "///a//bb") (replicate 14 9) eq_refl) as H.
  destruct (skipelem (bytes "///a//bb") (replicate 14 9)) as [[p' n']|] eqn:E; [|discriminate E].
  exists p', n'. split; [reflexivity|]. destruct H as (e & H & _). rewrite H.
  vm_compute in H. injection H as <- _. reflexivity.
Defined.

(** The elements that namex visits fit its fuel: the loop never runs out. *)
Section namex_fuel.
Context `{E : Env} `{D : Disk} `{DV : Devsw}.

Lemma skipelem_shorter path name path' name' :
  skipelem path name = Some (path', name') -> (length path' < length path)%nat.
Proof.
  unfold skipelem. pose proof (skip_slashes_length path) as Hlen.
  pose proof (skip_slashes_hd path) as Hhd. generalize dependent (skip_slashes path). intros p Hlen Hhd.
  destruct (Z.eqb_spec (hd0 p) 0) as [H0|H0]; [done|].
  destruct (take_elem p) as [s r] eqn:Ht. apply take_elem_spec in Ht as (-> & Hf & Hr).
  intros [= <- _]. pose proof (skip_slashes_length r). rewrite length_app in Hlen.
  destruct s; cbn in *; [tauto | lia].
Qed.

Lemma namex_loop_fuel : forall fuel fuel' path ip parent name k,
  (length path < fuel)%nat -> (length path < fuel')%nat ->
  namex_loop fuel ip path parent name k = namex_loop fuel' ip path parent name k.
Proof.
  induction fuel as [|fuel IH]; intros [|fuel'] path ip parent name k Hf Hf'; try lia.
  cbn [namex_loop]. destruct (skipelem path name) as [[path' name']|] eqn:Hs; [|done].
  apply skipelem_shorter in Hs. unfold bind.
  destruct (ilock (Some ip) k) as [[] k1| | |]; try done.
  destruct (get_inode ip k1) as [i k2| | |]; try done.
  destruct (negb _); [done|]. destruct (_ && _); [done|].
  destruct (dirlookup ip name' k2) as [[[next o]|] k3| | |]; try done.
  destruct (iunlockput ip k3) as [[] k4| | |]; try done. apply IH; lia.
Qed.

(** The loop of namex with the fuel that namex gives it. *)
Definition namex_from (ip : nat) (path : list Z) (parent : bool) (name : list Z) : KM (option nat * list Z) :=
  namex_loop (S (length path)) ip path parent name.

(** namex's fuel is enough: its loop obeys the equation of the
    source's while loop, with no fuel in it, at every path; and the path gets
    shorter in every iteration, so the equation determines the result. *)
Theorem namex_terminates ip path parent name k :
  namex_from ip path parent name k =
  match skipelem path name with
  | None => if parent then (iput ip ;;; ret (None, name)) k else Ok (Some ip, name) k
  | Some (path', name') =>
      (ilock (Some ip) ;;;
       let* i := get_inode ip in
       if negb (i_type i =? T_DIR) then iunlockput ip ;;; ret (None, name')
       else if parent && (hd0 path' =? 0) then iunlock (Some ip) ;;; ret (Some ip, name')
       else
         let* next := dirlookup ip name' in
         match next with
         | None => iunlockput ip ;;; ret (None, name')
         | Some (next, _) => iunlockput ip ;;; namex_from next path' parent name'
         end) k
  end /\
  (forall path' name', skipelem path name = Some (path', name') -> (length path' < length path)%nat).
Proof.
  split; [|by intros ? ?; apply skipelem_shorter].
  unfold namex_from at 1. cbn [namex_loop]. destruct (skipelem path name) as [[path' name']|] eqn:Hs.
  2: { by destruct parent. }
  apply skipelem_shorter in Hs. unfold bind.
  destruct (ilock (Some ip) k) as [[] k1| | |]; try done.
  destruct (get_inode ip k1) as [i k2| | |]; try done.
  destruct (negb _); [done|]. destruct (_ && _); [done|].
  destruct (dirlookup ip name' k2) as [[[next o]|] k3| | |]; try done.
  destruct (iunlockput ip k3) as [[] k4| | |]; try done. apply namex_loop_fuel; lia.
Qed.
End namex_fuel.
