(* ===== verification/Balloc.v ===== *)
(** * The block allocator (balloc, bfree and bzero of fs.c)

    The free map as a set of block numbers, and what allocating and freeing
    do to it and to every other block of the file system. *)

From Stdlib Require Import ZArith Lia.
From stdpp Require Import base gmap list strings numbers.
From S2P Require Import Prelude Strings State Spinlock Sched Console Disk Bio Cache Log Tx Fs.

Open Scope Z_scope.

#[local] Ltac Zify.zify_post_hook ::= Z.div_mod_to_equations.

(** [lia] with the constants of the disk layout. *)
Ltac fslia :=
  change BPB with 4096 in *; change IPB with 8 in *; change NINDIRECT with 128 in *;
  change MAXFILE with 140 in *; klia.

(** ** Bits *)

Lemma land_bit x n : 0 <= n -> (Z.land x (Z.shiftl 1 n) =? 0) = negb (Z.testbit x n).
Proof.
  intros Hn. rewrite Z.shiftl_1_l.
  assert (Z.land x (2 ^ n) = if Z.testbit x n then 2 ^ n else 0) as ->.
  { apply Z.bits_inj'. intros m Hm. rewrite Z.land_spec, Z.pow2_bits_eqb by done.
    destruct (Z.eqb_spec n m) as [->|Hnm].
    - destruct (Z.testbit x m); [by rewrite Z.pow2_bits_true | by rewrite Z.bits_0].
    - rewrite andb_false_r. destruct (Z.testbit x n); [by rewrite Z.pow2_bits_false | by rewrite Z.bits_0]. }
  destruct (Z.testbit x n); [|done]. pose proof (Z.pow_pos_nonneg 2 n). by rewrite (proj2 (Z.eqb_neq (2 ^ n) 0)) by lia.
Qed.

Lemma lor_bit x n m : 0 <= n -> 0 <= m ->
  Z.testbit (Z.lor x (Z.shiftl 1 n)) m = (n =? m) || Z.testbit x m.
Proof.
  intros Hn Hm. rewrite Z.lor_spec, Z.shiftl_1_l, Z.pow2_bits_eqb by done. apply orb_comm.
Qed.

Lemma clear_bit x n m : 0 <= n -> 0 <= m ->
  Z.testbit (Z.land x (Z.lnot (Z.shiftl 1 n))) m = negb (n =? m) && Z.testbit x m.
Proof.
  intros Hn Hm. rewrite Z.land_spec, Z.lnot_spec, Z.shiftl_1_l, Z.pow2_bits_eqb by done. apply andb_comm.
Qed.

(** ** The free map *)

(** Bit [bi] of a map block. *)
Definition map_bit (data : list Z) (bi : Z) : bool := Z.testbit (byte_at data (bi / 8)) (bi mod 8).

Lemma scan_test data bi : (Z.land (byte_at data (bi / 8)) (bit_mask bi) =? 0) = negb (map_bit data bi).
Proof. unfold map_bit, bit_mask. apply land_bit. lia. Qed.

Lemma byte_at_insert data i j v :
  0 <= i < Z.of_nat (length data) -> 0 <= j ->
  byte_at (<[Z.to_nat i := v]> data) j = if i =? j then v else byte_at data j.
Proof.
  intros Hi Hj. unfold byte_at. rewrite !nth_lookup. destruct (Z.eqb_spec i j) as [->|Hij].
  - rewrite list_lookup_insert_eq by lia. done.
  - rewrite list_lookup_insert_ne by lia. done.
Qed.

Lemma set_map_bit data bi bj :
  0 <= bi < 8 * Z.of_nat (length data) -> 0 <= bj ->
  map_bit (<[Z.to_nat (bi / 8) := Z.lor (byte_at data (bi / 8)) (bit_mask bi)]> data) bj =
  (bi =? bj) || map_bit data bj.
Proof.
  intros Hi Hj. unfold map_bit. rewrite byte_at_insert by lia.
  destruct (Z.eqb_spec (bi / 8) (bj / 8)) as [Hd|Hd].
  - unfold bit_mask. rewrite lor_bit by lia. rewrite Hd.
    replace (bi mod 8 =? bj mod 8) with (bi =? bj) by lia. done.
  - replace (bi =? bj) with false by lia. done.
Qed.

Lemma clear_map_bit data bi bj :
  0 <= bi < 8 * Z.of_nat (length data) -> 0 <= bj ->
  map_bit (<[Z.to_nat (bi / 8) := Z.land (byte_at data (bi / 8)) (Z.lnot (bit_mask bi))]> data) bj =
  negb (bi =? bj) && map_bit data bj.
Proof.
  intros Hi Hj. unfold map_bit. rewrite byte_at_insert by lia.
  destruct (Z.eqb_spec (bi / 8) (bj / 8)) as [Hd|Hd].
  - unfold bit_mask. rewrite clear_bit by lia. rewrite Hd.
    replace (bi mod 8 =? bj mod 8) with (bi =? bj) by lia. done.
  - replace (bi =? bj) with false by lia. done.
Qed.

(** The inner loop finds the first clear bit. *)
Lemma balloc_scan_spec n : forall bi b size data,
  match balloc_scan n bi b size data with
  | Some r => bi <= r < bi + Z.of_nat n /\ b + r < size /\ map_bit data r = false /\
              forall j, bi <= j < r -> map_bit data j = true
  | None => forall j, bi <= j < bi + Z.of_nat n -> b + j < size -> map_bit data j = true
  end.
Proof.
  induction n as [|n IH]; intros bi b size data; cbn [balloc_scan]; [intros j Hj; lia|].
  destruct (Z.ltb_spec (b + bi) size) as [Hs|Hs]; [|intros j Hj; lia].
  rewrite scan_test. destruct (map_bit data bi) eqn:Hb; cbn [negb].
  - specialize (IH (bi + 1) b size data). destruct (balloc_scan n (bi + 1) b size data) as [r|].
    + destruct IH as (H1 & H2 & H3 & H4). split_and!; [lia | lia | done | done |].
      intros j Hj. destruct (decide (j = bi)) as [->|]; [done | apply H4; lia].
    + intros j Hj Hjs. destruct (decide (j = bi)) as [->|]; [done | apply IH; lia].
  - split_and!; [lia | lia | done | done | intros j Hj; lia].
Qed.

(** ** Allocation *)

Section alloc.
Context `{E : Env} `{D : Disk} `{DO : !DiskOk D}.

(** The layout that mkfs writes: log, inodes, free map, data. *)
Definition data_start (sb : superblock) : Z := sb_bmapstart sb + sb_size sb / BPB + 1.
Record geometry (k : K) : Prop := {
  geo_log : 0 <= lg_start (klog k) /\ lg_start (klog k) + LOGSIZE <= sb_inodestart (sb k);
  geo_inodes : 0 <= sb_ninodes (sb k) /\ sb_inodestart (sb k) + sb_ninodes (sb k) / IPB < sb_bmapstart (sb k);
  geo_size : data_start (sb k) <= sb_size (sb k) < 2 ^ 31;
  geo_disk n : 0 <= n < sb_size (sb k) -> on_disk (lg_dev (klog k)) n }.

Lemma op_sb k k' : op k k' -> sb k' = sb k.
Proof. intros [F _ _ _ _]. by rewrite F. Qed.

Lemma geometry_op k k' : op k k' -> geometry k -> geometry k'.
Proof.
  intros O [G1 G2 G3 G4]. pose proof (op_sb _ _ O) as Hs. destruct (op_geometry _ _ O) as (Hd & Hst & _).
  split; rewrite ?Hs, ?Hd, ?Hst; done.
Qed.

(** Whether block [b] is marked in use. *)
Definition used (k : K) (b : Z) : bool := map_bit (fsb k (BBLOCK b (sb k))) (b mod BPB).

(** Every block before the data area is marked. *)
Definition map_ok (k : K) : Prop := forall b, 0 <= b < data_start (sb k) -> used k b = true.

Section geo.
Context (k : K) (G : geometry k).

Lemma BBLOCK_eq b : 0 <= b < sb_size (sb k) -> BBLOCK b (sb k) = b / BPB + sb_bmapstart (sb k).
Proof.
  intros Hb. unfold BBLOCK. apply u32_small. destruct G as [G1 G2 G3 _]. unfold data_start in G3.
  unfold is_u32. fslia.
Qed.

Lemma BBLOCK_before b : 0 <= b < sb_size (sb k) -> BBLOCK b (sb k) < data_start (sb k).
Proof. intros Hb. rewrite BBLOCK_eq by done. unfold data_start. fslia. Qed.

Lemma geo_loggable n : sb_inodestart (sb k) <= n < sb_size (sb k) -> loggable k n.
Proof.
  intros Hn. destruct G as [G1 G2 G3 G4]. split_and!; [apply G4; fslia | unfold outside; fslia | fslia | lia].
Qed.

Lemma BBLOCK_loggable b : 0 <= b < sb_size (sb k) -> loggable k (BBLOCK b (sb k)).
Proof.
  intros Hb. apply geo_loggable. pose proof (BBLOCK_before b Hb). rewrite BBLOCK_eq in * by done.
  destruct G as [G1 G2 G3 G4]. fslia.
Qed.
End geo.

(** The held buffers [H] are assigned to allocated data blocks. *)
Definition held_data (k : K) (H : gset nat) : Prop :=
  forall i n v, i ∈ H -> at_buf k i n v -> data_start (sb k) <= n < sb_size (sb k) /\ used k n = true.

Definition mark (f : Z -> list Z) (sb : superblock) (b : Z) : Z -> list Z :=
  let n := BBLOCK b sb in let bi := b mod BPB in
  fupd f n (<[Z.to_nat (bi / 8) := Z.lor (byte_at (f n) (bi / 8)) (bit_mask bi)]> (f n)).
Definition zero_block : list Z := replicate (Z.to_nat BSIZE) 0.

Lemma bzero_ok k pr H A n :
  tx k pr H A -> (size H + length A < NBUF)%nat -> Z.of_nat (length A) < LOGSIZE - 1 -> loggable k n ->
  (forall i v, i ∈ H -> ~ at_buf k i n v) ->
  exists k', bzero (lg_dev (klog k)) n k = Ok tt k' /\ tstep pr H k k' H (absorb A n) (fupd (fsb k) n zero_block).
Proof.
  intros T H1 H2 H3 H4. apply (tx_change k pr H A n (fun _ => zero_block)); try done.
Qed.

(** Room for [n] more blocks in the cache and in the log. *)
Definition fits (H : gset nat) (A : list Z) (n : nat) : Prop := (size H + length A + n < NBUF)%nat.

Lemma used_in_block k b bi :
  geometry k -> 0 <= b -> b mod BPB = 0 -> 0 <= bi < BPB -> b + bi < sb_size (sb k) ->
  BBLOCK (b + bi) (sb k) = BBLOCK b (sb k) /\
  used k (b + bi) = map_bit (fsb k (BBLOCK b (sb k))) bi.
Proof.
  intros G Hb Hm Hbi Hs. assert (BBLOCK (b + bi) (sb k) = BBLOCK b (sb k)) as HB.
  { rewrite !BBLOCK_eq by (done || fslia). fslia. }
  split; [done|]. unfold used. rewrite HB. f_equal. fslia.
Qed.

Lemma balloc_body_ok k pr H A b :
  geometry k -> tx k pr H A -> held_data k H -> map_ok k -> fits H A 2 ->
  0 <= b < sb_size (sb k) -> b mod BPB = 0 ->
  (exists k', balloc_body (lg_dev (klog k)) (sb k) b k = Ok None k' /\ tstep pr H k k' H A (fsb k) /\
     forall x, b <= x < b + BPB -> x < sb_size (sb k) -> used k x = true) \/
  (exists x k', balloc_body (lg_dev (klog k)) (sb k) b k = Ok (Some x) k' /\
     b <= x < b + BPB /\ x < sb_size (sb k) /\ used k x = false /\
     (forall y, b <= y < x -> used k y = true) /\
     tstep pr H k k' H (absorb (absorb A (BBLOCK x (sb k))) x)
       (fupd (mark (fsb k) (sb k) x) x zero_block)).
Proof.
  intros G T Hheld Hmap Hfit Hb Hbm. unfold fits in Hfit.
  assert (forall i v, i ∈ H -> ~ at_buf k i (BBLOCK b (sb k)) v) as Hnone.
  { intros i v Hi Hat. destruct (Hheld i _ v Hi Hat) as [Hn _]. pose proof (BBLOCK_before k G b Hb). lia. }
  destruct (BBLOCK_loggable k G b Hb) as (Hon & _).
  destruct (tx_bread k pr H A (BBLOCK b (sb k)) T ltac:(lia) Hon Hnone) as (i & k1 & R1 & Hi & S1 & At1 & Hcl).
  unfold balloc_body. mrun R1. destruct (at_buf_inv _ _ _ _ At1) as (c & Hc & Hcd & Hcn & Hcv).
  destruct (get_buf_at k1 i c Hc) as (bf & Rb & Hbc). mrun Rb.
  assert (b_data bf = fsb k (BBLOCK b (sb k))) as Hbd by (rewrite <-Hcv, <-Hbc; done).
  rewrite Hbd. set (data := fsb k (BBLOCK b (sb k))) in *.
  assert (length data = 512%nat) as Hdl by (eapply (tx_fsb_length k); exact T).
  pose proof (ts_tx _ _ _ _ _ _ _ S1) as T1. pose proof (ts_op _ _ _ _ _ _ _ S1) as O1.
  destruct (op_geometry _ _ O1) as (Hd1 & _).
  assert ((({[i]} ∪ H) ∖ {[i]}) = H) as HH by (apply set_eq; set_solver +Hi).
  pose proof (balloc_scan_spec (Z.to_nat BPB) 0 b (sb_size (sb k)) data) as Hscan.
  destruct (balloc_scan (Z.to_nat BPB) 0 b (sb_size (sb k)) data) as [bi|].
  - right. destruct Hscan as (Hbi & Hs & Hbit & Hbefore).
    destruct (used_in_block k b bi G ltac:(lia) Hbm ltac:(fslia) Hs) as [HB Hu].
    fold data in Hu.
    assert ((b + bi) mod BPB = bi) as Hmod by fslia.
    set (f := fun v => <[Z.to_nat (bi / 8) := Z.lor (byte_at v (bi / 8)) (bit_mask bi)]> v).
    destruct (tx_finish k1 pr ({[i]} ∪ H) A i (BBLOCK b (sb k)) data f T1 ltac:(set_solver +) At1)
      as (k2 & R2 & S2).
    { apply (loggable_op k k1 _ O1). by apply BBLOCK_loggable. }
    { fslia. } { unfold f. rewrite length_insert. done. }
    rewrite HH in S2. cbv beta. rewrite (bind_block _ _ (fun _ _ => brelse i) _ _ _ _ R2).
    pose proof (tstep_trans _ _ _ _ _ _ _ _ _ _ _ _ _ S1 S2 (reflexivity _) (reflexivity _)) as S12.
    pose proof (ts_op _ _ _ _ _ _ _ S12) as O2. destruct (op_geometry _ _ O2) as (Hd2 & _).
    assert (data_start (sb k) <= b + bi) as Hds.
    { destruct (Z.lt_ge_cases (b + bi) (data_start (sb k))) as [Hlt|]; [|done].
      rewrite (Hmap (b + bi)) in Hu by lia. congruence. }
    pose proof (absorb_length A (BBLOCK b (sb k))) as Hal.
    destruct (bzero_ok k2 pr H (absorb A (BBLOCK b (sb k))) (b + bi) (ts_tx _ _ _ _ _ _ _ S12)) as (k3 & R3 & S3).
    { lia. } { fslia. } { apply (loggable_op k k2 _ O2). apply geo_loggable; [done|].
      destruct G as [? ? ? _]. unfold data_start in *. fslia. }
    { intros j v Hj Hat. apply (at_buf_kept _ _ _ _ _ _ _ _ _ _ S12 Hj) in Hat.
      destruct (Hheld j _ v Hj Hat) as [_ Hused]. congruence. }
    rewrite Hd2 in R3. mrun R3. exists (b + bi), k3. split_and!; [done | lia | fslia | done | congruence | |].
    + intros y Hy. replace y with (b + (y - b)) by lia.
      destruct (used_in_block k b (y - b) G ltac:(lia) Hbm ltac:(fslia) ltac:(lia)) as [_ ->]. apply Hbefore. lia.
    + rewrite HB. pose proof (tstep_trans _ _ _ _ _ _ _ _ _ _ _ _ _ S12 S3 (reflexivity _) (reflexivity _)) as S123.
      apply (tstep_ext _ _ _ _ _ _ _ _ S123). intros m. unfold mark. rewrite HB, Hmod. unfold fupd.
      case_decide; [done|]. rewrite (ts_fsb _ _ _ _ _ _ _ S2). unfold fupd. case_decide; [done|].
      apply (ts_fsb _ _ _ _ _ _ _ S1).
  - left. destruct (tx_brelse k1 pr ({[i]} ∪ H) A i (BBLOCK b (sb k)) data T1 ltac:(set_solver +) At1)
      as (k2 & R2 & S2). { by rewrite Hd1. }
    rewrite HH in S2. mrun R2. exists k2. split_and!; [done | |].
    + pose proof (tstep_trans _ _ _ _ _ _ _ _ _ _ _ _ _ S1 S2 (reflexivity _) (reflexivity _)) as S12.
      apply (tstep_ext _ _ _ _ _ _ _ _ S12). apply S1.
    + intros x Hx Hxs. replace x with (b + (x - b)) by lia.
      destruct (used_in_block k b (x - b) G ltac:(lia) Hbm ltac:(fslia) ltac:(lia)) as [_ ->].
      apply Hscan; fslia.
Qed.

(** What balloc does when it returns [b]. *)
Record allocated (pr : proc) (H : gset nat) (A : list Z) (k : K) (b : Z) (k' : K) : Prop := {
  al_range : data_start (sb k) <= b < sb_size (sb k);
  al_free : used k b = false;
  al_first y : 0 <= y < b -> used k y = true;
  al_step : tstep pr H k k' H (absorb (absorb A (BBLOCK b (sb k))) b)
              (fupd (mark (fsb k) (sb k) b) b zero_block) }.

Lemma used_same k k' b : sb k' = sb k -> (forall n, fsb k' n = fsb k n) -> used k' b = used k b.
Proof. intros Hs Hf. unfold used. by rewrite Hs, Hf. Qed.

Lemma held_data_same k k' pr H F A g :
  tstep pr F k k' H A g -> H ⊆ F -> (forall b, 0 <= b < sb_size (sb k) -> used k b = true -> used k' b = true) ->
  0 <= data_start (sb k) -> held_data k H -> held_data k' H.
Proof.
  intros S Hsub Hu Hd Hh i n v Hi Hat.
  apply (at_buf_kept _ _ _ _ _ _ _ _ _ _ S) in Hat; [|by apply Hsub].
  destruct (Hh i n v Hi Hat) as [Hn Hun]. rewrite (op_sb _ _ (ts_op _ _ _ _ _ _ _ S)).
  split; [done|]. apply Hu; [lia | done].
Qed.

Lemma geo_data_start k : geometry k -> 0 <= data_start (sb k).
Proof. intros [G1 G2 G3 _]. unfold data_start in *. fslia. Qed.

Lemma balloc_loop m : forall j k pr H A,
  geometry k -> tx k pr H A -> held_data k H -> map_ok k -> fits H A 2 -> 0 <= j ->
  (j + Z.of_nat m) * BPB < sb_size (sb k) + BPB ->
  (forall y, 0 <= y < j * BPB -> y < sb_size (sb k) -> used k y = true) ->
  let r := for_ret ((fun j => j * BPB) <$> zseq j (Z.of_nat m)) (balloc_body (lg_dev (klog k)) (sb k)) k in
  (exists k', r = Ok None k' /\ tstep pr H k k' H A (fsb k) /\
     forall y, 0 <= y < (j + Z.of_nat m) * BPB -> y < sb_size (sb k) -> used k y = true) \/
  (exists b k', r = Ok (Some b) k' /\ allocated pr H A k b k').
Proof.
  induction m as [|m IH]; intros j k pr H A G T Hheld Hmap Hfit Hj Hm Hbelow.
  { left. exists k. rewrite zseq_nil by lia. split; [done|]. split; [by apply tstep_refl|].
    intros y Hy Hys. apply Hbelow; lia. }
  rewrite zseq_cons by lia. cbn [fmap list_fmap for_ret]. replace (Z.of_nat (S m) - 1) with (Z.of_nat m) by lia.
  destruct (balloc_body_ok k pr H A (j * BPB) G T Hheld Hmap Hfit) as
    [(k1 & R1 & S1 & Hall)|(b & k1 & R1 & Hb & Hbs & Hfree & Hfirst & S1)]; [fslia | fslia | |].
  - rewrite (bind_ok _ _ _ _ _ R1). pose proof (ts_op _ _ _ _ _ _ _ S1) as O1.
    pose proof (op_sb _ _ O1) as Hsb. pose proof (ts_fsb _ _ _ _ _ _ _ S1) as Hf1.
    destruct (op_geometry _ _ O1) as (Hd1 & _).
    assert (forall y, used k1 y = used k y) as Hu1 by (intros y; by apply used_same).
    destruct (IH (j + 1) k1 pr H A) as [(k2 & R2 & S2 & Hall2)|(b & k2 & R2 & Al)].
    { by eapply geometry_op. } { apply S1. }
    { eapply held_data_same; [exact S1 | done | intros b _; by rewrite Hu1 | by apply geo_data_start | done]. }
    { intros y Hy. rewrite Hu1. apply Hmap. by rewrite <-Hsb. } { done. } { lia. } { rewrite Hsb. lia. }
    { intros y Hy Hys. rewrite Hsb in Hys. rewrite Hu1.
      destruct (Z.lt_ge_cases y (j * BPB)); [apply Hbelow; lia|]. apply Hall; fslia. }
    + left. rewrite Hd1, Hsb in R2. exists k2. split; [exact R2|]. split.
      * apply (tstep_ext _ _ _ _ _ _ _ _ (tstep_trans _ _ _ _ _ _ _ _ _ _ _ _ _ S1 S2 (reflexivity _) (reflexivity _))).
        done.
      * intros y Hy Hys. rewrite <-Hu1. apply Hall2; [lia | by rewrite Hsb].
    + right. rewrite Hd1, Hsb in R2. exists b, k2. split; [exact R2|]. destruct Al as [A1 A2 A3 A4].
      rewrite Hsb in *. rewrite Hu1 in A2. split; [done | done | intros y Hy; rewrite <-Hu1; by apply A3 |].
      apply (tstep_ext _ _ _ _ _ _ _ _ (tstep_trans _ _ _ _ _ _ _ _ _ _ _ _ _ S1 A4 (reflexivity _) (reflexivity _))).
      intros n. unfold fupd, mark. case_decide; [done|]. unfold fupd. by rewrite !Hf1.
  - right. rewrite (bind_ok _ _ _ _ _ R1). exists b, k1. split; [done|].
    split; [| done | | done].
    + split; [|done]. destruct (Z.lt_ge_cases b (data_start (sb k))); [|done].
      rewrite Hmap in Hfree by fslia. done.
    + intros y Hy. destruct (Z.lt_ge_cases y (j * BPB)); [apply Hbelow; lia | apply Hfirst; lia].
Qed.

Lemma balloc_ok k pr H A :
  geometry k -> tx k pr H A -> held_data k H -> map_ok k -> fits H A 2 ->
  (exists b k', balloc (lg_dev (klog k)) k = Ok b k' /\ allocated pr H A k b k') \/
  ((forall b, 0 <= b < sb_size (sb k) -> used k b = true) /\
   exists k', balloc (lg_dev (klog k)) k = Panic "balloc: out of blocks" k').
Proof.
  intros G T Hheld Hmap Hfit. unfold balloc. msimp.
  assert (0 <= (sb_size (sb k) + BPB - 1) / BPB) as Hc.
  { pose proof (geo_data_start k G). destruct G as [? ? G3 _]. fslia. }
  destruct (balloc_loop (Z.to_nat ((sb_size (sb k) + BPB - 1) / BPB)) 0 k pr H A) as
    [(k' & R & S & Hall)|(b & k' & R & Al)]; try done; try (rewrite Z2Nat.id in * by done); [fslia | lia | |].
  - right. split; [|mrun R; by exists k']. intros b Hb. apply Hall; [fslia | lia].
  - left. mrun R. by exists b, k'.
Qed.

(** The map after an allocation. *)
Lemma allocated_used pr H A k b k' y :
  geometry k -> allocated pr H A k b k' -> (forall n, length (fsb k n) = Z.to_nat BSIZE) -> 0 <= y < sb_size (sb k) ->
  used k' y = (b =? y) || used k y.
Proof.
  intros G [A1 A2 A3 S] Hlen Hy. pose proof (op_sb _ _ (ts_op _ _ _ _ _ _ _ S)) as Hsb.
  pose proof (geo_data_start k G) as Hd. pose proof (BBLOCK_before k G y Hy) as Hby.
  unfold used at 1. rewrite Hsb, (ts_fsb _ _ _ _ _ _ _ S). unfold fupd. rewrite decide_False by lia.
  unfold mark, fupd. case_decide as HB.
  - rewrite set_map_bit; [| rewrite Hlen; fslia | fslia]. rewrite <-HB. fold (used k y).
    rewrite !(BBLOCK_eq k G) in HB by lia. f_equal. destruct (Z.eqb_spec b y) as [->|Hne]; [lia|].
    apply Z.eqb_neq. fslia.
  - fold (used k y). destruct (Z.eqb_spec b y) as [->|]; [done|]. done.
Qed.


Definition unmark (f : Z -> list Z) (sb : superblock) (b : Z) : Z -> list Z :=
  let n := BBLOCK b sb in let bi := b mod BPB in
  fupd f n (<[Z.to_nat (bi / 8) := Z.land (byte_at (f n) (bi / 8)) (Z.lnot (bit_mask bi))]> (f n)).

Lemma bfree_ok k pr H A b :
  geometry k -> tx k pr H A -> held_data k H -> fits H A 1 -> 0 <= b < sb_size (sb k) ->
  if used k b then
    exists k', bfree (lg_dev (klog k)) b k = Ok tt k' /\
      tstep pr H k k' H (absorb A (BBLOCK b (sb k))) (unmark (fsb k) (sb k) b)
  else exists k', bfree (lg_dev (klog k)) b k = Panic "freeing free block" k'.
Proof.
  intros G T Hheld Hfit Hb. unfold fits in Hfit. unfold bfree. msimp.
  assert (forall i v, i ∈ H -> ~ at_buf k i (BBLOCK b (sb k)) v) as Hnone.
  { intros i v Hi Hat. destruct (Hheld i _ v Hi Hat) as [Hn _]. pose proof (BBLOCK_before k G b Hb). lia. }
  pose proof (BBLOCK_loggable k G b Hb) as Hl. pose proof Hl as (Hon & _).
  destruct (tx_bread k pr H A (BBLOCK b (sb k)) T ltac:(lia) Hon Hnone) as (i & k1 & R1 & Hi & S1 & At1 & Hcl).
  mrun R1. destruct (at_buf_inv _ _ _ _ At1) as (c & Hc & Hcd & Hcn & Hcv).
  destruct (get_buf_at k1 i c Hc) as (bf & Rb & Hbc). mrun Rb.
  assert (b_data bf = fsb k (BBLOCK b (sb k))) as Hbd by (rewrite <-Hcv, <-Hbc; done).
  rewrite Hbd, scan_test. fold (used k b). destruct (used k b); cbn [negb]; [|by eexists].
  set (bi := b mod BPB). set (f := fun v => <[Z.to_nat (bi / 8) := Z.land (byte_at v (bi / 8)) (Z.lnot (bit_mask bi))]> v).
  destruct (tx_finish k1 pr ({[i]} ∪ H) A i (BBLOCK b (sb k)) (fsb k (BBLOCK b (sb k))) f
    (ts_tx _ _ _ _ _ _ _ S1) ltac:(set_solver +) At1) as (k2 & R2 & S2).
  { by apply (loggable_op k k1 _ (ts_op _ _ _ _ _ _ _ S1)). } { fslia. }
  { unfold f. rewrite length_insert. by eapply tx_fsb_length. }
  replace (({[i]} ∪ H) ∖ {[i]}) with H in S2 by (apply set_eq; set_solver +Hi).
  exists k2. split; [exact R2|].
  apply (tstep_ext _ _ _ _ _ _ _ _ (tstep_trans _ _ _ _ _ _ _ _ _ _ _ _ _ S1 S2 (reflexivity _) (reflexivity _))).
  intros m. unfold unmark, fupd. case_decide; [done|]. apply S1.
Qed.

(** bfree clears the block's mark and nothing else; on a block that is
    not marked it panics. *)
Theorem bfree_spec k pr H A b :
  geometry k -> tx k pr H A -> held_data k H -> fits H A 1 -> 0 <= b < sb_size (sb k) ->
  if used k b then
    exists k', bfree (lg_dev (klog k)) b k = Ok tt k' /\
      (forall y, 0 <= y < sb_size (sb k) -> used k' y = negb (b =? y) && used k y) /\
      (forall n, n <> BBLOCK b (sb k) -> fsb k' n = fsb k n) /\ k_dwrites k' = k_dwrites k
  else exists k', bfree (lg_dev (klog k)) b k = Panic "freeing free block" k'.
Proof.
  intros G T Hheld Hfit Hb. pose proof (bfree_ok k pr H A b G T Hheld Hfit Hb) as R.
  destruct (used k b) eqn:Hub; [|done]. destruct R as (k' & R & S). exists k'.
  pose proof (op_sb _ _ (ts_op _ _ _ _ _ _ _ S)) as Hsb.
  split_and!; [done | | | apply (op_dwrites _ _ (ts_op _ _ _ _ _ _ _ S))].
  - intros y Hy. unfold used at 1. rewrite Hsb, (ts_fsb _ _ _ _ _ _ _ S). unfold unmark, fupd. case_decide as HB.
    + rewrite clear_map_bit; [| rewrite (tx_fsb_length k pr H A _ T); fslia | fslia]. rewrite <-HB. fold (used k y).
      rewrite !(BBLOCK_eq k G) in HB by lia. do 2 f_equal. destruct (Z.eqb_spec b y) as [->|Hne]; [lia|].
      apply Z.eqb_neq. fslia.
    + fold (used k y). destruct (Z.eqb_spec b y) as [->|]; [done|]. done.
  - intros n Hn. rewrite (ts_fsb _ _ _ _ _ _ _ S). unfold unmark, fupd. by rewrite decide_False.
Qed.
End alloc.

(** ** A sample file system

    The geometry of mkfs (1000 blocks, log at 2, 200 inodes at 32, map at 58),
    a cold cache and an open transaction over a given disk. *)
Definition sample_sb : superblock := mk_superblock 1000 941 200 30 2 32 58.
Definition map_block : list Z := replicate 7 255 ++ 7 :: replicate 504 0.
Definition on_sample (d : gmap (Z * Z) (list Z)) (k : K) : K :=
  set_sb sample_sb (set_klog sample_lg (set_disk d k)).

Section samples.
#[local] Existing Instance idle_env.
#[local] Existing Instance sample_disk.
#[local] Existing Instance sample_disk_ok.

Lemma on_sample_tx d k pr l :
  calm k pr -> bio k (pid pr) ∅ ∅ l -> (forall i b, bufc k i = Some b -> b_flags b = 0) ->
  map_Forall (fun _ v => length v = 512%nat) d -> tx (on_sample d k) pr ∅ [].
Proof.
  intros C [B1 B2 B3 B4 B5 B6 B7 B8] Hf Hd.
  assert (cache (on_sample d k) pr ∅ ∅) as Hca.
  { split; [by apply (calm_framed (on_sample d))|]. exists l. split; try done.
    - intros i b Hi Hb Hn. destruct (B6 i b Hi Hb Hn) as (H1 & H2 & _). split_and!; [done | done |].
      intros H2'. change (bufc (on_sample d k) i) with (bufc k i) in Hb. rewrite (Hf i b Hb) in H2'. done.
    - intros dv n. unfold dblock. cbn [disk on_sample set_sb set_klog set_disk].
      destruct (d !! (dv, n)) as [v|] eqn:Hv; [exact (Hd _ _ Hv) | done]. }
  split; [|done..]. exists ∅. split; try done.
  - cbn; klia.
  - apply NoDup_nil_2.
  - intros t Ht. cbn in *. klia.
  - by intros a ?%not_elem_of_nil.
  - by intros a ?%not_elem_of_nil.
Qed.

Lemma sample_cold i b : bufc sample_fs i = Some b -> b_flags b = 0.
Proof.
  intros Hb. pose proof (sample_fs_fresh i b Hb) as Hf. unfold fresh_buf in Hf.
  rewrite !andb_true_iff, !Z.eqb_eq in Hf. tauto.
Qed.

Lemma sample_tx_on d :
  map_Forall (fun _ v => length v = 512%nat) d -> tx (on_sample d sample_fs) sample_pr ∅ [].
Proof.
  intros Hd. exact (on_sample_tx d sample_fs sample_pr _ sample_fs_calm sample_fs_bio sample_cold Hd).
Qed.

(** With an empty cache, readers see the disk. *)
Lemma on_sample_fsb d k pr n :
  tx (on_sample d k) pr ∅ [] -> fsb (on_sample d k) n = default zero_block (d !! (1, n)).
Proof.
  intros [[P T] _ _]. unfold fsb. rewrite (txn_clean _ _ _ _ _ _ T); [done | by intros i ?%not_elem_of_empty |].
  apply not_elem_of_nil.
Qed.

Lemma on_sample_geometry d k : geometry (on_sample d k).
Proof.
  split; cbn; try fslia. split; [vm_compute; discriminate | done].
Qed.

Definition map_disk : gmap (Z * Z) (list Z) := {[ (1, 58) := map_block ]}.
Lemma map_disk_ok : map_Forall (fun _ v => length v = 512%nat) map_disk.
Proof. by apply map_Forall_singleton. Qed.

Lemma sample_used d b :
  d !! (1, 58) = Some map_block -> map_Forall (fun _ v => length v = 512%nat) d ->
  0 <= b < 1000 -> used (on_sample d sample_fs) b = (b <? 59).
Proof.
  intros Hm Hd Hb. unfold used. cbn [sb on_sample set_sb].
  assert (BBLOCK b sample_sb = 58) as -> by (unfold BBLOCK; cbn; rewrite u32_small; unfold is_u32; fslia).
  rewrite (on_sample_fsb d sample_fs sample_pr 58 (sample_tx_on d Hd)), Hm. cbn [default from_option id].
  assert (forallb (fun b => Bool.eqb (map_bit map_block (b mod BPB)) (b <? 59)) (zseq 0 1000) = true) as Hall
    by (vm_compute; reflexivity).
  rewrite forallb_forall in Hall. apply eqb_prop, Hall. apply list_elem_of_In.
  apply (list_elem_of_lookup_2 _ (Z.to_nat b)). rewrite zseq_lookup by lia. f_equal. lia.
Qed.

Lemma sample_map_ok d :
  d !! (1, 58) = Some map_block -> map_Forall (fun _ v => length v = 512%nat) d -> map_ok (on_sample d sample_fs).
Proof.
  intros Hm Hd b Hb. assert (data_start (sb (on_sample d sample_fs)) = 59) as Hs by reflexivity.
  rewrite (sample_used d b Hm Hd) by lia. lia.
Qed.

Lemma held_none k : held_data k ∅.
Proof. by intros i n v ?%not_elem_of_empty. Qed.


Lemma bfree_spec_witness :
  (exists k', bfree 1 58 (on_sample map_disk sample_fs) = Ok tt k') /\
  exists k', bfree 1 700 (on_sample map_disk sample_fs) = Panic "freeing free block" k'.
Proof.
  assert (forall b, 0 <= b < 1000 -> if b <? 59 then exists k', bfree 1 b (on_sample map_disk sample_fs) = Ok tt k'
    else exists k', bfree 1 b (on_sample map_disk sample_fs) = Panic "freeing free block" k') as H.
  { intros b Hb. pose proof (bfree_spec (on_sample map_disk sample_fs) sample_pr ∅ [] b) as R.
    rewrite (sample_used map_disk b) in R; [| reflexivity | apply map_disk_ok | lia].
    destruct (b <? 59).
    - destruct R as (k' & R & _); [apply on_sample_geometry | apply sample_tx_on, map_disk_ok | apply held_none
        | unfold fits; rewrite size_empty; cbn; unfold NBUF; lia | exact Hb | exists k'; exact R].
    - apply R; [apply on_sample_geometry | apply sample_tx_on, map_disk_ok | apply held_none
        | unfold fits; rewrite size_empty; cbn; unfold NBUF; lia | exact Hb]. }
  split; [exact (H 58 ltac:(lia)) | exact (H 700 ltac:(lia))].
Defined.
End samples.
