(* ===== verification/Inode.v ===== *)
(** * File contents (bmap, readi, writei of fs.c)

    The blocks of a file, direct and through the indirect block, and the
    bytes they hold.  bmap never changes the contents of a file, readi
    delivers them, and writei changes exactly the bytes it is told to, within
    the log space and the free blocks that the transaction has. *)

From Stdlib Require Import ZArith Lia.
From stdpp Require Import base gmap list strings numbers.
From S2P Require Import Prelude Strings State Spinlock Sched Disk Bio Cache Log Tx Fs Balloc.

Open Scope Z_scope.
#[local] Ltac Zify.zify_post_hook ::= Z.div_mod_to_equations.

(** ** Blocks of a file *)

(** Entry [j] of [ip->addrs]. *)
Definition addr_at (ip : inode) (j : Z) : Z := nth (Z.to_nat j) (i_addrs ip) 0.

(** The disk block of block [j] of a file, 0 for none, given the contents [g]
    of the disk; the indirect block itself is number [MAXFILE]. *)
Definition bslot (g : Z -> list Z) (ip : inode) (j : Z) : Z :=
  if j =? MAXFILE then addr_at ip NDIRECT
  else if j <? NDIRECT then addr_at ip j
  else if addr_at ip NDIRECT =? 0 then 0
  else word (g (addr_at ip NDIRECT)) (j - NDIRECT).

(** The contents of block [j]; a missing block reads as zeroes. *)
Definition fblock (g : Z -> list Z) (ip : inode) (j : Z) : list Z :=
  if bslot g ip j =? 0 then zero_block else g (bslot g ip j).
Definition fbyte (g : Z -> list Z) (ip : inode) (off : Z) : Z :=
  nth (Z.to_nat (off mod BSIZE)) (fblock g ip (off / BSIZE)) 0.

(** The bytes [off, off + n) of a file. *)
Definition fbytes (g : Z -> list Z) (ip : inode) (off n : Z) : list Z := fbyte g ip <$> zseq off n.

(** A file without holes, not longer than bmap can reach. *)
Record dense (g : Z -> list Z) (ip : inode) : Prop := {
  de_size : 0 <= i_size ip <= MAXFILE * BSIZE;
  de_slot j : 0 <= j -> j * BSIZE < i_size ip -> bslot g ip j <> 0 }.

(** ** Inodes on disk *)

(** The fields that iupdate stores, and when they fit. *)
Definition dinode_of (ip : inode) : dinode :=
  mk_dinode (i_type ip) (i_major ip) (i_minor ip) (i_nlink ip) (i_size ip) (i_addrs ip).
Definition is_i16 (z : Z) : Prop := - 2 ^ 15 <= z < 2 ^ 15.
Record dinode_fits (d : dinode) : Prop := {
  df_type : is_i16 (d_type d);
  df_major : is_i16 (d_major d);
  df_minor : is_i16 (d_minor d);
  df_nlink : is_i16 (d_nlink d);
  df_size : is_u32 (d_size d);
  df_addrs : length (d_addrs d) = 13%nat /\ Forall is_u32 (d_addrs d) }.

Lemma dinode_bytes_length d : length (d_addrs d) = 13%nat -> length (dinode_bytes d) = 64%nat.
Proof. destruct d as [? ? ? ? ? l]. cbn [d_addrs]. intros H. do 13 (destruct l as [|? l]; [done|]). by destruct l. Qed.

(** An inode read back from the block it was put into; the others stay. *)
Lemma get_put_dinode i d data :
  dinode_fits d -> 0 <= i < IPB -> length data = Z.to_nat BSIZE ->
  get_dinode (put_dinode i d data) i = d.
Proof.
  intros [F1 F2 F3 F4 F5 [Hl F6]] Hi Hd. pose proof (dinode_bytes_length d Hl) as Hb.
  unfold get_dinode, put_dinode, short_at, uint_at.
  assert (forall n l, slice (64 * Z.to_nat i) n l = slice (64 * Z.to_nat i + 0) n l :> list Z) as ->
    by (intros; by rewrite Nat.add_0_r).
  rewrite !slice_splice_in by fslia. destruct d as [t mj mn nl sz l]. cbn [d_addrs d_type d_major d_minor d_nlink d_size] in *.
  do 13 (destruct l as [|? l]; [done|]). destruct l; [|done].
  cbn [seq fmap list_fmap]. rewrite <-!Nat.add_assoc, !slice_splice_in by fslia.
  repeat match goal with H : Forall _ (_ :: _) |- _ => apply list.Forall_cons in H as [? H] end.
  f_equal; [by apply i16_of_le_le16.. | by apply of_le_le32 |].
  repeat (f_equal; [by apply of_le_le32|]). f_equal. by apply of_le_le32.
Qed.

Lemma get_put_dinode_other i j d data :
  length (d_addrs d) = 13%nat -> 0 <= i < IPB -> 0 <= j < IPB -> i <> j -> length data = Z.to_nat BSIZE ->
  get_dinode (put_dinode i d data) j = get_dinode data j.
Proof.
  intros Hl Hi Hj Hne Hd. pose proof (dinode_bytes_length d Hl) as Hb. unfold get_dinode, put_dinode, short_at, uint_at.
  f_equal; try (rewrite slice_splice_other by fslia; done).
  apply list_fmap_ext. intros x y Hx%lookup_seq. by rewrite slice_splice_other by fslia.
Qed.

(** ** Consistent file systems *)

Section frame.
Context `{E : Env} `{D : Disk} `{DO : !DiskOk D} `{DV : Devsw}.

Record fsys (k : K) : Prop := {
  fy_geo : geometry k;
  fy_map : map_ok k;
  fy_one_map : sb_size (sb k) <= BPB }.

Definition data_block (k : K) (n : Z) : Prop :=
  data_start (sb k) <= n < sb_size (sb k) /\ used k n = true.

Record inode_ok (k : K) (ip : inode) : Prop := {
  in_len : length (i_addrs ip) = 13%nat;
  in_dev : i_dev ip = lg_dev (klog k);
  in_data j : 0 <= j <= MAXFILE -> bslot (fsb k) ip j <> 0 -> data_block k (bslot (fsb k) ip j);
  in_inj i j : 0 <= i <= MAXFILE -> 0 <= j <= MAXFILE -> bslot (fsb k) ip i <> 0 ->
    bslot (fsb k) ip i = bslot (fsb k) ip j -> i = j }.

(** Free blocks. *)
Definition nfree (k : K) : nat :=
  length (filter (fun b => used k b = false) (zseq 0 (sb_size (sb k)))).

(** *** The inode table changes beside the transaction *)

Lemma op_icache k k' L : op k k' -> op (set_icache L k) (set_icache L k').
Proof. intros [F Lg W B N]. split; [by rewrite F at 1 | done..]. Qed.

Lemma tx_icache k pr H A L : tx k pr H A -> tx (set_icache L k) pr H A.
Proof.
  intros [[P T] Ho Hs]. split; [|done|done]. exists P. destruct T as [Hc ? ? ? ? ? ? ? ? ? ? ?].
  split; try done. by apply (cache_other (set_icache L)).
Qed.

Lemma fsb_icache k L n : fsb (set_icache L k) n = fsb k n.
Proof. done. Qed.
Lemma used_icache k L n : used (set_icache L k) n = used k n.
Proof. done. Qed.

Lemma icache_op k k' : op k k' -> icache k' = icache k.
Proof. intros [F _ _ _ _]. by rewrite F. Qed.

(** *** Free blocks *)

Lemma nfree_zero k : (forall b, 0 <= b < sb_size (sb k) -> used k b = true) -> nfree k = 0%nat.
Proof.
  intros Hu. unfold nfree. assert (filter (fun b => used k b = false) (zseq 0 (sb_size (sb k))) = []) as ->; [|done].
  apply elem_of_nil_inv. intros b [Hb Hj%elem_of_zseq]%list_elem_of_filter.
  by rewrite Hu in Hb by lia.
Qed.

Lemma filter_remove (P Q : Z -> Prop) `{!forall x, Decision (P x), !forall x, Decision (Q x)} b l :
  NoDup l -> b ∈ l -> P b -> (forall x, x ∈ l -> Q x <-> P x /\ x <> b) ->
  length (filter P l) = S (length (filter Q l)).
Proof.
  induction 1 as [|x l Hx Hnd IH]; [by intros ?%not_elem_of_nil|]. intros Hb HP HQ.
  rewrite !filter_cons. apply elem_of_cons in Hb as [<-|Hb].
  - rewrite decide_True by done. rewrite decide_False by (rewrite HQ by left; naive_solver). cbn. do 2 f_equal.
    clear IH Hnd. induction l as [|y l IH]; [done|]. apply not_elem_of_cons in Hx as [Hy Hx]. rewrite !filter_cons.
    rewrite (decide_ext (P y) (Q y)) by (rewrite (HQ y) by set_solver +; naive_solver).
    rewrite IH; [done | done |]. intros z Hz. apply HQ. set_solver +Hz.
  - rewrite (decide_ext (P x) (Q x)) by (rewrite (HQ x) by left; naive_solver).
    specialize (IH Hb HP ltac:(intros y Hy; apply HQ; by right)). case_decide; cbn; lia.
Qed.

Lemma nfree_ext k k' :
  sb k' = sb k -> (forall n, 0 <= n < sb_size (sb k) -> used k' n = used k n) -> nfree k' = nfree k.
Proof.
  intros Hsb Hu. unfold nfree. rewrite Hsb.
  assert (Forall (fun n => used k' n = used k n) (zseq 0 (sb_size (sb k)))) as Hf.
  { apply list.Forall_forall. intros n Hj%elem_of_zseq. apply Hu. lia. }
  induction Hf as [|n l Hn _ IH]; [done|]. rewrite !filter_cons, Hn. by case_decide; cbn; rewrite IH.
Qed.

Lemma nfree_alloc k k' b :
  sb k' = sb k -> 0 <= b < sb_size (sb k) -> used k b = false ->
  (forall y, 0 <= y < sb_size (sb k) -> used k' y = (b =? y) || used k y) ->
  nfree k = S (nfree k').
Proof.
  intros Hsb Hb Hf Hu. unfold nfree. rewrite Hsb. apply (filter_remove _ _ b).
  - apply NoDup_zseq.
  - by apply elem_of_zseq.
  - done.
  - intros x Hx%elem_of_zseq.
    rewrite Hu by lia. rewrite orb_false_iff, Z.eqb_neq. naive_solver.
Qed.

(** ** Steps on one file

    From [k], where inode [i] of the table is [ip], to [k'], where it is [ip']:
    nothing reaches the disk, slots keep their blocks or get fresh ones, and
    no block of anything else changes but the free map. *)
Record fstep (pr : proc) (k : K) (i : nat) (ip : inode) (k' : K) (A' : list Z) (ip' : inode) : Prop := {
  fs_tx : tx k' pr ∅ A';
  fs_op : op (set_icache (<[i := ip']> (icache k)) k) k';
  fs_sys : fsys k';
  fs_inode : inode_ok k' ip';
  fs_used y : 0 <= y < sb_size (sb k) -> used k y = true -> used k' y = true;
  fs_slot j : 0 <= j <= MAXFILE -> bslot (fsb k') ip' j = bslot (fsb k) ip j \/
    (bslot (fsb k) ip j = 0 /\ used k (bslot (fsb k') ip' j) = false);
  fs_frame n : 0 < n < sb_bmapstart (sb k) \/ data_block k n ->
    (forall j, 0 <= j <= MAXFILE -> bslot (fsb k) ip j <> n) -> fsb k' n = fsb k n }.

Lemma fstep_sb pr k i ip k' A' ip' : fstep pr k i ip k' A' ip' -> sb k' = sb k.
Proof. intros F. exact (op_sb _ _ (fs_op _ _ _ _ _ _ _ F)). Qed.
Lemma fstep_dev pr k i ip k' A' ip' : fstep pr k i ip k' A' ip' -> lg_dev (klog k') = lg_dev (klog k).
Proof. intros F. exact (proj1 (op_geometry _ _ (fs_op _ _ _ _ _ _ _ F))). Qed.
Lemma fstep_icache pr k i ip k' A' ip' : fstep pr k i ip k' A' ip' -> icache k' = <[i := ip']> (icache k).
Proof. intros F. exact (icache_op _ _ (fs_op _ _ _ _ _ _ _ F)). Qed.

Lemma fstep_refl pr k A i ip :
  tx k pr ∅ A -> fsys k -> inode_ok k ip -> icache k !! i = Some ip -> fstep pr k i ip k A ip.
Proof.
  intros T Y I Hi. split; try done; [|by left]. rewrite list_insert_id by done. by destruct k.
Qed.

Lemma fstep_trans pr k i ip k1 A1 ip1 k2 A2 ip2 :
  fsys k -> inode_ok k ip ->
  fstep pr k i ip k1 A1 ip1 -> fstep pr k1 i ip1 k2 A2 ip2 -> fstep pr k i ip k2 A2 ip2.
Proof.
  intros Y I F1 F2. pose proof (fstep_sb _ _ _ _ _ _ _ F1) as Hsb.
  destruct F1 as [T1 O1 Y1 I1 U1 S1 Fr1] eqn:HF1. clear HF1. destruct F2 as [T2 O2 Y2 I2 U2 S2 Fr2].
  assert (forall y, 0 <= y < sb_size (sb k) -> used k y = true -> used k1 y = true) as HU by done.
  split; try done.
  - pose proof (icache_op _ _ O1) as Hic. cbn in Hic.
    assert (op (set_icache (<[i := ip2]> (icache k)) k) (set_icache (<[i := ip2]> (icache k1)) k1)) as O.
    { apply (op_icache _ _ (<[i := ip2]> (icache k1))) in O1. rewrite Hic, list_insert_insert_eq in *. exact O1. }
    by etransitivity.
  - intros y Hy Hu. apply U2; [by rewrite Hsb | by apply U1].
  - intros j Hj. destruct (S2 j Hj) as [->|[E2 Hn2]]; [by apply S1|].
    destruct (S1 j Hj) as [E1|[E1 Hn1]].
    + right. split; [by rewrite <-E1|]. destruct (used k (bslot (fsb k2) ip2 j)) eqn:Hu; [|done].
      exfalso. destruct (decide (bslot (fsb k2) ip2 j = 0)) as [Hz|Hz].
      * rewrite Hz in *. pose proof (geo_data_start k (fy_geo _ Y)). rewrite (fy_map _ Y1) in Hn2; [done|].
        rewrite Hsb. split; [done|].
        destruct (fy_geo _ Y) as [G1 G2 G3 _]. unfold data_start in *. fslia.
      * destruct (in_data _ _ I2 j Hj Hz) as [Hr _].
        rewrite U1 in Hn2; [done | | done]. rewrite <-Hsb. rewrite (op_sb _ _ O2 : sb k2 = sb k1) in Hr. 
        pose proof (geo_data_start k1 (fy_geo _ Y1)). lia.
    + rewrite E2 in Hn1. pose proof (geo_data_start k (fy_geo _ Y)) as Hd. destruct (fy_geo _ Y) as [G1 G2 G3 _].
      rewrite (fy_map _ Y) in Hn1; [done|]. unfold data_start in *. fslia.
  - intros n Hn Hno. rewrite Fr2.
    + by apply Fr1.
    + rewrite Hsb. destruct Hn as [Hn|[Hn Hu]]; [by left|]. right. split; rewrite ?Hsb; [done|].
      apply U1; [|done]. pose proof (geo_data_start k (fy_geo _ Y)). lia.
    + intros j Hj Heq. destruct (S1 j Hj) as [E1|[E1 Hn1]]; [by apply (Hno j Hj); rewrite <-E1|].
      rewrite Heq in Hn1. destruct Hn as [Hn|[Hn Hu]]; [|congruence].
      destruct (in_data _ _ I1 j Hj ltac:(rewrite Heq; lia)) as [Hr _]. rewrite Heq, Hsb in Hr.
      unfold data_start in Hr. destruct (fy_geo _ Y) as [G1 G2 G3 _]. fslia.
Qed.

(** The contents of a file. *)
Definition same_content (k : K) (ip : inode) (k' : K) (ip' : inode) : Prop :=
  forall j, 0 <= j < MAXFILE -> fblock (fsb k') ip' j = fblock (fsb k) ip j.

(** A slot gets the fresh block [b]. *)
Lemma fstep_add pr k i ip k' A' ip' s b :
  fsys k -> inode_ok k ip -> tx k' pr ∅ A' -> op (set_icache (<[i := ip']> (icache k)) k) k' ->
  data_start (sb k) <= b < sb_size (sb k) -> used k b = false ->
  (forall y, 0 <= y < sb_size (sb k) -> used k' y = (b =? y) || used k y) ->
  (forall n, n < sb_bmapstart (sb k) \/ data_start (sb k) <= n -> n <> b -> n <> addr_at ip NDIRECT ->
     fsb k' n = fsb k n) ->
  length (i_addrs ip') = 13%nat -> i_dev ip' = i_dev ip ->
  0 <= s <= MAXFILE -> bslot (fsb k) ip s = 0 -> fsb k' b = zero_block ->
  (forall j, 0 <= j <= MAXFILE -> bslot (fsb k') ip' j = if decide (j = s) then b else bslot (fsb k) ip j) ->
  fstep pr k i ip k' A' ip' /\ same_content k ip k' ip'.
Proof.
  intros Y I T O Hb Hf Hu Hfr Hlen Hdev Hs Hs0 Hz Hsl.
  pose proof (op_sb _ _ O : sb k' = sb k) as Hsb. pose proof (proj1 (op_geometry _ _ O) : lg_dev (klog k') = lg_dev (klog k)) as Hd.
  pose proof (geo_data_start k (fy_geo _ Y)) as Hds.
  assert (forall n, data_block k n -> data_block k' n) as Hdb.
  { intros n [Hr Hn]. split; rewrite ?Hsb; [done|]. rewrite Hu by lia. rewrite Hn. apply orb_true_r. }
  assert (forall j, 0 <= j <= MAXFILE -> bslot (fsb k) ip j <> 0 -> bslot (fsb k) ip j <> b) as Hfresh.
  { intros j Hj Hnz Heq. destruct (in_data _ _ I j Hj Hnz) as [_ Hx]. congruence. }
  assert (0 < data_start (sb k)) as Hpos.
  { destruct (fy_geo _ Y) as [G1 G2 G3 _]. unfold data_start in *. fslia. }
  split; [split|].
  - done.
  - done.
  - split; [| | by rewrite Hsb; apply Y].
    + apply (geometry_op (set_icache (<[i := ip']> (icache k)) k) k' O). destruct (fy_geo _ Y). by split.
    + intros n Hn. rewrite Hsb in Hn. rewrite Hu by (pose proof (geo_size _ (fy_geo _ Y)); lia).
      rewrite (fy_map _ Y n Hn). apply orb_true_r.
  - split; [done | by rewrite Hdev, Hd; apply I | |].
    + intros j Hj. rewrite Hsl by done. case_decide.
      * intros _. split; rewrite ?Hsb; [done|]. rewrite Hu by lia. by rewrite Z.eqb_refl.
      * intros Hnz. by apply Hdb, (in_data _ _ I).
    + intros j j' Hj Hj'. rewrite !Hsl by done. repeat case_decide; subst; try done.
      * intros Hnz Heq. symmetry in Heq. exfalso. by apply (Hfresh j' Hj'); [rewrite Heq|].
      * intros Hnz Heq. exfalso. by apply (Hfresh j Hj).
      * by apply (in_inj _ _ I).
  - intros y Hy Hyu. rewrite Hu by done. rewrite Hyu. apply orb_true_r.
  - intros j Hj. rewrite Hsl by done. case_decide; [subst; by right | by left].
  - intros n Hn Hno. apply Hfr; [destruct Hn as [|[? _]]; lia | |].
    + intros ->. destruct Hn as [Hn|[_ Hn]]; [|congruence]. unfold data_start in Hb. 
      destruct (fy_geo _ Y) as [G1 G2 G3 _]. fslia.
    + intros ->. apply (Hno MAXFILE); [klia|]. unfold bslot. by rewrite Z.eqb_refl.
  - intros j Hj. unfold fblock. rewrite Hsl by lia. case_decide as Hjs.
    + subst j. rewrite Hs0. cbn. destruct (Z.eqb_spec b 0); [lia | done].
    + destruct (Z.eqb_spec (bslot (fsb k) ip j) 0) as [|Hnz]; [done|].
      destruct (in_data _ _ I j ltac:(lia) Hnz) as [Hr _].
      apply Hfr; [lia | by apply Hfresh; [lia|] |].
      intros Heq. assert (j = MAXFILE); [|lia]. apply (in_inj _ _ I); [lia | klia | done |].
      unfold bslot at 2. by rewrite Z.eqb_refl.
Qed.

(** Free blocks that are to be left over. *)
Context (spare : nat).

(** ** Log space and free blocks

    [B] bounds the blocks of the transaction; the free map's block and the
    indirect block, once it exists, are in it.  There is room for [c] more
    blocks and for an indirect block, on the disk and in the log. *)
Definition indirect_cost (ip : inode) : nat := if addr_at ip NDIRECT =? 0 then 1 else 0.
Record budget (k : K) (ip : inode) (A : list Z) (B : gset Z) (c : nat) : Prop := {
  bg_sub a : a ∈ A -> a ∈ B;
  bg_map : sb_bmapstart (sb k) ∈ B;
  bg_ind : addr_at ip NDIRECT <> 0 -> addr_at ip NDIRECT ∈ B;
  bg_size : (size B + indirect_cost ip + c + 3 < NBUF)%nat;
  bg_free : (indirect_cost ip + c + spare <= nfree k)%nat }.

Lemma tx_nodup_list k pr H A : tx k pr H A -> NoDup A.
Proof. intros [[P T] _ _]. apply T. Qed.

Lemma budget_length k pr H A (B : gset Z) : tx k pr H A -> (forall a, a ∈ A -> a ∈ B) -> (length A <= size B)%nat.
Proof.
  intros T Hsub. rewrite <-(size_list_to_set (C := gset Z) A) by (by eapply tx_nodup_list).
  apply subseteq_size. intros a Ha%elem_of_list_to_set. by apply Hsub.
Qed.

Lemma budget_room k pr H A ip B c :
  tx k pr H A -> budget k ip A B c -> (length A + c + 3 < NBUF)%nat /\ Z.of_nat (length A) < LOGSIZE - 1.
Proof. intros T Bg. pose proof (budget_length _ _ _ _ B T (bg_sub _ _ _ _ _ Bg)). destruct Bg. fslia. Qed.

Lemma one_bitmap k b : fsys k -> 0 <= b < sb_size (sb k) -> BBLOCK b (sb k) = sb_bmapstart (sb k).
Proof. intros [G M S] Hb. rewrite (BBLOCK_eq k G b Hb). fslia. Qed.

(** *** Allocation with blocks to spare *)

(** [b] was free in [k] and is the only change of [k'], which readers see as
    zeroes. *)
Record fresh (pr : proc) (H : gset nat) (A : list Z) (k : K) (b : Z) (k' : K) : Prop := {
  fr_range : data_start (sb k) <= b < sb_size (sb k);
  fr_free : used k b = false;
  fr_used y : 0 <= y < sb_size (sb k) -> used k' y = (b =? y) || used k y;
  fr_nfree : nfree k = S (nfree k');
  fr_zero : fsb k' b = zero_block;
  fr_fsb n : n < sb_bmapstart (sb k) \/ data_start (sb k) <= n -> n <> b -> fsb k' n = fsb k n;
  fr_step : tstep pr H k k' H (absorb (absorb A (sb_bmapstart (sb k))) b) (fsb k') }.

Lemma balloc_fresh k pr H A :
  fsys k -> tx k pr H A -> held_data k H -> fits H A 2 -> (0 < nfree k)%nat ->
  exists b k', balloc (lg_dev (klog k)) k = Ok b k' /\ fresh pr H A k b k'.
Proof.
  intros Y T Hh Hf Hn. pose proof (fy_geo _ Y) as G.
  destruct (balloc_ok k pr H A G T Hh (fy_map _ Y) Hf) as [(b & k' & R & Al)|[Hall _]].
  2: { apply nfree_zero in Hall. lia. }
  exists b, k'. split; [done|]. pose proof (al_range _ _ _ _ _ _ Al) as Hr. pose proof (al_step _ _ _ _ _ _ Al) as S.
  pose proof (geo_data_start k G) as Hds. pose proof (ts_fsb _ _ _ _ _ _ _ S) as Hfsb.
  assert (forall y, 0 <= y < sb_size (sb k) -> used k' y = (b =? y) || used k y) as Hu.
  { intros y. apply (allocated_used pr H A k b k' y G Al). intros n. by eapply tx_fsb_length. }
  pose proof (one_bitmap k b Y ltac:(lia)) as HB.
  split; try done; try apply Al.
  - apply (nfree_alloc k k' b); [apply (op_sb _ _ (ts_op _ _ _ _ _ _ _ S)) | lia | apply Al | done].
  - rewrite Hfsb. unfold fupd. by rewrite decide_True.
  - intros n Hnr Hnb. rewrite Hfsb. unfold fupd at 1. rewrite decide_False by done. unfold mark, fupd.
    rewrite HB, decide_False; [done|]. intros ->. unfold data_start in Hnr. destruct G as [G1 G2 G3 _]. 
    unfold data_start in G3. fslia.
  - rewrite HB in S. by apply (tstep_ext _ _ _ _ _ _ _ _ S).
Qed.

Lemma held_data_empty k : held_data k ∅.
Proof. by intros ? ? ? ?%not_elem_of_empty. Qed.

Lemma absorb_sub A n (B : gset Z) : (forall a, a ∈ A -> a ∈ B) -> n ∈ B -> forall a, a ∈ absorb A n -> a ∈ B.
Proof. intros HA Hn a [Ha| ->]%elem_of_absorb; auto. Qed.

(** *** Entries of the inode *)

Definition with_addr (j b : Z) (ip : inode) : inode := set_i_addrs (<[Z.to_nat j := b]> (i_addrs ip)) ip.

Lemma addr_with_addr ip j b j' :
  length (i_addrs ip) = 13%nat -> 0 <= j <= NDIRECT -> 0 <= j' ->
  addr_at (with_addr j b ip) j' = if decide (j' = j) then b else addr_at ip j'.
Proof.
  intros Hl Hj Hj'. unfold addr_at, with_addr. cbn. rewrite !nth_lookup. case_decide.
  - subst. rewrite list_lookup_insert_eq by fslia. done.
  - rewrite list_lookup_insert_ne by lia. done.
Qed.

Lemma get_addr_ok i ip j k :
  icache k !! i = Some ip -> length (i_addrs ip) = 13%nat -> 0 <= j <= NDIRECT ->
  get_addr i j k = Ok (addr_at ip j) k.
Proof.
  intros Hi Hl Hj. unfold get_addr, get_inode. msimp. rewrite Hi. msimp. unfold addr_at.
  rewrite nth_lookup. destruct (lookup_lt_is_Some_2 (i_addrs ip) (Z.to_nat j)) as [a ->]; [fslia | done].
Qed.

Lemma put_addr_ok i ip j b k :
  icache k !! i = Some ip ->
  put_addr i j b k = Ok tt (set_icache (<[i := with_addr j b ip]> (icache k)) k).
Proof.
  intros Hi. unfold put_addr, upd_inode, modify. do 2 f_equal. apply list_eq. intros i'.
  destruct (decide (i' = i)) as [->|].
  - rewrite list_lookup_alter_eq, Hi, list_lookup_insert_eq by (by eapply lookup_lt_Some). done.
  - by rewrite list_lookup_alter_ne, list_lookup_insert_ne.
Qed.

(** Storing a fresh block in an entry of the inode, after balloc. *)
Lemma put_fresh pr A k i ip b k1 j :
  fsys k -> inode_ok k ip -> icache k !! i = Some ip -> fresh pr ∅ A k b k1 ->
  0 <= j <= NDIRECT -> addr_at ip j = 0 ->
  let ip' := with_addr j b ip in
  let k2 := set_icache (<[i := ip']> (icache k)) k1 in
  let A' := absorb (absorb A (sb_bmapstart (sb k))) b in
  put_addr i j b k1 = Ok tt k2 /\ fstep pr k i ip k2 A' ip' /\ same_content k ip k2 ip' /\
  bslot (fsb k2) ip' (if j =? NDIRECT then MAXFILE else j) = b.
Proof.
  intros Y I Hi Fr Hj Hz ip' k2 A'. pose proof (in_len _ _ I) as Hl. pose proof (fr_step _ _ _ _ _ _ Fr) as S.
  pose proof (icache_op _ _ (ts_op _ _ _ _ _ _ _ S)) as Hic.
  set (s := if j =? NDIRECT then MAXFILE else j).
  assert (forall j', 0 <= j' <= MAXFILE -> bslot (fsb k2) ip' j' = if decide (j' = s) then b else bslot (fsb k) ip j') as Hsl.
  { intros j' Hj'. change (fsb k2) with (fsb k1). unfold bslot, s, ip'. rewrite !addr_with_addr by (done || fslia).
    pose proof (fr_range _ _ _ _ _ _ Fr) as Hb.
    assert (0 < data_start (sb k)) as Hpos
      by (destruct (fy_geo _ Y) as [G1 G2 G3 _]; unfold data_start in *; fslia).
    destruct (Z.eqb_spec j NDIRECT) as [->|Hjn].
    - rewrite decide_True by done. rewrite Hz. destruct (Z.eqb_spec j' MAXFILE); [by rewrite decide_True|].
      destruct (Z.ltb_spec j' NDIRECT); [by rewrite !decide_False by lia|].
      rewrite (decide_False (P := j' = MAXFILE)) by done. destruct (Z.eqb_spec b 0); [lia|]. cbn [Z.eqb]. rewrite (fr_zero _ _ _ _ _ _ Fr).
      unfold word, zero_block. unfold slice. rewrite drop_replicate, take_replicate.
      replace (4 `min` (Z.to_nat BSIZE - 4 * Z.to_nat (j' - NDIRECT)))%nat with 4%nat by fslia. done.
    - rewrite (decide_False (P := NDIRECT = j)) by done.
      destruct (Z.eqb_spec j' MAXFILE); [subst; by rewrite decide_False by fslia|].
      destruct (Z.ltb_spec j' NDIRECT); [done|]. rewrite decide_False by fslia.
      destruct (Z.eqb_spec (addr_at ip NDIRECT) 0) as [|Hnz]; [done|]. f_equal.
      assert (bslot (fsb k) ip MAXFILE = addr_at ip NDIRECT) as Hm by (unfold bslot; by rewrite Z.eqb_refl).
      destruct (in_data _ _ I MAXFILE ltac:(klia) ltac:(by rewrite Hm)) as [Hr Hu]. rewrite Hm in *.
      apply (fr_fsb _ _ _ _ _ _ Fr); [lia|]. intros Heq. pose proof (fr_free _ _ _ _ _ _ Fr). congruence. }
  assert (0 <= s <= MAXFILE) as Hs by (unfold s; destruct (Z.eqb_spec j NDIRECT); fslia).
  assert (bslot (fsb k) ip s = 0) as Hs0.
  { unfold s, bslot. destruct (Z.eqb_spec j NDIRECT) as [->|]; [by rewrite Z.eqb_refl|].
    destruct (Z.eqb_spec j MAXFILE); [fslia|]. by destruct (Z.ltb_spec j NDIRECT); [|fslia]. }
  destruct (fstep_add pr k i ip k2 A' ip' s b Y I) as [F C]; try done; try apply Fr.
  { apply tx_icache, S. }
  { exact (op_icache _ _ _ (ts_op _ _ _ _ _ _ _ S)). }
  { intros n Hn Hnb _. by apply (fr_fsb _ _ _ _ _ _ Fr). }
  { unfold ip'. cbn. by rewrite length_insert. }
  split_and!; [|done | done |].
  - rewrite (put_addr_ok i ip); rewrite Hic; done.
  - fold s. rewrite Hsl by done. by rewrite decide_True.
Qed.

Lemma size_add (x : Z) (B : gset Z) : (size ({[x]} ∪ B) <= S (size B))%nat.
Proof.
  rewrite size_union_alt, size_singleton. pose proof (subseteq_size (B ∖ {[x]}) B ltac:(set_solver +)). lia.
Qed.

(** Spending a block on one that exists. *)
Lemma budget_use k ip A B c x : budget k ip A B (S c) -> budget k ip A ({[x]} ∪ B) c.
Proof.
  intros [B1 B2 B3 B4 B5]. pose proof (size_add x B).
  split; [| | | lia | lia]; intros; apply elem_of_union; right; auto.
Qed.

(** The budget after an allocation for entry [j]. *)
Lemma budget_put k ip k' A' b j A B c c' :
  0 <= j <= NDIRECT -> addr_at ip j = 0 -> length (i_addrs ip) = 13%nat ->
  budget k ip A B c -> sb k' = sb k -> nfree k = S (nfree k') -> b <> 0 ->
  c = (if j =? NDIRECT then c' else S c') ->
  (forall a, a ∈ A' -> a ∈ absorb (absorb A (sb_bmapstart (sb k))) b) ->
  budget k' (with_addr j b ip) A' ({[b]} ∪ B) c'.
Proof.
  intros Hj Hz Hl [B1 B2 B3 B4 B5] Hsb Hnf Hb Hc HA.
  assert (indirect_cost (with_addr j b ip) = if j =? NDIRECT then 0%nat else indirect_cost ip) as Hic.
  { unfold indirect_cost. rewrite addr_with_addr by (done || fslia). destruct (Z.eqb_spec j NDIRECT) as [->|].
    - rewrite decide_True by done. by destruct (Z.eqb_spec b 0).
    - by rewrite decide_False by done. }
  pose proof (size_add b B) as Hsz.
  assert (j = NDIRECT -> indirect_cost ip = 1%nat) as H1 by (intros ->; unfold indirect_cost; by rewrite Hz).
  split.
  - intros a Ha. apply HA in Ha. revert a Ha. apply absorb_sub; [|set_solver +].
    apply absorb_sub; [|rewrite elem_of_union; by right]. intros a Ha. apply elem_of_union. right. by apply B1.
  - rewrite Hsb. apply elem_of_union. by right.
  - rewrite addr_with_addr by (done || fslia). case_decide; [set_solver +|]. intros Hn. apply elem_of_union. right. by apply B3.
  - rewrite Hic. destruct (Z.eqb_spec j NDIRECT); [rewrite H1 in * by done|]; lia.
  - rewrite Hic. destruct (Z.eqb_spec j NDIRECT); [rewrite H1 in * by done|]; lia.
Qed.

Lemma budget_entry k ip k' b A B c :
  budget k ip A B (S c) -> sb k' = sb k -> nfree k = S (nfree k') -> addr_at ip NDIRECT <> 0 ->
  budget k' ip (absorb (absorb (absorb A (sb_bmapstart (sb k))) b) (addr_at ip NDIRECT)) ({[b]} ∪ B) c.
Proof.
  intros [B1 B2 B3 B4 B5] Hsb Hnf Hnz. pose proof (size_add b B) as Hsz. split; [| | | lia | lia].
  - apply absorb_sub; [|apply elem_of_union; right; by apply B3].
    apply absorb_sub; [|set_solver +]. apply absorb_sub; [|apply elem_of_union; by right].
    intros a Ha. apply elem_of_union. right. by apply B1.
  - rewrite Hsb. apply elem_of_union. by right.
  - intros Hn. apply elem_of_union. right. by apply B3.
Qed.

(** What bmap guarantees when it returns [a] for block [bn]. *)
Record mapped (pr : proc) (k : K) (i : nat) (ip : inode) (bn a : Z) (k' : K) (A' : list Z) (ip' : inode) : Prop := {
  mp_step : fstep pr k i ip k' A' ip';
  mp_content : same_content k ip k' ip';
  mp_slot : a = bslot (fsb k') ip' bn;
  mp_nz : a <> 0;
  mp_rest : ip' = set_i_addrs (i_addrs ip') ip;
  mp_same : bslot (fsb k) ip bn <> 0 -> ip' = ip }.

(** Direct blocks. *)
Lemma bmap_direct pr k A i ip B c bn :
  fsys k -> tx k pr ∅ A -> icache k !! i = Some ip -> inode_ok k ip -> 0 <= bn < NDIRECT ->
  budget k ip A B (S c) ->
  exists a k' A' ip' B', bmap i bn k = Ok a k' /\ mapped pr k i ip bn a k' A' ip' /\
    budget k' ip' A' B' c /\ a ∈ B'.
Proof.
  intros Y T Hi I Hbn Bg. pose proof (in_len _ _ I) as Hl. unfold bmap.
  assert (get_inode i k = Ok ip k) as Rg by (unfold get_inode; msimp; by rewrite Hi).
  mrun Rg. destruct (Z.ltb_spec bn NDIRECT); [|lia].
  mrun (get_addr_ok i ip bn k Hi Hl ltac:(lia)).
  assert (bslot (fsb k) ip bn = addr_at ip bn) as Hsl.
  { unfold bslot. destruct (Z.eqb_spec bn MAXFILE); [fslia|]. by destruct (Z.ltb_spec bn NDIRECT); [|lia]. }
  destruct (Z.eqb_spec (addr_at ip bn) 0) as [Hz|Hnz].
  - destruct (budget_room _ _ _ _ _ _ _ T Bg) as [Hrm _].
    destruct (balloc_fresh k pr ∅ A Y T (held_data_empty k)) as (b & k1 & R & Fr).
    { unfold fits. rewrite size_empty. lia. } { destruct Bg. lia. }
    rewrite (in_dev _ _ I). mrun R.
    destruct (put_fresh pr A k i ip b k1 bn Y I Hi Fr ltac:(lia) Hz) as (R2 & F2 & C2 & S2).
    destruct (Z.eqb_spec bn NDIRECT); [lia|]. mrun R2.
    assert (b <> 0) as Hb0.
    { pose proof (fr_range _ _ _ _ _ _ Fr). destruct (fy_geo _ Y) as [G1 G2 G3 _]. unfold data_start in *. fslia. }
    do 5 eexists. split_and!; [done | | |].
    + split; [exact F2 | exact C2 | by rewrite S2 | done | done | by rewrite Hsl, Hz].
    + eapply (budget_put k ip _ _ b bn A B (S c) c); try done; [lia | apply (fstep_sb _ _ _ _ _ _ _ F2) | | ].
      * apply (fr_nfree _ _ _ _ _ _ Fr).
      * by destruct (Z.eqb_spec bn NDIRECT); [lia|].
    + set_solver +.
  - exists (addr_at ip bn), k, A, ip, ({[addr_at ip bn]} ∪ B). split_and!; [done | | |set_solver +].
    + split; [by apply fstep_refl | done | by rewrite Hsl | done | by destruct ip | done].
    + by apply budget_use.
Qed.

(** The indirect block. *)
Lemma bmap_indirect_ok pr k A i ip B c :
  fsys k -> tx k pr ∅ A -> icache k !! i = Some ip -> inode_ok k ip -> budget k ip A B c ->
  exists a k' A' ip' B', bmap_indirect i k = Ok a k' /\ mapped pr k i ip MAXFILE a k' A' ip' /\
    budget k' ip' A' B' c /\ a = addr_at ip' NDIRECT.
Proof.
  intros Y T Hi I Bg. pose proof (in_len _ _ I) as Hl. unfold bmap_indirect.
  assert (get_inode i k = Ok ip k) as Rg by (unfold get_inode; msimp; by rewrite Hi).
  mrun Rg. mrun (get_addr_ok i ip NDIRECT k Hi Hl ltac:(fslia)).
  assert (bslot (fsb k) ip MAXFILE = addr_at ip NDIRECT) as Hsl by (unfold bslot; by rewrite Z.eqb_refl).
  destruct (Z.eqb_spec (addr_at ip NDIRECT) 0) as [Hz|Hnz].
  - destruct (budget_room _ _ _ _ _ _ _ T Bg) as [Hrm _].
    assert (indirect_cost ip = 1%nat) as H1 by (unfold indirect_cost; by rewrite Hz).
    destruct (balloc_fresh k pr ∅ A Y T (held_data_empty k)) as (b & k1 & R & Fr).
    { unfold fits. rewrite size_empty. lia. } { destruct Bg. lia. }
    rewrite (in_dev _ _ I). mrun R.
    destruct (put_fresh pr A k i ip b k1 NDIRECT Y I Hi Fr ltac:(fslia) Hz) as (R2 & F2 & C2 & S2).
    rewrite Z.eqb_refl in S2. mrun R2.
    assert (b <> 0) as Hb0.
    { pose proof (fr_range _ _ _ _ _ _ Fr). destruct (fy_geo _ Y) as [G1 G2 G3 _]. unfold data_start in *. fslia. }
    do 5 eexists. split_and!; [done | | |].
    + split; [exact F2 | exact C2 | by rewrite S2 | done | done | by rewrite Hsl, Hz].
    + eapply (budget_put k ip _ _ b NDIRECT A B c c); try done; [apply (fstep_sb _ _ _ _ _ _ _ F2) | ].
      apply (fr_nfree _ _ _ _ _ _ Fr).
    + rewrite addr_with_addr by (done || fslia). by rewrite decide_True.
  - exists (addr_at ip NDIRECT), k, A, ip, B. split_and!; try done.
    split; [by apply fstep_refl | done | by rewrite Hsl | done | by destruct ip | done].
Qed.

(** Steps that readers do not see. *)
Lemma fsys_same k k' : op k k' -> (forall n, fsb k' n = fsb k n) -> fsys k -> fsys k'.
Proof.
  intros O Hv [G M S]. pose proof (op_sb _ _ O) as Hsb.
  split; rewrite ?Hsb; [by apply (geometry_op k) | | done].
  intros n Hn. rewrite (used_same k k') by done. apply M. by rewrite <-Hsb.
Qed.
Lemma nfree_same k k' : op k k' -> (forall n, fsb k' n = fsb k n) -> nfree k' = nfree k.
Proof.
  intros O Hv. pose proof (op_sb _ _ O) as Hsb. apply nfree_ext; [done|]. intros n _. by rewrite (used_same k k').
Qed.
Lemma budget_same k k' ip A B c : sb k' = sb k -> nfree k' = nfree k -> budget k ip A B c -> budget k' ip A B c.
Proof. intros H1 H2 []. split; rewrite ?H1, ?H2; done. Qed.

Lemma bslot_same g g' ip j : (forall n, g' n = g n) -> bslot g' ip j = bslot g ip j.
Proof. intros Hv. unfold bslot. by rewrite Hv. Qed.
Lemma inode_ok_same k k' ip : op k k' -> (forall n, fsb k' n = fsb k n) -> inode_ok k ip -> inode_ok k' ip.
Proof.
  intros O Hv [I1 I2 I3 I4]. pose proof (op_sb _ _ O) as Hsb. destruct (op_geometry _ _ O) as (Hd & _).
  split; rewrite ?Hd; try done.
  - intros j Hj. rewrite (bslot_same (fsb k)) by done. unfold data_block. rewrite Hsb, (used_same k k') by done. by apply I3.
  - intros j j'. rewrite !(bslot_same (fsb k) (fsb k')) by done. apply I4.
Qed.

Lemma fstep_same pr k A i ip k' :
  fsys k -> inode_ok k ip -> icache k !! i = Some ip -> tx k' pr ∅ A -> op k k' ->
  (forall n, fsb k' n = fsb k n) -> fstep pr k i ip k' A ip /\ same_content k ip k' ip /\ nfree k' = nfree k.
Proof.
  intros Y I Hi T O Hv. pose proof (op_sb _ _ O) as Hsb.
  assert (forall j, bslot (fsb k') ip j = bslot (fsb k) ip j) as Hs by (intros j; by apply bslot_same).
  split_and!.
  - split; try done.
    + rewrite list_insert_id by done. by destruct k.
    + by apply (fsys_same k).
    + by apply (inode_ok_same k).
    + intros y _. by rewrite (used_same k k').
    + intros j _. left. apply Hs.
  - intros j Hj. unfold fblock. rewrite Hs. case_match; [done | apply Hv].
  - by apply nfree_same.
Qed.

Lemma data_loggable k n : fsys k -> data_block k n -> loggable k n.
Proof.
  intros Y [Hr _]. apply geo_loggable; [apply Y|]. destruct (fy_geo _ Y) as [G1 G2 G3 _].
  unfold data_start in *. fslia.
Qed.

(** A fresh block in entry [bn] of the indirect block, whose buffer is held. *)
Lemma entry_fresh pr k i ip b k' A' bn ind :
  fsys k -> inode_ok k ip -> icache k !! i = Some ip -> addr_at ip NDIRECT = ind -> ind <> 0 ->
  0 <= bn < NINDIRECT -> word (fsb k ind) bn = 0 ->
  data_start (sb k) <= b < sb_size (sb k) -> used k b = false ->
  tx k' pr ∅ A' -> op k k' -> length (fsb k ind) = Z.to_nat BSIZE ->
  (forall y, 0 <= y < sb_size (sb k) -> used k' y = (b =? y) || used k y) ->
  (forall n, n < sb_bmapstart (sb k) \/ data_start (sb k) <= n -> n <> b -> n <> ind -> fsb k' n = fsb k n) ->
  fsb k' ind = set_word bn b (fsb k ind) -> fsb k' b = zero_block ->
  fstep pr k i ip k' A' ip /\ same_content k ip k' ip /\ bslot (fsb k') ip (bn + NDIRECT) = b.
Proof.
  intros Y I Hi Hind Hnz Hbn Hw Hb Hf T O Hlen Hu Hfr Hset Hzero.
  assert (forall j, 0 <= j <= MAXFILE -> bslot (fsb k') ip j =
            if decide (j = bn + NDIRECT) then b else bslot (fsb k) ip j) as Hsl.
  { intros j Hj. unfold bslot. rewrite Hind. destruct (Z.eqb_spec j MAXFILE); [by rewrite decide_False by fslia|].
    destruct (Z.ltb_spec j NDIRECT); [by rewrite decide_False by fslia|].
    destruct (Z.eqb_spec ind 0); [done|]. rewrite Hset, word_set_word.
    - destruct (decide (bn = j - NDIRECT)), (decide (j = bn + NDIRECT)); try done; lia.
    - lia.
    - lia.
    - rewrite Hlen. fslia.
    - pose proof (geo_size _ (fy_geo _ Y)). pose proof (geo_data_start k (fy_geo _ Y)). unfold is_u32. lia. }
  assert (bslot (fsb k) ip (bn + NDIRECT) = 0) as Hs0.
  { unfold bslot. rewrite Hind. destruct (Z.eqb_spec (bn + NDIRECT) MAXFILE); [fslia|].
    destruct (Z.ltb_spec (bn + NDIRECT) NDIRECT); [lia|]. destruct (Z.eqb_spec ind 0); [done|].
    by replace (bn + NDIRECT - NDIRECT) with bn by lia. }
  destruct (fstep_add pr k i ip k' A' ip (bn + NDIRECT) b Y I) as [F C]; try done.
  { rewrite list_insert_id by done. by destruct k. }
  { intros n Hn Hnb Hni. apply Hfr; [done | done | congruence]. }
  { apply I. } { fslia. }
  split_and!; [done | done |]. rewrite Hsl by fslia. by rewrite decide_True.
Qed.

(** The end of bmap: enter a fresh block in the held indirect block, log it and
    let go of it. *)
Lemma store_entry pr k k1 A j ind b k2 bn v :
  fsys k -> data_block k ind -> op k k1 -> (forall n, fsb k1 n = fsb k n) -> at_buf k1 j ind v ->
  fresh pr ({[j]} ∪ ∅) A k1 b k2 -> 0 <= bn < NINDIRECT -> length v = Z.to_nat BSIZE -> (length A + 3 < NBUF)%nat ->
  exists k5,
    (upd_buf j (fun bf => set_b_data (set_word bn b (b_data bf)) bf) ;;;
     let* addr := log_write j ;;; ret b in brelse j ;;; ret addr) k2 = Ok b k5 /\
    tx k5 pr ∅ (absorb (absorb (absorb A (sb_bmapstart (sb k))) b) ind) /\ op k k5 /\
    (forall y, 0 <= y < sb_size (sb k) -> used k5 y = (b =? y) || used k y) /\
    fsb k5 ind = set_word bn b v /\
    (forall n, n <> ind -> fsb k5 n = fsb k2 n).
Proof.
  intros Y Hdb O1 Hv1 At1 Fr Hbn Hlen HA. pose proof (op_sb _ _ O1) as Hsb1.
  pose proof (fr_step _ _ _ _ _ _ Fr) as S2. rewrite Hsb1 in S2. set (A2 := absorb (absorb A (sb_bmapstart (sb k))) b) in *.
  pose proof (ts_op _ _ _ _ _ _ _ S2) as O2.
  assert (op k k2) as O12 by (by etransitivity). pose proof (op_sb _ _ O12) as Hsb2.
  assert (at_buf k2 j ind v) as At2 by (apply (at_buf_kept _ _ _ _ _ _ _ _ _ _ S2); [set_solver + | done]).
  destruct (tx_upd k2 pr ({[j]} ∪ ∅) A2 j ind v (set_word bn b)) as (k3 & R3 & S3 & At3 & _);
    [apply S2 | set_solver + | done | rewrite set_word_length; [done | lia | rewrite Hlen; fslia] |].
  assert (length A2 <= length A + 2)%nat as HA2.
  { unfold A2. pose proof (absorb_length A (sb_bmapstart (sb k))).
    pose proof (absorb_length (absorb A (sb_bmapstart (sb k))) b). lia. }
  pose proof (ts_op _ _ _ _ _ _ _ S3) as O3. assert (op k k3) as O13 by (by etransitivity).
  destruct (tx_log_write k3 pr ({[j]} ∪ ∅) A2 j ind (set_word bn b v)) as (k4 & R4 & S4);
    [apply S3 | set_solver + | done | by apply (loggable_op _ _ _ O13), data_loggable | fslia |].
  destruct (tx_brelse k4 pr ({[j]} ∪ ∅) (absorb A2 ind) j ind (set_word bn b v)) as (k5 & R5 & S5);
    [apply S4 | set_solver + | | left; apply elem_of_absorb; by right |].
  { apply (at_buf_kept _ _ _ _ _ _ _ _ _ _ S4); [set_solver + | done]. }
  assert (op k k5) as O15 by (repeat (etransitivity; [eassumption || apply S3 || apply S4 | ]); apply S5).
  assert (forall n, fsb k5 n = fupd (fsb k2) ind (set_word bn b v) n) as Hv5.
  { intros n. rewrite (ts_fsb _ _ _ _ _ _ _ S5), (ts_fsb _ _ _ _ _ _ _ S4). apply S3. }
  pose proof (op_sb _ _ O15) as Hsb5.
  exists k5. split_and!; [mrun R3; msimp; mrun R4; msimp; by mrun R5 | | done | | |].
  - pose proof (ts_tx _ _ _ _ _ _ _ S5) as T5. by replace (({[j]} ∪ ∅) ∖ {[j]}) with (∅ : gset nat) in T5 by set_solver +.
  - intros y Hy. rewrite <-(used_same k k1), <-(fr_used _ _ _ _ _ _ Fr) by (done || by rewrite Hsb1).
    unfold used. rewrite Hsb5, Hsb2, Hv5. unfold fupd. rewrite decide_False; [done|].
    pose proof (BBLOCK_before k (fy_geo _ Y) y Hy). destruct Hdb. lia.
  - rewrite Hv5. unfold fupd. by rewrite decide_True.
  - intros n Hn. rewrite Hv5. unfold fupd. by rewrite decide_False.
Qed.

Lemma bmap_entry_ok pr k A i ip B c bn :
  fsys k -> tx k pr ∅ A -> icache k !! i = Some ip -> inode_ok k ip -> addr_at ip NDIRECT <> 0 ->
  0 <= bn < NINDIRECT -> budget k ip A B (S c) ->
  exists a k' A' B', bmap_entry (lg_dev (klog k)) (addr_at ip NDIRECT) bn k = Ok a k' /\
    mapped pr k i ip (bn + NDIRECT) a k' A' ip /\ budget k' ip A' B' c /\ a ∈ B'.
Proof.
  intros Y T Hi I Hnz Hbn Bg. assert (0 <= MAXFILE <= MAXFILE) as HM by (by vm_compute).
  set (ind := addr_at ip NDIRECT) in *.
  assert (bslot (fsb k) ip MAXFILE = ind) as Hsm by (unfold bslot; by rewrite Z.eqb_refl).
  pose proof (in_data _ _ I MAXFILE HM ltac:(by rewrite Hsm)) as Hdb. rewrite Hsm in Hdb.
  destruct (budget_room _ _ _ _ _ _ _ T Bg) as [Hrm Hrl]. pose proof (data_loggable _ _ Y Hdb) as Hlog.
  destruct (tx_bread k pr ∅ A ind T ltac:(rewrite size_empty; lia) (proj1 Hlog)) as (j & k1 & R1 & Hj & S1 & At1 & Hcl).
  { by intros ? ? ?%not_elem_of_empty. }
  unfold bmap_entry. mrun R1. destruct (at_buf_inv _ _ _ _ At1) as (c1 & Hc & Hcd & Hcn & Hcv).
  destruct (get_buf_at k1 j c1 Hc) as (bf & Rb & Hbc). mrun Rb.
  assert (b_data bf = fsb k ind) as -> by (rewrite <-Hcv, <-Hbc; done).
  pose proof (ts_op _ _ _ _ _ _ _ S1) as O1. destruct (op_geometry _ _ O1) as (Hd1 & _).
  assert (forall n, fsb k1 n = fsb k n) as Hv1 by apply S1.
  assert (({[j]} ∪ ∅) ∖ {[j]} = (∅ : gset nat)) as HH by set_solver +.
  assert (bslot (fsb k) ip (bn + NDIRECT) = word (fsb k ind) bn) as Hsb.
  { unfold bslot. fold ind. destruct (Z.eqb_spec (bn + NDIRECT) MAXFILE); [fslia|].
    destruct (Z.ltb_spec (bn + NDIRECT) NDIRECT); [lia|]. destruct (Z.eqb_spec ind 0); [done|].
    by replace (bn + NDIRECT - NDIRECT) with bn by lia. }
  destruct (Z.eqb_spec (word (fsb k ind) bn) 0) as [Hw|Hw].
  - pose proof (ts_tx _ _ _ _ _ _ _ S1) as T1.
    assert (held_data k1 ({[j]} ∪ ∅)) as Hh.
    { intros j' n v Hj' Hat. assert (j' = j) as -> by set_solver +Hj'. unfold at_buf in *. rewrite At1 in Hat.
      injection Hat as <- _. rewrite (op_sb _ _ O1), (used_same k k1) by (done || apply (op_sb _ _ O1)). exact Hdb. }
    destruct (balloc_fresh k1 pr ({[j]} ∪ ∅) A) as (b & k2 & R2 & Fr); [by apply (fsys_same k) | done | done | | |].
    { unfold fits. replace ({[j]} ∪ ∅ : gset nat) with ({[j]} : gset nat) by set_solver +.
      rewrite size_singleton. lia. }
    { rewrite (nfree_same k k1) by done. destruct Bg. lia. }
    rewrite Hd1 in R2. msimp. mrun R2. msimp.
    destruct (store_entry pr k k1 A j ind b k2 bn (fsb k ind) Y Hdb O1 Hv1 At1 Fr Hbn) as (k5 & R5 & T5 & O5 & Hu5 & Hi5 & Hf5);
      [by eapply tx_fsb_length | lia |].
    rewrite R5. pose proof (op_sb _ _ O1) as Hsb1. pose proof (fr_range _ _ _ _ _ _ Fr) as Hbr. rewrite Hsb1 in Hbr.
    assert (used k b = false) as Hbf by (rewrite <-(used_same k k1) by done; apply Fr).
    assert (ind <> b) as Hib by (intros ->; destruct Hdb; congruence).
    destruct (entry_fresh pr k i ip b k5 (absorb (absorb (absorb A (sb_bmapstart (sb k))) b) ind) bn ind) as (F & C & Hslot); try done.
    { by eapply tx_fsb_length. }
    { intros n Hn Hnb Hni. rewrite Hf5 by done. rewrite <-Hv1. apply (fr_fsb _ _ _ _ _ _ Fr); [by rewrite Hsb1 | done]. }
    { rewrite Hf5 by done. apply (fr_zero _ _ _ _ _ _ Fr). }
    exists b, k5. eexists. exists ({[b]} ∪ B). split_and!; [done | | |].
    + split; [exact F | done | by rewrite Hslot | | by destruct ip | done].
      destruct (fy_geo _ Y) as [G1 G2 G3 _]. unfold data_start in *. fslia.
    + apply (budget_entry k ip k5 b A B c); try done; [apply (op_sb _ _ O5)|].
      apply (nfree_alloc k k5 b); [apply (op_sb _ _ O5) | | done | done].
      pose proof (geo_data_start k (fy_geo _ Y)). lia.
    + set_solver +.
  - msimp. destruct (tx_brelse k1 pr ({[j]} ∪ ∅) A j ind (fsb k ind)) as (k2 & R2 & S2);
      [apply S1 | set_solver + | done | by rewrite Hd1 |].
    mrun R2. rewrite HH in S2. 
    pose proof (tstep_trans pr ∅ _ _ _ _ _ _ _ _ _ _ _ S1 S2 (reflexivity _) (reflexivity _)) as S12.
    destruct (fstep_same pr k A i ip k2 Y I Hi) as (F & C & Hnf); [apply S12 | apply S12 | |].
    { intros n. rewrite (ts_fsb _ _ _ _ _ _ _ S12). apply Hv1. }
    exists (word (fsb k ind) bn), k2, A, ({[word (fsb k ind) bn]} ∪ B). split_and!; [done | | | set_solver +].
    + split; [done | done | | done | by destruct ip | done]. unfold bslot in *. fold ind in Hsb |- *.
      by rewrite (ts_fsb _ _ _ _ _ _ _ S12), Hv1.
    + apply (budget_same k); [apply (fstep_sb _ _ _ _ _ _ _ F) | done | by apply budget_use].
Qed.

Lemma fstep_lookup pr k i ip k' A' ip' :
  icache k !! i = Some ip -> fstep pr k i ip k' A' ip' -> icache k' !! i = Some ip'.
Proof.
  intros Hi F. rewrite (fstep_icache _ _ _ _ _ _ _ F). apply list_lookup_insert_eq. by eapply lookup_lt_Some.
Qed.

Lemma same_content_trans k ip k1 ip1 k2 ip2 :
  same_content k ip k1 ip1 -> same_content k1 ip1 k2 ip2 -> same_content k ip k2 ip2.
Proof. intros C1 C2 j Hj. by rewrite C2, C1. Qed.

Lemma bmap_ok pr k A i ip B c bn :
  fsys k -> tx k pr ∅ A -> icache k !! i = Some ip -> inode_ok k ip -> 0 <= bn < MAXFILE ->
  budget k ip A B (S c) ->
  exists a k' A' ip' B', bmap i bn k = Ok a k' /\ mapped pr k i ip bn a k' A' ip' /\
    budget k' ip' A' B' c /\ a ∈ B'.
Proof.
  intros Y T Hi I Hbn Bg. destruct (Z.lt_ge_cases bn NDIRECT) as [Hlt|Hge]; [apply (bmap_direct pr k A i ip B); try done; lia|].
  assert (get_inode i k = Ok ip k) as Rg by (unfold get_inode; msimp; by rewrite Hi).
  unfold bmap. mrun Rg. destruct (Z.ltb_spec bn NDIRECT); [lia|].
  destruct (Z.ltb_spec (bn - NDIRECT) NINDIRECT); [|fslia].
  destruct (bmap_indirect_ok pr k A i ip B (S c) Y T Hi I Bg) as (a & k1 & A1 & ip1 & B1 & R1 & M1 & Bg1 & Ha).
  mrun R1. destruct M1 as [F1 C1 _ Hnz Hr1 Hs1].
  destruct (bmap_entry_ok pr k1 A1 i ip1 B1 c (bn - NDIRECT)) as (a2 & k2 & A2 & B2 & R2 & M2 & Bg2 & HaB);
    [apply F1 | apply F1 | by eapply fstep_lookup | apply F1 | congruence | lia | done |].
  replace (bn - NDIRECT + NDIRECT) with bn in M2 by lia. destruct M2 as [F2 C2 S2 Hnz2 _ _].
  rewrite (in_dev _ _ I), <-(fstep_dev _ _ _ _ _ _ _ F1), Ha.
  exists a2, k2, A2, ip1, B2. split_and!; [done | | done | done].
  split; [by eapply fstep_trans | by eapply same_content_trans | done | done | done |].
  intros Hb. apply Hs1. unfold bslot in Hb |- *. rewrite Z.eqb_refl. destruct (Z.eqb_spec bn MAXFILE); [lia|].
  destruct (Z.ltb_spec bn NDIRECT); [lia|]. by destruct (Z.eqb_spec (addr_at ip NDIRECT) 0).
Qed.

(** ** Reading

    Reading needs no open transaction; it changes neither the log nor what
    readers see. *)
Record rdstep (pr : proc) (A : list Z) (k k' : K) : Prop := {
  rd_txn : exists P, txn k' pr ∅ P A;
  rd_op : op k k';
  rd_klog : klog k' = klog k;
  rd_fsb n : fsb k' n = fsb k n }.

Lemma rdstep_trans pr A k1 k2 k3 : rdstep pr A k1 k2 -> rdstep pr A k2 k3 -> rdstep pr A k1 k3.
Proof. intros [T1 O1 L1 V1] [T2 O2 L2 V2]. split; [done | by etransitivity | congruence | intros n; congruence]. Qed.

Lemma rdstep_tx pr A k k' : tx k pr ∅ A -> rdstep pr A k k' -> tx k' pr ∅ A.
Proof. intros [_ Ho Hs] [T _ L _]. split; [done | by rewrite L | by rewrite L]. Qed.

(** bread and brelse of one block. *)
Lemma read_block k pr P A n :
  txn k pr ∅ P A -> (length A < NBUF)%nat -> on_disk (lg_dev (klog k)) n ->
  exists i bf k1 k', bread (lg_dev (klog k)) n k = Ok i k1 /\ get_buf i k1 = Ok bf k1 /\ b_data bf = fsb k n /\
    brelse i k1 = Ok tt k' /\ rdstep pr A k k'.
Proof.
  intros T Hr Hon. pose proof (tx_cache _ _ _ _ _ T) as Hca.
  destruct (bread_at k pr ∅ P (lg_dev (klog k)) n Hca (tx_dev _ _ _ _ _ T) Hon)
    as (i & c & k1 & R & C & Hi & I & Hc & Hd & Hn & Hdat & Ho & Hv & HiP & HnP).
  { by intros ? ?%not_elem_of_empty. } { left. eapply txn_room; [exact T|]. rewrite size_empty. lia. }
  destruct (get_buf_at k1 i c Hc) as (bf & Rb & Hbc).
  destruct (brelse_at k1 pr ({[i]} ∪ ∅) P i c C) as (k2 & R2 & C2 & I2 & Hc2 & Ho2 & Hv2); [set_solver + | done | |].
  { destruct (decide (i ∈ P)) as [|HP]; [by left|]. right. rewrite HnP by done. rewrite Hd, Hn.
    symmetry. apply (io_disk _ _ _ I). }
  pose proof (io_klog _ _ _ I) as Hk. pose proof (io_klog _ _ _ I2) as Hk2.
  exists i, bf, k1, k2. split_and!; [done | done | transitivity (b_data c); [by rewrite <-Hbc | done] | done |].
  split; [| transitivity k1; by apply io_op | congruence |].
  - exists P. apply (txn_step k k2 pr ∅); [done | | congruence |].
    { by replace (∅ : gset nat) with (({[i]} ∪ ∅) ∖ {[i]} : gset nat) by set_solver +. }
    intros j Hj. unfold baddr. destruct (decide (j = i)) as [->|Hne]; [|by rewrite Ho2, Ho].
    rewrite Hc2. cbn. rewrite Hd, Hn. symmetry. by apply HiP.
  - intros m. unfold fsb. rewrite Hk2, Hk, Hv2. apply Hv. apply T.
Qed.

(** bmap of a block that is there. *)
Lemma bmap_present k pr P A i ip bn :
  fsys k -> txn k pr ∅ P A -> (length A < NBUF)%nat -> icache k !! i = Some ip -> inode_ok k ip ->
  0 <= bn < MAXFILE -> bslot (fsb k) ip bn <> 0 ->
  exists k', bmap i bn k = Ok (bslot (fsb k) ip bn) k' /\ rdstep pr A k k'.
Proof.
  intros Y T Hr Hi I Hbn Hnz. pose proof (in_len _ _ I) as Hl.
  assert (get_inode i k = Ok ip k) as Rg by (unfold get_inode; msimp; by rewrite Hi).
  assert (rdstep pr A k k) as Hrefl by (split; [by exists P | done..]).
  pose proof Hnz as Hnz'. unfold bslot in Hnz |- *. unfold bmap. mrun Rg. destruct (Z.eqb_spec bn MAXFILE); [lia|].
  destruct (Z.ltb_spec bn NDIRECT) as [Hlt|Hge].
  { mrun (get_addr_ok i ip bn k Hi Hl ltac:(lia)). destruct (Z.eqb_spec (addr_at ip bn) 0); [done|]. by exists k. }
  destruct (Z.ltb_spec (bn - NDIRECT) NINDIRECT); [|fslia]. destruct (Z.eqb_spec (addr_at ip NDIRECT) 0) as [|Hind]; [done|].
  assert (bmap_indirect i k = Ok (addr_at ip NDIRECT) k) as Ri.
  { unfold bmap_indirect. mrun Rg. mrun (get_addr_ok i ip NDIRECT k Hi Hl ltac:(fslia)).
    by destruct (Z.eqb_spec (addr_at ip NDIRECT) 0). }
  mrun Ri. unfold bmap_entry.
  assert (data_block k (addr_at ip NDIRECT)) as Hdb.
  { assert (bslot (fsb k) ip MAXFILE = addr_at ip NDIRECT) as Hsm by (unfold bslot; by rewrite Z.eqb_refl).
    rewrite <-Hsm. apply I; [fslia | by rewrite Hsm]. }
  destruct (read_block k pr P A _ T Hr (proj1 (data_loggable _ _ Y Hdb))) as (j & bf & k1 & k2 & R1 & Rb & Hv & R2 & S).
  rewrite (in_dev _ _ I). mrun R1. mrun Rb. rewrite Hv.
  destruct (Z.eqb_spec (word (fsb k (addr_at ip NDIRECT)) (bn - NDIRECT)) 0); [done|]. msimp. mrun R2. by exists k2.
Qed.

Lemma txn_fsb_length k pr H P A n : txn k pr H P A -> length (fsb k n) = Z.to_nat BSIZE.
Proof. intros T. destruct (tx_cache _ _ _ _ _ T) as [_ [l B]]. by eapply blk_length. Qed.

Lemma chunk_range off n : 0 < n -> 0 < chunk off n <= n /\ off mod BSIZE + chunk off n <= BSIZE.
Proof. intros Hn. unfold chunk. klia. Qed.

Lemma chunk_byte off m p : 0 <= off -> off mod BSIZE + m <= BSIZE -> off <= p < off + m ->
  p / BSIZE = off / BSIZE /\ p mod BSIZE = off mod BSIZE + (p - off).
Proof. intros H1 H2 H3. klia. Qed.

Lemma fbytes_chunk g ip off m :
  0 <= off -> 0 <= m -> off mod BSIZE + m <= BSIZE -> bslot g ip (off / BSIZE) <> 0 ->
  length (g (bslot g ip (off / BSIZE))) = Z.to_nat BSIZE ->
  slice (Z.to_nat (off mod BSIZE)) (Z.to_nat m) (g (bslot g ip (off / BSIZE))) = fbytes g ip off m.
Proof.
  intros Ho Hm Hc Hnz Hl. apply list_eq. intros j. unfold fbytes.
  destruct (decide (j < Z.to_nat m)%nat) as [Hj|Hj].
  - rewrite slice_lookup, list_lookup_fmap, zseq_lookup by done. cbn. unfold fbyte.
    destruct (chunk_byte off m (off + Z.of_nat j) Ho Hc ltac:(lia)) as [-> ->].
    unfold fblock. rewrite nth_lookup. destruct (Z.eqb_spec (bslot g ip (off / BSIZE)) 0); [done|].
    replace (Z.to_nat (off mod BSIZE + (off + Z.of_nat j - off))) with (Z.to_nat (off mod BSIZE) + j)%nat by klia.
    destruct (lookup_lt_is_Some_2 (g (bslot g ip (off / BSIZE))) (Z.to_nat (off mod BSIZE) + j)) as [x ->]; [klia | done].
  - rewrite !lookup_ge_None_2; [done | rewrite length_fmap, zseq_length; lia |].
    rewrite slice_length by klia. lia.
Qed.

Lemma fbytes_ext g ip g' ip' off n :
  (forall p, off <= p < off + n -> fbyte g' ip' p = fbyte g ip p) -> fbytes g' ip' off n = fbytes g ip off n.
Proof.
  intros H. unfold fbytes. apply list_fmap_ext. intros j p Hp. apply H.
  apply lookup_lt_Some in Hp as Hj. rewrite zseq_length in Hj. rewrite zseq_lookup in Hp by done. injection Hp as <-. lia.
Qed.

Lemma fbytes_nth g ip off src :
  (forall p, off <= p < off + Z.of_nat (length src) -> fbyte g ip p = nth (Z.to_nat (p - off)) src 0) ->
  fbytes g ip off (Z.of_nat (length src)) = src.
Proof.
  intros H. apply list_eq. intros j. unfold fbytes. destruct (decide (j < length src)%nat) as [Hj|Hj].
  - rewrite list_lookup_fmap, zseq_lookup by lia. cbn. rewrite H by lia.
    destruct (lookup_lt_is_Some_2 src j Hj) as [x Hx]. rewrite Hx, nth_lookup.
    by replace (Z.to_nat (off + Z.of_nat j - off)) with j by lia; rewrite Hx.
  - rewrite !lookup_ge_None_2; [done | lia | rewrite length_fmap, zseq_length; lia].
Qed.

Lemma fbytes_app g ip off m n : 0 <= m -> 0 <= n -> fbytes g ip off (m + n) = fbytes g ip off m ++ fbytes g ip (off + m) n.
Proof.
  intros Hm Hn. unfold fbytes. rewrite <-fmap_app. f_equal. apply list_eq. intros j.
  destruct (decide (j < Z.to_nat (m + n))%nat) as [Hj|Hj].
  - rewrite zseq_lookup by done. destruct (decide (j < Z.to_nat m)%nat).
    + by rewrite lookup_app_l, zseq_lookup by (rewrite ?zseq_length; lia).
    + rewrite lookup_app_r by (rewrite zseq_length; lia). rewrite zseq_length, zseq_lookup by lia. f_equal. lia.
  - rewrite !lookup_ge_None_2; [done | rewrite length_app, !zseq_length; lia | rewrite zseq_length; lia].
Qed.

(** A file as readi needs it. *)
Record readable (k : K) (i : nat) (ip : inode) : Prop := {
  ra_fsys : fsys k;
  ra_icache : icache k !! i = Some ip;
  ra_inode : inode_ok k ip;
  ra_dense : dense (fsb k) ip }.

Lemma dense_same g g' ip : (forall n, g' n = g n) -> dense g ip -> dense g' ip.
Proof. intros Hv [H1 H2]. split; [done|]. intros j. rewrite (bslot_same g) by done. apply H2. Qed.

Lemma readable_rdstep pr A k k' i ip : rdstep pr A k k' -> readable k i ip -> readable k' i ip.
Proof.
  intros [_ O L V] [Y Hi I De]. split; [by apply (fsys_same k) | by rewrite (icache_op k k') |
    by apply (inode_ok_same k) | by apply (dense_same (fsb k))].
Qed.

Lemma fbytes_same g g' ip off n : (forall m, g' m = g m) -> fbytes g' ip off n = fbytes g ip off n.
Proof.
  intros Hv. unfold fbytes. apply list_fmap_ext. intros j x _. unfold fbyte, fblock.
  rewrite (bslot_same g) by done. by rewrite Hv.
Qed.

Lemma readi_loop_ok pr A i ip fuel : forall k P off left,
  txn k pr ∅ P A -> (length A < NBUF)%nat -> readable k i ip ->
  0 <= off -> 0 <= left <= Z.of_nat fuel -> off + left <= i_size ip ->
  exists k', readi_loop fuel i off left k = Ok (fbytes (fsb k) ip off left) k' /\ rdstep pr A k k'.
Proof.
  induction fuel as [|fuel IH]; intros k P off n T Hr Ra Ho Hn Hs; cbn [readi_loop].
  - exists k. split; [|split; [by exists P | done..]]. by replace n with 0 by lia.
  - destruct (Z.ltb_spec 0 n) as [Hp|Hp].
    2: { exists k. split; [|split; [by exists P | done..]]. by replace n with 0 by lia. }
    destruct (chunk_range off n Hp) as [Hc1 Hc2]. pose proof Ra as [Y Hi I De].
    assert (get_inode i k = Ok ip k) as Rg by (unfold get_inode; msimp; by rewrite Hi). mrun Rg.
    destruct De as [D1 D2]. assert (bslot (fsb k) ip (off / BSIZE) <> 0) as Hnz by (apply D2; klia).
    destruct (bmap_present k pr P A i ip (off / BSIZE)) as (k1 & R1 & S1); try done; [fslia|]. mrun R1.
    destruct (rd_txn _ _ _ _ S1) as [P1 T1]. pose proof (rd_op _ _ _ _ S1) as O1.
    pose proof (in_data _ _ I (off / BSIZE) ltac:(fslia) Hnz) as Hdb.
    destruct (read_block k1 pr P1 A (bslot (fsb k) ip (off / BSIZE))) as (j & bf & k2 & k3 & R2 & Rb & Hv & R3 & S3); try done.
    { rewrite (rd_klog _ _ _ _ S1). apply (data_loggable _ _ Y Hdb). }
    rewrite (rd_klog _ _ _ _ S1) in R2. rewrite (in_dev _ _ I). mrun R2. mrun Rb. rewrite Hv, (rd_fsb _ _ _ _ S1). mrun R3.
    pose proof (rdstep_trans _ _ _ _ _ S1 S3) as S13. destruct (rd_txn _ _ _ _ S13) as [P3 T3].
    destruct (IH k3 P3 (off + chunk off n) (n - chunk off n)) as (k4 & R4 & S4); try done; try lia.
    { by apply (readable_rdstep pr A k). }
    mrun R4. exists k4. split; [|by eapply rdstep_trans].
    rewrite (fbytes_same (fsb k)), fbytes_chunk;
      [| lia | lia | done | done | by eapply txn_fsb_length | apply S13].
    rewrite <-fbytes_app by lia. do 2 f_equal. lia.
Qed.

(** [readi] past the errors: [min n (size - off)] bytes of the file. *)
Lemma readi_ok pr A k P i ip off n :
  txn k pr ∅ P A -> (length A < NBUF)%nat -> readable k i ip -> i_type ip <> T_DEV ->
  0 <= off <= i_size ip -> 0 <= n -> off + n < 2 ^ 32 ->
  exists k', readi i off n k =
      Ok (Z.min n (i_size ip - off), fbytes (fsb k) ip off (Z.min n (i_size ip - off))) k' /\ rdstep pr A k k'.
Proof.
  intros T Hr Ra Hty Ho Hn Hw. pose proof Ra as [Y Hi I [De _]]. 
  assert (get_inode i k = Ok ip k) as Rg by (unfold get_inode; msimp; by rewrite Hi).
  unfold readi. mrun Rg. destruct (Z.eqb_spec (i_type ip) T_DEV); [done|].
  rewrite (u32_small (off + n)) by (unfold is_u32; lia).
  rewrite (proj2 (Z.ltb_ge (i_size ip) off)), (proj2 (Z.ltb_ge (off + n) off)) by lia. cbn [orb].
  assert ((if i_size ip <? off + n then u32 (i_size ip - off) else n) = Z.min n (i_size ip - off)) as ->.
  { destruct (Z.ltb_spec (i_size ip) (off + n)); [|lia]. rewrite u32_small by (unfold is_u32; fslia). lia. }
  destruct (readi_loop_ok pr A i ip (Z.to_nat (Z.min n (i_size ip - off))) k P off (Z.min n (i_size ip - off)))
    as (k' & R & S); try done; try lia.
  mrun R. by exists k'.
Qed.

(** ** Writing *)

(** The same layout of the disk. *)
Record same_geo (k k' : K) : Prop := {
  sg_sb : sb k' = sb k;
  sg_dev : lg_dev (klog k') = lg_dev (klog k);
  sg_start : lg_start (klog k') = lg_start (klog k) }.
Lemma op_geo k k' : op k k' -> same_geo k k'.
Proof. intros O. destruct (op_geometry _ _ O) as (? & ? & _). split; try done. by apply op_sb. Qed.
Lemma geometry_same k k' : same_geo k k' -> geometry k -> geometry k'.
Proof. intros [Hs Hd Hst] [G1 G2 G3 G4]. split; rewrite ?Hs, ?Hd, ?Hst; done. Qed.

Lemma slots_same k k' ip :
  fsys k -> same_geo k k' -> inode_ok k ip ->
  (forall j, 0 <= j <= MAXFILE -> bslot (fsb k') ip j = bslot (fsb k) ip j) ->
  (forall y, 0 <= y < sb_size (sb k) -> used k' y = used k y) -> fsys k' /\ inode_ok k' ip.
Proof.
  intros Y O I Hs Hu. pose proof O as [Hsb Hd _].
  pose proof (geo_data_start k (fy_geo _ Y)) as Hds. split.
  - destruct Y as [G M S1]. split; rewrite ?Hsb; [by apply (geometry_same k) | | done].
    intros n Hn. rewrite Hsb in Hn. pose proof (geo_size _ G). rewrite Hu by lia. by apply M.
  - destruct I as [I1 I2 I3 I4]. split; rewrite ?Hd; try done.
    + intros j Hj. rewrite Hs by done. intros Hj0. destruct (I3 j Hj Hj0) as [H1 H2].
      split; rewrite ?Hsb; [done|]. rewrite Hu; [done | lia].
    + intros j j' Hj Hj'. rewrite !Hs by done. by apply I4.
Qed.

(** New contents [v] for block [bn] of the file. *)
Lemma store_data pr k A i ip k' A' bn v :
  fsys k -> tx k pr ∅ A -> icache k !! i = Some ip -> inode_ok k ip -> 0 <= bn < MAXFILE ->
  bslot (fsb k) ip bn <> 0 -> tstep pr ∅ k k' ∅ A' (fupd (fsb k) (bslot (fsb k) ip bn) v) ->
  fstep pr k i ip k' A' ip /\ nfree k' = nfree k /\
  (forall j, 0 <= j <= MAXFILE -> bslot (fsb k') ip j = bslot (fsb k) ip j) /\
  (forall j, 0 <= j < MAXFILE -> fblock (fsb k') ip j = if decide (j = bn) then v else fblock (fsb k) ip j).
Proof.
  intros Y T Hi I Hbn Hnz [T' O _ Hv]. set (a := bslot (fsb k) ip bn) in *.
  pose proof (op_sb _ _ O) as Hsb. destruct (op_geometry _ _ O) as (Hd & _).
  pose proof (in_data _ _ I bn ltac:(lia) Hnz) as [Hr _]. fold a in Hr.
  assert (forall n, n <> a -> fsb k' n = fsb k n) as Ho by (intros n Hn; rewrite Hv; unfold fupd; by rewrite decide_False).
  assert (forall j, 0 <= j <= MAXFILE -> bslot (fsb k') ip j = bslot (fsb k) ip j) as Hs.
  { intros j Hj. unfold bslot. do 2 (case_match; [done|]). destruct (Z.eqb_spec (addr_at ip NDIRECT) 0) as [|Hin]; [done|].
    rewrite Ho; [done|]. intros Ha. assert (bslot (fsb k) ip MAXFILE = a) as HM by (unfold bslot; by rewrite Z.eqb_refl).
    assert (MAXFILE = bn); [|lia]. apply (in_inj _ _ I); [fslia | fslia | congruence | done]. }
  assert (forall y, 0 <= y < sb_size (sb k) -> used k' y = used k y) as Hu.
  { intros y Hy. unfold used. rewrite Hsb, (one_bitmap k y Y Hy), Ho; [done|]. 
    destruct (fy_geo _ Y) as [G1 G2 G3 _]. unfold data_start in *. fslia. }
  pose proof (geo_data_start k (fy_geo _ Y)) as Hds. split_and!; [split; try done | | done |].
  - rewrite list_insert_id by done. by destruct k.
  - by apply (slots_same k k' ip); [| apply op_geo | | |].
  - by apply (slots_same k k' ip); [| apply op_geo | | |].
  - intros y Hy. by rewrite Hu.
  - intros j Hj. left. by apply Hs.
  - intros n _ Hn. apply Ho. intros ->. by apply (Hn bn); [lia|].
  - by apply nfree_ext.
  - intros j Hj. unfold fblock. rewrite Hs by lia. case_decide as Hjb.
    + subst j. fold a. destruct (Z.eqb_spec a 0); [done|]. rewrite Hv. unfold fupd. by rewrite decide_True.
    + destruct (Z.eqb_spec (bslot (fsb k) ip j) 0) as [|Hj0]; [done|]. apply Ho. intros Heq.
      apply Hjb. apply (in_inj _ _ I); [lia | lia | done | done].
Qed.

Lemma splice_nth i (new l : list Z) j :
  (i + length new <= length l)%nat ->
  nth j (splice i new l) 0 = if decide (i <= j < i + length new)%nat then nth (j - i) new 0 else nth j l 0.
Proof.
  intros Hl. rewrite !nth_lookup. case_decide; [by rewrite splice_lookup_in | by rewrite splice_lookup_out by lia].
Qed.

(** [src] was written at [off], and nothing else changed in the file. *)
Record wrote (pr : proc) (k : K) (i : nat) (ip : inode) (off : Z) (src : list Z) (k' : K) (A' : list Z)
    (ip' : inode) : Prop := {
  wr_step : fstep pr k i ip k' A' ip';
  wr_rest : ip' = set_i_addrs (i_addrs ip') ip;
  wr_bytes p : 0 <= p < MAXFILE * BSIZE -> fbyte (fsb k') ip' p =
    if decide (off <= p < off + Z.of_nat (length src)) then nth (Z.to_nat (p - off)) src 0 else fbyte (fsb k) ip p;
  wr_slots p : off <= p < off + Z.of_nat (length src) -> bslot (fsb k') ip' (p / BSIZE) <> 0;
  wr_same : (forall p, off <= p < off + Z.of_nat (length src) -> bslot (fsb k) ip (p / BSIZE) <> 0) -> ip' = ip }.

Lemma fstep_nz pr k i ip k' A' ip' j :
  fstep pr k i ip k' A' ip' -> 0 <= j <= MAXFILE -> bslot (fsb k) ip j <> 0 ->
  bslot (fsb k') ip' j = bslot (fsb k) ip j.
Proof. intros F Hj Hnz. by destruct (fs_slot _ _ _ _ _ _ _ F j Hj) as [|[]]. Qed.

Lemma wrote_app pr k i ip off s1 s2 k1 A1 ip1 k2 A2 ip2 :
  fsys k -> inode_ok k ip -> 0 <= off -> off + Z.of_nat (length (s1 ++ s2)) <= MAXFILE * BSIZE ->
  wrote pr k i ip off s1 k1 A1 ip1 -> wrote pr k1 i ip1 (off + Z.of_nat (length s1)) s2 k2 A2 ip2 ->
  wrote pr k i ip off (s1 ++ s2) k2 A2 ip2.
Proof.
  intros Y I Ho Hm [F1 R1 B1 S1 E1] [F2 R2 B2 S2 E2]. rewrite length_app in *. split.
  - by eapply fstep_trans.
  - rewrite R2, R1. done.
  - intros p Hp. rewrite length_app, B2, B1 by done. repeat case_decide; try lia; try done.
    + rewrite app_nth2 by lia. f_equal. lia.
    + by rewrite app_nth1 by lia.
  - intros p Hp. rewrite length_app in Hp. destruct (Z.lt_ge_cases p (off + Z.of_nat (length s1))).
    + rewrite (fstep_nz _ _ _ _ _ _ _ _ F2); [apply S1; lia | fslia | apply S1; lia].
    + apply S2; lia.
  - intros Hn. rewrite length_app in Hn. rewrite E2, E1; [done | intros p Hp; apply Hn; lia |].
    intros p Hp. rewrite (fstep_nz _ _ _ _ _ _ _ _ F1); [apply Hn; lia | fslia | apply Hn; lia].
Qed.

Lemma wrote_nil pr k A i ip off : fstep pr k i ip k A ip -> wrote pr k i ip off [] k A ip.
Proof.
  intros F. split; [done | by destruct ip | | cbn; lia | done]. intros p _. cbn [length]. by rewrite decide_False by lia.
Qed.

Lemma seq3_ok {B} (m1 m2 m3 : KM unit) (m : KM B) k k' :
  (m1 ;;; m2 ;;; m3) k = Ok tt k' -> (m1 ;;; m2 ;;; m3 ;;; m) k = m k'.
Proof. unfold bind. destruct (m1 k); try done. destruct (m2 _); try done. by destruct (m3 _) as [[]| | |]; intros [= ->]. Qed.

(** One round of the loop of writei. *)
Lemma write_chunk pr k A i ip B c off src :
  fsys k -> tx k pr ∅ A -> icache k !! i = Some ip -> inode_ok k ip -> budget k ip A B (S c) ->
  0 <= off -> off / BSIZE < MAXFILE -> off mod BSIZE + Z.of_nat (length src) <= BSIZE -> (0 < length src)%nat ->
  exists a j k1 k2 k' A' ip' B', bmap i (off / BSIZE) k = Ok a k1 /\ bread (i_dev ip) a k1 = Ok j k2 /\
    (upd_buf j (fun bf => set_b_data (splice (Z.to_nat (off mod BSIZE)) src (b_data bf)) bf) ;;;
     log_write j ;;; brelse j) k2 = Ok tt k' /\
    wrote pr k i ip off src k' A' ip' /\ budget k' ip' A' B' c.
Proof.
  intros Y T Hi I Bg Ho Hbn Hin Hsrc. assert (0 <= off / BSIZE < MAXFILE) as Hbn' by klia.
  destruct (bmap_ok pr k A i ip B c (off / BSIZE) Y T Hi I Hbn' Bg) as (a & k1 & A1 & ip1 & B1 & R1 & M & Bg1 & HaB).
  destruct M as [F1 C1 Sl Hnz Hr1 Hsm]. pose proof (fs_tx _ _ _ _ _ _ _ F1) as T1. pose proof (fs_sys _ _ _ _ _ _ _ F1) as Y1.
  pose proof (fs_inode _ _ _ _ _ _ _ F1) as I1. rewrite Sl in Hnz.
  pose proof (data_loggable _ _ Y1 (in_data _ _ I1 (off / BSIZE) ltac:(fslia) Hnz)) as Hlg. rewrite <-Sl in Hlg, Hnz.
  destruct (budget_room _ _ _ _ _ _ _ T1 Bg1) as [Hrm Hrl].
  destruct (tx_bread k1 pr ∅ A1 a T1 ltac:(rewrite size_empty; lia) (proj1 Hlg)) as (j & k2 & R2 & Hj & S2 & At2 & _).
  { by intros ? ? ?%not_elem_of_empty. }
  pose proof (tx_fsb_length _ _ _ _ a T1) as Hfl.
  destruct (tx_finish k2 pr ({[j]} ∪ ∅) A1 j a (fsb k1 a) (splice (Z.to_nat (off mod BSIZE)) src)) as (k3 & R3 & S3);
    [apply S2 | set_solver + | done | by apply (loggable_op k1); [apply S2|] | done | |].
  { rewrite splice_length; klia. }
  replace (({[j]} ∪ ∅) ∖ {[j]} : gset nat) with (∅ : gset nat) in S3 by set_solver +.
  pose proof (tstep_trans pr ∅ _ _ _ _ _ _ _ _ _ _ _ S2 S3 (reflexivity _) (reflexivity _)) as S23.
  apply (tstep_ext _ _ _ _ _ _ _ (fupd (fsb k1) a (splice (Z.to_nat (off mod BSIZE)) src (fsb k1 a)))) in S23.
  2: { intros n. unfold fupd. case_decide; [done | apply S2]. }
  rewrite Sl in S23, Hnz.
  destruct (store_data pr k1 A1 i ip1 k3 _ (off / BSIZE) _ Y1 T1 (fstep_lookup _ _ _ _ _ _ _ Hi F1) I1 Hbn' Hnz S23)
    as (F3 & Hnf & Hsl & Hbl).
  exists a, j, k1, k2, k3. eexists. exists ip1, B1. split_and!; [done | | done | |].
  - by rewrite (in_dev _ _ I), <-(fstep_dev _ _ _ _ _ _ _ F1).
  - split; [by eapply fstep_trans | done | | |].
    + intros p Hp. unfold fbyte. rewrite Hbl by fslia. case_decide as Hb.
      * rewrite splice_nth by (rewrite <-?Sl; klia). rewrite <-Hb, <-C1 by fslia.
        unfold fblock. rewrite Hb. destruct (Z.eqb_spec (bslot (fsb k1) ip1 (off / BSIZE)) 0); [done|].
        repeat case_decide; try klia; f_equal; klia.
      * rewrite C1 by fslia. rewrite decide_False; [done|]. intros Hp'. apply Hb. klia.
    + intros p Hp. replace (p / BSIZE) with (off / BSIZE) by klia. by rewrite Hsl by lia.
    + intros Hn. apply Hsm, Hn. lia.
  - apply (budget_same k1); [apply (fstep_sb _ _ _ _ _ _ _ F3) | done |].
    destruct Bg1. split; try done. apply absorb_sub; [done | by rewrite <-Sl].
Qed.

(** The blocks that [n] bytes at [off] touch. *)
Definition touched (off n : Z) : nat := if n =? 0 then 0%nat else Z.to_nat ((off + n - 1) / BSIZE - off / BSIZE + 1).

Lemma touched_chunk off n : 0 <= off -> 0 < n -> touched off n = S (touched (off + chunk off n) (n - chunk off n)).
Proof.
  intros Ho Hn. unfold touched, chunk. destruct (Z.eqb_spec n 0); [lia|].
  destruct (Z.eqb_spec (n - Z.min n (BSIZE - off mod BSIZE)) 0); klia.
Qed.

Lemma writei_loop_ok pr i fuel : forall k A ip B c off src,
  fsys k -> tx k pr ∅ A -> icache k !! i = Some ip -> inode_ok k ip ->
  budget k ip A B (c + touched off (Z.of_nat (length src))) ->
  0 <= off -> off + Z.of_nat (length src) <= MAXFILE * BSIZE -> (length src <= fuel)%nat ->
  exists k' A' ip' B', writei_loop fuel i off src k = Ok (off + Z.of_nat (length src)) k' /\
    wrote pr k i ip off src k' A' ip' /\ budget k' ip' A' B' c.
Proof.
  induction fuel as [|fuel IH]; intros k A ip B c off src Y T Hi I Bg Ho Hmax Hf; cbn [writei_loop].
  { destruct src; [|cbn in Hf; lia]. exists k, A, ip, B. split_and!; [by rewrite Z.add_0_r | | by rewrite Nat.add_0_r in Bg].
    by apply wrote_nil, fstep_refl. }
  destruct (Z.ltb_spec 0 (Z.of_nat (length src))) as [Hp|Hp].
  2: { destruct src; [|cbn in Hp; lia]. exists k, A, ip, B. split_and!; [by rewrite Z.add_0_r | | by rewrite Nat.add_0_r in Bg].
    by apply wrote_nil, fstep_refl. }
  set (m := chunk off (Z.of_nat (length src))). destruct (chunk_range off _ Hp) as [Hc1 Hc2]. fold m in Hc1, Hc2.
  assert (get_inode i k = Ok ip k) as Rg by (unfold get_inode; msimp; by rewrite Hi). mrun Rg.
  rewrite touched_chunk in Bg by done. fold m in Bg. rewrite Nat.add_succ_r in Bg.
  assert (length (take (Z.to_nat m) src) = Z.to_nat m) as Hlt by (rewrite length_take; lia).
  assert (length (drop (Z.to_nat m) src) = Z.to_nat (Z.of_nat (length src) - m)) as Hld by (rewrite length_drop; lia).
  destruct (write_chunk pr k A i ip B _ off (take (Z.to_nat m) src) Y T Hi I Bg Ho)
    as (a & j & k1 & k2 & k3 & A3 & ip3 & B3 & R1 & R2 & R3 & W & Bg3); [fslia | klia | klia |].
  mrun R1. mrun R2. rewrite (seq3_ok _ _ _ _ _ _ R3).
  pose proof (wr_step _ _ _ _ _ _ _ _ _ W) as F3.
  destruct (IH k3 A3 ip3 B3 c (off + m) (drop (Z.to_nat m) src)) as (k4 & A4 & ip4 & B4 & R4 & W4 & Bg4);
    [apply F3 | apply F3 | by eapply fstep_lookup | apply F3 | | lia | lia | lia |].
  { by replace (Z.of_nat (length (drop (Z.to_nat m) src))) with (Z.of_nat (length src) - m) by lia. }
  exists k4, A4, ip4, B4. split_and!; [rewrite R4; f_equal; lia | | done].
  rewrite <-(take_drop (Z.to_nat m) src). eapply wrote_app; try done; [by rewrite take_drop|].
  by replace (off + Z.of_nat (length (take (Z.to_nat m) src))) with (off + m) by lia.
Qed.

(** ** The inode on disk *)

Definition disk_inode (k : K) (n : Z) : dinode := get_dinode (fsb k (IBLOCK n (sb k))) (n mod IPB).

Lemma IBLOCK_range k n : geometry k -> 0 <= n < sb_ninodes (sb k) ->
  IBLOCK n (sb k) = n / IPB + sb_inodestart (sb k) /\ 0 < IBLOCK n (sb k) < sb_bmapstart (sb k).
Proof.
  intros [G1 G2 G3 _] Hn. unfold data_start in *.
  assert (IBLOCK n (sb k) = n / IPB + sb_inodestart (sb k)) as H; [|rewrite H; fslia].
  unfold IBLOCK. apply u32_small. unfold is_u32. fslia.
Qed.

(** The inode [ip] was stored: no other block and no other inode changed. *)
Record synced (pr : proc) (k : K) (ip : inode) (k' : K) (A' : list Z) : Prop := {
  sy_tx : tx k' pr ∅ A';
  sy_op : op k k';
  sy_disk : disk_inode k' (i_inum ip) = dinode_of ip;
  sy_others n : 0 <= n < sb_ninodes (sb k) -> n <> i_inum ip -> disk_inode k' n = disk_inode k n;
  sy_fsb n : n <> IBLOCK (i_inum ip) (sb k) -> fsb k' n = fsb k n }.

Lemma iupdate_ok pr k A i ip :
  fsys k -> tx k pr ∅ A -> icache k !! i = Some ip -> inode_ok k ip -> dinode_fits (dinode_of ip) ->
  0 <= i_inum ip < sb_ninodes (sb k) -> (length A < NBUF)%nat -> Z.of_nat (length A) < LOGSIZE - 1 ->
  exists k', iupdate i k = Ok tt k' /\ synced pr k ip k' (absorb A (IBLOCK (i_inum ip) (sb k))).
Proof.
  intros Y T Hi I Hfit Hn Hb HA. set (n := i_inum ip) in *. set (ib := IBLOCK n (sb k)).
  destruct (IBLOCK_range k n (fy_geo _ Y) Hn) as [Hib Hibr]. fold ib in Hib, Hibr.
  assert (get_inode i k = Ok ip k) as Rg by (unfold get_inode; msimp; by rewrite Hi).
  assert (loggable k ib) as Hlg.
  { apply geo_loggable; [apply Y|]. destruct (fy_geo _ Y) as [G1 G2 G3 _]. unfold data_start in *. fslia. }
  pose proof (tx_fsb_length _ _ _ _ ib T) as Hl. destruct (df_addrs _ Hfit) as [Hal _].
  destruct (tx_change k pr ∅ A ib (put_dinode (n mod IPB) (dinode_of ip)) T) as (k' & R & S);
    [by rewrite size_empty | done | done | by intros ? ? ?%not_elem_of_empty | |].
  { unfold put_dinode. rewrite splice_length; rewrite ?dinode_bytes_length by done; fslia. }
  exists k'. split; [unfold iupdate; msimp; mrun Rg; by rewrite (in_dev _ _ I)|].
  destruct S as [T' O _ Hv]. pose proof (op_sb _ _ O) as Hsb.
  assert (forall m, m <> ib -> fsb k' m = fsb k m) as Ho by (intros m Hm; rewrite Hv; unfold fupd; by rewrite decide_False).
  assert (fsb k' ib = put_dinode (n mod IPB) (dinode_of ip) (fsb k ib)) as Hib'
    by (rewrite Hv; unfold fupd; by rewrite decide_True).
  split; try done.
  - unfold disk_inode. fold n. rewrite Hsb. fold ib. rewrite Hib'. apply get_put_dinode; [done | fslia | done].
  - intros m Hm Hne. unfold disk_inode. rewrite Hsb. destruct (IBLOCK_range k m (fy_geo _ Y) Hm) as [Hmb _].
    destruct (decide (IBLOCK m (sb k) = ib)) as [Heq|Hne']; [|by rewrite Ho].
    rewrite Heq, Hib'. apply get_put_dinode_other; [done | fslia | fslia | fslia | done].
Qed.

(** Steps below the free map do not touch the contents of files. *)
Lemma below_map k k' ip :
  fsys k -> same_geo k k' -> inode_ok k ip -> (forall n, sb_bmapstart (sb k) <= n -> fsb k' n = fsb k n) ->
  fsys k' /\ inode_ok k' ip /\ (forall j, 0 <= j <= MAXFILE -> bslot (fsb k') ip j = bslot (fsb k) ip j) /\
  (forall j, 0 <= j < MAXFILE -> fblock (fsb k') ip j = fblock (fsb k) ip j).
Proof.
  intros Y O I Hv. pose proof O as [Hsb Hd _].
  pose proof (geo_data_start k (fy_geo _ Y)) as Hds.
  assert (forall n, data_block k n -> fsb k' n = fsb k n) as Hdb.
  { intros n [Hn _]. apply Hv. destruct (fy_geo _ Y) as [G1 G2 G3 _]. unfold data_start in *. fslia. }
  assert (forall j, 0 <= j <= MAXFILE -> bslot (fsb k') ip j = bslot (fsb k) ip j) as Hs.
  { intros j Hj. unfold bslot. do 2 (case_match; [done|]). destruct (Z.eqb_spec (addr_at ip NDIRECT) 0) as [|Hin]; [done|].
    assert (bslot (fsb k) ip MAXFILE = addr_at ip NDIRECT) as HM by (unfold bslot; by rewrite Z.eqb_refl).
    rewrite Hdb; [done|]. rewrite <-HM. apply I; [fslia | congruence]. }
  assert (forall y, 0 <= y < sb_size (sb k) -> used k' y = used k y) as Hu.
  { intros y Hy. unfold used. rewrite Hsb, (one_bitmap k y Y Hy), Hv; [done | lia]. }
  destruct (slots_same k k' ip Y O I Hs Hu) as [Y' I']. split_and!; [done | done | done |].
  - intros j Hj. unfold fblock. rewrite Hs by lia. destruct (Z.eqb_spec (bslot (fsb k) ip j) 0); [done|].
    apply Hdb, I; [lia | done].
Qed.

(** ** Files as a whole *)

Lemma inode_addrs_u32 k ip : fsys k -> inode_ok k ip -> Forall is_u32 (i_addrs ip).
Proof.
  intros Y I. apply list.Forall_lookup. intros j a Hj. pose proof (lookup_lt_Some _ _ _ Hj) as Hlt.
  rewrite (in_len _ _ I) in Hlt. destruct (decide (a = 0)) as [->|Hnz]; [by vm_compute|].
  set (s := if Z.of_nat j =? NDIRECT then MAXFILE else Z.of_nat j).
  assert (bslot (fsb k) ip s = a) as Hs.
  { assert (addr_at ip (Z.of_nat j) = a) as Ha by (unfold addr_at; by rewrite nth_lookup, Nat2Z.id, Hj).
    unfold s, bslot. destruct (Z.eqb_spec (Z.of_nat j) NDIRECT) as [<-|]; [done|].
    destruct (Z.eqb_spec (Z.of_nat j) MAXFILE); [fslia|]. destruct (Z.ltb_spec (Z.of_nat j) NDIRECT); [done | fslia]. }
  assert (data_block k a) as [Hr _].
  { rewrite <-Hs. apply I; [unfold s; case_match; fslia | by rewrite Hs]. }
  pose proof (geo_data_start k (fy_geo _ Y)). pose proof (geo_size _ (fy_geo _ Y)). unfold is_u32. lia.
Qed.

(** A file, its inode in memory and on disk. *)
Record file_ok (k : K) (i : nat) (ip : inode) : Prop := {
  fo_readable : readable k i ip;
  fo_type : i_type ip <> T_DEV;
  fo_short : is_i16 (i_type ip) /\ is_i16 (i_major ip) /\ is_i16 (i_minor ip) /\ is_i16 (i_nlink ip);
  fo_inum : 0 <= i_inum ip < sb_ninodes (sb k);
  fo_disk : disk_inode k (i_inum ip) = dinode_of ip }.

(** [src] was written to the file at [off]: the file in memory and on disk,
    and what is not part of it. *)
Record written (pr : proc) (k : K) (i : nat) (ip : inode) (off : Z) (src : list Z) (k' : K) (A' : list Z)
    (ip' : inode) : Prop := {
  wn_tx : tx k' pr ∅ A';
  wn_op : op (set_icache (<[i := ip']> (icache k)) k) k';
  wn_file : file_ok k' i ip';
  wn_inode : ip' = set_i_size (Z.max (i_size ip) (off + Z.of_nat (length src))) (set_i_addrs (i_addrs ip') ip);
  wn_bytes p : 0 <= p < MAXFILE * BSIZE -> fbyte (fsb k') ip' p =
    if decide (off <= p < off + Z.of_nat (length src)) then nth (Z.to_nat (p - off)) src 0 else fbyte (fsb k) ip p;
  wn_free : (indirect_cost ip' + spare <= nfree k')%nat;
  wn_inodes n : 0 <= n < sb_ninodes (sb k) -> n <> i_inum ip -> disk_inode k' n = disk_inode k n;
  wn_frame n : data_block k n -> (forall j, 0 <= j <= MAXFILE -> bslot (fsb k) ip j <> n) -> fsb k' n = fsb k n }.

(** Log space and free blocks for [n] bytes at [off]. *)
Definition write_room (k : K) (ip : inode) (A : list Z) (off n : Z) : Prop :=
  (length A + touched off n + 5 < NBUF)%nat /\ (indirect_cost ip + touched off n + spare <= nfree k)%nat.

Lemma room_budget k pr A ip off n :
  tx k pr ∅ A -> write_room k ip A off n -> exists B, budget k ip A B (touched off n).
Proof.
  intros T [Hr Hf]. pose proof (tx_nodup_list _ _ _ _ T) as Hnd.
  set (M := {[sb_bmapstart (sb k)]} ∪ list_to_set A : gset Z).
  assert (size M <= length A + 1)%nat as HM.
  { pose proof (size_add (sb_bmapstart (sb k)) (list_to_set A)) as Hs. rewrite size_list_to_set in Hs by done.
    unfold M. lia. }
  exists (if addr_at ip NDIRECT =? 0 then M else {[addr_at ip NDIRECT]} ∪ M).
  assert (forall a, a ∈ A -> a ∈ M) as HAM by (intros a Ha; apply elem_of_union_r, elem_of_list_to_set, Ha).
  assert (sb_bmapstart (sb k) ∈ M) as HmM by (unfold M; set_solver +).
  unfold indirect_cost in Hf. pose proof (size_add (addr_at ip NDIRECT) M) as Hsz.
  split; unfold indirect_cost; destruct (Z.eqb_spec (addr_at ip NDIRECT) 0); try done; try lia.
  - intros a Ha. apply elem_of_union_r. by apply HAM.
  - by apply elem_of_union_r.
  - intros _. set_solver +.
Qed.

Lemma wrote_dense pr k i ip off src k' A' ip' :
  dense (fsb k) ip -> 0 <= off <= i_size ip -> off + Z.of_nat (length src) <= MAXFILE * BSIZE ->
  wrote pr k i ip off src k' A' ip' ->
  dense (fsb k') (set_i_size (Z.max (i_size ip) (off + Z.of_nat (length src))) ip').
Proof.
  intros [D1 D2] Ho Hm W. split; cbn [i_size set_i_size]; [lia|]. intros j Hj Hlt.
  change (bslot (fsb k') ip' j <> 0). destruct (Z.lt_ge_cases (j * BSIZE) (i_size ip)) as [Hs|Hs].
  - rewrite (fstep_nz _ _ _ _ _ _ _ _ (wr_step _ _ _ _ _ _ _ _ _ W)); [by apply D2 | fslia | by apply D2].
  - replace j with (j * BSIZE / BSIZE) by (apply Z.div_mul; by vm_compute). apply W. lia.
Qed.

Lemma fstep_inodes pr k i ip k' A' ip' n :
  fsys k -> inode_ok k ip -> fstep pr k i ip k' A' ip' -> 0 <= n < sb_ninodes (sb k) ->
  disk_inode k' n = disk_inode k n.
Proof.
  intros Y I F Hn. unfold disk_inode. rewrite (fstep_sb _ _ _ _ _ _ _ F).
  destruct (IBLOCK_range k n (fy_geo _ Y) Hn) as [_ Hr].
  rewrite (fs_frame _ _ _ _ _ _ _ F); [done | by left |]. intros j Hj Heq.
  destruct (in_data _ _ I j Hj) as [Hd _]; [lia|]. pose proof (fy_geo _ Y) as [G1 G2 G3 _]. unfold data_start in *. fslia.
Qed.

(** The inode table beside the file system. *)
Lemma fsys_icache k L : fsys k -> fsys (set_icache L k).
Proof. intros [[G1 G2 G3 G4] M S]. split; [by split | exact M | done]. Qed.
Lemma inode_ok_resized k L ip s : inode_ok k ip -> inode_ok (set_icache L k) (set_i_size s ip).
Proof. intros [I1 I2 I3 I4]. by split. Qed.

(** The new size, in memory and on disk. *)
Lemma resize_ok pr k A i ip s :
  fsys k -> tx k pr ∅ A -> icache k !! i = Some ip -> inode_ok k ip ->
  is_i16 (i_type ip) /\ is_i16 (i_major ip) /\ is_i16 (i_minor ip) /\ is_i16 (i_nlink ip) ->
  0 <= i_inum ip < sb_ninodes (sb k) -> is_u32 s -> (length A < NBUF)%nat -> Z.of_nat (length A) < LOGSIZE - 1 ->
  exists k', (upd_inode i (set_i_size s) ;;; iupdate i) k = Ok tt k' /\
    synced pr (set_icache (<[i := set_i_size s ip]> (icache k)) k) (set_i_size s ip) k'
      (absorb A (IBLOCK (i_inum ip) (sb k))).
Proof.
  intros Y T Hi I (H1 & H2 & H3 & H4) Hn Hs HA HA'.
  set (k1 := set_icache (<[i := set_i_size s ip]> (icache k)) k).
  assert (upd_inode i (set_i_size s) k = Ok tt k1) as R1.
  { unfold upd_inode, modify, k1. do 2 f_equal. apply list_eq. intros i'. destruct (decide (i' = i)) as [->|].
    - by rewrite list_lookup_alter_eq, Hi, list_lookup_insert_eq by (by eapply lookup_lt_Some).
    - by rewrite list_lookup_alter_ne, list_lookup_insert_ne. }
  mrun R1. apply (iupdate_ok pr k1 A i (set_i_size s ip)); try done.
  - by apply fsys_icache.
  - by apply tx_icache.
  - cbn. apply list_lookup_insert_eq. by eapply lookup_lt_Some.
  - by apply inode_ok_resized.
  - split; try done. cbn. split; [apply I | by apply (inode_addrs_u32 k)].
Qed.

(** When the file does not grow, writei leaves the inode alone. *)
Lemma written_in_place pr k A i ip off src k' A' ip' :
  file_ok k i ip -> 0 <= off -> src = [] \/ off + Z.of_nat (length src) <= i_size ip -> off <= i_size ip ->
  tx k pr ∅ A -> wrote pr k i ip off src k' A' ip' -> (indirect_cost ip' + spare <= nfree k')%nat ->
  written pr k i ip off src k' A' ip'.
Proof.
  intros [[Y Hi I De] Hty Hsh Hn Hdisk] Ho Hin Hos T W Hnf. pose proof (wr_step _ _ _ _ _ _ _ _ _ W) as F.
  assert (off + Z.of_nat (length src) <= i_size ip) as Hle by (destruct Hin as [->|]; cbn; lia).
  assert (ip' = ip) as ->. { apply (wr_same _ _ _ _ _ _ _ _ _ W). intros p Hp. apply De; klia. }
  assert (forall n, 0 <= n < sb_ninodes (sb k) -> disk_inode k' n = disk_inode k n) as Hd
    by (intros n; by eapply fstep_inodes).
  split; [apply F | apply F | | | apply W | done | by intros n Hr _; apply Hd | by intros n Hb; apply F; right].
  - split; [|done|done|by rewrite (fstep_sb _ _ _ _ _ _ _ F)|by rewrite Hd].
    split; [apply F | by eapply fstep_lookup | apply F|].
    destruct (wrote_dense pr k i ip off src k' A' ip De) as [D1 D2]; [lia | destruct De; lia | done |].
    rewrite Z.max_l in D1, D2 by lia. by split.
  - rewrite Z.max_l by lia. by destruct ip.
Qed.

(** When it grows, the new size and the new blocks are also in the inode on
    disk. *)
Lemma written_growing pr k i ip off src k1 A1 ip1 k2 A2 :
  file_ok k i ip -> 0 <= off <= i_size ip -> i_size ip < off + Z.of_nat (length src) <= MAXFILE * BSIZE ->
  wrote pr k i ip off src k1 A1 ip1 ->
  synced pr (set_icache (<[i := set_i_size (off + Z.of_nat (length src)) ip1]> (icache k1)) k1)
    (set_i_size (off + Z.of_nat (length src)) ip1) k2 A2 -> (indirect_cost ip1 + spare <= nfree k1)%nat ->
  written pr k i ip off src k2 A2 (set_i_size (off + Z.of_nat (length src)) ip1).
Proof.
  intros [[Y Hi I De] Hty Hsh Hn Hdisk] Ho Hgr W S Hnf. pose proof (wr_step _ _ _ _ _ _ _ _ _ W) as F.
  pose proof (wrote_dense _ _ _ _ _ _ _ _ _ De Ho (proj2 Hgr) W) as De1. rewrite Z.max_r in De1 by lia.
  set (s := off + Z.of_nat (length src)) in *. set (ip2 := set_i_size s ip1) in *.
  set (L := <[i := ip2]> (icache k1)) in *. pose proof S as [T2 O2 D2 Oth2 V2].
  pose proof (wr_rest _ _ _ _ _ _ _ _ _ W) as Hrest. pose proof (fstep_sb _ _ _ _ _ _ _ F) as Hsb.
  pose proof (op_sb _ _ O2 : sb k2 = sb k1) as Hsb2.
  assert (i_inum ip2 = i_inum ip) as Hnum by (unfold ip2; rewrite Hrest; done).
  assert (forall n, sb_bmapstart (sb k) <= n -> fsb k2 n = fsb k1 n) as Hmap.
  { intros n Hnn. apply (V2 n). change (n <> IBLOCK (i_inum ip2) (sb k1)). rewrite Hnum, Hsb. destruct (IBLOCK_range k (i_inum ip) (fy_geo _ Y) Hn). lia. }
  destruct (below_map (set_icache L k1) k2 ip2) as (Y2 & I2 & Hs2 & Hb2);
    [apply fsys_icache, F | by apply op_geo | apply inode_ok_resized, F | by cbn; rewrite Hsb |].
  assert (op (set_icache (<[i := ip2]> (icache k)) k) k2) as O.
  { etrans; [|exact O2]. pose proof (op_icache _ _ L (fs_op _ _ _ _ _ _ _ F)) as O1.
    unfold L in O1 |- *. rewrite (fstep_icache _ _ _ _ _ _ _ F), list_insert_insert_eq in O1 |- *. exact O1. }
  split; [done | done | | | | | |].
  - split; [split; [done | | done |] | unfold ip2; rewrite Hrest; exact Hty | unfold ip2; rewrite Hrest; exact Hsh | | done].
    + rewrite (icache_op _ _ O). apply list_lookup_insert_eq. by eapply lookup_lt_Some.
    + destruct De1 as [E1 E2]. split; [done|]. intros j Hj Hlt. 
      rewrite Hs2; [by apply E2 | cbn in Hlt; unfold s in *; fslia].
    + rewrite (op_sb _ _ O), Hnum. done.
  - unfold ip2. rewrite Z.max_r by lia. rewrite Hrest at 1. done.
  - intros p Hp. transitivity (fbyte (fsb k1) ip1 p); [|exact (wr_bytes _ _ _ _ _ _ _ _ _ W p Hp)]. unfold fbyte.
    rewrite Hb2 by fslia. done.
  - rewrite (nfree_ext k1 k2); [exact Hnf | done |]. intros y Hy. unfold used. pose proof (fs_sys _ _ _ _ _ _ _ F) as Y1.
    rewrite Hsb2, (one_bitmap k1 y Y1 Hy), Hmap; [done | by rewrite Hsb].
  - intros n Hr Hne. rewrite Oth2; [|by rewrite <-Hsb in Hr|by rewrite Hnum].
    change (disk_inode k1 n = disk_inode k n). by eapply fstep_inodes.
  - intros n Hb Hnb. rewrite Hmap; [by apply F; [right|]|]. destruct Hb as [Hb _].
    destruct (fy_geo _ Y) as [G1 G2 G3 _]. unfold data_start in *. fslia.
Qed.

Lemma writei_ok pr k A i ip off src :
  file_ok k i ip -> tx k pr ∅ A -> write_room k ip A off (Z.of_nat (length src)) ->
  0 <= off <= i_size ip -> off + Z.of_nat (length src) <= MAXFILE * BSIZE ->
  exists k' A' ip', writei i src off k = Ok (Z.of_nat (length src)) k' /\ written pr k i ip off src k' A' ip'.
Proof.
  intros Fo T Rm Ho Hmax. pose proof Fo as [[Y Hi I De] Hty Hsh Hn _].
  assert (get_inode i k = Ok ip k) as Rg by (unfold get_inode; msimp; by rewrite Hi).
  unfold writei. mrun Rg. destruct (Z.eqb_spec (i_type ip) T_DEV); [done|].
  rewrite u32_small by (unfold is_u32; fslia).
  rewrite (proj2 (Z.ltb_ge (i_size ip) off)), (proj2 (Z.ltb_ge (off + _) off)), (proj2 (Z.ltb_ge (MAXFILE * BSIZE) _)) by lia.
  cbn [orb]. destruct (room_budget k pr A ip off _ T Rm) as [B Bg].
  destruct (writei_loop_ok pr i (length src) k A ip B 0 off src) as (k1 & A1 & ip1 & B1 & R1 & W & Bg1); try done; [lia|].
  mrun R1. pose proof (wr_step _ _ _ _ _ _ _ _ _ W) as F. pose proof (wr_rest _ _ _ _ _ _ _ _ _ W) as Hr.
  pose proof (fstep_lookup _ _ _ _ _ _ _ Hi F) as Hi1.
  assert (get_inode i k1 = Ok ip1 k1) as Rg1 by (unfold get_inode; msimp; by rewrite Hi1). mrun Rg1.
  assert (i_size ip1 = i_size ip) as Hsz by (by rewrite Hr). rewrite Hsz.
  destruct ((0 <? Z.of_nat (length src)) && (i_size ip <? off + Z.of_nat (length src))) eqn:Hgr.
  - destruct (budget_room _ _ _ _ _ _ _ (fs_tx _ _ _ _ _ _ _ F) Bg1) as [Hb1 Hb2].
    destruct (resize_ok pr k1 A1 i ip1 (off + Z.of_nat (length src))) as (k2 & R2 & S);
      [apply F | apply F | done | apply F | by rewrite Hr | rewrite Hr, (fstep_sb _ _ _ _ _ _ _ F); exact Hn |
       unfold is_u32; fslia | lia | done |].
    mrun R2. exists k2. do 2 eexists. split; [done|]. eapply written_growing; try done; [lia|]. destruct Bg1. lia.
  - msimp. exists k1, A1, ip1. split; [done|]. eapply written_in_place; try done; [lia | | lia | destruct Bg1; lia].
    destruct src; [by left | right]. apply andb_false_iff in Hgr. rewrite !Z.ltb_ge in Hgr. cbn [length] in *. lia.
Qed.

(** ** Steps outside of files

    Locks, the file table and the log: files are as before. *)
Record same_fs (k k' : K) : Prop := {
  sf_geo : same_geo k k';
  sf_icache : icache k' = icache k;
  sf_fsb n : sb_inodestart (sb k) <= n -> fsb k' n = fsb k n }.

Lemma same_fs_trans k1 k2 k3 : same_fs k1 k2 -> same_fs k2 k3 -> same_fs k1 k3.
Proof.
  intros [[S1 D1 G1] I1 F1] [[S2 D2 G2] I2 F2]. split; [split; congruence | congruence |].
  intros n Hn. rewrite F2, F1; [done | done | by rewrite S1].
Qed.

Lemma same_fs_other k k' :
  sb k' = sb k -> icache k' = icache k -> bcache k' = bcache k -> disk k' = disk k ->
  lg_dev (klog k') = lg_dev (klog k) -> lg_start (klog k') = lg_start (klog k) -> same_fs k k'.
Proof.
  intros H1 H2 H3 H4 H5 H6. split; [by split | done |]. intros n _. unfold fsb. rewrite H5. by apply blk_other.
Qed.

Lemma txn_other f k pr H P A o :
  Framed f -> ptable (f k) = ptable k -> bcache (f k) = bcache k ->
  (forall i, sleeplocks (f k) !! SL_buf i = sleeplocks k !! SL_buf i) -> disk (f k) = disk k ->
  klog (f k) = set_lg_outstanding o (klog k) -> txn k pr H P A -> txn (f k) pr H P A.
Proof.
  intros Hf H1 H2 H3 H4 H5 [Hca ? ? ? ? ? ? ? ? ? Hpin Hpins].
  assert (forall j, baddr (f k) j = baddr k j) as Hb by (intros j; unfold baddr, bufc; by rewrite H2).
  split; rewrite ?H5; try done; [by apply (cache_other f) | |].
  - intros a Ha. destruct (Hpin a Ha) as (j & Hj & Hja). exists j. by rewrite Hb.
  - intros j Hj. rewrite Hb. by apply Hpins.
Qed.

(** Taking the lock of an inode. *)
Lemma hold_same_fs k i p : same_fs k (hold_sl (SL_inode i) p k).
Proof. by apply same_fs_other. Qed.
Lemma hold_txn k pr H P A i p : txn k pr H P A -> txn (hold_sl (SL_inode i) p k) pr H P A.
Proof.
  intros T. apply (txn_other (hold_sl (SL_inode i) p) k _ _ _ _ (lg_outstanding (klog k))); try done.
  - intros j. cbn. by rewrite lookup_insert_ne.
  - by destruct (klog k) eqn:Hk; cbn; rewrite Hk.
Qed.

Lemma hold_tx k pr H A i p : tx k pr H A -> tx (hold_sl (SL_inode i) p k) pr H A.
Proof. intros [[P T] Ho Hs]. split; [exists P; by apply hold_txn | done | done]. Qed.

Lemma same_fs_above k k' n : fsys k -> same_fs k k' -> sb_bmapstart (sb k) <= n -> fsb k' n = fsb k n.
Proof. intros Y S Hn. apply S. destruct (fy_geo _ Y) as [G1 G2 G3 _]. fslia. Qed.

Lemma same_fs_nfree k k' : fsys k -> same_fs k k' -> nfree k' = nfree k.
Proof.
  intros Y S. pose proof (sg_sb _ _ (sf_geo _ _ S)) as Hsb. apply nfree_ext; [done|]. intros y Hy. unfold used.
  rewrite Hsb, (one_bitmap k y Y Hy), (same_fs_above k); done.
Qed.

Lemma same_fs_bytes k k' i ip p :
  file_ok k i ip -> same_fs k k' -> 0 <= p < MAXFILE * BSIZE -> fbyte (fsb k') ip p = fbyte (fsb k) ip p.
Proof.
  intros [[Y Hi I De] _ _ _ _] S Hp.
  destruct (below_map k k' ip Y (sf_geo _ _ S) I) as (_ & _ & _ & Hb); [by intros; apply (same_fs_above k)|].
  unfold fbyte. rewrite Hb; [done | fslia].
Qed.

Lemma file_ok_same k k' i ip : same_fs k k' -> file_ok k i ip -> file_ok k' i ip.
Proof.
  intros S [[Y Hi I [D1 D2]] Hty Hsh Hn Hdisk]. pose proof (sg_sb _ _ (sf_geo _ _ S)) as Hsb.
  destruct (below_map k k' ip Y (sf_geo _ _ S) I) as (Y' & I' & Hs & Hb); [by intros; apply (same_fs_above k)|].
  split; [split; [done | by rewrite (sf_icache _ _ S) | done |] | done | done | by rewrite Hsb |].
  - split; [done|]. intros j Hj Hlt. rewrite Hs; [by apply D2 | fslia].
  - unfold disk_inode. rewrite Hsb, (sf_fsb _ _ S); [done|].
    destruct (IBLOCK_range k (i_inum ip) (fy_geo _ Y) Hn) as [-> _]. fslia.
Qed.

(** ** Properties *)

(** bmap finds or allocates the block of a file offset: the result is the
    block that the file then has at [bn], the contents of the whole file are
    as before (a new block reads as zeroes), and no block of another file and
    no inode changes. *)
Theorem bmap_spec pr k A i ip B c bn :
  fsys k -> tx k pr ∅ A -> icache k !! i = Some ip -> inode_ok k ip -> 0 <= bn < MAXFILE ->
  budget k ip A B (S c) ->
  exists a k' A' ip', bmap i bn k = Ok a k' /\ a <> 0 /\ a = bslot (fsb k') ip' bn /\
    tx k' pr ∅ A' /\ fsys k' /\ inode_ok k' ip' /\ same_content k ip k' ip' /\
    (forall n, data_block k n -> (forall j, 0 <= j <= MAXFILE -> bslot (fsb k) ip j <> n) -> fsb k' n = fsb k n) /\
    (forall n, 0 <= n < sb_ninodes (sb k) -> disk_inode k' n = disk_inode k n).
Proof.
  intros Y T Hi I Hbn Bg.
  destruct (bmap_ok pr k A i ip B c bn Y T Hi I Hbn Bg) as (a & k' & A' & ip' & B' & R & [F C S Hnz _ _] & _ & _).
  exists a, k', A', ip'. split_and!; try done; [apply F | apply F | apply F | |].
  - intros n Hn. apply F. by right.
  - intros n. by eapply fstep_inodes.
Qed.

(** readi delivers the bytes of the file from [off] on, at most [n] and at
    most up to the end of the file; it needs no transaction and changes
    nothing that readers see. *)
Theorem readi_spec pr A k P i ip off n :
  txn k pr ∅ P A -> (length A < NBUF)%nat -> readable k i ip -> i_type ip <> T_DEV ->
  0 <= off <= i_size ip -> 0 <= n -> off + n < 2 ^ 32 ->
  let m := Z.min n (i_size ip - off) in
  exists k', readi i off n k = Ok (m, fbytes (fsb k) ip off m) k' /\ klog k' = klog k /\
    readable k' i ip /\ forall b, fsb k' b = fsb k b.
Proof.
  intros T Hr Ra Hty Ho Hn Hw m.
  destruct (readi_ok pr A k P i ip off n T Hr Ra Hty Ho Hn Hw) as (k' & R & S). exists k'.
  split_and!; [done | apply S | by eapply readable_rdstep | apply S].
Qed.

(** C40. readi and writei refuse an offset past the end of the file and ranges
    that wrap around, and writei one past the largest file; nothing changes. *)
Theorem readi_writei_refuse i ip off src k :
  icache k !! i = Some ip -> i_type ip <> T_DEV -> 0 <= off < 2 ^ 32 ->
  Z.of_nat (length src) < 2 ^ 32 ->
  (i_size ip < off \/ 2 ^ 32 <= off + Z.of_nat (length src) ->
    readi i off (Z.of_nat (length src)) k = Ok (-1, []) k /\ writei i src off k = Ok (-1) k) /\
  (MAXFILE * BSIZE < off + Z.of_nat (length src) -> writei i src off k = Ok (-1) k).
Proof.
  intros Hi Hty Ho Hn. assert (get_inode i k = Ok ip k) as Rg by (unfold get_inode; msimp; by rewrite Hi).
  assert (i_size ip < off \/ 2 ^ 32 <= off + Z.of_nat (length src) ->
    (i_size ip <? off) || (u32 (off + Z.of_nat (length src)) <? off) = true) as Hc.
  { intros H. apply orb_true_iff. rewrite !Z.ltb_lt. unfold u32. lia. }
  split; intros H; unfold readi, writei; [split|]; mrun Rg; destruct (Z.eqb_spec (i_type ip) T_DEV); try done.
  - by rewrite Hc.
  - by rewrite Hc.
  - destruct ((i_size ip <? off) || (u32 (off + Z.of_nat (length src)) <? off)) eqn:Hor; [done|].
    apply orb_false_iff in Hor as [_ Hge%Z.ltb_ge]. unfold u32 in *.
    rewrite (proj2 (Z.ltb_lt _ _)); [done|]. lia.
Qed.

(** C7. writei stores its bytes: afterwards the file has them in [off, off + n)
    and its old ones elsewhere, it is as long as it must be, its inode on disk
    is the one in memory, and no other inode and no other file changed. *)
Theorem writei_spec pr k A i ip off src :
  file_ok k i ip -> tx k pr ∅ A -> write_room k ip A off (Z.of_nat (length src)) ->
  0 <= off <= i_size ip -> off + Z.of_nat (length src) <= MAXFILE * BSIZE ->
  exists k' A' ip', writei i src off k = Ok (Z.of_nat (length src)) k' /\ written pr k i ip off src k' A' ip'.
Proof. apply writei_ok. Qed.

(** What writei stored, readi returns. *)
Theorem writei_readi pr k A i ip off src :
  file_ok k i ip -> tx k pr ∅ A -> write_room k ip A off (Z.of_nat (length src)) ->
  0 <= off <= i_size ip -> off + Z.of_nat (length src) <= MAXFILE * BSIZE ->
  exists k1 k2, writei i src off k = Ok (Z.of_nat (length src)) k1 /\
    readi i off (Z.of_nat (length src)) k1 = Ok (Z.of_nat (length src), src) k2.
Proof.
  intros Fo T Rm Ho Hm. destruct (writei_ok pr k A i ip off src Fo T Rm Ho Hm) as (k1 & A1 & ip1 & R & W).
  pose proof (wn_tx _ _ _ _ _ _ _ _ _ W) as [[P1 T1] _ _]. pose proof (fo_readable _ _ _ (wn_file _ _ _ _ _ _ _ _ _ W)) as Ra.
  assert (i_size ip1 = Z.max (i_size ip) (off + Z.of_nat (length src))) as Hsz by (by rewrite (wn_inode _ _ _ _ _ _ _ _ _ W)).
  destruct (readi_ok pr A1 k1 P1 i ip1 off (Z.of_nat (length src))) as (k2 & R2 & _); try done.
  { pose proof (tx_len _ _ _ _ _ T1). klia. } { apply W. } { lia. } { lia. } { fslia. }
  exists k1, k2. split; [done|]. rewrite R2, Z.min_l by lia. do 2 f_equal.
  apply fbytes_nth. intros p Hp. rewrite (wn_bytes _ _ _ _ _ _ _ _ _ W) by lia. by rewrite decide_True.
Qed.
End frame.

(** ** Witnesses

    An empty file, inode 1 of the sample file system. *)
Section samples.
#[local] Existing Instance idle_env.
#[local] Existing Instance sample_disk.
#[local] Existing Instance sample_disk_ok.
#[local] Instance no_devices : Devsw := {| dev_read _ _ _ := ret (-1, []); dev_write _ _ _ := ret (-1) |}.

Definition empty_inode (t : Z) : inode := mk_inode 1 1 1 1 t 0 0 1 0 (replicate 13 0).
Definition inode_disk (t : Z) : gmap (Z * Z) (list Z) :=
  <[ (1, 32) := put_dinode 1 (dinode_of (empty_inode t)) (replicate 512 0) ]> map_disk.
Definition inode_sample (t : Z) : K := set_icache [empty_inode t] (on_sample (inode_disk t) sample_fs).

Lemma inode_disk_ok t : map_Forall (fun _ v => length v = 512%nat) (inode_disk t).
Proof. apply map_Forall_insert_2; [reflexivity | apply map_disk_ok]. Qed.

Lemma inode_sample_tx t : tx (inode_sample t) sample_pr ∅ [].
Proof. apply tx_icache, sample_tx_on, inode_disk_ok. Qed.

Lemma inode_sample_fsys t : fsys (inode_sample t).
Proof.
  apply fsys_icache. split; [apply on_sample_geometry | | by vm_compute].
  apply sample_map_ok; [reflexivity | apply inode_disk_ok].
Qed.

Lemma inode_sample_nfree t : nfree (inode_sample t) = 941%nat.
Proof.
  assert (Forall (fun n => used (inode_sample t) n = (n <? 59)) (zseq 0 1000)) as Hf.
  { apply list.Forall_forall. intros n Hj%elem_of_zseq.
    unfold inode_sample. rewrite used_icache. apply sample_used; [reflexivity | apply inode_disk_ok | lia]. }
  transitivity (length (filter (fun b => (b <? 59) = false) (zseq 0 1000))); [|by vm_compute].
  unfold nfree. change (sb_size (sb (inode_sample t))) with 1000.
  induction Hf as [|n l Hn _ IH]; [done|]. rewrite !filter_cons, Hn. by case_decide; cbn; rewrite IH.
Qed.

Lemma empty_inode_slots t g j : bslot g (empty_inode t) j = 0.
Proof.
  assert (forall j, addr_at (empty_inode t) j = 0) as H.
  { intros j'. unfold addr_at. cbn [i_addrs empty_inode]. rewrite nth_lookup.
    by destruct (replicate 13 0 !! Z.to_nat j') eqn:Hx; [apply lookup_replicate in Hx as [-> _]|]. }
  unfold bslot. rewrite !H. by repeat case_match.
Qed.

Lemma inode_sample_inode t : inode_ok (inode_sample t) (empty_inode t).
Proof. split; [done | done | |]; intros; by rewrite empty_inode_slots in *. Qed.

Lemma inode_sample_ok t : t = T_DIR \/ t = T_FILE -> file_ok (inode_sample t) 0 (empty_inode t).
Proof.
  intros Ht. split; [split; [apply inode_sample_fsys | done | apply inode_sample_inode |]
    | by destruct Ht as [->| ->] | by destruct Ht as [->| ->]; vm_compute | by vm_compute |].
  - split; [by vm_compute|]. cbn. klia.
  - unfold disk_inode, inode_sample. rewrite fsb_icache, (on_sample_fsb (inode_disk t) sample_fs sample_pr) by
      apply sample_tx_on, inode_disk_ok.
    by destruct Ht as [->| ->]; vm_compute.
Qed.

Lemma inode_sample_room t n : 0 <= n <= 512 -> write_room 0 (inode_sample t) (empty_inode t) [] 0 n.
Proof.
  intros Hn. unfold write_room. rewrite inode_sample_nfree. change (indirect_cost (empty_inode t)) with 1%nat. unfold touched, NBUF.
  destruct (Z.eqb_spec n 0); cbn [length]; klia.
Qed.


Definition empty_file : inode := empty_inode T_FILE.
Definition file_sample : K := inode_sample T_FILE.
Definition file_sample_tx := inode_sample_tx T_FILE.
Definition file_sample_fsys := inode_sample_fsys T_FILE.
Definition file_sample_nfree := inode_sample_nfree T_FILE.
Definition file_sample_inode := inode_sample_inode T_FILE.
Definition file_sample_room := inode_sample_room T_FILE.
Lemma file_sample_ok : file_ok file_sample 0 empty_file.
Proof. apply inode_sample_ok. by right. Qed.

Lemma bmap_spec_witness : exists a k', bmap 0 3 file_sample = Ok a k' /\ a <> 0.
Proof.
  destruct (room_budget 0 file_sample sample_pr [] empty_file 0 1 file_sample_tx) as [B Bg].
  { apply file_sample_room. lia. }
  destruct (bmap_spec 0 sample_pr file_sample [] 0 empty_file B 0 3) as (a & k' & A' & ip' & R & Ha & _).
  - apply file_sample_fsys.
  - apply file_sample_tx.
  - reflexivity.
  - apply file_sample_inode.
  - change MAXFILE with 140. lia.
  - exact Bg.
  - exists a, k'. split; assumption.
Defined.

Lemma readi_spec_witness : exists k', readi 0 0 100 file_sample = Ok (0, []) k'.
Proof.
  pose proof file_sample_tx as [[P T] _ _].
  destruct (readi_spec sample_pr [] file_sample P 0 empty_file 0 100 T) as (k' & R & _).
  - cbn. unfold NBUF. lia.
  - apply file_sample_ok.
  - discriminate.
  - cbn. lia.
  - lia.
  - lia.
  - exists k'. exact R.
Defined.

Lemma readi_writei_refuse_witness :
  readi 0 1 4 file_sample = Ok (-1, []) file_sample /\ writei 0 [1; 2; 3; 4] 1 file_sample = Ok (-1) file_sample.
Proof.
  destruct (readi_writei_refuse 0 empty_file 1 [1; 2; 3; 4] file_sample) as [H _]; [reflexivity | discriminate | lia | cbn; lia |].
  apply H. left. reflexivity.
Defined.

Lemma writei_spec_witness :
  exists k' ip', writei 0 [7; 8; 9] 0 file_sample = Ok 3 k' /\ i_size ip' = 3 /\ fbyte (fsb k') ip' 1 = 8.
Proof.
  destruct (writei_spec 0 sample_pr file_sample [] 0 empty_file 0 [7; 8; 9]) as (k' & A' & ip' & R & W).
  - apply file_sample_ok.
  - apply file_sample_tx.
  - apply file_sample_room. cbn. lia.
  - cbn. lia.
  - change MAXFILE with 140. change BSIZE with 512. cbn. lia.
  - exists k', ip'. split_and!; [exact R | |].
    + rewrite (wn_inode _ _ _ _ _ _ _ _ _ _ W). reflexivity.
    + rewrite (wn_bytes _ _ _ _ _ _ _ _ _ _ W); [reflexivity|]. change MAXFILE with 140. change BSIZE with 512. lia.
Defined.

Lemma writei_readi_witness :
  exists k1 k2, writei 0 [7; 8; 9] 0 file_sample = Ok 3 k1 /\ readi 0 0 3 k1 = Ok (3, [7; 8; 9]) k2.
Proof.
  apply (writei_readi 0 sample_pr file_sample [] 0 empty_file 0 [7; 8; 9]).
  - apply file_sample_ok.
  - apply file_sample_tx.
  - apply file_sample_room. cbn. lia.
  - cbn. lia.
  - change MAXFILE with 140. change BSIZE with 512. cbn. lia.
Defined.
End samples.
