(* ===== verification/Dir.v ===== *)
(** * Directories (dirlookup, dirlink of fs.c)

    A directory's file is an array of entries; it denotes a map from names to
    inode numbers.  dirlookup evaluates the map and dirlink adds a binding. *)

From Stdlib Require Import ZArith Lia.
From stdpp Require Import base gmap list strings numbers.
From S2P Require Import Prelude Strings State Spinlock Sched Disk Bio Cache Log Tx Fs Balloc Inode.

Import string_c string_facts.

Open Scope Z_scope.
#[local] Ltac Zify.zify_post_hook ::= Z.div_mod_to_equations.

(** ** What a directory denotes *)

Definition dirent_at (g : Z -> list Z) (dp : inode) (j : Z) : dirent := get_dirent (fbytes g dp (16 * j) 16).

(** Entry [j] is in use and has the name [c]. *)
Definition dir_hit (g : Z -> list Z) (dp : inode) (c : list Z) (j : Z) : Prop :=
  de_inum (dirent_at g dp j) <> 0 /\ cstr DIRSIZ (de_name (dirent_at g dp j)) = c.
#[export] Instance dir_hit_dec g dp c j : Decision (dir_hit g dp c j).
Proof. apply _. Defined.

(** The first such entry, and the map. *)
Definition dir_find (g : Z -> list Z) (dp : inode) (c : list Z) : option Z :=
  snd <$> list_find (dir_hit g dp c) (zseq 0 (i_size dp / 16)).
Definition dir_map (g : Z -> list Z) (dp : inode) (c : list Z) : option Z :=
  (fun j => de_inum (dirent_at g dp j)) <$> dir_find g dp c.

(** The same from the list of entries. *)
Definition hit (c : list Z) (de : dirent) : Prop := de_inum de <> 0 /\ cstr DIRSIZ (de_name de) = c.
#[export] Instance hit_dec c de : Decision (hit c de).
Proof. apply _. Defined.
Definition dir_entries (g : Z -> list Z) (dp : inode) : list dirent := dirent_at g dp <$> zseq 0 (i_size dp / 16).
Definition entries_map (l : list dirent) (c : list Z) : option Z := (fun x => de_inum x.2) <$> list_find (hit c) l.

Lemma dir_map_entries g dp c : dir_map g dp c = entries_map (dir_entries g dp) c.
Proof.
  unfold dir_map, entries_map, dir_entries, dir_find. rewrite list_find_fmap.
  change (list_find (hit c ∘ dirent_at g dp)) with (list_find (dir_hit g dp c)). by destruct (list_find _ _) as [[]|].
Qed.

Lemma entries_map_cons c de l : entries_map (de :: l) c = if decide (hit c de) then Some (de_inum de) else entries_map l c.
Proof. unfold entries_map. cbn. case_decide; [done|]. by destruct (list_find (hit c) l) as [[]|]. Qed.

(** A new entry in place of a free one, or at the end. *)
Lemma entries_map_insert c c' l j de de0 :
  l !! j = Some de0 -> de_inum de0 = 0 -> hit c de -> entries_map l c = None ->
  entries_map (<[j := de]> l) c' = if decide (c' = c) then Some (de_inum de) else entries_map l c'.
Proof.
  revert j. induction l as [|x l IH]; intros [|j] Hj H0 Hh Hn; try done; cbn [insert list_insert].
  - injection Hj as ->. rewrite !entries_map_cons. rewrite entries_map_cons in Hn.
    assert (~ hit c' de0) as Hf by (by intros [? _]). rewrite (decide_False (P := hit c' de0)) by done.
    destruct (decide (c' = c)) as [->|Hc]; [by rewrite decide_True|]. rewrite decide_False; [done|].
    intros [_ ?]. destruct Hh. congruence.
  - rewrite entries_map_cons in Hn. rewrite !entries_map_cons. destruct (decide (hit c x)) as [|Hx]; [done|].
    rewrite IH by done. destruct (decide (c' = c)) as [->|Hc]; [by rewrite decide_False|]. done.
Qed.

Lemma entries_map_snoc c c' l de :
  hit c de -> entries_map l c = None ->
  entries_map (l ++ [de]) c' = if decide (c' = c) then Some (de_inum de) else entries_map l c'.
Proof.
  induction l as [|x l IH]; intros Hh Hn; cbn [app].
  - rewrite entries_map_cons. destruct (decide (c' = c)) as [->|Hc]; [by rewrite decide_True|]. rewrite decide_False; [done|].
    intros [_ ?]. destruct Hh. congruence.
  - rewrite entries_map_cons in Hn. rewrite !entries_map_cons. destruct (decide (hit c x)) as [|Hx]; [done|].
    rewrite IH by done. destruct (decide (c' = c)) as [->|Hc]; [by rewrite decide_False|]. done.
Qed.

(** A directory's file. *)
Record dir_ok (g : Z -> list Z) (dp : inode) : Prop := {
  dk_type : i_type dp = T_DIR;
  dk_size : i_size dp mod 16 = 0;
  dk_bytes p : 0 <= p < i_size dp -> is_u8 (fbyte g dp p) }.

Lemma dir_offs_eq size : size mod 16 = 0 -> dir_offs size = (fun j => j * 16) <$> zseq 0 (size / 16).
Proof. intros H. unfold dir_offs. by replace ((size + 15) / 16) with (size / 16) by lia. Qed.

Lemma fbytes_ok g dp off n : (forall p, off <= p < off + n -> is_u8 (fbyte g dp p)) -> Forall is_u8 (fbytes g dp off n).
Proof.
  intros H. apply list.Forall_forall. intros x (p & -> & Hp)%list_elem_of_fmap.
  apply elem_of_zseq in Hp. by apply H.
Qed.

Lemma fbytes_length g dp off n : length (fbytes g dp off n) = Z.to_nat n.
Proof. unfold fbytes. by rewrite length_fmap, zseq_length. Qed.

Lemma dirent_name_ok g dp j : dir_ok g dp -> 0 <= j < i_size dp / 16 -> Forall is_u8 (de_name (dirent_at g dp j)).
Proof.
  intros Dk Hj. cbn. unfold slice. apply list.Forall_take, list.Forall_drop, fbytes_ok. intros p Hp. apply Dk. lia.
Qed.

(** The test that dirlookup makes. *)
Lemma dir_test g dp name j :
  dir_ok g dp -> Forall is_u8 name -> 0 <= j < i_size dp / 16 ->
  (if de_inum (dirent_at g dp j) =? 0 then false else namecmp name (de_name (dirent_at g dp j)) =? 0) =
  bool_decide (dir_hit g dp (cstr DIRSIZ name) j).
Proof.
  intros Dk Hn Hj. unfold dir_hit. destruct (Z.eqb_spec (de_inum (dirent_at g dp j)) 0) as [Hz|Hz].
  - by rewrite bool_decide_false by naive_solver.
  - pose proof (strncmp_eq_iff DIRSIZ name _ Hn (dirent_name_ok g dp j Dk Hj)) as Hiff. unfold namecmp.
    destruct (Z.eqb_spec (strncmp name (de_name (dirent_at g dp j)) DIRSIZ) 0) as [H|H]; symmetry.
    + apply bool_decide_true. naive_solver.
    + apply bool_decide_false. naive_solver.
Qed.

Section frame.
Context `{E : Env} `{D : Disk} `{DO : !DiskOk D} `{DV : Devsw}.

(** ** dirlookup *)

Lemma rdstep_refl pr A k P : txn k pr ∅ P A -> rdstep pr A k k.
Proof. intros T. split; [by exists P | done..]. Qed.

Lemma rdstep_same_fs pr A k k' : rdstep pr A k k' -> same_fs k k'.
Proof. intros [T O L V]. split; [by apply op_geo | by apply (icache_op k) | done]. Qed.

(** The entry of a directory at an offset. *)
Lemma read_dirent pr A k P i dp j :
  txn k pr ∅ P A -> (length A < NBUF)%nat -> readable k i dp -> dir_ok (fsb k) dp -> 0 <= j < i_size dp / 16 ->
  exists k' bs, readi i (j * 16) 16 k = Ok (16, bs) k' /\ get_dirent bs = dirent_at (fsb k) dp j /\ rdstep pr A k k'.
Proof.
  intros T HA Ra Dk Hj. pose proof (de_size _ _ (ra_dense _ _ _ Ra)) as Hs.
  destruct (readi_ok pr A k P i dp (j * 16) 16) as (k' & R & S); try done; [by rewrite (dk_type _ _ Dk) | lia | fslia |].
  rewrite Z.min_l in R by lia. exists k', (fbytes (fsb k) dp (j * 16) 16). split_and!; [done | | done].
  unfold dirent_at. do 2 f_equal. lia.
Qed.

Lemma dir_ok_same g g' dp : (forall n, g' n = g n) -> dir_ok g dp -> dir_ok g' dp.
Proof.
  intros Hg [D1 D2 D3]. split; try done. intros p Hp. unfold fbyte, fblock. rewrite (bslot_same g) by done. rewrite Hg.
  by apply D3.
Qed.
Lemma dirent_same g g' dp j : (forall n, g' n = g n) -> dirent_at g' dp j = dirent_at g dp j.
Proof. intros Hg. unfold dirent_at. by rewrite (fbytes_same g). Qed.

(** The scans of dirlookup and dirlink: [body] reads an entry and goes on
    while [test] fails for it. *)
Lemma dir_scan {R} pr A i dp (g : Z -> list Z) (test : Z -> Prop) `{!forall j, Decision (test j)}
    (body : Z -> KM (option R)) (fin : Z -> K -> outcome K (option R)) l : forall k P,
  txn k pr ∅ P A -> (length A < NBUF)%nat -> readable k i dp -> dir_ok (fsb k) dp -> (forall n, fsb k n = g n) ->
  (forall j, j ∈ l -> 0 <= j < i_size dp / 16) ->
  (forall j k P, txn k pr ∅ P A -> readable k i dp -> dir_ok (fsb k) dp -> (forall n, fsb k n = g n) -> j ∈ l ->
     exists k', rdstep pr A k k' /\ body (j * 16) k = if decide (test j) then fin j k' else Ok None k') ->
  (forall j k r k', fin j k = Ok r k' -> r <> None) ->
  exists k', rdstep pr A k k' /\ for_ret ((fun j => j * 16) <$> l) body k =
    match list_find test l with
    | Some (_, j) => fin j k'
    | None => Ok None k'
    end.
Proof.
  induction l as [|j l IH]; intros k P T HA Ra Dk Hg Hl Hb Hfin.
  { exists k. split; [by eapply rdstep_refl | done]. }
  destruct (Hb j k P T Ra Dk Hg ltac:(left)) as (k1 & S1 & R1). cbn [fmap list_fmap for_ret list_find].
  unfold bind. rewrite R1. destruct (decide (test j)) as [Ht|Ht].
  - exists k1. split; [done|]. destruct (fin j k1) as [[r|] k2| | |] eqn:Hf; try done. by destruct (Hfin _ _ _ _ Hf).
  - destruct (rd_txn _ _ _ _ S1) as [P1 T1].
    destruct (IH k1 P1) as (k2 & S2 & R2); try done.
    + by eapply readable_rdstep.
    + apply (dir_ok_same (fsb k)); [apply S1 | done].
    + intros n. by rewrite (rd_fsb _ _ _ _ S1).
    + intros j' Hj'. apply Hl. by right.
    + intros j' k' P' T' Ra' Dk' Hg' Hj'. apply (Hb j' k' P'); try done. by right.
    + exists k2. split; [by eapply rdstep_trans|]. rewrite R2. by destruct (list_find test l) as [[]|].
Qed.

Lemma zseq_dir dp j : j ∈ zseq 0 (i_size dp / 16) -> 0 <= j < i_size dp / 16.
Proof. apply elem_of_zseq. Qed.

Lemma dirlookup_ok pr A k P i dp name :
  txn k pr ∅ P A -> (length A < NBUF)%nat -> readable k i dp -> dir_ok (fsb k) dp -> Forall is_u8 name ->
  exists k', rdstep pr A k k' /\ dirlookup i name k =
    match dir_find (fsb k) dp (cstr DIRSIZ name) with
    | Some j => (let* ip := iget (i_dev dp) (de_inum (dirent_at (fsb k) dp j)) in ret (Some (ip, j * 16))) k'
    | None => Ok None k'
    end.
Proof.
  intros T HA Ra Dk Hn. assert (get_inode i k = Ok dp k) as Rg by (unfold get_inode; msimp; by rewrite (ra_icache _ _ _ Ra)).
  unfold dirlookup, dir_find. mrun Rg. rewrite (dk_type _ _ Dk), Z.eqb_refl, dir_offs_eq by apply Dk. cbn [negb].
  set (fin := fun j => let* ip := iget (i_dev dp) (de_inum (dirent_at (fsb k) dp j)) in ret (Some (ip, j * 16))).
  match goal with |- context [for_ret _ ?b k] => 
    destruct (dir_scan pr A i dp (fsb k) (dir_hit (fsb k) dp (cstr DIRSIZ name)) b fin (zseq 0 (i_size dp / 16)) k P)
      as (k' & S & R); [done | done | done | done | done | apply zseq_dir | | |] end.
  3: { exists k'. split; [done|]. etrans; [exact R|]. by destruct (list_find _ _) as [[]|]. }
  - intros j k0 P0 T0 Ra0 Dk0 Hg Hj%zseq_dir.
    destruct (read_dirent pr A k0 P0 i dp j T0 HA Ra0 Dk0 Hj) as (k1 & bs & R1 & Hde & S1).
    exists k1. split; [done|]. mrun R1. rewrite Hde, (dirent_same (fsb k)) by done.
    pose proof (dir_test (fsb k) dp name j Dk Hn Hj) as Ht. destruct (decide (dir_hit _ _ _ j)) as [H|H].
    + rewrite bool_decide_true in Ht by done. destruct (_ =? 0); [done|]. by rewrite Ht.
    + rewrite bool_decide_false in Ht by done. destruct (_ =? 0); [done|]. by rewrite Ht.
  - intros j k0 r k1 (ip & k2 & _ & H)%bind_ok_inv. by injection H as <- _.
Qed.

(** ** dirlink *)

Lemma get_dirent_bytes n nm :
  is_u16 n -> length nm = DIRSIZ -> get_dirent (dirent_bytes (mk_dirent n nm)) = mk_dirent n nm.
Proof.
  intros Hn Hl. unfold get_dirent, dirent_bytes. cbn [de_inum de_name].
  f_equal; [by apply of_le_le16|]. unfold slice. cbn [app le16 drop]. apply take_ge. lia.
Qed.

(** The entries after [de] was written at entry [j]. *)
Lemma written_dirent spare pr k i dp j de k' A' dp' x :
  length (de_name de) = DIRSIZ -> is_u16 (de_inum de) -> 0 <= j -> 0 <= x < MAXFILE * BSIZE / 16 ->
  written spare pr k i dp (16 * j) (dirent_bytes de) k' A' dp' ->
  dirent_at (fsb k') dp' x = if decide (x = j) then de else dirent_at (fsb k) dp x.
Proof.
  intros Hl Hn Hj Hx W. assert (length (dirent_bytes de) = 16%nat) as Hb by (unfold dirent_bytes; rewrite length_app, Hl; done).
  pose proof (wn_bytes _ _ _ _ _ _ _ _ _ _ W) as Hw. rewrite Hb in Hw. unfold dirent_at. case_decide as Hxj.
  - subst x. replace 16 with (Z.of_nat (length (dirent_bytes de))) at 2 by (by rewrite Hb). rewrite fbytes_nth.
    + destruct de. by apply get_dirent_bytes.
    + rewrite Hb. intros p Hp. rewrite Hw by fslia. by rewrite decide_True by lia.
  - f_equal. apply fbytes_ext. intros p Hp. rewrite Hw by fslia. by rewrite decide_False by lia.
Qed.

Lemma written_entries spare pr k i dp j de k' A' dp' :
  length (de_name de) = DIRSIZ -> is_u16 (de_inum de) -> 0 <= j <= i_size dp / 16 -> i_size dp mod 16 = 0 ->
  16 * j + 16 <= MAXFILE * BSIZE -> i_size dp <= MAXFILE * BSIZE ->
  written spare pr k i dp (16 * j) (dirent_bytes de) k' A' dp' ->
  dir_entries (fsb k') dp' =
    if decide (j = i_size dp / 16) then dir_entries (fsb k) dp ++ [de] else <[Z.to_nat j := de]> (dir_entries (fsb k) dp).
Proof.
  intros Hl Hn Hj Hs Hm Hm' W. assert (length (dirent_bytes de) = 16%nat) as Hb by (unfold dirent_bytes; rewrite length_app, Hl; done).
  assert (i_size dp' = Z.max (i_size dp) (16 * j + 16)) as Hsz
    by (rewrite (wn_inode _ _ _ _ _ _ _ _ _ _ W), Hb; done).
  unfold dir_entries. apply list_eq. intros x.
  assert (forall x, (x < Z.to_nat (i_size dp' / 16))%nat ->
    (dirent_at (fsb k') dp' <$> zseq 0 (i_size dp' / 16)) !! x =
    Some (if decide (Z.of_nat x = j) then de else dirent_at (fsb k) dp (Z.of_nat x))) as Hlk.
  { intros y Hy. rewrite list_lookup_fmap, zseq_lookup by done. cbn. f_equal. apply (written_dirent spare pr k i dp j de k' A'); try done; try lia. }
  case_decide as Hjs.
  - destruct (decide (x < Z.to_nat (i_size dp' / 16))%nat) as [Hx|Hx].
    + rewrite Hlk by done. case_decide.
      * rewrite lookup_app_r; rewrite length_fmap, zseq_length; [|lia]. by replace (x - _)%nat with 0%nat by lia.
      * rewrite lookup_app_l by (rewrite length_fmap, zseq_length; lia). rewrite list_lookup_fmap, zseq_lookup by lia. done.
    + rewrite !lookup_ge_None_2; [done | rewrite length_app, length_fmap, zseq_length; cbn; lia | rewrite length_fmap, zseq_length; lia].
  - replace (i_size dp') with (i_size dp) in * by lia. destruct (decide (x < Z.to_nat (i_size dp / 16))%nat) as [Hx|Hx].
    + rewrite Hlk by done. case_decide.
      * subst j. rewrite Nat2Z.id, list_lookup_insert_eq; [done|]. by rewrite length_fmap, zseq_length.
      * rewrite list_lookup_insert_ne by lia. rewrite list_lookup_fmap, zseq_lookup by lia. done.
    + rewrite !lookup_ge_None_2; [done | rewrite length_insert, length_fmap, zseq_length; lia | rewrite length_fmap, zseq_length; lia].
Qed.

(** Writing after reading. *)
Lemma written_rebase spare pr A k k1 i ip off src k' A' ip' :
  rdstep pr A k k1 -> written spare pr k1 i ip off src k' A' ip' -> written spare pr k i ip off src k' A' ip'.
Proof.
  intros S [W1 W2 W3 W4 W5 W6 W7 W8]. pose proof (rd_fsb _ _ _ _ S) as V. pose proof (rd_op _ _ _ _ S) as O.
  pose proof (op_sb _ _ O) as Hsb. rewrite Hsb in W7. split; try done.
  - etrans; [|exact W2]. rewrite (icache_op _ _ O). by apply op_icache.
  - intros p Hp. rewrite W5 by done. case_decide; [done|]. unfold fbyte, fblock. rewrite (bslot_same (fsb k)) by done. by rewrite V.
  - intros n Hn Hne. rewrite W7 by done. unfold disk_inode. by rewrite Hsb, V.
  - intros n [Hn Hu] Hne. rewrite W8; [by rewrite V | |].
    + split; [by rewrite Hsb | by rewrite (used_same k k1)].
    + intros j Hj. rewrite (bslot_same (fsb k)) by done. by apply Hne.
Qed.

(** The first free entry, or the end. *)
Definition dir_slot (g : Z -> list Z) (dp : inode) : Z :=
  match list_find (fun j => de_inum (dirent_at g dp j) = 0) (zseq 0 (i_size dp / 16)) with
  | Some (_, j) => j
  | None => i_size dp / 16
  end.

Lemma dir_slot_same g g' dp : (forall n, g' n = g n) -> dir_slot g' dp = dir_slot g dp.
Proof.
  intros Hg. unfold dir_slot. rewrite (list_find_ext _ (fun j => de_inum (dirent_at g dp j) = 0)); [done|]. intros j. by rewrite (dirent_same g).
Qed.

Lemma dir_slot_spec g dp : 0 <= i_size dp ->
  0 <= dir_slot g dp <= i_size dp / 16 /\
  (dir_slot g dp <> i_size dp / 16 -> de_inum (dirent_at g dp (dir_slot g dp)) = 0).
Proof.
  intros Hs. unfold dir_slot. destruct (list_find _ _) as [[x j]|] eqn:Hf; [|lia].
  apply list_find_Some in Hf as (Hx & Hj & _). pose proof (zseq_dir dp j (list_elem_of_lookup_2 _ _ _ Hx)). naive_solver lia.
Qed.

Lemma dirlink_slot_ok pr A k P i dp :
  txn k pr ∅ P A -> (length A < NBUF)%nat -> readable k i dp -> dir_ok (fsb k) dp ->
  exists r k', dirlink_slot i (i_size dp) k = Ok r k' /\ rdstep pr A k k' /\
    default (16 * ((i_size dp + 15) / 16)) r = 16 * dir_slot (fsb k) dp.
Proof.
  intros T HA Ra Dk. unfold dirlink_slot. rewrite dir_offs_eq by apply Dk.
  set (tst := fun j => de_inum (dirent_at (fsb k) dp j) = 0).
  match goal with |- context [for_ret _ ?b] =>
    destruct (dir_scan pr A i dp (fsb k) tst b (fun j => Ok (Some (j * 16))) (zseq 0 (i_size dp / 16)) k P)
      as (k2 & S2 & R2); [done | done | done | done | done | apply zseq_dir | | |] end.
  { intros j k0 P0 T0 Ra0 Dk0 Hg Hj%zseq_dir.
    destruct (read_dirent pr A k0 P0 i dp j T0 HA Ra0 Dk0 Hj) as (k3 & bs & R3 & Hde & S3).
    exists k3. split; [done|]. mrun R3. rewrite Hde, (dirent_same (fsb k)) by done. unfold tst.
    destruct (Z.eqb_spec (de_inum (dirent_at (fsb k) dp j)) 0) as [H|H]; [by rewrite decide_True|by rewrite decide_False]. }
  { by intros j k0 r k3 [= <- _]. }
  exists ((fun x => x.2 * 16) <$> list_find tst (zseq 0 (i_size dp / 16))), k2. split_and!; [| done |].
  - rewrite R2. by destruct (list_find _ _) as [[]|].
  - unfold dir_slot. fold tst. pose proof (dk_size _ _ Dk). destruct (list_find _ _) as [[? j]|]; cbn; lia.
Qed.

Lemma dirlink_run spare pr k A i dp name inum :
  file_ok k i dp -> tx k pr ∅ A -> dir_ok (fsb k) dp -> Forall is_u8 name ->
  dir_map (fsb k) dp (cstr DIRSIZ name) = None -> i_size dp + 16 <= MAXFILE * BSIZE ->
  (length A + 6 < NBUF)%nat -> (indirect_cost dp + 1 + spare <= nfree k)%nat ->
  exists k' A' dp', dirlink i name inum k = Ok 0 k' /\
    written spare pr k i dp (16 * dir_slot (fsb k) dp) (dirent_bytes (mk_dirent (u16 inum) (strncpy name DIRSIZ))) k' A' dp'.
Proof.
  intros Fo T Dk Hn Hno Hm HA Hf. pose proof T as [[P Tn] _ _]. pose proof (fo_readable _ _ _ Fo) as Ra.
  pose proof (de_size _ _ (ra_dense _ _ _ Ra)) as Hsz.
  destruct (dirlookup_ok pr A k P i dp name Tn ltac:(lia) Ra Dk Hn) as (k1 & S1 & R1).
  unfold dir_map in Hno. destruct (dir_find _ _ _); [done|]. clear Hno.
  unfold dirlink. mrun R1. destruct (rd_txn _ _ _ _ S1) as [P1 T1].
  pose proof (readable_rdstep _ _ _ _ _ _ S1 Ra) as Ra1. pose proof (dir_ok_same _ (fsb k1) _ (rd_fsb _ _ _ _ S1) Dk) as Dk1.
  assert (get_inode i k1 = Ok dp k1) as Rg by (unfold get_inode; msimp; by rewrite (ra_icache _ _ _ Ra1)).
  mrun Rg. destruct (dirlink_slot_ok pr A k1 P1 i dp T1 ltac:(lia) Ra1 Dk1) as (r & k2 & R2 & S2 & Hr). mrun R2.
  rewrite Hr. rewrite (dir_slot_same (fsb k)) by apply S1.
  destruct (dir_slot_spec (fsb k) dp ltac:(lia)) as [Hsl _].
  pose proof (rdstep_trans _ _ _ _ _ S1 S2) as S12. pose proof (rdstep_same_fs _ _ _ _ S12) as Sf.
  set (src := dirent_bytes _). assert (length src = 16%nat) as Hl by (unfold src, dirent_bytes; cbn [de_name]; rewrite length_app, strncpy_length; done).
  destruct (writei_ok spare pr k2 A i dp (16 * dir_slot (fsb k) dp) src) as (k3 & A3 & dp3 & R3 & W); rewrite ?Hl.
  - by apply (file_ok_same k).
  - by apply (rdstep_tx _ _ k).
  - assert (touched (16 * dir_slot (fsb k) dp) 16 = 1%nat) as Ht by (unfold touched; cbn; klia). unfold write_room.
    change (Z.of_nat 16) with 16. rewrite Ht, (same_fs_nfree k); [lia | apply Ra | done].
  - lia.
  - lia.
  - rewrite Hl in R3. mrun R3. exists k3, A3, dp3. split; [done|]. by apply (written_rebase _ _ A _ k2).
Qed.

(** ** iget *)

(** Entry [x] of the inode table changed by [f]. *)
Definition with_inode (x : nat) (f : inode -> inode) (k : K) : K := set_icache (alter f x (icache k)) k.
#[local] Instance framed_with_inode x f : Framed (with_inode x f).
Proof. by intros ? ? ? ? ? ?. Qed.

Lemma iget_run k pr d n :
  calm k pr -> iget d n k =
    match iget_cached (icache k) d n with
    | Some x => Ok x (with_inode x (fun ip => set_i_ref (i_ref ip + 1) ip) k)
    | None =>
        match iget_empty (icache k) with
        | Some x => Ok x (with_inode x (fun ip => set_i_valid 0 (set_i_ref 1 (set_i_inum n (set_i_dev d ip)))) k)
        | None => Panic "iget: no inodes" (locked L_icache k)
        end
    end.
Proof.
  intros [Hq _ Hf _ _]. assert (lock_free L_icache k) as Hlf by (apply Hf; by apply (bool_decide_unpack _)).
  unfold iget. mrun (acquire_ok L_icache k Hq Hlf). msimp. unlocked.
  destruct (iget_cached (icache k) d n) as [x|].
  - unfold upd_inode. msimp. by mrun (release_ok L_icache (with_inode x (fun ip => set_i_ref (i_ref ip + 1) ip)) k Hq Hlf _).
  - destruct (iget_empty (icache k)) as [x|]; [|done]. unfold upd_inode. msimp.
    by mrun (release_ok L_icache (with_inode x (fun ip => set_i_valid 0 (set_i_ref 1 (set_i_inum n (set_i_dev d ip))))) k Hq Hlf _).
Qed.

(** The directory stays one. *)
Lemma written_dir_ok spare pr k i dp j de k' A' dp' :
  dir_ok (fsb k) dp -> Forall is_u8 (de_name de) -> length (de_name de) = DIRSIZ -> 0 <= j <= i_size dp / 16 ->
  0 <= i_size dp -> i_size dp + 16 <= MAXFILE * BSIZE ->
  written spare pr k i dp (16 * j) (dirent_bytes de) k' A' dp' -> dir_ok (fsb k') dp'.
Proof.
  intros [D1 D2 D3] Hu Hl Hj H0 Hm W. assert (length (dirent_bytes de) = 16%nat) as Hb by (unfold dirent_bytes; rewrite length_app, Hl; done).
  pose proof (wn_inode _ _ _ _ _ _ _ _ _ _ W) as Hi. rewrite Hb in Hi.
  assert (i_size dp' = Z.max (i_size dp) (16 * j + 16)) as Hsz by (rewrite Hi; done).
  split; [by rewrite Hi | lia |]. intros p Hp. rewrite (wn_bytes _ _ _ _ _ _ _ _ _ _ W) by lia. rewrite Hb.
  case_decide; [|apply D3; lia].
  assert (Forall is_u8 (dirent_bytes de)) as Hall.
  { apply list.Forall_app. split; [|done]. unfold le16, u8. repeat constructor; unfold is_u8; lia. }
  rewrite list.Forall_forall in Hall. apply Hall, list_elem_of_In, nth_In. lia.
Qed.

Definition iget_slot (ips : list inode) (d n : Z) : option nat :=
  match iget_cached ips d n with Some x => Some x | None => iget_empty ips end.

Lemma iget_ok k pr d n x :
  calm k pr -> iget_slot (icache k) d n = Some x ->
  exists f ip, iget d n k = Ok x (with_inode x f k) /\ icache k !! x = Some ip /\
    i_dev (f ip) = d /\ i_inum (f ip) = n /\ 1 <= i_ref (f ip).
Proof.
  intros C Hx. rewrite (iget_run k pr d n C). unfold iget_slot, iget_cached, iget_empty in *.
  destruct (list_find (fun ip => 0 < i_ref ip /\ _) (icache k)) as [[y ip]|] eqn:Hf.
  - injection Hx as <-. apply list_find_Some in Hf as (Hy & (H1 & H2 & H3) & _).
    eexists _, ip. split_and!; [done | done | done | done |]. cbn. lia.
  - cbn in Hx |- *. destruct (list_find (fun ip => i_ref ip = 0) (icache k)) as [[y ip]|] eqn:He; [|done]. injection Hx as <-.
    apply list_find_Some in He as (Hy & _ & _). eexists _, ip. split_and!; try done.
Qed.

Lemma op_runs k k' p : op k k' -> runs_proc k p -> runs_proc k' p /\ k_sched k' = k_sched k.
Proof.
  intros O Hr. split; [|by rewrite (op_frame _ _ O)]. rewrite (op_frame _ _ O).
  by apply (runs_proc_framed (fun k => set_klog _ (set_k_dwrites _ (set_disk _ (set_bcache _ (set_sleeplocks _ k)))))).
Qed.

(** ** Properties *)


Lemma dirlink_ok spare pr k A i dp name inum :
  file_ok k i dp -> tx k pr ∅ A -> dir_ok (fsb k) dp -> Forall is_u8 name -> 0 < inum < 2 ^ 16 ->
  dir_map (fsb k) dp (cstr DIRSIZ name) = None -> i_size dp + 16 <= MAXFILE * BSIZE ->
  (length A + 6 < NBUF)%nat -> (indirect_cost dp + 1 + spare <= nfree k)%nat ->
  exists k' A' dp', dirlink i name inum k = Ok 0 k' /\
    written spare pr k i dp (16 * dir_slot (fsb k) dp) (dirent_bytes (mk_dirent inum (strncpy name DIRSIZ))) k' A' dp' /\
    dir_ok (fsb k') dp' /\
    forall c, dir_map (fsb k') dp' c = if decide (c = cstr DIRSIZ name) then Some inum else dir_map (fsb k) dp c.
Proof.
  intros Fo T Dk Hn Hi Hno Hm HA Hf. pose proof (de_size _ _ (ra_dense _ _ _ (fo_readable _ _ _ Fo))) as Hsz.
  destruct (dirlink_run spare pr k A i dp name inum Fo T Dk Hn Hno Hm HA Hf) as (k' & A' & dp' & R & W).
  assert (u16 inum = inum) as Hu by (unfold u16; lia). rewrite Hu in W. exists k', A', dp'.
  destruct (dir_slot_spec (fsb k) dp ltac:(lia)) as [Hsl Hfree]. split_and!; [done | done | |].
  { apply (written_dir_ok spare pr k i dp (dir_slot (fsb k) dp) (mk_dirent inum (strncpy name DIRSIZ)) k' A'); [done | apply strncpy_ok | apply strncpy_length | done | lia | done | done]. }
  intros c. set (de := mk_dirent inum (strncpy name DIRSIZ)) in *.
  rewrite !dir_map_entries in *.
  assert (hit (cstr DIRSIZ name) de) as Hh by (split; [cbn; lia | by apply (cstr_strncpy DIRSIZ)]).
  rewrite (written_entries spare pr k i dp (dir_slot (fsb k) dp) de k' A' dp'); try done;
    [| apply strncpy_length | unfold is_u16; cbn; lia | apply Dk | lia | lia].
  case_decide as Hj; [by rewrite entries_map_snoc with (c := cstr DIRSIZ name)|].
  rewrite entries_map_insert with (c := cstr DIRSIZ name) (de0 := dirent_at (fsb k) dp (dir_slot (fsb k) dp)); try done.
  - unfold dir_entries. rewrite list_lookup_fmap, zseq_lookup by lia. cbn. do 2 f_equal. lia.
  - by apply Hfree.
Qed.

(** C9. dirlink of a new name adds exactly that binding to the directory's map, in
    a transaction: it takes the first free entry or extends the directory. *)
Theorem dirlink_spec spare pr k A i dp name inum :
  file_ok k i dp -> tx k pr ∅ A -> dir_ok (fsb k) dp -> Forall is_u8 name -> 0 < inum < 2 ^ 16 ->
  dir_map (fsb k) dp (cstr DIRSIZ name) = None -> i_size dp + 16 <= MAXFILE * BSIZE ->
  (length A + 6 < NBUF)%nat -> (indirect_cost dp + 1 + spare <= nfree k)%nat ->
  exists k' A' dp', dirlink i name inum k = Ok 0 k' /\
    written spare pr k i dp (16 * dir_slot (fsb k) dp) (dirent_bytes (mk_dirent inum (strncpy name DIRSIZ))) k' A' dp' /\
    dir_ok (fsb k') dp' /\
    forall c, dir_map (fsb k') dp' c = if decide (c = cstr DIRSIZ name) then Some inum else dir_map (fsb k) dp c.
Proof. apply dirlink_ok. Qed.

(** dirlink of a name that is bound to the directory itself, as "." is, waits
    for itself: iput wants the lock of the directory's inode, which the caller
    of dirlink holds.  With nothing else going on the process is left asleep
    on a lock that it owns. *)
Theorem dirlink_self_deadlock pr A k P i dp name inum p n :
  txn k pr ∅ P A -> (length A < NBUF)%nat -> readable k i dp -> dir_ok (fsb k) dp -> Forall is_u8 name ->
  dir_map (fsb k) dp (cstr DIRSIZ name) = Some n -> iget_cached (icache k) (i_dev dp) n = Some i ->
  (i < NINODE)%nat -> runs_proc k p -> k_sched k = [] ->
  sleeplocks k !! SL_inode i = Some (mk_sleeplock 1 (pid pr)) ->
  exists k' q, dirlink i name inum k = Stuck k' /\ ptable k' !! p = Some q /\
    state q = SLEEPING /\ chan q = Ch_sleeplock (SL_inode i) /\
    sleeplocks k' !! SL_inode i = Some (mk_sleeplock 1 (pid pr)).
Proof.
  intros T HA Ra Dk Hn Hm Hc Hi Hr Hs Hl. pose proof (tx_cache _ _ _ _ _ T) as [C _].
  destruct (dirlookup_ok pr A k P i dp name T HA Ra Dk Hn) as (k1 & S & R). unfold dir_map in Hm.
  destruct (dir_find _ _ _) as [j|]; [|done].
  assert (de_inum (dirent_at (fsb k) dp j) = n) as Hn' by (cbn [fmap option_fmap option_map] in Hm; congruence). rewrite Hn' in R.
  pose proof (rd_op _ _ _ _ S) as O. pose proof (icache_op _ _ O) as Hic. destruct (rd_txn _ _ _ _ S) as [P1 T1].
  pose proof (tx_cache _ _ _ _ _ T1) as [C1 _].
  set (k2 := with_inode i (fun ip => set_i_ref (i_ref ip + 1) ip) k1).
  assert (iget (i_dev dp) n k1 = Ok i k2) as Rg by (by rewrite (iget_run k1 pr _ _ C1), Hic, Hc).
  assert (dirlookup i name k = Ok (Some (i, j * 16)) k2) as R2 by (rewrite R; by mrun Rg).
  pose proof Hr as (Hq & Hcur & [q Hq0] & Hnc).
  assert (ptable k1 = ptable k /\ k_sched k1 = k_sched k) as (Hpt & Hks)
    by (by rewrite (op_frame _ _ O)).
  assert (runs_proc k2 p) as Hr2.
  { apply (runs_proc_framed (with_inode i _)); [apply _ | done |]. by destruct (op_runs _ _ p O Hr). }
  assert (forall lk, lk ∈ kernel_locks -> lock_free lk k2) as Hlf
    by (intros lk Hlk; apply (lock_free_framed (with_inode i _)), C1; [apply _ | done]).
  assert (sleeplocks k2 !! SL_inode i = Some (mk_sleeplock 1 (pid pr))) as Hl2 by (cbn; by rewrite (op_inodes _ _ O)).
  exists (parked (Ch_sleeplock (SL_inode i)) p k2), (asleep (Ch_sleeplock (SL_inode i)) q). split_and!; try done.
  - unfold dirlink. mrun R2. unfold iput. unfold bind at 1 2.
    rewrite (acquiresleep_held (SL_inode i) (mk_sleeplock 1 (pid pr)) p k2); try done.
    + apply Hlf. by apply inode_lock_known.
    + apply Hlf. left.
    + cbn. by rewrite Hks.
  - cbn. by rewrite Hpt, list_lookup_alter_eq, Hq0.
  - unfold parked. cbn. by unlocked.
Qed.
End frame.

(** ** Witnesses

    An empty directory, inode 1 of the sample file system, whose lock process 1
    holds in an open transaction. *)
Section samples.
#[local] Existing Instance idle_env.
#[local] Existing Instance sample_disk.
#[local] Existing Instance sample_disk_ok.
#[local] Existing Instance no_devices.

Definition empty_dir : inode := empty_inode T_DIR.
Definition dir_sample : K := hold_sl (SL_inode 0) (pid sample_pr) (inode_sample T_DIR).
Definition dot : list Z := [46; 0].

Lemma dir_sample_fs : same_fs (inode_sample T_DIR) dir_sample.
Proof. apply hold_same_fs. Qed.

Lemma dir_sample_tx : tx dir_sample sample_pr ∅ [].
Proof. apply hold_tx, inode_sample_tx. Qed.

Lemma dir_sample_ok : file_ok dir_sample 0 empty_dir.
Proof. apply (file_ok_same (inode_sample T_DIR)); [apply dir_sample_fs|]. apply inode_sample_ok. by left. Qed.

Lemma dir_sample_dir : dir_ok (fsb dir_sample) empty_dir.
Proof. split; [done | done |]. cbn. lia. Qed.

Lemma dir_sample_nfree : nfree dir_sample = 941%nat.
Proof.
  rewrite (same_fs_nfree (inode_sample T_DIR)); [apply inode_sample_nfree | apply inode_sample_fsys | apply dir_sample_fs].
Qed.


Lemma dirlink_spec_witness :
  exists k' dp', dirlink 0 dot 1 dir_sample = Ok 0 k' /\ dir_map (fsb k') dp' [46] = Some 1.
Proof.
  destruct (dirlink_spec 0 sample_pr dir_sample [] 0 empty_dir dot 1) as (k' & A' & dp' & R & _ & _ & Hm).
  - apply dir_sample_ok.
  - apply dir_sample_tx.
  - apply dir_sample_dir.
  - repeat constructor; unfold is_u8; lia.
  - lia.
  - reflexivity.
  - change MAXFILE with 140. change BSIZE with 512. cbn. lia.
  - cbn. unfold NBUF. lia.
  - rewrite dir_sample_nfree. vm_compute. lia.
  - exists k', dp'. split; [exact R|]. rewrite Hm. reflexivity.
Defined.

Lemma runs_on k p b l d L i q L' :
  runs_proc k p ->
  runs_proc (set_icache L (hold_sl (SL_inode i) q (set_icache L' (on_sample d (set_bcache b (set_sleeplocks l k)))))) p.
Proof.
  apply (runs_proc_framed (fun k => set_icache L (hold_sl (SL_inode i) q (set_icache L' (on_sample d
    (set_bcache b (set_sleeplocks l k))))))).
  - by intros ? ? ? ? ? ?.
  - done.
Qed.
Lemma sample_dir_runs L : runs_proc (set_icache L dir_sample) 0.
Proof. apply runs_on, sample_runs. Qed.

(** The directory with "." in it. *)
Lemma dot_sample : exists k A dp,
  tx k sample_pr ∅ A /\ (length A < NBUF)%nat /\ readable k 0 dp /\ dir_ok (fsb k) dp /\
  dir_map (fsb k) dp [46] = Some 1 /\ iget_cached (icache k) (i_dev dp) 1 = Some 0%nat /\
  runs_proc k 0 /\ k_sched k = [] /\ sleeplocks k !! SL_inode 0 = Some (mk_sleeplock 1 (pid sample_pr)).
Proof.
  destruct (dirlink_ok 0 sample_pr dir_sample [] 0 empty_dir dot 1) as (k & A & dp & _ & W & Dk & Hm).
  - apply dir_sample_ok.
  - apply dir_sample_tx.
  - apply dir_sample_dir.
  - repeat constructor; unfold is_u8; lia.
  - lia.
  - reflexivity.
  - change MAXFILE with 140. change BSIZE with 512. cbn. lia.
  - cbn. unfold NBUF. lia.
  - rewrite dir_sample_nfree. vm_compute. lia.
  - pose proof (wn_op _ _ _ _ _ _ _ _ _ _ W) as O. pose proof (wn_tx _ _ _ _ _ _ _ _ _ _ W) as Tx.
    pose proof (wn_inode _ _ _ _ _ _ _ _ _ _ W) as Hi.
    exists k, A, dp. split_and!; try done.
    + destruct Tx as [[P T] _ _]. pose proof (tx_len _ _ _ _ _ T). klia.
    + apply W.
    + rewrite (icache_op _ _ O). cbn. by rewrite Hi.
    + by destruct (op_runs _ _ 0%nat O (sample_dir_runs _)).
    + destruct (op_runs _ _ 0%nat O (sample_dir_runs _)) as [_ ->]. by vm_compute.
    + rewrite (op_inodes _ _ O). by vm_compute.
Qed.

Lemma dirlink_self_deadlock_witness :
  exists k k' q, dirlink 0 dot 2 k = Stuck k' /\ ptable k' !! 0%nat = Some q /\ state q = SLEEPING /\
    sleeplocks k' !! SL_inode 0 = Some (mk_sleeplock 1 (pid sample_pr)).
Proof.
  destruct dot_sample as (k & A & dp & [[P T] _ _] & HA & Ra & Dk & Hm & Hc & Hr & Hs & Hl).
  destruct (dirlink_self_deadlock sample_pr A k P 0 dp dot 2 0 1) as (k' & q & R & Hq & Hst & _ & Hl').
  - exact T.
  - exact HA.
  - exact Ra.
  - exact Dk.
  - repeat constructor; unfold is_u8; lia.
  - exact Hm.
  - exact Hc.
  - unfold NINODE. lia.
  - exact Hr.
  - exact Hs.
  - exact Hl.
  - exists k, k', q. split_and!; assumption.
Defined.
End samples.
