(* ===== verification/Pipe.v ===== *)
(** * Pipes (pipe.c, except pipealloc, which is in File.v)

    A pipe is a ring buffer of PIPESIZE bytes with two free-running 32-bit
    counters.  It is identified by the address of its page.  The theorems
    show that it is a bounded FIFO queue, also when the counters wrap
    around. *)

From Stdlib Require Import ZArith Lia.
From stdpp Require Import base gmap list strings numbers.
From S2P Require Import Prelude Strings State Spinlock Sched Kalloc.

Open Scope Z_scope.

#[local] Ltac Zify.zify_post_hook ::= Z.div_mod_to_equations.

Definition PIPESIZE : Z := 512.

Section code.
Context `{E : Env} `{LY : Layout}.

Definition pipeclose (p : Z) (writable : bool) : KM unit :=
  acquire (L_pipe p) ;;;
  (if writable then
     upd_pipe p (set_p_writeopen 0) ;;;
     wakeup (Ch_pipe_nread p)
   else
     upd_pipe p (set_p_readopen 0) ;;;
     wakeup (Ch_pipe_nwrite p)) ;;;
  let* pp := get_pipe p in
  if (p_readopen pp =? 0) && (p_writeopen pp =? 0) then
    release (L_pipe p) ;;;
    modify (fun k => set_pipes (delete p (pipes k)) k) ;;;
    kfree p
  else release (L_pipe p).

Definition is_killed : KM bool :=
  let* op := myproc in
  let* i := deref "proc" op in
  let* pr := get_proc i in
  ret (Zb (killed pr)).

(** [p->data[p->nwrite++ % PIPESIZE] = c] and [p->data[p->nread++ % PIPESIZE]]. *)
Definition pipe_put (c : Z) (pp : pipe) : pipe :=
  set_p_nwrite (u32 (p_nwrite pp + 1))
    (set_p_data (<[Z.to_nat (p_nwrite pp mod PIPESIZE) := c]> (p_data pp)) pp).
Definition pipe_first (pp : pipe) : Z := nth (Z.to_nat (p_nread pp mod PIPESIZE)) (p_data pp) 0.
Definition pipe_drop (pp : pipe) : pipe := set_p_nread (u32 (p_nread pp + 1)) pp.

(** Waiting for room; false when the write has to fail. *)
Definition pipewrite_wait (p : Z) : KM bool :=
  forever
    (let* pp := get_pipe p in
     if p_nwrite pp =? u32 (p_nread pp + PIPESIZE) then
       let* dead := if p_readopen pp =? 0 then ret true else is_killed in
       if dead then release (L_pipe p) ;;; ret (Some false)
       else
         wakeup (Ch_pipe_nread p) ;;;
         sleep (Ch_pipe_nwrite p) (Some (L_pipe p)) ;;;
         ret None
     else ret (Some true)).

Fixpoint pipewrite_loop (p : Z) (addr : list Z) : KM bool :=
  match addr with
  | [] => ret true
  | c :: addr =>
      let* ok := pipewrite_wait p in
      if ok then upd_pipe p (pipe_put c) ;;; pipewrite_loop p addr
      else ret false
  end.

Definition pipewrite (p : Z) (addr : list Z) : KM Z :=
  acquire (L_pipe p) ;;;
  let* ok := pipewrite_loop p addr in
  if ok then
    wakeup (Ch_pipe_nread p) ;;;
    release (L_pipe p) ;;;
    ret (Z.of_nat (length addr))
  else ret (-1).

(** Waiting for a byte or for the end of the writers; false when the read has
    to fail. *)
Definition piperead_wait (p : Z) : KM bool :=
  forever
    (let* pp := get_pipe p in
     if (p_nread pp =? p_nwrite pp) && Zb (p_writeopen pp) then
       let* dead := is_killed in
       if dead then release (L_pipe p) ;;; ret (Some false)
       else sleep (Ch_pipe_nread p) (Some (L_pipe p)) ;;; ret None
     else ret (Some true)).

(** Up to [n] bytes. *)
Fixpoint piperead_loop (p : Z) (n : nat) : KM (list Z) :=
  match n with
  | O => ret []
  | S n =>
      let* pp := get_pipe p in
      if p_nread pp =? p_nwrite pp then ret []
      else
        upd_pipe p pipe_drop ;;;
        let* bs := piperead_loop p n in
        ret (pipe_first pp :: bs)
  end.

Definition piperead (p n : Z) : KM (Z * list Z) :=
  acquire (L_pipe p) ;;;
  let* ok := piperead_wait p in
  if ok then
    let* bs := piperead_loop p (Z.to_nat n) in
    wakeup (Ch_pipe_nwrite p) ;;;
    release (L_pipe p) ;;;
    ret (Z.of_nat (length bs), bs)
  else ret (-1, []).
End code.

(** ** The queue

    [queue pp q]: the unread bytes are [q], in order. *)
Record queue (pp : pipe) (q : list Z) : Prop := {
  qu_data : length (p_data pp) = Z.to_nat PIPESIZE;
  qu_read : is_u32 (p_nread pp);
  qu_write : p_nwrite pp = u32 (p_nread pp + Z.of_nat (length q));
  qu_size : Z.of_nat (length q) <= PIPESIZE;
  qu_bytes i c : q !! i = Some c ->
    p_data pp !! Z.to_nat (u32 (p_nread pp + Z.of_nat i) mod PIPESIZE) = Some c }.

Ltac plia := unfold PIPESIZE, is_u32, u32 in *; lia.

Lemma queue_full pp q : queue pp q ->
  (p_nwrite pp =? u32 (p_nread pp + PIPESIZE)) = bool_decide (Z.of_nat (length q) = PIPESIZE).
Proof.
  intros [H1 H2 H3 H4 _]. rewrite H3. destruct (bool_decide_reflect (Z.of_nat (length q) = PIPESIZE)) as [->|Hn].
  - by rewrite Z.eqb_refl.
  - apply Z.eqb_neq. plia.
Qed.

Lemma queue_empty pp q : queue pp q -> (p_nread pp =? p_nwrite pp) = bool_decide (q = []).
Proof.
  intros [H1 H2 H3 H4 _]. rewrite H3. destruct (bool_decide_reflect (q = [])) as [->|Hn].
  - cbn [length]. rewrite Z.add_0_r, u32_small by done. by rewrite Z.eqb_refl.
  - apply Z.eqb_neq. destruct q; [done|]. cbn [length] in *. plia.
Qed.

Lemma queue_put pp q c : queue pp q -> Z.of_nat (length q) < PIPESIZE -> queue (pipe_put c pp) (q ++ [c]).
Proof.
  intros [H1 H2 H3 H4 H5] Hl. split; cbn [pipe_put set_p_nwrite set_p_data p_data p_nread p_nwrite].
  - by rewrite length_insert.
  - done.
  - rewrite H3, length_app. cbn [length]. rewrite u32_add_l. f_equal. lia.
  - rewrite length_app. cbn [length]. lia.
  - intros i x Hi. rewrite H3. apply lookup_app_Some in Hi as [Hi|[Hi Hx]].
    + pose proof (lookup_lt_Some _ _ _ Hi). rewrite list_lookup_insert_ne; [by apply H5 | plia].
    + apply list_lookup_singleton_Some in Hx as [Hx ->]. replace i with (length q) by lia.
      apply list_lookup_insert_eq. rewrite H1. plia.
Qed.

Lemma queue_get pp c q : queue pp (c :: q) -> pipe_first pp = c /\ queue (pipe_drop pp) q.
Proof.
  intros [H1 H2 H3 H4 H5]. split.
  - pose proof (H5 0%nat c eq_refl) as H. unfold pipe_first. apply nth_lookup_Some.
    rewrite Z.add_0_r, u32_small in H by done. exact H.
  - split; cbn [pipe_drop set_p_nread p_data p_nread p_nwrite]; [done | apply u32_bound | | cbn in H4; lia |].
    + rewrite H3, u32_add_l. cbn [length]. f_equal. lia.
    + intros i x Hi. rewrite u32_add_l. specialize (H5 (S i) x Hi).
      replace (p_nread pp + 1 + Z.of_nat i) with (p_nread pp + Z.of_nat (S i)) by lia. exact H5.
Qed.

Section spec.
Context `{E : Env}.
Implicit Types (k : K) (p : Z).

Definition put_pipe (p : Z) (pp : pipe) (k : K) : K := set_pipes (<[p := pp]> (pipes k)) k.

#[export] Instance framed_put_pipe p pp : Framed (put_pipe p pp).
Proof. by intros ? ? ? ? ? ?. Qed.

Lemma get_pipe_ok p pp k : pipes k !! p = Some pp -> get_pipe p k = Ok pp k.
Proof. intros H. unfold get_pipe. msimp. by rewrite H. Qed.
Lemma upd_pipe_ok p pp f k : pipes k !! p = Some pp -> upd_pipe p f k = Ok tt (put_pipe p (f pp) k).
Proof.
  intros H. unfold upd_pipe, modify, put_pipe. do 2 f_equal. by apply alter_map_insert.
Qed.
Lemma put_pipe_pipes p pp k : pipes (put_pipe p pp k) !! p = Some pp.
Proof. apply lookup_insert_eq. Qed.
Lemma put_put_pipe p pp pp' k : put_pipe p pp' (put_pipe p pp k) = put_pipe p pp' k.
Proof. unfold put_pipe. cbn. by rewrite insert_insert_eq. Qed.
Lemma put_pipe_id p pp k : pipes k !! p = Some pp -> put_pipe p pp k = k.
Proof. intros H. unfold put_pipe. rewrite insert_id by done. by destruct k. Qed.

Lemma pipewrite_wait_room p pp q k :
  pipes k !! p = Some pp -> queue pp q -> Z.of_nat (length q) < PIPESIZE -> pipewrite_wait p k = Ok true k.
Proof.
  intros Hp Hq Hl. apply forever_done. mrun (get_pipe_ok p pp k Hp). rewrite (queue_full pp q Hq).
  by rewrite bool_decide_false by lia.
Qed.

Lemma pipewrite_loop_ok p bs : forall pp q k,
  pipes k !! p = Some pp -> queue pp q -> Z.of_nat (length q + length bs) <= PIPESIZE ->
  exists pp', pipewrite_loop p bs k = Ok true (put_pipe p pp' k) /\ queue pp' (q ++ bs) /\
    p_readopen pp' = p_readopen pp /\ p_writeopen pp' = p_writeopen pp.
Proof.
  induction bs as [|c bs IH]; intros pp q k Hp Hq Hl; cbn [pipewrite_loop length] in *.
  - exists pp. rewrite app_nil_r, put_pipe_id by done. done.
  - mrun (pipewrite_wait_room p pp q k Hp Hq ltac:(lia)). mrun (upd_pipe_ok p pp (pipe_put c) k Hp).
    destruct (IH (pipe_put c pp) (q ++ [c]) (put_pipe p (pipe_put c pp) k)) as (pp' & R & Hq' & Ho & Hw).
    + apply put_pipe_pipes.
    + apply queue_put; [done | lia].
    + rewrite length_app. cbn. lia.
    + exists pp'. rewrite R, put_put_pipe, <-app_assoc in *. done.
Qed.

Lemma piperead_loop_ok p n : forall pp q k,
  pipes k !! p = Some pp -> queue pp q ->
  exists pp', piperead_loop p n k = Ok (take n q) (put_pipe p pp' k) /\ queue pp' (drop n q) /\
    p_readopen pp' = p_readopen pp /\ p_writeopen pp' = p_writeopen pp.
Proof.
  induction n as [|n IH]; intros pp q k Hp Hq; cbn [piperead_loop].
  - exists pp. rewrite put_pipe_id by done. by rewrite drop_0.
  - mrun (get_pipe_ok p pp k Hp). rewrite (queue_empty pp q Hq). destruct q as [|c q].
    + rewrite bool_decide_true by done. exists pp. by rewrite put_pipe_id.
    + rewrite bool_decide_false by done. mrun (upd_pipe_ok p pp pipe_drop k Hp).
      destruct (queue_get pp c q Hq) as [-> Hq'].
      destruct (IH (pipe_drop pp) q (put_pipe p (pipe_drop pp) k)) as (pp' & R & Hq2 & Ho & Hw);
        [apply put_pipe_pipes | done |].
      mrun R. exists pp'. rewrite put_put_pipe. done.
Qed.

(** The critical sections around the loops. *)
Lemma pipe_section p pp ch k :
  quiet k -> lock_free (L_pipe p) k -> lock_free L_ptable k ->
  (wakeup ch ;;; release (L_pipe p)) (put_pipe p pp (locked (L_pipe p) k)) =
  Ok tt (wake ch (put_pipe p pp k)).
Proof.
  intros Hq Hf Hp. assert (quiet (put_pipe p pp (locked (L_pipe p) k))) as Hq1
    by (apply quiet_framed; [apply _ | by apply quiet_locked]).
  assert (lock_free L_ptable (put_pipe p pp (locked (L_pipe p) k))) as Hp1
    by (apply lock_free_framed; [apply _ | by apply lock_free_locked]).
  mrun (wakeup_ok ch _ Hq1 Hp1).
  exact (release_ok (L_pipe p) (fun k => wake ch (put_pipe p pp k)) k Hq Hf _).
Qed.


(** C28. Reading up to [n] bytes from a pipe that is not empty (or that has
    no writer left) returns the oldest bytes of the queue, as many as there
    are up to [n], removes exactly them, and wakes the writers; 0 bytes mean
    that the pipe is empty and closed for writing. *)
Theorem piperead_spec p pp q n k :
  quiet k -> lock_free (L_pipe p) k -> lock_free L_ptable k ->
  pipes k !! p = Some pp -> queue pp q -> q <> [] \/ p_writeopen pp = 0 ->
  exists pp', piperead p n k =
      Ok (Z.of_nat (length (take (Z.to_nat n) q)), take (Z.to_nat n) q) (wake (Ch_pipe_nwrite p) (put_pipe p pp' k)) /\
    queue pp' (drop (Z.to_nat n) q) /\ p_readopen pp' = p_readopen pp /\ p_writeopen pp' = p_writeopen pp.
Proof.
  intros Hk Hf Hp Hl Hq Hne. unfold piperead. mrun (acquire_ok (L_pipe p) k Hk Hf).
  assert (pipes (locked (L_pipe p) k) !! p = Some pp) as Hl1 by (by unlocked).
  assert (piperead_wait p (locked (L_pipe p) k) = Ok true (locked (L_pipe p) k)) as Rw.
  { apply forever_done. mrun (get_pipe_ok p pp _ Hl1). rewrite (queue_empty pp q Hq).
    destruct Hne as [Hne|Hw]; [by rewrite bool_decide_false | by rewrite Hw, andb_false_r]. }
  mrun Rw. destruct (piperead_loop_ok p (Z.to_nat n) pp q (locked (L_pipe p) k) Hl1 Hq) as (pp' & R & Hq' & Ho).
  mrun R. exists pp'. split; [|done]. pose proof (pipe_section p pp' (Ch_pipe_nwrite p) k Hk Hf Hp) as Rs.
  rewrite <-bind_assoc. by mrun Rs.
Qed.

(** A write to a full pipe whose readers are gone fails at once, releases the
    lock and leaves the queue as it is. *)
Theorem pipewrite_broken p pp q c bs k :
  quiet k -> lock_free (L_pipe p) k -> pipes k !! p = Some pp -> queue pp q ->
  Z.of_nat (length q) = PIPESIZE -> p_readopen pp = 0 ->
  pipewrite p (c :: bs) k = Ok (-1) k.
Proof.
  intros Hk Hf Hl Hq Hlen Hro. unfold pipewrite. mrun (acquire_ok (L_pipe p) k Hk Hf).
  assert (pipes (locked (L_pipe p) k) !! p = Some pp) as Hl1 by (by unlocked).
  assert (pipewrite_wait p (locked (L_pipe p) k) = Ok false k) as Rw.
  { apply forever_done. mrun (get_pipe_ok p pp _ Hl1). rewrite (queue_full pp q Hq).
    rewrite bool_decide_true by done. rewrite Hro, Z.eqb_refl. msimp.
    by mrun (release_ok (L_pipe p) (fun k => k) k Hk Hf _). }
  cbn [pipewrite_loop]. rewrite bind_assoc. by mrun Rw.
Qed.
End spec.

(** ** A pipe about to wrap around *)

Definition sample_pipe : pipe := mk_pipe (replicate 512 0) (2 ^ 32 - 1) (2 ^ 32 - 1) 1 1.
Definition sample_pipes : K :=
  set_pipes {[ 4096 := sample_pipe ]} (set_locks (<[L_pipe 4096 := mk_spinlock 0 None]> (locks sample)) sample).

Lemma sample_pipe_queue : queue sample_pipe [].
Proof. by split. Qed.

Lemma quiet_locks ls k : quiet k -> quiet (set_locks ls k).
Proof. done. Qed.

Lemma sample_pipes_ok :
  quiet sample_pipes /\ lock_free (L_pipe 4096) sample_pipes /\ lock_free L_ptable sample_pipes /\
  pipes sample_pipes !! 4096 = Some sample_pipe.
Proof.
  split_and!.
  - apply (quiet_framed (set_pipes {[ 4096 := sample_pipe ]})); [by intros ? ? ? ? ? ?|].
    apply quiet_locks, sample_quiet.
  - apply lookup_insert_eq.
  - unfold lock_free, sample_pipes. cbn [locks set_pipes set_locks]. rewrite lookup_insert_ne by done.
    apply (sample_free L_ptable). left.
  - apply lookup_singleton_eq.
Qed.


Definition sample_pipe2 : pipe := pipe_put 9 (pipe_put 8 sample_pipe).
Definition sample_pipes2 : K := put_pipe 4096 sample_pipe2 sample_pipes.
Lemma sample_pipe2_queue : queue sample_pipe2 [8; 9].
Proof.
  apply (queue_put _ [8] 9); [|unfold PIPESIZE; cbn; lia].
  apply (queue_put _ [] 8); [apply sample_pipe_queue | unfold PIPESIZE; cbn; lia].
Qed.

Lemma piperead_spec_witness :
  exists k', @piperead idle_env 4096 1 sample_pipes2 = Ok (1, [8]) k'.
Proof.
  destruct sample_pipes_ok as (H1 & H2 & H3 & H4).
  destruct (@piperead_spec idle_env 4096 sample_pipe2 [8; 9] 1 sample_pipes2) as (pp' & R & _).
  - by apply (quiet_framed (put_pipe 4096 sample_pipe2)); [apply _|].
  - by apply (lock_free_framed (put_pipe 4096 sample_pipe2)); [apply _|].
  - by apply (lock_free_framed (put_pipe 4096 sample_pipe2)); [apply _|].
  - apply put_pipe_pipes.
  - apply sample_pipe2_queue.
  - by left.
  - eexists. exact R.
Defined.

Definition full_pipe : pipe := mk_pipe (replicate 512 5) 0 512 0 1.
Lemma full_pipe_queue : queue full_pipe (replicate 512 5).
Proof.
  split; cbn [full_pipe p_data p_nread p_nwrite]; rewrite ?length_replicate; try done.
  intros i c Hi. apply lookup_replicate in Hi as [-> Hi]. apply lookup_replicate. split; [done|].
  rewrite u32_small by (unfold is_u32; lia). unfold PIPESIZE. lia.
Qed.

Lemma pipewrite_broken_witness :
  @pipewrite idle_env 4096 [1] (put_pipe 4096 full_pipe sample_pipes) = Ok (-1) (put_pipe 4096 full_pipe sample_pipes).
Proof.
  destruct sample_pipes_ok as (H1 & H2 & H3 & H4).
  apply (@pipewrite_broken idle_env 4096 full_pipe (replicate 512 5) 1 []).
  - by apply (quiet_framed (put_pipe 4096 full_pipe)); [apply _|].
  - by apply (lock_free_framed (put_pipe 4096 full_pipe)); [apply _|].
  - apply put_pipe_pipes.
  - apply full_pipe_queue.
  - by rewrite length_replicate.
  - reflexivity.
Defined.
