(* ===== verification/File.v ===== *)
(** * Open files (file.c, with pipealloc of pipe.c)

    The table of open files, with its reference counts, and the dispatch of
    reads and writes to pipes and inodes. *)

From Stdlib Require Import ZArith Lia.
From stdpp Require Import base gmap list strings numbers.
From S2P Require Import Prelude Strings State Spinlock Sched Kalloc Disk Bio Log Fs Pipe.

Open Scope Z_scope.

Section code.
Context `{E : Env} `{LY : Layout} `{D : Disk} `{DV : Devsw}.

Definition fileinit : KM unit := initlock L_ftable.

(** The search of filealloc. *)
Definition free_file (fs : list file) : option nat := fst <$> list_find (fun f => f_ref f = 0) fs.

Definition filealloc : KM (option nat) :=
  acquire L_ftable ;;;
  let* fs := reads ftable in
  match free_file fs with
  | Some f =>
      upd_file f (set_f_ref 1) ;;;
      release L_ftable ;;;
      ret (Some f)
  | None =>
      release L_ftable ;;;
      ret None
  end.

Definition filedup (f : nat) : KM nat :=
  acquire L_ftable ;;;
  let* ff := get_file f in
  if f_ref ff <? 1 then panic "filedup"
  else
    upd_file f (fun ff => set_f_ref (f_ref ff + 1) ff) ;;;
    release L_ftable ;;;
    ret f.

Definition fileclose (f : nat) : KM unit :=
  acquire L_ftable ;;;
  let* ff := get_file f in
  if f_ref ff <? 1 then panic "fileclose"
  else
    upd_file f (fun ff => set_f_ref (f_ref ff - 1) ff) ;;;
    let* ff := get_file f in
    if 0 <? f_ref ff then release L_ftable
    else
      upd_file f (fun ff => set_f_type FD_NONE (set_f_ref 0 ff)) ;;;
      release L_ftable ;;;
      match f_type ff with
      | FD_PIPE => pipeclose (f_pipe ff) (Zb (f_writable ff))
      | FD_INODE =>
          begin_op ;;;
          let* ip := deref "ip" (f_ip ff) in
          iput ip ;;;
          end_op
      | FD_NONE => ret tt
      end.

Definition filestat (f : nat) : KM (Z * option stat) :=
  let* ff := get_file f in
  match f_type ff with
  | FD_INODE =>
      ilock (f_ip ff) ;;;
      let* ip := deref "ip" (f_ip ff) in
      let* st := stati ip in
      iunlock (f_ip ff) ;;;
      ret (0, Some st)
  | _ => ret (-1, None)
  end.

Definition fileread (f : nat) (n : Z) : KM (Z * list Z) :=
  let* ff := get_file f in
  if f_readable ff =? 0 then ret (-1, [])
  else
    match f_type ff with
    | FD_PIPE => piperead (f_pipe ff) n
    | FD_INODE =>
        ilock (f_ip ff) ;;;
        let* ip := deref "ip" (f_ip ff) in
        let* cur := get_file f in
        let* (r, bs) := readi ip (f_off cur) (u32 n) in
        (when 0 <? r do upd_file f (fun ff => set_f_off (u32 (f_off ff + r)) ff)) ;;;
        iunlock (f_ip ff) ;;;
        ret (r, bs)
    | FD_NONE => panic "fileread"
    end.

(** Bytes per transaction of filewrite. *)
Definition write_max : Z := (MAXOPBLOCKS - 1 - 1 - 2) / 2 * 512.

(** One transaction of filewrite. *)
Definition filewrite_chunk (f : nat) (ff : file) (src : list Z) : KM Z :=
  begin_op ;;;
  ilock (f_ip ff) ;;;
  let* ip := deref "ip" (f_ip ff) in
  let* cur := get_file f in
  let* r := writei ip src (f_off cur) in
  (when 0 <? r do upd_file f (fun ff => set_f_off (u32 (f_off ff + r)) ff)) ;;;
  iunlock (f_ip ff) ;;;
  end_op ;;;
  ret r.

(** The loop of filewrite over the bytes left; whether all were written. *)
Fixpoint filewrite_loop (fuel : nat) (f : nat) (ff : file) (addr : list Z) : KM bool :=
  match fuel with
  | O => ret (bool_decide (addr = []))
  | S fuel =>
      match addr with
      | [] => ret true
      | _ =>
          let n1 := Z.min (Z.of_nat (length addr)) write_max in
          let* r := filewrite_chunk f ff (take (Z.to_nat n1) addr) in
          if r <? 0 then ret false
          else if negb (r =? n1) then panic "short filewrite"
          else filewrite_loop fuel f ff (drop (Z.to_nat r) addr)
      end
  end.

Definition filewrite (f : nat) (addr : list Z) : KM Z :=
  let* ff := get_file f in
  if f_writable ff =? 0 then ret (-1)
  else
    match f_type ff with
    | FD_PIPE => pipewrite (f_pipe ff) addr
    | FD_INODE =>
        let* all := filewrite_loop (length addr) f ff addr in
        ret (if all then Z.of_nat (length addr) else -1)
    | FD_NONE => panic "filewrite"
    end.

(** [p->data] of a fresh pipe page: the structure's other fields take the 52
    bytes before it. *)
Definition pipe_page (m : mem) (p : Z) : pipe := mk_pipe (ldbs m (p + 52) 512) 0 0 1 1.

Definition pipealloc_bad (p : Z) (f0 f1 : option nat) : KM (option (nat * nat)) :=
  (when negb (p =? 0) do kfree p) ;;;
  (match f0 with Some f => fileclose f | None => ret tt end) ;;;
  (match f1 with Some f => fileclose f | None => ret tt end) ;;;
  ret None.

Definition pipealloc : KM (option (nat * nat)) :=
  let* f0 := filealloc in
  match f0 with
  | None => pipealloc_bad 0 None None
  | Some i0 =>
      let* f1 := filealloc in
      match f1 with
      | None => pipealloc_bad 0 f0 None
      | Some i1 =>
          let* p := kalloc in
          if p =? 0 then pipealloc_bad 0 f0 f1
          else
            modify (fun k => set_pipes (<[p := pipe_page (memory k) p]> (pipes k)) k) ;;;
            initlock (L_pipe p) ;;;
            upd_file i0 (fun f => set_f_pipe p (set_f_writable 0 (set_f_readable 1 (set_f_type FD_PIPE f)))) ;;;
            upd_file i1 (fun f => set_f_pipe p (set_f_writable 1 (set_f_readable 0 (set_f_type FD_PIPE f)))) ;;;
            ret (Some (i0, i1))
      end
  end.
End code.
