(* ===== verification/Fileio.v ===== *)
(** * Reading and writing open files (fileread, filewrite of file.c)

    filewrite from the system call down to the disk: transactions of at most
    1536 bytes, each of them begin_op, ilock, writei, iunlock and end_op.
    What it wrote is in the file and on the disk, fileread returns it, and a
    crash at any time leaves a prefix of it. *)

From Stdlib Require Import ZArith Lia.
From stdpp Require Import base gmap list strings numbers.
From S2P Require Import Prelude Strings State Spinlock Sched Kalloc Disk Bio Cache Log Tx Fs Balloc Inode Pipe File.

Open Scope Z_scope.
#[local] Ltac Zify.zify_post_hook ::= Z.div_mod_to_equations.

(** ** Files on the disk *)

(** The blocks [g] hold, in inode [n], a file of [size] bytes with the
    contents [c]. *)
Definition holds_file (g : Z -> list Z) (s : superblock) (n size : Z) (c : Z -> Z) : Prop :=
  let d := get_dinode (g (IBLOCK n s)) (n mod IPB) in
  d_size d = size /\
  forall p, 0 <= p < MAXFILE * BSIZE -> fbyte g (mk_inode 0 n 0 0 0 0 0 0 size (d_addrs d)) p = c p.

(** [c] with the bytes [src] at [off]. *)
Definition overlay (c : Z -> Z) (off : Z) (src : list Z) (p : Z) : Z :=
  if decide (off <= p < off + Z.of_nat (length src)) then nth (Z.to_nat (p - off)) src 0 else c p.

Lemma overlay_app c off s1 s2 p :
  overlay (overlay c off s1) (off + Z.of_nat (length s1)) s2 p = overlay c off (s1 ++ s2) p.
Proof.
  unfold overlay. rewrite length_app. repeat case_decide; try lia; try done.
  - rewrite app_nth2 by lia. f_equal. lia.
  - by rewrite app_nth1 by lia.
Qed.

Section frame.
Context `{E : Env} `{D : Disk} `{DO : !DiskOk D} `{DV : Devsw}.

Lemma file_on_disk k i ip g :
  file_ok k i ip -> (forall n, sb_inodestart (sb k) <= n -> g n = fsb k n) ->
  holds_file g (sb k) (i_inum ip) (i_size ip) (fbyte (fsb k) ip).
Proof.
  intros [[Y Hi I De] _ _ Hn Hd] Hg. unfold holds_file.
  destruct (IBLOCK_range k (i_inum ip) (fy_geo _ Y) Hn) as [Hib _].
  unfold disk_inode in Hd. rewrite Hg, Hd by fslia. split; [done|]. intros p Hp.
  cbn [d_addrs dinode_of]. set (ip' := mk_inode _ _ _ _ _ _ _ _ _ _).
  assert (forall n, data_block k n -> g n = fsb k n) as Hdb.
  { intros n [Hr _]. apply Hg. destruct (fy_geo _ Y) as [G1 G2 G3 _]. unfold data_start in *. fslia. }
  assert (forall j, addr_at ip' j = addr_at ip j) as Ha by done.
  assert (bslot g ip' (p / BSIZE) = bslot (fsb k) ip (p / BSIZE)) as Hs.
  { unfold bslot. rewrite !Ha. do 2 (case_match; [done|]). destruct (Z.eqb_spec (addr_at ip NDIRECT) 0) as [|Hin]; [done|].
    assert (bslot (fsb k) ip MAXFILE = addr_at ip NDIRECT) as HM by (unfold bslot; by rewrite Z.eqb_refl).
    rewrite Hdb; [done|]. rewrite <-HM. apply I; [fslia | congruence]. }
  unfold fbyte, fblock. rewrite Hs. destruct (Z.eqb_spec (bslot (fsb k) ip (p / BSIZE)) 0); [done|].
  rewrite Hdb; [done|]. apply I; [fslia | done].
Qed.

(** ** Steps beside the file system *)

(** A new file table, and the lock of inode [i] released. *)
Lemma txn_unlocked k pr i L H P A :
  txn k pr H P A -> txn (drop_sl (SL_inode i) (set_ftable L k)) pr H P A.
Proof.
  intros T. apply (txn_other (drop_sl (SL_inode i)) (set_ftable L k) _ _ _ _ (lg_outstanding (klog k))); try done.
  - intros j. cbn. by rewrite lookup_insert_ne.
  - by destruct (klog k) eqn:Hk; cbn; rewrite Hk.
  - apply (txn_other (set_ftable L) k _ _ _ _ (lg_outstanding (klog k))); try done.
    by destruct (klog k) eqn:Hk; cbn; rewrite Hk.
Qed.

Lemma idle_same k k' pr :
  klog k' = klog k -> txn k' pr ∅ ∅ [] -> (forall d n, dblock k' d n = dblock k d n) -> idle k pr -> idle k' pr.
Proof. intros L T Hd [_ ? ? ? ?]. split; rewrite ?L, ?Hd; done. Qed.

Lemma committed_same_fs pr k k' : geometry k -> committed pr k k' -> same_fs k k'.
Proof.
  intros [G1 _ _ _] C. pose proof (cm_log _ _ _ C) as L. split; [split | |].
  - by rewrite (cm_frame _ _ _ C).
  - by rewrite L.
  - by rewrite L.
  - by rewrite (cm_frame _ _ _ C).
  - intros n Hn. apply (cm_fsb _ _ _ C). unfold outside. lia.
Qed.

Lemma ilock_ok k pr i ip l :
  calm k pr -> (i < NINODE)%nat -> icache k !! i = Some ip -> 1 <= i_ref ip -> i_valid ip = 1 ->
  sleeplocks k !! SL_inode i = Some l -> sl_locked l = 0 ->
  ilock (Some i) k = Ok tt (hold_sl (SL_inode i) (pid pr) k).
Proof.
  intros C Hi Hip Hr Hv Hl Hz. unfold ilock.
  assert (forall k', icache k' = icache k -> get_inode i k' = Ok ip k') as Rg
    by (intros k' Hk; unfold get_inode; msimp; by rewrite Hk, Hip).
  mrun (Rg k eq_refl). destruct (Z.ltb_spec (i_ref ip) 1); [lia|].
  mrun (calm_acquiresleep (SL_inode i) pr k l C (inode_lock_known i Hi) Hl Hz).
  mrun (Rg (hold_sl (SL_inode i) (pid pr) k) eq_refl). by rewrite Hv.
Qed.

Lemma iunlock_ok k pr i ip :
  calm k pr -> (i < NINODE)%nat -> icache k !! i = Some ip -> 1 <= i_ref ip ->
  sleeplocks k !! SL_inode i = Some (mk_sleeplock 1 (pid pr)) ->
  iunlock (Some i) k = Ok tt (drop_sl (SL_inode i) k).
Proof.
  intros C Hi Hip Hr Hl. unfold iunlock. mrun (calm_holdingsleep (SL_inode i) pr k (pid pr) C (inode_lock_known i Hi) Hl).
  assert (get_inode i k = Ok ip k) as Rg by (unfold get_inode; msimp; by rewrite Hip). mrun Rg.
  rewrite Z.eqb_refl. destruct (Z.ltb_spec (i_ref ip) 1); [lia|].
  by apply (calm_releasesleep (SL_inode i) pr k (mk_sleeplock 1 (pid pr)) C (inode_lock_known i Hi)).
Qed.

(** ** One transaction of filewrite *)

(** Open file [f] refers to inode [i], which is in memory and unlocked, and
    no file system call is in progress. *)
Record ready (k : K) (pr : proc) (f : nat) (ff : file) (i : nat) (ip : inode) : Prop := {
  rdy_idle : idle k pr;
  rdy_file : file_ok k i ip;
  rdy_ref : 1 <= i_ref ip;
  rdy_valid : i_valid ip = 1;
  rdy_range : (i < NINODE)%nat;
  rdy_lock : sleeplocks k !! SL_inode i = Some (mk_sleeplock 0 0);
  rdy_open : ftable k !! f = Some ff;
  rdy_ip : f_ip ff = Some i }.

Context (spare : nat).

(** [src] was written through [f] and is on the disk; cut off at any time, the
    disk has either the blocks of [k] or those of [k']. *)
Record chunk_done (pr : proc) (k : K) (f : nat) (ff : file) (i : nat) (ip : inode) (src : list Z) (k' : K)
    (ip' : inode) : Prop := {
  cd_ready : ready k' pr f (set_f_off (f_off ff + Z.of_nat (length src)) ff) i ip';
  cd_inode : ip' = set_i_size (Z.max (i_size ip) (f_off ff + Z.of_nat (length src))) (set_i_addrs (i_addrs ip') ip);
  cd_bytes p : 0 <= p < MAXFILE * BSIZE -> fbyte (fsb k') ip' p = overlay (fbyte (fsb k) ip) (f_off ff) src p;
  cd_free : (indirect_cost ip' + spare <= nfree k')%nat;
  cd_geo : same_geo k k';
  cd_files : ftable k' = <[f := set_f_off (f_off ff + Z.of_nat (length src)) ff]> (ftable k);
  cd_crash : exists ws, k_dwrites k' = k_dwrites k ++ ws /\ (forall d n, dblock k' d n = wr ws (dblock k) d n) /\
    forall m, recovers (lg_dev (klog k)) (lg_start (klog k)) (fsb k) (fsb k') (wr (take m ws) (dblock k)) }.

Lemma recovers_ext d s f g f' g' h h' :
  (forall n, outside s n -> f n = f' n) -> (forall n, outside s n -> g n = g' n) -> (forall n, h d n = h' d n) ->
  recovers d s f g h -> recovers d s f' g' h'.
Proof.
  intros Hf Hg Hh R kr pr' Rb.
  assert (rebooted kr pr' d s h) as Rb' by (destruct Rb; split; try done; intros n; by rewrite Hh).
  destruct (R kr pr' Rb') as (kr' & R1 & C & L & [H|H]); exists kr'; split_and!; try done.
  - left. intros n Hn. by rewrite H, Hf.
  - right. intros n Hn. by rewrite H, Hg.
Qed.

(** begin_op and ilock. *)
Record opened (pr : proc) (k : K) (i : nat) (k' : K) : Prop := {
  on_tx : tx k' pr ∅ [];
  on_fs : same_fs k k';
  on_log : lg_committing (klog k') = 0 /\ lg_outstanding (klog k') = 1;
  on_lock : sleeplocks k' !! SL_inode i = Some (mk_sleeplock 1 (pid pr));
  on_files : ftable k' = ftable k;
  on_disk_same : k_dwrites k' = k_dwrites k /\ disk k' = disk k }.

Lemma open_chunk k pr f ff i ip :
  ready k pr f ff i ip -> exists k1 k2, begin_op k = Ok tt k1 /\ ilock (Some i) k1 = Ok tt k2 /\ opened pr k i k2.
Proof.
  intros [[T Hc Ho Hsz Hh] Fo Hr Hv Hi Hl Hf Hip].
  pose proof (tx_cache _ _ _ _ _ T) as [C _]. pose proof (fo_readable _ _ _ Fo) as [Y Hic I _].
  set (k1 := add_outstanding 1 k). set (k2 := hold_sl (SL_inode i) (pid pr) k1). exists k1, k2. split_and!.
  - apply (begin_op_ok k pr C Hc). rewrite (tx_n _ _ _ _ _ T), Ho. cbn [length]. klia.
  - apply (ilock_ok k1 pr i ip (mk_sleeplock 0 0)); try done. by apply (calm_framed (add_outstanding 1)).
  - split; [| by apply same_fs_other | cbn; lia | apply lookup_insert_eq | done | done].
    split; [exists ∅ | cbn; lia | done].
    apply hold_txn. by apply (txn_other (add_outstanding 1) k _ _ _ _ (lg_outstanding (klog k) + 1)).
Qed.

Lemma set_off_ok k f ff o :
  ftable k !! f = Some ff -> is_u32 (f_off ff + o) ->
  upd_file f (fun ff => set_f_off (u32 (f_off ff + o)) ff) k =
    Ok tt (set_ftable (<[f := set_f_off (f_off ff + o) ff]> (ftable k)) k).
Proof.
  intros Hf Hu. unfold upd_file, modify. do 2 f_equal. apply list_eq. intros f'. destruct (decide (f' = f)) as [->|].
  - rewrite list_lookup_alter_eq, Hf, list_lookup_insert_eq by (by eapply lookup_lt_Some). cbn. by rewrite u32_small.
  - by rewrite list_lookup_alter_ne, list_lookup_insert_ne.
Qed.

(** The new offset, iunlock and end_op. *)
Lemma close_chunk k pr A f ff i ip o :
  tx k pr ∅ A -> file_ok k i ip -> 1 <= i_ref ip -> i_valid ip = 1 -> (i < NINODE)%nat ->
  sleeplocks k !! SL_inode i = Some (mk_sleeplock 1 (pid pr)) ->
  lg_committing (klog k) = 0 -> lg_outstanding (klog k) = 1 ->
  i32 (word (dblock k (lg_dev (klog k)) (lg_start (klog k))) 0) = 0 ->
  ftable k !! f = Some ff -> f_ip ff = Some i -> is_u32 (f_off ff + o) ->
  let ff' := set_f_off (f_off ff + o) ff in
  exists k1 k2 k', upd_file f (fun ff => set_f_off (u32 (f_off ff + o)) ff) k = Ok tt k1 /\
    iunlock (Some i) k1 = Ok tt k2 /\ end_op k2 = Ok tt k' /\
    ready k' pr f ff' i ip /\ same_fs k k' /\ ftable k' = <[f := ff']> (ftable k) /\ (forall n, outside (lg_start (klog k)) n -> fsb k' n = fsb k n) /\
    exists ws, k_dwrites k' = k_dwrites k ++ ws /\ (forall d n, dblock k' d n = wr ws (dblock k) d n) /\
      forall m, recovers (lg_dev (klog k)) (lg_start (klog k)) (dblock k (lg_dev (klog k))) (fsb k) (wr (take m ws) (dblock k)).
Proof.
  intros [[P T] To Ts] Fo Hr Hv Hi Hl Hc Ho Hh Hf Hip Hu ff'. pose proof (tx_cache _ _ _ _ _ T) as [C _].
  pose proof (fo_readable _ _ _ Fo) as [Y Hic I _].
  set (k1 := set_ftable (<[f := ff']> (ftable k)) k). set (k2 := drop_sl (SL_inode i) k1).
  assert (calm k1 pr) as C1 by (by apply (calm_framed (set_ftable (<[f := ff']> (ftable k))))).
  assert (iunlock (Some i) k1 = Ok tt k2) as R2 by (by apply (iunlock_ok k1 pr i ip)).
  assert (tx k2 pr ∅ A) as T2.
  { split; [exists P | done | done]. by apply txn_unlocked. }
  destruct (end_op_ok k2 pr A T2 Hc Ho Hh) as (k3 & R3 & Cm).
  assert (same_fs k k2) as S2 by (by apply same_fs_other).
  assert (geometry k2) as G2 by (apply (geometry_same k); [apply S2 | apply Y]).
  pose proof (same_fs_trans _ _ _ S2 (committed_same_fs pr k2 k3 G2 Cm)) as S3.
  exists k1, k2, k3. split_and!; [by apply set_off_ok | done | done | | done | | | exact (cm_crash _ _ _ Cm)].
  2: { by rewrite (cm_frame _ _ _ Cm). }
  2: { intros n Hn. rewrite (cm_fsb _ _ _ Cm n Hn). unfold fsb. by apply blk_other. }
  split; try done; [apply Cm | by apply (file_ok_same k) | |].
  - rewrite (cm_inodes _ _ _ Cm). apply lookup_insert_eq.
  - rewrite (cm_frame _ _ _ Cm). cbn. apply list_lookup_insert_eq. by eapply lookup_lt_Some.
Qed.

Lemma chunk_ok k pr f ff i ip src :
  ready k pr f ff i ip -> (0 < length src)%nat ->
  0 <= f_off ff <= i_size ip -> f_off ff + Z.of_nat (length src) <= MAXFILE * BSIZE ->
  (touched (f_off ff) (Z.of_nat (length src)) + 5 < NBUF)%nat ->
  (indirect_cost ip + touched (f_off ff) (Z.of_nat (length src)) + spare <= nfree k)%nat ->
  exists k' ip', filewrite_chunk f ff src k = Ok (Z.of_nat (length src)) k' /\
    chunk_done pr k f ff i ip src k' ip'.
Proof.
  intros Rd Hs Hoff Hmax Hrm Hfr. pose proof Rd as [Id Fo Hr Hv Hi Hl Hf Hip].
  destruct (open_chunk k pr f ff i ip Rd) as (k1 & k2 & R1 & R2 & [T2 S2 [Hc2 Ho2] Hl2 Hf2 [Hw2 Hd2]]).
  pose proof (ra_fsys _ _ _ (fo_readable _ _ _ Fo)) as Y. pose proof (file_ok_same _ _ _ _ S2 Fo) as Fo2.
  destruct (writei_ok spare pr k2 [] i ip (f_off ff) src) as (k3 & A3 & ip3 & R3 & W); try done.
  { split; [cbn; lia|]. by rewrite (same_fs_nfree k). }
  pose proof (wn_op _ _ _ _ _ _ _ _ _ _ W) as O3. pose proof (op_geo _ _ O3) as G3.
  pose proof (wn_inode _ _ _ _ _ _ _ _ _ _ W) as Hi3. pose proof (op_geometry _ _ O3) as (_ & _ & _ & Ho3 & Hc3).
  assert (forall d n, dblock k3 d n = dblock k d n) as Hd3.
  { intros d n. rewrite (op_disk _ _ O3). unfold dblock. cbn. by rewrite Hd2. }
  assert (same_geo k k3) as Gk3.
  { destruct S2 as [[E1 E2 E3] _ _], G3 as [E4 E5 E6]. cbn in E4, E5, E6. split; congruence. }
  pose proof Gk3 as [Eb Ed Es].
  destruct (close_chunk k3 pr A3 f ff i ip3 (Z.of_nat (length src))) as (k4 & k5 & k6 & R4 & R5 & R6 & Rd6 & S6 & Hf6 & Hv6 & ws & Hws & Hdk & Hcr);
    [apply W | apply W | by rewrite Hi3 | by rewrite Hi3 | done | | by rewrite Hc3 | by rewrite Ho3 | | | done | |].
  { rewrite (op_inodes _ _ O3). exact Hl2. } { rewrite Hd3, Ed, Es. apply Id. }
  { rewrite (op_frame _ _ O3). cbn. by rewrite Hf2. } { unfold is_u32. fslia. }
  exists k6, ip3. split.
  { unfold filewrite_chunk. mrun R1. rewrite Hip. mrun R2. msimp. unfold get_file at 1. msimp.
    rewrite Hf2, Hf. msimp. mrun R3. destruct (Z.ltb_spec 0 (Z.of_nat (length src))); [|lia]. mrun R4. mrun R5. by mrun R6. }
  pose proof (wn_file _ _ _ _ _ _ _ _ _ _ W) as Fo3. pose proof (ra_fsys _ _ _ (fo_readable _ _ _ Fo3)) as Y3.
  split; [done | done | | | | by rewrite Hf6, (op_frame _ _ O3); cbn; rewrite Hf2 |].
  - intros p Hp. rewrite (same_fs_bytes k3 k6 i) by done. rewrite (wn_bytes _ _ _ _ _ _ _ _ _ _ W) by done.
    unfold overlay. case_decide; [done|]. by apply (same_fs_bytes k k2 i).
  - rewrite (same_fs_nfree k3 k6) by done. apply W.
  - destruct S6 as [[F1 F2 F3] _ _]. split; congruence.
  - exists ws. split_and!; [by rewrite Hws, (op_dwrites _ _ O3); cbn; rewrite Hw2 | |].
    + intros d n. rewrite Hdk. apply wr_ext. intros. apply Hd3.
    + intros m. specialize (Hcr m). rewrite Ed, Es in Hcr. refine (recovers_ext _ _ _ _ _ _ _ _ _ _ _ Hcr).
      * intros n _. rewrite Hd3. by apply (idle_fsb k pr).
      * intros n Hn. symmetry. apply Hv6. by rewrite Es.
      * intros n. apply wr_ext. intros. apply Hd3.
Qed.
End frame.

(** ** The loop *)

Section loop.
Context `{E : Env} `{D : Disk} `{DO : !DiskOk D} `{DV : Devsw} `{LY : Layout}.

(** Whenever the writes from [k] to [k'] are cut off, recovery yields blocks
    with [P]. *)
Definition crash_safe (k k' : K) (P : (Z -> list Z) -> Prop) : Prop :=
  exists ws, k_dwrites k' = k_dwrites k ++ ws /\ (forall d n, dblock k' d n = wr ws (dblock k) d n) /\
  forall m kr pr', rebooted kr pr' (lg_dev (klog k)) (lg_start (klog k)) (wr (take m ws) (dblock k)) ->
  exists kr', recover_from_log kr = Ok tt kr' /\ P (blk kr' (lg_dev (klog k))).

Lemma rebooted_ext k pr d s f g : (forall n, f d n = g d n) -> rebooted k pr d s f -> rebooted k pr d s g.
Proof. intros H []. split; try done. intros n. by rewrite <-H. Qed.

Lemma crash_safe_trans k1 k2 k3 P1 P2 (P : (Z -> list Z) -> Prop) :
  same_geo k1 k2 -> (forall g, P1 g -> P g) -> (forall g, P2 g -> P g) ->
  crash_safe k1 k2 P1 -> crash_safe k2 k3 P2 -> crash_safe k1 k3 P.
Proof.
  intros [_ Hd Hs] HP1 HP2 (ws1 & W1 & D1 & C1) (ws2 & W2 & D2 & C2). exists (ws1 ++ ws2). split_and!.
  - by rewrite W2, W1, app_assoc.
  - intros d n. rewrite D2, wr_app. apply wr_ext. intros. apply D1.
  - intros m kr pr' Rb. rewrite take_app in Rb. destruct (decide (m <= length ws1)%nat) as [Hm|Hm].
    + replace (m - length ws1)%nat with 0%nat in Rb by lia. rewrite take_0, app_nil_r in Rb.
      destruct (C1 m kr pr' Rb) as (kr' & R & H). exists kr'. auto.
    + rewrite take_ge, wr_app in Rb by lia. rewrite Hd, Hs in C2.
      destruct (C2 (m - length ws1)%nat kr pr') as (kr' & R & H); [|exists kr'; auto].
      apply (rebooted_ext kr pr' _ _ (wr (take (m - length ws1) ws2) (wr ws1 (dblock k1)))); [|done].
      intros n. apply wr_ext. intros. symmetry. apply D1.
Qed.

Lemma crash_safe_refl k pr (P : (Z -> list Z) -> Prop) :
  idle k pr -> (forall g, (forall n, outside (lg_start (klog k)) n -> g n = fsb k n) -> P g) -> crash_safe k k P.
Proof.
  intros Id HP. exists []. rewrite app_nil_r. split_and!; [done | done |]. intros m kr pr'. rewrite take_nil. cbn [wr].
  intros Rb. pose proof (id_txn _ _ Id) as T.
  destruct (recovers_idle _ _ (dblock k) (tx_dev _ _ _ _ _ T) (tx_area _ _ _ _ _ T) (id_head _ _ Id) kr pr' Rb)
    as (kr' & R & C & L & [H|H]); exists kr'; (split; [done|]); apply HP;
    intros n Hn; rewrite H by done; by apply (idle_fsb k pr).
Qed.

(** A file with a prefix of [src] written to it. *)
Definition prefix_written (s : superblock) (n size : Z) (c : Z -> Z) (off : Z) (src : list Z) (g : Z -> list Z) : Prop :=
  exists j, (j <= length src)%nat /\
    holds_file g s n (Z.max size (off + Z.of_nat j)) (overlay c off (take j src)).

Lemma holds_file_ext g s n size c c' :
  (forall p, 0 <= p < MAXFILE * BSIZE -> c p = c' p) -> holds_file g s n size c -> holds_file g s n size c'.
Proof. intros H [H1 H2]. split; [done|]. intros p Hp. by rewrite H2, H. Qed.

Lemma chunk_crash spare pr k f ff i ip src k' ip' :
  ready k pr f ff i ip -> 0 <= f_off ff <= i_size ip -> chunk_done spare pr k f ff i ip src k' ip' ->
  crash_safe k k' (prefix_written (sb k) (i_inum ip) (i_size ip) (fbyte (fsb k) ip) (f_off ff) src).
Proof.
  intros Rd Ho Cd. destruct (cd_crash _ _ _ _ _ _ _ _ _ _ Cd) as (ws & W & Dk & C). exists ws. split_and!; try done.
  intros m kr pr' Rb. destruct (C m kr pr' Rb) as (kr' & R & _ & _ & Hor). exists kr'. split; [done|].
  pose proof (rdy_file _ _ _ _ _ _ Rd) as Fo. pose proof (rdy_file _ _ _ _ _ _ (cd_ready _ _ _ _ _ _ _ _ _ _ Cd)) as Fo'.
  pose proof (cd_geo _ _ _ _ _ _ _ _ _ _ Cd) as [Gs _ _]. pose proof (cd_inode _ _ _ _ _ _ _ _ _ _ Cd) as Hip.
  assert (forall n, sb_inodestart (sb k) <= n -> outside (lg_start (klog k)) n) as Hout.
  { intros n Hn. destruct (fy_geo _ (ra_fsys _ _ _ (fo_readable _ _ _ Fo))) as [G1 _ _ _]. unfold outside. lia. }
  destruct Hor as [H|H].
  - exists 0%nat. split; [lia|]. rewrite Z.max_l by lia.
    refine (holds_file_ext _ _ _ _ _ _ _ (file_on_disk k i ip _ Fo ltac:(intros n Hn; by apply H, Hout))).
    intros p _. unfold overlay. rewrite take_0. cbn [length]. by rewrite decide_False by lia.
  - exists (length src). split; [lia|]. rewrite take_ge by lia.
    assert (i_inum ip = i_inum ip') as -> by (by rewrite Hip).
    assert (Z.max (i_size ip) (f_off ff + Z.of_nat (length src)) = i_size ip') as -> by (by rewrite Hip at 1).
    rewrite <-Gs. refine (holds_file_ext _ _ _ _ _ _ _ (file_on_disk k' i ip' _ Fo' _)); [by apply Cd|].
    rewrite Gs. intros n Hn. by apply H, Hout.
Qed.

(** Free blocks that suffice for [n] bytes: every transaction touches at most
    four blocks. *)
Definition write_need (n : nat) : nat := 4 * Z.to_nat ((Z.of_nat n + write_max - 1) / write_max).

Lemma write_max_eq : write_max = 1536.
Proof. done. Qed.

Lemma touched_max off n : 0 <= off -> 0 <= n <= write_max -> (touched off n <= 4)%nat.
Proof. rewrite write_max_eq. intros Ho Hn. unfold touched. destruct (Z.eqb_spec n 0); klia. Qed.

Lemma write_need_step n : (0 < n)%nat ->
  write_need n = (4 + write_need (n - Z.to_nat (Z.min (Z.of_nat n) write_max)))%nat.
Proof. intros Hn. unfold write_need. rewrite write_max_eq. lia. Qed.

Lemma filewrite_step fuel f ff x src r k k' :
  let n1 := Z.min (Z.of_nat (length (x :: src))) write_max in
  filewrite_chunk f ff (take (Z.to_nat n1) (x :: src)) k = Ok r k' ->
  filewrite_loop (S fuel) f ff (x :: src) k =
    (if r <? 0 then ret false
     else if negb (r =? n1) then panic "short filewrite"
     else filewrite_loop fuel f ff (drop (Z.to_nat r) (x :: src))) k'.
Proof.
  intros n1 H. cbn [filewrite_loop]. by rewrite (bind_ok _ _ _ _ _ H).
Qed.

Lemma body_ff f ff ff' src : f_ip ff = f_ip ff' -> filewrite_chunk f ff src = filewrite_chunk f ff' src.
Proof. intros H. unfold filewrite_chunk. by rewrite H. Qed.

(** [src] was written through [f] in any number of transactions. *)
Record file_written (spare : nat) (pr : proc) (k : K) (f : nat) (ff : file) (i : nat) (ip : inode) (src : list Z) (k' : K)
    (ip' : inode) : Prop := {
  fw_ready : ready k' pr f (set_f_off (f_off ff + Z.of_nat (length src)) ff) i ip';
  fw_inode : ip' = set_i_size (Z.max (i_size ip) (f_off ff + Z.of_nat (length src))) (set_i_addrs (i_addrs ip') ip);
  fw_bytes p : 0 <= p < MAXFILE * BSIZE -> fbyte (fsb k') ip' p = overlay (fbyte (fsb k) ip) (f_off ff) src p;
  fw_free : (indirect_cost ip' + spare <= nfree k')%nat;
  fw_geo : same_geo k k';
  fw_files : ftable k' = <[f := set_f_off (f_off ff + Z.of_nat (length src)) ff]> (ftable k);
  fw_crash : crash_safe k k' (prefix_written (sb k) (i_inum ip) (i_size ip) (fbyte (fsb k) ip) (f_off ff) src) }.

Lemma set_off_same ff : set_f_off (f_off ff + 0) ff = ff.
Proof. destruct ff. unfold set_f_off. cbn. by rewrite Z.add_0_r. Qed.

Lemma prefix_zero k i ip off src g :
  file_ok k i ip -> 0 <= off <= i_size ip -> (forall n, outside (lg_start (klog k)) n -> g n = fsb k n) ->
  prefix_written (sb k) (i_inum ip) (i_size ip) (fbyte (fsb k) ip) off src g.
Proof.
  intros Fo Ho Hg. exists 0%nat. split; [lia|]. rewrite Z.max_l by lia.
  refine (holds_file_ext _ _ _ _ _ _ _ (file_on_disk k i ip _ Fo _)).
  - intros p _. unfold overlay. rewrite take_0. cbn [length]. by rewrite decide_False by lia.
  - intros n Hn. apply Hg. destruct (fy_geo _ (ra_fsys _ _ _ (fo_readable _ _ _ Fo))) as [G1 _ _ _]. unfold outside. lia.
Qed.

Lemma written_nothing spare pr k f ff i ip :
  ready k pr f ff i ip -> 0 <= f_off ff <= i_size ip -> (indirect_cost ip + spare <= nfree k)%nat ->
  file_written spare pr k f ff i ip [] k ip.
Proof.
  intros Rd Ho Hf. cbn [length]. split; cbn [length]; try done.
  - by rewrite set_off_same.
  - rewrite Z.max_l by lia. by destruct ip.
  - intros p _. unfold overlay. cbn [length]. by rewrite decide_False by lia.
  - rewrite set_off_same, list_insert_id; [done | apply Rd].
  - apply (crash_safe_refl k pr); [apply Rd|]. intros g. by apply (prefix_zero k i), Ho; apply Rd.
Qed.

(** A transaction and the rest of the loop. *)
Lemma written_more sp spare pr k f ff i ip s1 s2 k1 ip1 k2 ip2 :
  ready k pr f ff i ip -> 0 <= f_off ff <= i_size ip ->
  chunk_done sp pr k f ff i ip s1 k1 ip1 ->
  file_written spare pr k1 f (set_f_off (f_off ff + Z.of_nat (length s1)) ff) i ip1 s2 k2 ip2 ->
  file_written spare pr k f ff i ip (s1 ++ s2) k2 ip2.
Proof.
  intros Rd Ho Cd [W1 W2 W3 W4 W5 W7 W6]. cbn [f_off set_f_off] in *.
  pose proof (cd_inode _ _ _ _ _ _ _ _ _ _ Cd) as Hip. pose proof (cd_geo _ _ _ _ _ _ _ _ _ _ Cd) as G1.
  pose proof (cd_bytes _ _ _ _ _ _ _ _ _ _ Cd) as Hby.
  assert (i_size ip1 = Z.max (i_size ip) (f_off ff + Z.of_nat (length s1))) as Hsz by (by rewrite Hip).
  split; rewrite ?length_app, ?Nat2Z.inj_add.
  - by rewrite Z.add_assoc.
  - etrans; [exact W2|]. rewrite Hsz. replace (Z.max (i_size ip) (f_off ff + (_ + _))) with
      (Z.max (Z.max (i_size ip) (f_off ff + Z.of_nat (length s1))) (f_off ff + Z.of_nat (length s1) + Z.of_nat (length s2)))
      by lia. rewrite Hip. done.
  - intros p Hp. rewrite W3 by done. rewrite <-overlay_app. unfold overlay at 1 2. case_decide; [done|]. by apply Hby.
  - done.
  - destruct W5, G1. split; congruence.
  - rewrite W7, (cd_files _ _ _ _ _ _ _ _ _ _ Cd), list_insert_insert_eq. by rewrite Z.add_assoc.
  - refine (crash_safe_trans k k1 k2 _ _ _ G1 _ _ (chunk_crash sp _ _ _ _ _ _ _ _ _ Rd Ho Cd) W6).
    + intros g (j & Hj & H). exists j. split; [rewrite length_app; lia|]. by rewrite take_app_le.
    + intros g (j & Hj & H). exists (length s1 + j)%nat. split; [rewrite length_app; lia|].
      rewrite take_app_add. rewrite (sg_sb _ _ G1), Hsz in H.
      assert (i_inum ip1 = i_inum ip) as Hn by (by rewrite Hip). rewrite Hn in H.
      replace (Z.max (i_size ip) (f_off ff + Z.of_nat (length s1 + j))) with
        (Z.max (Z.max (i_size ip) (f_off ff + Z.of_nat (length s1))) (f_off ff + Z.of_nat (length s1) + Z.of_nat j)) by lia.
      refine (holds_file_ext _ _ _ _ _ _ _ H). intros p Hp. rewrite <-overlay_app. unfold overlay at 1 2.
      case_decide; [done|]. by apply Hby.
Qed.

Lemma filewrite_loop_ok spare pr f i ff0 fuel : forall k ff ip src,
  f_ip ff0 = Some i -> ready k pr f ff i ip -> (length src <= fuel)%nat ->
  0 <= f_off ff <= i_size ip -> f_off ff + Z.of_nat (length src) <= MAXFILE * BSIZE ->
  (indirect_cost ip + write_need (length src) + spare <= nfree k)%nat ->
  exists k' ip', filewrite_loop fuel f ff0 src k = Ok true k' /\ file_written spare pr k f ff i ip src k' ip'.
Proof.
  induction fuel as [|fuel IH]; intros k ff ip src Hff Rd Hfu Ho Hm Hfr.
  { destruct src; [|cbn in Hfu; lia]. exists k, ip. split; [done|]. apply written_nothing; try done. cbn [length] in Hfr. lia. }
  destruct src as [|x src].
  { exists k, ip. split; [done|]. apply written_nothing; try done. cbn [length] in Hfr. lia. }
  set (n1 := Z.min (Z.of_nat (length (x :: src))) write_max). set (s1 := take (Z.to_nat n1) (x :: src)).
  assert (0 < n1 <= write_max /\ n1 <= Z.of_nat (length (x :: src))) as Hn1 by (unfold n1; rewrite write_max_eq; cbn [length]; lia).
  assert (Z.of_nat (length s1) = n1) as Hl1 by (unfold s1; rewrite length_take; lia).
  rewrite write_need_step in Hfr by (cbn; lia). fold n1 in Hfr. set (rest := (length (x :: src) - Z.to_nat n1)%nat) in *.
  pose proof (touched_max (f_off ff) n1 ltac:(lia) ltac:(lia)) as Ht.
  destruct (chunk_ok (write_need rest + spare) k pr f ff i ip s1) as (k1 & ip1 & R1 & Cd); try done; rewrite ?Hl1; try lia.
  { unfold NBUF. lia. }
  rewrite (body_ff f ff ff0), Hl1 in R1 by (rewrite (rdy_ip _ _ _ _ _ _ Rd); done).
  rewrite (filewrite_step fuel f ff0 x src n1 k k1 R1). destruct (Z.ltb_spec n1 0); [lia|]. fold n1. rewrite Z.eqb_refl. cbn [negb].
  pose proof (cd_inode _ _ _ _ _ _ _ _ _ _ Cd) as Hip1. rewrite Hl1 in Hip1.
  assert (i_size ip1 = Z.max (i_size ip) (f_off ff + n1)) as Hsz by (by rewrite Hip1).
  assert (length (drop (Z.to_nat n1) (x :: src)) = rest) as Hld by (by rewrite length_drop).
  destruct (IH k1 (set_f_off (f_off ff + Z.of_nat (length s1)) ff) ip1 (drop (Z.to_nat n1) (x :: src)))
    as (k2 & ip2 & R2 & W); [done | apply Cd | rewrite Hld; unfold rest; cbn [length] in *; lia | | | |].
  { change (0 <= f_off ff + Z.of_nat (length s1) <= i_size ip1). lia. }
  { change (f_off ff + Z.of_nat (length s1) + Z.of_nat (length (drop (Z.to_nat n1) (x :: src))) <= MAXFILE * BSIZE).
    rewrite Hld. unfold rest. lia. }
  { pose proof (cd_free _ _ _ _ _ _ _ _ _ _ Cd). rewrite Hld. lia. }
  exists k2, ip2. split; [done|]. rewrite <-(take_drop (Z.to_nat n1) (x :: src)). fold s1.
  by apply (written_more (write_need rest + spare) spare pr k f ff i ip s1 _ k1 ip1).
Qed.


(** ** Reading *)

Lemma fileread_ok pr k f ff i ip n :
  ready k pr f ff i ip -> f_type ff = FD_INODE -> f_readable ff <> 0 ->
  0 <= f_off ff <= i_size ip -> 0 <= n -> f_off ff + n < 2 ^ 32 ->
  let m := Z.min n (i_size ip - f_off ff) in
  exists k', fileread f n k = Ok (m, fbytes (fsb k) ip (f_off ff) m) k' /\
    ready k' pr f (set_f_off (f_off ff + m) ff) i ip /\ same_fs k k'.
Proof.
  intros Rd Ht Hrd Ho Hn Hw m. pose proof Rd as [Id Fo Hr Hv Hi Hl Hf Hip].
  pose proof (id_txn _ _ Id) as T. pose proof (tx_cache _ _ _ _ _ T) as [C _]. pose proof (fo_readable _ _ _ Fo) as Ra.
  set (k1 := hold_sl (SL_inode i) (pid pr) k).
  pose proof (ilock_ok k pr i ip _ C Hi (ra_icache _ _ _ Ra) Hr Hv Hl eq_refl) as R1. fold k1 in R1.
  assert (same_fs k k1) as S1 by (by apply same_fs_other).
  assert (txn k1 pr ∅ ∅ []) as T1.
  { by apply hold_txn. }
  pose proof (file_ok_same _ _ _ _ S1 Fo) as Fo1.
  destruct (readi_ok pr [] k1 ∅ i ip (f_off ff) n T1) as (k2 & R2 & S2); try done; [cbn; unfold NBUF; lia | apply Fo1 | apply Fo1|].
  fold m in R2. pose proof (rd_op _ _ _ _ S2) as O2. destruct (rd_txn _ _ _ _ S2) as [P2 T2].
  pose proof (txn_nil _ _ _ _ T2) as ->.
  assert (ftable k2 = ftable k) as Hft by (by rewrite (op_frame _ _ O2)).
  set (k3 := set_ftable (<[f := set_f_off (f_off ff + m) ff]> (ftable k2)) k2). set (k4 := drop_sl (SL_inode i) k3).
  assert ((when 0 <? m do upd_file f (fun ff => set_f_off (u32 (f_off ff + m)) ff)) k2 = Ok tt k3) as R3.
  { destruct (Z.ltb_spec 0 m) as [|Hm0].
    - apply set_off_ok; [by rewrite Hft | unfold is_u32; lia].
    - unfold k3. replace m with 0 by lia. rewrite set_off_same, list_insert_id by (by rewrite Hft). by destruct k2. }
  assert (same_fs k1 k2) as S12 by (split; [by apply op_geo | by apply (icache_op k1) | intros; apply S2]).
  pose proof (same_fs_trans _ _ _ S1 S12) as Sk2. pose proof (file_ok_same _ _ _ _ Sk2 Fo) as Fo2.
  assert (iunlock (Some i) k3 = Ok tt k4) as R4.
  { apply (iunlock_ok k3 pr i ip); try done; [|apply Fo2|].
    - apply (calm_framed (set_ftable (<[f := set_f_off (f_off ff + m) ff]> (ftable k2)))); try done. by apply (tx_cache _ _ _ _ _ T2).
    - cbn. rewrite (op_inodes _ _ O2). apply lookup_insert_eq. }
  assert (same_fs k k4) as S4 by (apply (same_fs_trans _ k2 _); [done | by apply same_fs_other]).
  exists k4. split_and!; [| | done].
  - assert (get_file f k = Ok ff k) as Rg by (unfold get_file; msimp; by rewrite Hf).
    unfold fileread. mrun Rg. destruct (Z.eqb_spec (f_readable ff) 0); [done|]. rewrite Ht, Hip. mrun R1. msimp.
    unfold get_file. msimp. change (ftable k1) with (ftable k). rewrite Hf. msimp. rewrite u32_small by (unfold is_u32; lia). mrun R2. mrun R3. mrun R4.
    rewrite (fbytes_same (fsb k)); [done|]. intros b. unfold fsb. by apply blk_other.
  - split; try done.
    + apply (idle_same k); try done; [apply S2 | | apply O2].
      apply (txn_unlocked k2 pr i (<[f := set_f_off (f_off ff + m) ff]> (ftable k2)) _ _ _ T2).
    + by apply (file_ok_same k).
    + cbn. apply lookup_insert_eq.
    + cbn. rewrite Hft. apply list_lookup_insert_eq. by eapply lookup_lt_Some.
Qed.

(** fileread of an inode's file returns its bytes from the offset on, up to
    the end of the file, and moves the offset past them. *)
Theorem fileread_spec pr k f ff i ip n :
  ready k pr f ff i ip -> f_type ff = FD_INODE -> f_readable ff <> 0 ->
  0 <= f_off ff <= i_size ip -> 0 <= n -> f_off ff + n < 2 ^ 32 ->
  let m := Z.min n (i_size ip - f_off ff) in
  exists k', fileread f n k = Ok (m, fbytes (fsb k) ip (f_off ff) m) k' /\
    ready k' pr f (set_f_off (f_off ff + m) ff) i ip /\ same_fs k k'.
Proof. apply fileread_ok. Qed.

Lemma fbytes_overlay g ip c off src :
  (forall p, off <= p < off + Z.of_nat (length src) -> fbyte g ip p = overlay c off src p) ->
  fbytes g ip off (Z.of_nat (length src)) = src.
Proof.
  intros H. apply fbytes_nth. intros p Hp. rewrite H by done. unfold overlay. by rewrite decide_True.
Qed.

(** C14. What one open file wrote, another open file of the same inode reads. *)
Theorem filewrite_fileread pr k f ff f2 ff2 i ip src :
  ready k pr f ff i ip -> f_type ff = FD_INODE -> f_writable ff <> 0 ->
  f2 <> f -> ready k pr f2 ff2 i ip -> f_type ff2 = FD_INODE -> f_readable ff2 <> 0 -> f_off ff2 = f_off ff ->
  0 <= f_off ff <= i_size ip -> f_off ff + Z.of_nat (length src) <= MAXFILE * BSIZE ->
  (indirect_cost ip + write_need (length src) <= nfree k)%nat ->
  exists k1 k2, filewrite f src k = Ok (Z.of_nat (length src)) k1 /\
    fileread f2 (Z.of_nat (length src)) k1 = Ok (Z.of_nat (length src), src) k2.
Proof.
  intros Rd Ht Hw Hne Rd2 Ht2 Hr2 Hoff Ho Hm Hf.
  destruct (filewrite_loop_ok 0 pr f i ff (length src) k ff ip src) as (k1 & ip1 & R & W); try done; [apply Rd | lia|].
  assert (get_file f k = Ok ff k) as Rg by (unfold get_file; msimp; by rewrite (rdy_open _ _ _ _ _ _ Rd)).
  exists k1. pose proof (fw_ready _ _ _ _ _ _ _ _ _ _ W) as [Id1 Fo1 Hrf Hv Hi Hl _ _].
  assert (i_size ip1 = Z.max (i_size ip) (f_off ff + Z.of_nat (length src))) as Hsz by (by rewrite (fw_inode _ _ _ _ _ _ _ _ _ _ W)).
  assert (ready k1 pr f2 ff2 i ip1) as Rd1.
  { split; try done; [|apply Rd2]. rewrite (fw_files _ _ _ _ _ _ _ _ _ _ W), list_lookup_insert_ne by done. apply Rd2. }
  destruct (fileread_ok pr k1 f2 ff2 i ip1 (Z.of_nat (length src))) as (k2 & R2 & _); try done; try lia; [fslia|].
  exists k2. split.
  - unfold filewrite. mrun Rg. destruct (Z.eqb_spec (f_writable ff) 0); [done|]. rewrite Ht. by mrun R.
  - rewrite R2, Hsz, Hoff, Z.min_l by lia. do 2 f_equal. apply (fbytes_overlay _ _ (fbyte (fsb k) ip)).
    intros p Hp. apply (fw_bytes _ _ _ _ _ _ _ _ _ _ W). lia.
Qed.
End loop.

(** ** Witnesses

    The sample file of [Inode], open for writing in entry 0 and for reading in
    entry 1 of the file table. *)
Section samples.
#[local] Existing Instance idle_env.
#[local] Existing Instance sample_disk.
#[local] Existing Instance sample_disk_ok.
#[local] Existing Instance no_devices.

Definition idle_sample : K :=
  set_ftable [mk_file FD_INODE 1 0 1 0 (Some 0%nat) 0; mk_file FD_INODE 1 1 0 0 (Some 0%nat) 0]
    (add_outstanding (-1) file_sample).

Lemma idle_sample_idle : idle idle_sample sample_pr.
Proof.
  pose proof file_sample_tx as [[P T] _ Hs]. pose proof (txn_nil _ _ _ _ T) as ->.
  assert (txn idle_sample sample_pr ∅ ∅ []) as T'.
  { apply (txn_other (fun k => set_ftable _ (add_outstanding (-1) k)) file_sample _ _ _ _ 0); try done. }
  split; try done.
Qed.

Lemma idle_sample_fs : same_fs file_sample idle_sample.
Proof. by apply same_fs_other. Qed.

Lemma idle_sample_ready f ff :
  ftable idle_sample !! f = Some ff -> f_ip ff = Some 0%nat -> ready idle_sample sample_pr f ff 0 empty_file.
Proof.
  intros Hf Hip. split; [apply idle_sample_idle | | done | done | unfold NINODE; lia | by vm_compute | done | done].
  apply (file_ok_same file_sample), file_sample_ok. apply idle_sample_fs.
Qed.

Lemma idle_sample_nfree : nfree idle_sample = 941%nat.
Proof.
  rewrite (same_fs_nfree file_sample idle_sample); [apply file_sample_nfree | apply file_sample_fsys | apply idle_sample_fs].
Qed.


Lemma fileread_spec_witness : exists k', fileread 1 100 idle_sample = Ok (0, []) k'.
Proof.
  destruct (fileread_spec sample_pr idle_sample 1 (mk_file FD_INODE 1 1 0 0 (Some 0%nat) 0) 0 empty_file 100)
    as (k' & R & _).
  - apply idle_sample_ready; reflexivity.
  - reflexivity.
  - discriminate.
  - cbn. lia.
  - lia.
  - cbn. lia.
  - exists k'. exact R.
Defined.

Lemma filewrite_fileread_witness :
  exists k1 k2, filewrite 0 [7; 8; 9] idle_sample = Ok 3 k1 /\ fileread 1 3 k1 = Ok (3, [7; 8; 9]) k2.
Proof.
  apply (filewrite_fileread sample_pr idle_sample 0 (mk_file FD_INODE 1 0 1 0 (Some 0%nat) 0)
    1 (mk_file FD_INODE 1 1 0 0 (Some 0%nat) 0) 0 empty_file [7; 8; 9]).
  - apply idle_sample_ready; reflexivity.
  - reflexivity.
  - discriminate.
  - discriminate.
  - apply idle_sample_ready; reflexivity.
  - reflexivity.
  - discriminate.
  - reflexivity.
  - cbn. lia.
  - change MAXFILE with 140. change BSIZE with 512. cbn. lia.
  - rewrite idle_sample_nfree. vm_compute. lia.
Defined.
End samples.
