(* ===== verification/Proc.v ===== *)
(** * Processes (proc.c)

    Creation, exit, reaping and killing of processes, the scheduler's loop,
    and the system calls this repository adds to proc.c.  sched, yield, sleep
    and wakeup are in [Sched]; mycpu and myproc in [Spinlock]. *)

From Stdlib Require Import ZArith Lia Znumtheory.
From stdpp Require Import base gmap list strings numbers.
From S2P Require Import Prelude Strings State Spinlock Sched Kalloc Console Vm Disk Bio Log Fs Pipe File.

Import string_c.
Open Scope Z_scope.

(** What the linker adds to proc.c: the addresses of two pieces of assembly
    code, and the bytes of initcode. *)
Class Entries := {
  forkret_addr : Z;
  trapret_addr : Z;
  initcode : list Z }.

(** The trap frame stored at an address: 32-bit registers, segment registers
    in the low half of a word. *)
Definition ldh (m : mem) (a : Z) : Z := of_le (ldbs m a 2).
Definition tf_at (m : mem) (a : Z) : trapframe :=
  mk_trapframe (ldw m a) (ldw m (a + 4)) (ldw m (a + 8)) (ldw m (a + 12)) (ldw m (a + 16))
    (ldw m (a + 20)) (ldw m (a + 24)) (ldw m (a + 28)) (ldh m (a + 32)) (ldh m (a + 36))
    (ldh m (a + 40)) (ldh m (a + 44)) (ldw m (a + 48)) (ldw m (a + 52)) (ldw m (a + 56))
    (ldh m (a + 60)) (ldw m (a + 64)) (ldw m (a + 68)) (ldh m (a + 72)).
Definition sizeof_trapframe : Z := 76.

(** A process pointer used as a sleep channel. *)
Definition proc_chan (op : option nat) : channel :=
  match op with Some i => Ch_proc i | None => Ch_null end.

(** The scans of the process table. *)
Definition find_unused (ps : list proc) : option nat :=
  fst <$> list_find (fun p => state p = UNUSED) ps.
Definition find_pid (id : Z) (ps : list proc) : option nat :=
  fst <$> list_find (fun p => pid p = id) ps.
Definition find_zombie (who : proc -> bool) (ps : list proc) : option nat :=
  fst <$> list_find (fun p => who p = true /\ state p = ZOMBIE) ps.

Section code.
Context `{E : Env} `{LY : Layout} `{D : Disk} `{DV : Devsw} `{EN : Entries}.

Definition pinit : KM unit := initlock L_ptable.

Definition curproc_ : KM nat := let* op := myproc in deref "proc" op.

Definition allocproc : KM (option nat) :=
  acquire L_ptable ;;;
  let* ps := reads ptable in
  match find_unused ps with
  | None => release L_ptable ;;; ret None
  | Some p =>
      upd_proc p (set_state EMBRYO) ;;;
      let* n := reads nextpid in
      upd_proc p (set_pid n) ;;;
      modify (set_nextpid (i32 (n + 1))) ;;;
      upd_proc p (set_counter (replicate 100 0)) ;;;
      release L_ptable ;;;
      let* ks := kalloc in
      upd_proc p (set_kstack ks) ;;;
      if ks =? 0 then upd_proc p (set_state UNUSED) ;;; ret None
      else
        let sp := ks + KSTACKSIZE - sizeof_trapframe in
        let* m := reads memory in
        upd_proc p (set_tf (tf_at m sp)) ;;;
        upd_mem (fun m => stw m (sp - 4) trapret_addr) ;;;
        upd_proc p (set_context_ (set_cx_eip forkret_addr context0)) ;;;
        ret (Some p)
  end.

Definition userinit : KM unit :=
  let* op := allocproc in
  modify (set_initproc op) ;;;
  let* p := deref "proc" op in
  let* pd := setupkvm in
  upd_proc p (set_pgdir pd) ;;;
  if pd =? 0 then panic "userinit: out of memory?"
  else
    inituvm pd initcode ;;;
    upd_proc p (set_sz PGSIZE) ;;;
    let seg := Z.lor (Z.shiftl SEG_UDATA 3) DPL_USER in
    upd_proc p (set_tf
      (set_tf_eip 0 (set_tf_esp PGSIZE (set_tf_eflags FL_IF (set_tf_ss seg (set_tf_es seg
        (set_tf_ds seg (set_tf_cs (Z.lor (Z.shiftl SEG_UCODE 3) DPL_USER) trapframe0)))))))) ;;;
    upd_proc p (fun pr => set_name (safestrcpy (name pr) (bytes "initcode") 16) pr) ;;;
    let* root := namei (bytes "/") in
    upd_proc p (set_cwd root) ;;;
    acquire L_ptable ;;;
    upd_proc p (set_state RUNNABLE) ;;;
    release L_ptable.

Definition growproc (n : Z) : KM Z :=
  let* cur := curproc_ in
  let* pr := get_proc cur in
  let* r :=
    (if 0 <? n then
       let* s := allocuvm (pgdir pr) (sz pr) (u32 (sz pr + n)) in
       ret (if s =? 0 then None else Some s)
     else if n <? 0 then
       let* s := deallocuvm (pgdir pr) (sz pr) (u32 (sz pr + n)) in
       ret (if s =? 0 then None else Some s)
     else ret (Some (sz pr))) in
  match r with
  | None => ret (-1)
  | Some s =>
      upd_proc cur (set_sz s) ;;;
      switchuvm (Some cur) ;;;
      ret 0
  end.

Definition fork : KM Z :=
  let* cur := curproc_ in
  let* onp := allocproc in
  match onp with
  | None => ret (-1)
  | Some np =>
      let* c := get_proc cur in
      let* pd := copyuvm (pgdir c) (sz c) in
      upd_proc np (set_pgdir pd) ;;;
      if pd =? 0 then
        let* n := get_proc np in
        kfree (kstack n) ;;;
        upd_proc np (set_kstack 0) ;;;
        upd_proc np (set_state UNUSED) ;;;
        ret (-1)
      else
        upd_proc np (set_sz (sz c)) ;;;
        upd_proc np (set_parent (Some cur)) ;;;
        upd_proc np (set_tf (set_tf_eax 0 (tf c))) ;;;
        for_each (seq 0 NOFILE) (fun i =>
          let* c := get_proc cur in
          match ofile c !! i with
          | Some (Some f) =>
              let* f := filedup f in
              upd_proc np (fun n => set_ofile (<[i := Some f]> (ofile n)) n)
          | _ => ret tt
          end) ;;;
        let* c := get_proc cur in
        let* d := deref "cwd" (cwd c) in
        let* d := idup d in
        upd_proc np (set_cwd (Some d)) ;;;
        upd_proc np (fun n => set_name (safestrcpy (name n) (name c) 16) n) ;;;
        let* n := get_proc np in
        acquire L_ptable ;;;
        upd_proc np (set_state RUNNABLE) ;;;
        release L_ptable ;;;
        ret (pid n)
  end.

(** The loop of exit over the children. *)
Definition abandon (cur : nat) (i : nat) : KM unit :=
  let* p := get_proc i in
  when bool_decide (parent p = Some cur) do
    (let* ip := reads initproc in
     upd_proc i (set_parent ip) ;;;
     when bool_decide (state p = ZOMBIE) do wakeup1 (proc_chan ip)).

(** The end of exit, under the table's lock. *)
Definition exit_zombie (cur : nat) : KM unit :=
  acquire L_ptable ;;;
  let* c := get_proc cur in
  wakeup1 (proc_chan (parent c)) ;;;
  for_each (seq 0 NPROC) (abandon cur) ;;;
  upd_proc cur (set_state ZOMBIE) ;;;
  sched ;;;
  panic "zombie exit".

Definition exit : KM unit :=
  let* op := myproc in
  let* ip := reads initproc in
  if bool_decide (op = ip) then panic "init exiting"
  else
    let* cur := deref "proc" op in
    for_each (seq 0 NOFILE) (fun fd =>
      let* c := get_proc cur in
      match ofile c !! fd with
      | Some (Some f) =>
          fileclose f ;;;
          upd_proc cur (fun c => set_ofile (<[fd := None]> (ofile c)) c)
      | _ => ret tt
      end) ;;;
    begin_op ;;;
    let* c := get_proc cur in
    let* d := deref "cwd" (cwd c) in
    iput d ;;;
    end_op ;;;
    upd_proc cur (set_cwd None) ;;;
    exit_zombie cur.

(** The part that wait and waitForProcess share: give the zombie in slot [i]
    back to the table; its pid. *)
Definition reap (i : nat) : KM Z :=
  let* p := get_proc i in
  kfree (kstack p) ;;;
  upd_proc i (set_kstack 0) ;;;
  freevm (pgdir p) ;;;
  upd_proc i (set_pid 0) ;;;
  upd_proc i (set_parent None) ;;;
  upd_proc i (fun p => set_name (<[0%nat := 0]> (name p)) p) ;;;
  upd_proc i (set_killed 0) ;;;
  upd_proc i (set_state UNUSED) ;;;
  release L_ptable ;;;
  ret (pid p).

(** One round of the loop of wait and of waitForProcess: [who] selects the
    processes the scan does not skip. *)
Definition reap_round (cur : nat) (who : proc -> bool) : KM (option Z) :=
  let* ps := reads ptable in
  match find_zombie who ps with
  | Some i => let* p := reap i in ret (Some p)
  | None =>
      let* c := get_proc cur in
      if negb (existsb who ps) || Zb (killed c) then
        release L_ptable ;;;
        ret (Some (-1))
      else
        sleep (Ch_proc cur) (Some L_ptable) ;;;
        ret None
  end.

Definition child_of (cur : nat) (p : proc) : bool := bool_decide (parent p = Some cur).

Definition wait : KM Z :=
  let* cur := curproc_ in
  acquire L_ptable ;;;
  forever (reap_round cur (child_of cur)).

(** One turn of the scheduler's inner loop.  [others] is the life of the
    chosen process until it switches back. *)
Definition schedule (c : nat) (p : nat) : KM unit :=
  let* pr := get_proc p in
  when bool_decide (state pr = RUNNABLE) do
    (upd_cpu c (set_cpu_proc (Some p)) ;;;
     switchuvm (Some p) ;;;
     upd_proc p (set_state RUNNING) ;;;
     others ;;;                            (* swtch *)
     switchkvm ;;;
     upd_cpu c (set_cpu_proc None)).

(** Interrupts are taken between [sti] and [acquire]. *)
Definition scheduler : KM unit :=
  let* c := mycpu in
  upd_cpu c (set_cpu_proc None) ;;;
  forever
    (sti ;;;
     others ;;;
     acquire L_ptable ;;;
     for_each (seq 0 NPROC) (schedule c) ;;;
     release L_ptable ;;;
     ret None).

Definition forkret : KM unit :=
  release L_ptable ;;;
  let* first := reads forkret_first in
  when Zb first do
    (modify (set_forkret_first 0) ;;;
     iinit ROOTDEV ;;;
     initlog ROOTDEV).

Definition kill (id : Z) : KM Z :=
  acquire L_ptable ;;;
  let* ps := reads ptable in
  match find_pid id ps with
  | Some i =>
      upd_proc i (set_killed 1) ;;;
      let* p := get_proc i in
      (when bool_decide (state p = SLEEPING) do upd_proc i (set_state RUNNABLE)) ;;;
      release L_ptable ;;;
      ret 0
  | None =>
      release L_ptable ;;;
      ret (-1)
  end.

Definition state_name (s : procstate) : list Z :=
  match s with
  | UNUSED => bytes "unused"
  | EMBRYO => bytes "embryo"
  | SLEEPING => bytes "sleep "
  | RUNNABLE => bytes "runble"
  | RUNNING => bytes "run   "
  | ZOMBIE => bytes "zombie"
  end.

(** The program counters procdump prints: up to the first zero. *)
Fixpoint print_pcs (pcs : list Z) : KM unit :=
  match pcs with
  | [] => ret tt
  | pc :: pcs => if pc =? 0 then ret tt else cprintf (bytes " %p") [A_int pc] ;;; print_pcs pcs
  end.

Definition procdump : KM unit :=
  for_each (seq 0 NPROC) (fun i =>
    let* p := get_proc i in
    if bool_decide (state p = UNUSED) then ret tt
    else
      cprintf (bytes "%d %s %s") [A_int (pid p); A_str (state_name (state p)); A_str (string_facts.cstr 16 (name p))] ;;;
      (when bool_decide (state p = SLEEPING) do
         let* m := reads memory in
         print_pcs (getcallerpcs m (u32 (cx_ebp (context_ p) + 8)))) ;;;
      cprintf (bytes "
") []).

(** *** Added system calls *)

(** Whether the inner loop of find_next_prime_number raises its flag. *)
Definition has_divisor (number : Z) : bool :=
  existsb (fun i => Z.rem number i =? 0) (zseq 2 (number - 2)).

(** One turn of its outer loop; incrementing the largest [int] is undefined. *)
Definition prime_turn (number : Z) : Z + option Z :=
  if negb (has_divisor number) then inr (Some number)
  else if number =? 2 ^ 31 - 1 then inr None
  else inl (number + 1).

(** No [int] argument takes more than [2^32] turns. *)
Definition find_next_prime_number (number : Z) : KM Z :=
  if number =? 2 ^ 31 - 1 then undefined "int overflow"
  else
    match run_pos (2 ^ 32) prime_turn (number + 1) with
    | inr (Some p) => ret p
    | _ => undefined "int overflow"
    end.

(** The loop of getMostCaller: the best count and its pid so far. *)
Fixpoint most_caller (syscallid : Z) (ps : list proc) (cnt id : Z) : option Z :=
  match ps with
  | [] => Some id
  | p :: ps =>
      match (if syscallid <? 0 then None else counter p !! Z.to_nat syscallid) with
      | None => None
      | Some n =>
          if cnt <? n then most_caller syscallid ps syscallid (pid p)
          else most_caller syscallid ps cnt id
      end
  end.
Definition getMostCaller (syscallid : Z) : KM Z :=
  let* ps := reads ptable in
  deref "counter" (most_caller syscallid ps 0 0).

Definition waitForProcess (process_id : Z) : KM Z :=
  let* cur := curproc_ in
  acquire L_ptable ;;;
  forever (reap_round cur (fun p => pid p =? process_id)).
End code.

(** ** The next prime *)

Lemma has_divisor_spec n :
  has_divisor n = true <-> exists i, 2 <= i < n /\ (i | n).
Proof.
  unfold has_divisor. rewrite existsb_exists. split.
  - intros (i & Hi & Hr). apply list_elem_of_In, elem_of_zseq in Hi. exists i. split; [lia|].
    apply Z.rem_divide; [lia|]. by apply Z.eqb_eq.
  - intros (i & Hi & Hd). exists i. split.
    + apply list_elem_of_In, elem_of_zseq. lia.
    + apply Z.eqb_eq. by apply Z.rem_divide; [lia|].
Qed.

Lemma has_divisor_prime n : 1 < n -> has_divisor n = false <-> prime n.
Proof.
  intros Hn. rewrite <-prime_alt, <-not_true_iff_false, has_divisor_spec. unfold Z.prime. split.
  - intros H. split; [done|]. intros i Hi Hd. apply H. exists i. split; [lia | done].
  - intros [_ H] (i & Hi & Hd). by apply (H i); [lia|].
Qed.

(** The largest [int] is prime, so the search from any smaller one ends. *)
Fixpoint no_divisor (n : nat) (i p : Z) : bool :=
  match n with
  | O => true
  | S n => negb (p mod i =? 0) && no_divisor n (i + 1) p
  end.

Lemma no_divisor_spec n i p d :
  no_divisor n i p = true -> 0 < i -> i <= d < i + Z.of_nat n -> ~ (d | p).
Proof.
  revert i. induction n as [|n IH]; intros i H Hi Hd; [lia|].
  cbn in H. apply andb_prop in H as [H1 H2]. destruct (decide (d = i)) as [->|].
  - intros Hdiv. apply Z.mod_divide in Hdiv; [|lia]. by rewrite Hdiv in H1.
  - apply (IH (i + 1)); [done | lia | lia].
Qed.

Lemma prime_sqrt p n :
  1 < p -> p < (2 + Z.of_nat n) * (2 + Z.of_nat n) -> no_divisor n 2 p = true -> prime p.
Proof.
  intros Hp Hr Hall. pose proof (no_divisor_spec n 2 p) as Hno.
  apply prime_alt. split; [done|]. intros d Hd Hdiv.
  destruct (Z.lt_ge_cases d (2 + Z.of_nat n)); [by apply (Hno d); [done|lia|lia|]|].
  destruct Hdiv as [e ->]. assert (1 < e) by nia. assert (e < 2 + Z.of_nat n) by nia.
  apply (Hno e); [done | lia | lia |]. exists d. lia.
Qed.

Lemma prime_int_max : prime (2 ^ 31 - 1).
Proof.
  apply (prime_sqrt _ (Z.to_nat 46340)); [lia | lia |]. vm_compute. reflexivity.
Qed.

(** The first of the numbers from [a] on that passes a test. *)
Lemma first_passing (f : Z -> bool) a b :
  a <= b -> f b = true -> exists p, a <= p <= b /\ f p = true /\ forall m, a <= m < p -> f m = false.
Proof.
  intros Hab Hb. remember (Z.to_nat (b - a)) as n eqn:Hn. revert a Hab Hn.
  induction n as [|n IH]; intros a Hab Hn.
  - exists b. replace a with b by lia. repeat split; try done; lia.
  - destruct (f a) eqn:Ha; [exists a; repeat split; try done; lia|].
    destruct (IH (a + 1) ltac:(lia) ltac:(lia)) as (p & Hp & Hfp & Hm).
    exists p. repeat split; try done; [lia|lia|]. intros m Hlt.
    destruct (decide (m = a)) as [->|]; [done | apply Hm; lia].
Qed.

Lemma run_prime n a p :
  a <= p < 2 ^ 31 -> (Z.to_nat (p - a) < n)%nat -> has_divisor p = false ->
  (forall m, a <= m < p -> has_divisor m = true) ->
  run_nat n prime_turn a = inr (Some p).
Proof.
  revert a. induction n as [|n IH]; intros a Hp Hn Hd Hm; [lia|]. cbn. unfold prime_turn at 1.
  destruct (decide (a = p)) as [->|Hne]; [by rewrite Hd|].
  rewrite Hm by lia. cbn [negb]. destruct (Z.eqb_spec a (2 ^ 31 - 1)); [lia|].
  apply IH; [lia | lia | done |]. intros m Hlt. apply Hm. lia.
Qed.

(** C35. find_next_prime_number terminates for every argument but the largest
    int, without overflowing: from 1 up it returns the least prime above its
    argument; below 1 it returns the next integer, prime or not. *)
Theorem find_next_prime_spec n k :
  - 2 ^ 31 <= n < 2 ^ 31 - 1 ->
  exists p, find_next_prime_number n k = Ok p k /\
    (n <= 0 -> p = n + 1) /\
    (1 <= n -> prime p /\ n < p < 2 ^ 31 /\ forall m, n < m < p -> ~ prime m).
Proof.
  intros Hn. unfold find_next_prime_number. destruct (Z.eqb_spec n (2 ^ 31 - 1)); [lia|].
  rewrite run_pos_nat. destruct (Z.le_gt_cases n 0) as [H0|H0].
  - exists (n + 1). rewrite (run_prime _ (n + 1) (n + 1)); [|lia|lia| |intros; lia].
    + split_and!; [done | done | lia].
    + apply not_true_iff_false. rewrite has_divisor_spec. intros (i & Hi & _). lia.
  - destruct (first_passing (fun m => negb (has_divisor m)) (n + 1) (2 ^ 31 - 1)) as (p & Hp & Hd & Hm);
      [lia | by rewrite (proj2 (has_divisor_prime (2 ^ 31 - 1) eq_refl) prime_int_max) |].
    exists p. apply negb_true_iff in Hd.
    rewrite (run_prime _ (n + 1) p); [|lia|lia|done|].
    + split_and!; [done | lia |]. intros _. split_and!; [by apply (has_divisor_prime p ltac:(lia)) | lia | lia |].
      intros m Hlt Hpr. specialize (Hm m ltac:(lia)).
      rewrite (proj2 (has_divisor_prime m ltac:(lia)) Hpr) in Hm. done.
    + intros m Hlt. apply negb_false_iff. by apply Hm.
Qed.

(** ** The most frequent caller *)

Definition calls (id : Z) (p : proc) : Z := default 0 (counter p !! Z.to_nat id).
Definition counts (id : Z) (p : proc) : Prop := (Z.to_nat id < length (counter p))%nat.

(** The last process with more than [id] calls; failing that, the first with
    any call; failing that, none. *)
Definition reported (id : Z) (ps : list proc) : Z :=
  match list.last (filter (fun p => id < calls id p) ps), list.head (filter (fun p => 0 < calls id p) ps) with
  | Some p, _ => pid p
  | None, Some p => pid p
  | None, None => 0
  end.

Lemma most_caller_cons id p ps cnt r :
  0 <= id -> counts id p ->
  most_caller id (p :: ps) cnt r =
  if cnt <? calls id p then most_caller id ps id (pid p) else most_caller id ps cnt r.
Proof.
  intros Hid Hp. cbn. destruct (Z.ltb_spec id 0); [lia|]. unfold calls.
  destruct (lookup_lt_is_Some_2 _ _ Hp) as [n ->]. done.
Qed.

Lemma most_caller_later id ps r :
  0 <= id -> Forall (counts id) ps ->
  most_caller id ps id r =
  Some (match list.last (filter (fun p => id < calls id p) ps) with Some p => pid p | None => r end).
Proof.
  intros Hid Hps. revert r. induction Hps as [|p ps Hp _ IH]; intros r; [done|].
  rewrite most_caller_cons, !IH by done. rewrite filter_cons.
  destruct (Z.ltb_spec id (calls id p)); case_decide; try lia; [|done].
  rewrite last_cons. by destruct (list.last _).
Qed.

Lemma most_caller_reported id ps :
  0 <= id -> Forall (counts id) ps -> most_caller id ps 0 0 = Some (reported id ps).
Proof.
  intros Hid Hps. unfold reported. induction Hps as [|p ps Hp Hps IH]; [done|].
  rewrite most_caller_cons by done. rewrite !filter_cons.
  destruct (Z.ltb_spec 0 (calls id p)).
  - rewrite most_caller_later by done. rewrite (decide_True (P := 0 < calls id p)) by done.
    case_decide; [|by destruct (list.last _)]. rewrite last_cons. by destruct (list.last _).
  - rewrite !decide_False by lia. exact IH.
Qed.

(** getMostCaller compares counts with the number of the system call
    instead of with the best count so far: it returns the last process with
    more calls than that number, else the first one with any call.  The
    process with the most calls plays no role. *)
Theorem getMostCaller_reports id k :
  0 <= id -> Forall (counts id) (ptable k) ->
  getMostCaller id k = Ok (reported id (ptable k)) k.
Proof. intros Hid Hps. unfold getMostCaller. msimp. by rewrite most_caller_reported. Qed.

(** ** kill *)

Definition kill_proc (p : proc) : proc :=
  if bool_decide (state p = SLEEPING) then set_state RUNNABLE (set_killed 1 p) else set_killed 1 p.

Section kill_lemmas.
Context `{E : Env}.

(** kill marks the first process with the given pid as killed and wakes it if
    it sleeps, whatever it sleeps on, and changes nothing else; without such
    a process it fails and changes nothing. *)
Theorem kill_spec id k :
  quiet k -> lock_free L_ptable k ->
  match find_pid id (ptable k) with
  | Some i => kill id k = Ok 0 (set_ptable (alter kill_proc i (ptable k)) k)
  | None => kill id k = Ok (-1) k
  end.
Proof.
  intros Hq Hf. unfold kill. destruct (find_pid id (ptable k)) as [i|] eqn:Hi;
    mrun (acquire_ok _ _ Hq Hf); msimp; unlocked; rewrite Hi; msimp.
  2: { by mrun (release_ok L_ptable (fun k => k) k Hq Hf _). }
  unfold find_pid in Hi. apply fmap_Some in Hi as ([j p] & Hi & ->).
  apply list_find_Some in Hi as (Hj & _ & _). cbn [fst].
  unfold upd_proc. msimp. cbn [ptable set_ptable]. unlocked.
  erewrite bind_ok by (apply get_proc_ok; cbn; by rewrite list_lookup_alter_eq, Hj).
  change (state (set_killed 1 p)) with (state p).
  assert (forall h : proc -> proc, h p = kill_proc p ->
    release L_ptable (set_ptable (alter h j (ptable k)) (locked L_ptable k)) =
    Ok tt (set_ptable (alter kill_proc j (ptable k)) k)) as Hrel.
  { intros h Hh. rewrite (list_alter_ext h kill_proc (ptable k) (ptable k) j) by naive_solver.
    exact (release_ok L_ptable (set_ptable (alter kill_proc j (ptable k))) k Hq Hf _). }
  destruct (decide (state p = SLEEPING)) as [Hs|Hs].
  - rewrite bool_decide_eq_true_2 by done. msimp. cbn [ptable set_ptable].
    rewrite list_alter_alter_eq.
    erewrite bind_ok by (apply (Hrel (set_state RUNNABLE ∘ set_killed 1));
      unfold kill_proc; by rewrite bool_decide_eq_true_2). done.
  - rewrite bool_decide_eq_false_2 by done. msimp.
    erewrite bind_ok by (apply (Hrel (set_killed 1));
      unfold kill_proc; by rewrite bool_decide_eq_false_2). done.
Qed.
End kill_lemmas.

(** ** exit *)

Definition zombie_child (cur : nat) (p : proc) : bool :=
  child_of cur p && bool_decide (state p = ZOMBIE).
Definition adopt (cur : nat) (ip : option nat) (p : proc) : proc :=
  if child_of cur p then set_parent ip p else p.

(** The table after the loop of exit over its first [n] entries. *)
Definition abandoned (cur : nat) (ip : option nat) (n : nat) (ps : list proc) : list proc :=
  let ps' := (adopt cur ip <$> take n ps) ++ drop n ps in
  if existsb (zombie_child cur) (take n ps) then wake_proc (proc_chan ip) <$> ps' else ps'.

Lemma wake_proc_idem ch p : wake_proc ch (wake_proc ch p) = wake_proc ch p.
Proof. unfold wake_proc. repeat case_bool_decide; cbn; repeat case_bool_decide; naive_solver. Qed.
Lemma wake_proc_fields ch p :
  parent (wake_proc ch p) = parent p /\ (state (wake_proc ch p) = ZOMBIE <-> state p = ZOMBIE).
Proof. unfold wake_proc. repeat case_bool_decide; cbn; split; try done; split; congruence. Qed.
Lemma zombie_child_wake cur ch p : zombie_child cur (wake_proc ch p) = zombie_child cur p.
Proof.
  unfold zombie_child, child_of. destruct (wake_proc_fields ch p) as [-> H].
  by rewrite (bool_decide_ext _ _ H).
Qed.
Lemma wake_proc_set_parent ch ip p : wake_proc ch (set_parent ip p) = set_parent ip (wake_proc ch p).
Proof. unfold wake_proc. cbn. by destruct (_ && _). Qed.

Lemma adopt_wake cur ip ch p : adopt cur ip (wake_proc ch p) = wake_proc ch (adopt cur ip p).
Proof.
  unfold adopt, child_of. destruct (wake_proc_fields ch p) as [-> _].
  case_bool_decide; [by rewrite wake_proc_set_parent | done].
Qed.

Lemma take_drop_lookup {A} n (l : list A) x :
  l !! n = Some x -> take (S n) l = take n l ++ [x] /\ drop n l = x :: drop (S n) l.
Proof. intros H. split; [by apply take_S_r | by apply drop_S]. Qed.

Lemma fmap_wake_idem ch (ps : list proc) :
  wake_proc ch <$> (wake_proc ch <$> ps) = wake_proc ch <$> ps.
Proof. rewrite <-list_fmap_compose. apply list_fmap_ext. intros _ p _. apply wake_proc_idem. Qed.

(** What one turn of the loop does to the table. *)
Definition abandon_at (cur : nat) (ip : option nat) (i : nat) (ps : list proc) : list proc :=
  match ps !! i with
  | Some p =>
      let ps := alter (adopt cur ip) i ps in
      if zombie_child cur p then wake_proc (proc_chan ip) <$> ps else ps
  | None => ps
  end.

Lemma abandon_ok cur i k :
  is_Some (ptable k !! i) ->
  abandon cur i k = Ok tt (set_ptable (abandon_at cur (initproc k) i (ptable k)) k).
Proof.
  intros [p Hp]. unfold abandon, abandon_at. mrun (get_proc_ok _ _ _ Hp). rewrite Hp.
  unfold adopt, zombie_child, child_of.
  rewrite (list_alter_ext _ (fun p0 => if bool_decide (parent p = Some cur) then set_parent (initproc k) p0 else p0)
    (ptable k) (ptable k) i) by naive_solver.
  case_bool_decide; cbn [andb].
  - msimp. unfold upd_proc. msimp. case_bool_decide; reflexivity.
  - rewrite list_alter_id by done. by destruct k.
Qed.

Lemma abandoned_length cur ip n ps : length (abandoned cur ip n ps) = length ps.
Proof.
  unfold abandoned. destruct (existsb _ _); rewrite ?length_fmap, length_app, length_fmap, <-length_app;
    by rewrite take_drop.
Qed.

Lemma abandoned_step cur ip n ps :
  (n < length ps)%nat ->
  abandon_at cur ip n (abandoned cur ip n ps) = abandoned cur ip (S n) ps.
Proof.
  intros Hn. destruct (lookup_lt_is_Some_2 _ _ Hn) as [p Hp].
  destruct (take_drop_lookup n ps p Hp) as [Ht Hd].
  assert (adopt cur ip <$> take (S n) ps = (adopt cur ip <$> take n ps) ++ [adopt cur ip p]) as Ha
    by (by rewrite Ht, fmap_app).
  unfold abandoned. rewrite Ha, Ht, existsb_app, Hd. cbn [existsb]. rewrite orb_false_r.
  set (F := adopt cur ip <$> take n ps). set (R := drop (S n) ps). set (ch := proc_chan ip).
  assert (length F = n) as HF by (unfold F; rewrite length_fmap, length_take; lia).
  assert (forall (G : list proc) q, length G = n -> (G ++ q :: R) !! n = Some q) as Hlk
    by (intros G q <-; by rewrite list_lookup_middle).
  assert (alter (adopt cur ip) n (F ++ p :: R) = F ++ adopt cur ip p :: R) as Halt
    by (rewrite alter_app_r_alt, HF, Nat.sub_diag by lia; done).
  unfold abandon_at. rewrite <-(app_assoc F). cbn [app].
  destruct (existsb (zombie_child cur) (take n ps)); cbn [orb].
  - rewrite list_lookup_fmap, (Hlk F p HF). cbn [fmap option_fmap option_map].
    rewrite zombie_child_wake, <-(list_fmap_alter (wake_proc ch) (adopt cur ip)), Halt.
    + destruct (zombie_child cur p); [apply fmap_wake_idem | done].
    + apply Forall_true. intros q. symmetry. apply adopt_wake.
  - rewrite (Hlk F p HF), Halt. done.
Qed.

Lemma abandon_all cur n k :
  (n <= length (ptable k))%nat ->
  for_each (seq 0 n) (abandon cur) k =
  Ok tt (set_ptable (abandoned cur (initproc k) n (ptable k)) k).
Proof.
  induction n as [|n IH]; intros Hn.
  - cbn. unfold abandoned. cbn. rewrite drop_0. by destruct k.
  - rewrite seq_S, for_each_app. mrun (IH ltac:(lia)). cbn [for_each].
    erewrite bind_ok.
    2: { apply abandon_ok. apply lookup_lt_is_Some_2. cbn. rewrite abandoned_length. lia. }
    cbn [ptable initproc set_ptable]. rewrite abandoned_step by lia. done.
Qed.

Lemma abandoned_full cur ip ps :
  abandoned cur ip (length ps) ps =
  if existsb (zombie_child cur) ps then wake_proc (proc_chan ip) <$> (adopt cur ip <$> ps)
  else adopt cur ip <$> ps.
Proof. unfold abandoned. by rewrite firstn_all, skipn_all, app_nil_r. Qed.

(** The sleepers that exit of process [cur], with entry [c], wakes: those on its
    parent's channel, and those on init's if init inherits a zombie. *)
Definition exit_wakes (k : K) (cur : nat) (c p : proc) : bool :=
  bool_decide (state p = SLEEPING) &&
  (bool_decide (chan p = proc_chan (parent c)) ||
   existsb (zombie_child cur) (ptable k) && bool_decide (chan p = proc_chan (initproc k))).

Definition exited (k : K) (cur : nat) (c : proc) : list proc :=
  alter (set_state ZOMBIE) cur
    (abandoned cur (initproc k) NPROC (wake_proc (proc_chan (parent c)) <$> ptable k)).

(** The effect on one entry, before the exiting process is made a zombie. *)
Definition exit_entry (k : K) (cur : nat) (c p : proc) : proc :=
  let q := adopt cur (initproc k) (wake_proc (proc_chan (parent c)) p) in
  if existsb (zombie_child cur) (ptable k) then wake_proc (proc_chan (initproc k)) q else q.

Lemma exit_entry_eq k cur c p :
  exit_entry k cur c p =
  set_state (if exit_wakes k cur c p then RUNNABLE else state p)
    (set_parent (if child_of cur p then initproc k else parent p) p).
Proof.
  unfold exit_entry, exit_wakes. rewrite adopt_wake.
  assert (adopt cur (initproc k) p = set_parent (if child_of cur p then initproc k else parent p) p) as ->
    by (unfold adopt; destruct (child_of cur p); by destruct p).
  generalize (if child_of cur p then initproc k else parent p). intros ip.
  unfold wake_proc. destruct (existsb _ _); cbn; repeat case_bool_decide; cbn in *;
    repeat case_bool_decide; destruct p; cbn in *; naive_solver.
Qed.

Lemma exited_eq k cur c :
  length (ptable k) = NPROC ->
  exited k cur c = alter (set_state ZOMBIE) cur (exit_entry k cur c <$> ptable k).
Proof.
  intros Hlen. unfold exited. f_equal.
  rewrite <-Hlen, <-(length_fmap (wake_proc (proc_chan (parent c))) (ptable k)), abandoned_full.
  assert (existsb (zombie_child cur) (wake_proc (proc_chan (parent c)) <$> ptable k) =
          existsb (zombie_child cur) (ptable k)) as ->.
  { clear. induction (ptable k) as [|q ps IH]; [done|]. cbn. by rewrite zombie_child_wake, <-IH. }
  unfold exit_entry. destruct (existsb _ _); by rewrite <-!list_fmap_compose.
Qed.

Lemma exited_lookup k cur c i p :
  length (ptable k) = NPROC -> ptable k !! i = Some p ->
  exited k cur c !! i = Some (set_state
    (if decide (i = cur) then ZOMBIE else if exit_wakes k cur c p then RUNNABLE else state p)
    (set_parent (if child_of cur p then initproc k else parent p) p)).
Proof.
  intros Hlen Hp. rewrite exited_eq by done. case_decide as Hj.
  - subst i. rewrite list_lookup_alter_eq, list_lookup_fmap, Hp. cbn. by rewrite exit_entry_eq.
  - rewrite list_lookup_alter_ne, list_lookup_fmap, Hp by done. cbn. by rewrite exit_entry_eq.
Qed.

Section exit_lemmas.
Context `{E : Env}.

Lemma exit_zombie_runs cur c k :
  runs_proc k cur -> lock_free L_ptable k -> ptable k !! cur = Some c -> length (ptable k) = NPROC ->
  exists i d, find_cpu k = Some (i, d) /\
  exit_zombie cur k =
    (others ;;; (let* i := mycpu in upd_cpu i (set_intena (intena d))) ;;; panic "zombie exit")
      (set_ptable (exited k cur c) (locked L_ptable k)).
Proof.
  intros (Hq & Hcur & _ & Hn) Hf Hc Hlen.
  set (f := set_ptable (exited k cur c)).
  destruct (sched_switches_from f cur (set_state ZOMBIE (exit_entry k cur c c)) k _ Hq Hcur) as (i & d & Hd & Hsw);
    [| done | done |].
  { cbn. rewrite exited_eq, list_lookup_alter_eq, list_lookup_fmap, Hc by done. done. }
  exists i, d. split; [done|]. unfold exit_zombie. mrun (acquire_ok _ _ Hq Hf).
  mrun (get_proc_ok cur c (locked L_ptable k) ltac:(by unlocked)).
  unfold wakeup1. msimp. unlocked.
  set (k1 := set_ptable _ (locked L_ptable k)).
  assert (initproc k1 = initproc k) as Hi by (unfold k1; cbn; by unlocked).
  mrun (abandon_all cur NPROC k1 ltac:(unfold k1; cbn; rewrite length_fmap; lia)).
  unfold upd_proc. msimp. rewrite Hi. unfold k1. cbn [ptable set_ptable].
  change (set_ptable _ _) with (f (locked L_ptable k)).
  unfold bind at 1. rewrite Hsw. unfold bind. by destruct (others _).
Qed.

End exit_lemmas.

(** ** Waiting for a process *)

Section wait_lemmas.
Context `{E : Env} `{LY : Layout}.

Lemma curproc_ok cur k : quiet k -> curproc k = Some cur -> curproc_ k = Ok cur k.
Proof. intros Hq Hc. unfold curproc_. mrun (myproc_ok _ Hq). by rewrite Hc. Qed.

(** Sleeping with the table's own lock. *)
Lemma sleep_ptable ch p k :
  runs_proc k p -> k_sched k = [] ->
  sleep ch (Some L_ptable) (locked L_ptable k) = Stuck (parked ch p k).
Proof.
  intros Hr Hs. destruct (sched_switches ch p k Hr) as (i & c & _ & Hsw).
  destruct Hr as (Hq & Hp & _). unfold sleep.
  mrun (myproc_ok _ (quiet_locked L_ptable k Hq)). rewrite curproc_locked, Hp by done.
  rewrite bool_decide_eq_false_2 by naive_solver. msimp. unfold upd_proc. msimp.
  cbn [ptable set_ptable]. rewrite alter_twice. unlocked.
  match goal with |- bind sched ?f _ = _ => change (bind sched f (parked ch p k) = Stuck (parked ch p k)) end.
  unfold bind at 1. rewrite Hsw. unfold bind, others. destruct (parked_fields ch p k Hq) as (-> & _). by rewrite Hs.
Qed.

(** The shared loop when the scan finds no zombie. *)
Lemma reap_loop_none who cur c k :
  runs_proc k cur -> lock_free L_ptable k -> ptable k !! cur = Some c ->
  find_zombie who (ptable k) = None -> existsb who (ptable k) = false \/ killed c <> 0 ->
  forever (reap_round cur who) (locked L_ptable k) = Ok (-1) k.
Proof.
  intros (Hq & _) Hf Hc Hz Hno. apply forever_done. unfold reap_round. msimp. unlocked. rewrite Hz.
  mrun (get_proc_ok cur c (locked L_ptable k) ltac:(by unlocked)).
  assert (negb (existsb who (ptable k)) || Zb (killed c) = true) as ->.
  { apply orb_true_iff. destruct Hno as [->|Hk]; [by left|]. right. unfold Zb.
    by destruct (Z.eqb_spec (killed c) 0). }
  by mrun (release_ok L_ptable (fun k => k) k Hq Hf _).
Qed.

Lemma reap_loop_parks who cur c k :
  runs_proc k cur -> ptable k !! cur = Some c -> k_sched k = [] ->
  find_zombie who (ptable k) = None -> existsb who (ptable k) = true -> killed c = 0 ->
  forever (reap_round cur who) (locked L_ptable k) = Stuck (parked (Ch_proc cur) cur k).
Proof.
  intros Hr Hc Hs Hz Hw Hk. unfold forever. cbn [forever_n]. unfold reap_round at 1. msimp. unlocked.
  rewrite Hz. msimp. mrun (get_proc_ok cur c (locked L_ptable k) ltac:(by unlocked)).
  rewrite Hw, Hk. cbv iota beta. cbn [negb orb Zb Z.eqb]. msimp. unfold bind.
  by rewrite (sleep_ptable _ _ _ Hr Hs).
Qed.

(** C30. wait returns -1 at once when the process has no child, and when it has
    been killed with no zombie to collect; otherwise, with no zombie among
    its children, it goes to sleep on its own channel, the one exit wakes. *)
Theorem wait_spec cur c k :
  runs_proc k cur -> lock_free L_ptable k -> ptable k !! cur = Some c -> k_sched k = [] ->
  find_zombie (child_of cur) (ptable k) = None ->
  wait k =
    if negb (existsb (child_of cur) (ptable k)) || Zb (killed c) then Ok (-1) k
    else Stuck (parked (Ch_proc cur) cur k).
Proof.
  intros Hr Hf Hc Hs Hz. pose proof Hr as (Hq & Hcur & _). unfold wait.
  mrun (curproc_ok _ _ Hq Hcur). mrun (acquire_ok _ _ Hq Hf).
  destruct (existsb (child_of cur) (ptable k)) eqn:He; cbn [negb orb].
  - unfold Zb. destruct (Z.eqb_spec (killed c) 0); cbn [negb].
    + by apply (reap_loop_parks _ _ c).
    + apply (reap_loop_none _ _ c); auto.
  - apply (reap_loop_none _ _ c); auto.
Qed.

(** waitForProcess of a process that is not a child never learns of its exit:
    the caller goes to sleep on its own channel, and from any state in which
    it sleeps there, the exit of a process whose parent is another one
    leaves it asleep. *)
Theorem waitForProcess_misses_exit id cur c k :
  runs_proc k cur -> lock_free L_ptable k -> ptable k !! cur = Some c -> k_sched k = [] ->
  killed c = 0 -> find_zombie (fun p => pid p =? id) (ptable k) = None ->
  existsb (fun p => pid p =? id) (ptable k) = true ->
  waitForProcess id k = Stuck (parked (Ch_proc cur) cur k) /\
  forall k2 j d p, runs_proc k2 j -> lock_free L_ptable k2 -> length (ptable k2) = NPROC ->
    k_sched k2 = [] -> ptable k2 !! j = Some d -> parent d <> Some cur -> initproc k2 <> Some cur ->
    j <> cur -> ptable k2 !! cur = Some p -> state p = SLEEPING -> chan p = Ch_proc cur ->
    exists k3 p', exit_zombie j k2 = Stuck k3 /\ ptable k3 !! cur = Some p' /\
      state p' = SLEEPING /\ chan p' = Ch_proc cur.
Proof.
  intros Hr Hf Hc Hs Hk Hz He. pose proof Hr as (Hq & Hcur & _). split.
  - unfold waitForProcess. mrun (curproc_ok _ _ Hq Hcur). mrun (acquire_ok _ _ Hq Hf).
    by apply (reap_loop_parks _ _ c).
  - intros k2 j d p Hr2 Hf2 Hlen Hs2 Hd Hpar Hini Hj Hp Hst Hch.
    destruct (exit_zombie_runs j d k2 Hr2 Hf2 Hd Hlen) as (i & e & _ & ->).
    exists (set_ptable (exited k2 j d) (locked L_ptable k2)). eexists. split_and!.
    + unfold bind, others. cbn. unlocked. by rewrite Hs2.
    + cbn. by apply exited_lookup.
    + cbn. rewrite decide_False by done. unfold exit_wakes. rewrite Hst, Hch.
      assert (forall o, o <> Some cur -> bool_decide (Ch_proc cur = proc_chan o) = false) as Hne.
      { intros [o|] Ho; apply bool_decide_eq_false_2; cbn; congruence. }
      by rewrite !Hne, andb_false_r by done.
    + cbn. done.
Qed.
End wait_lemmas.

(** ** Sample process tables *)

Definition sample_proc (s : procstate) (id : Z) (par : option nat) (ch : channel) : proc :=
  set_chan ch (set_parent par (set_pid id (set_state s proc0))).

(** Process 0 runs, with a zombie child and a sleeping parent; slot 3 is init. *)
Definition family (child : procstate) : K :=
  set_initproc (Some 3%nat) (set_ptable
    ([sample_proc RUNNING 5 (Some 2%nat) Ch_null; sample_proc child 6 (Some 0%nat) Ch_null;
      sample_proc SLEEPING 2 (Some 3%nat) (Ch_proc 2); sample_proc SLEEPING 1 None (Ch_proc 3)]
     ++ replicate 60 proc0) sample).

Lemma family_runs s : runs_proc (family s) 0.
Proof.
  destruct sample_runs as (Hq & Hc & _ & Hn). unfold family.
  split_and!; [|done | by eexists | done].
  exact (quiet_framed (set_initproc _) _ _ (quiet_framed (set_ptable _) _ _ Hq)).
Qed.
Lemma family_free s : lock_free L_ptable (family s).
Proof. apply (sample_free L_ptable). left. Qed.

Lemma find_next_prime_spec_witness :
  exists p, find_next_prime_number 7 bss = Ok p bss /\ prime p /\ 7 < p < 2 ^ 31.
Proof.
  destruct (find_next_prime_spec 7 bss) as (p & Hp & _ & Hq); [lia|].
  exists p. destruct Hq as (Hpr & Hlt & _); [lia|]. exact (conj Hp (conj Hpr Hlt)).
Defined.

(** Process 1 made ten calls of system call 5 and process 2 seven: 2 is
    reported. *)
Definition busy (id n : Z) : proc := set_counter (<[5%nat := n]> (replicate 100 0)) (set_pid id proc0).
Lemma getMostCaller_reports_witness :
  getMostCaller 5 (set_ptable [busy 1 10; busy 2 7] bss) = Ok 2 (set_ptable [busy 1 10; busy 2 7] bss).
Proof.
  rewrite (getMostCaller_reports 5 (set_ptable [busy 1 10; busy 2 7] bss)).
  - vm_compute. reflexivity.
  - lia.
  - repeat constructor; unfold counts; vm_compute; lia.
Defined.

Lemma kill_spec_witness :
  @kill idle_env 2 (family ZOMBIE) = Ok 0 (set_ptable (alter kill_proc 2%nat (ptable (family ZOMBIE))) (family ZOMBIE)).
Proof.
  pose proof (@kill_spec idle_env 2 (family ZOMBIE)) as H.
  change (find_pid 2 (ptable (family ZOMBIE))) with (Some 2%nat) in H. apply H.
  - apply family_runs.
  - apply family_free.
Defined.


Lemma wait_spec_witness :
  @wait idle_env sample_layout (family RUNNABLE) = Stuck (parked (Ch_proc 0) 0 (family RUNNABLE)).
Proof.
  rewrite (@wait_spec idle_env sample_layout 0 (sample_proc RUNNING 5 (Some 2%nat) Ch_null)).
  - reflexivity.
  - apply family_runs.
  - apply family_free.
  - reflexivity.
  - reflexivity.
  - reflexivity.
Defined.

Lemma waitForProcess_misses_exit_witness :
  @waitForProcess idle_env sample_layout 2 (family RUNNABLE) = Stuck (parked (Ch_proc 0) 0 (family RUNNABLE)).
Proof.
  apply (@waitForProcess_misses_exit idle_env sample_layout 2 0 (sample_proc RUNNING 5 (Some 2%nat) Ch_null)).
  - apply family_runs.
  - apply family_free.
  - reflexivity.
  - reflexivity.
  - reflexivity.
  - reflexivity.
  - reflexivity.
Defined.
