(* ===== verification/Apic.v ===== *)
(** * Interrupt controllers, clock and multiprocessor tables
    (lapic.c, ioapic.c, picirq.c, mp.c)

    Registers are written into the history [k_io]; what a device answers when
    one of its registers is read is a parameter, [Hw]. *)

From Stdlib Require Import ZArith Lia.
From stdpp Require Import base gmap list strings numbers.
From S2P Require Import Prelude Strings State Spinlock Sched Kalloc Console.

Import string_c.
Open Scope Z_scope.

(** Values read from an I/O port, from a register of the local APIC, from
    the data window of the I/O APIC and from the fault address register. *)
Class Hw := {
  in_port : Z -> KM Z;
  lapic_reg : Z -> KM Z;
  ioapic_data : Z -> KM Z;
  rcr2 : KM Z }.

(** traps.h *)
Definition T_SYSCALL : Z := 64.
Definition T_IRQ0 : Z := 32.
Definition IRQ_TIMER : Z := 0.
Definition IRQ_KBD : Z := 1.
Definition IRQ_COM1 : Z := 4.
Definition IRQ_IDE : Z := 14.
Definition IRQ_ERROR : Z := 19.
Definition IRQ_SPURIOUS : Z := 31.

Definition io_write (w : iowrite) : KM unit := modify (fun k => set_k_io (k_io k ++ [w]) k).
Definition outb (port v : Z) : KM unit := io_write (IO_out port (u8 v)).

Module Lapic.

(** Registers (lapic.c), as indices into an array of words. *)
Definition ID : Z := 8.
Definition VER : Z := 12.
Definition TPR : Z := 32.
Definition EOI : Z := 44.
Definition SVR : Z := 60.
Definition ENABLE : Z := 256.
Definition ESR : Z := 160.
Definition ICRLO : Z := 192.
Definition INIT : Z := 1280.
Definition STARTUP : Z := 1536.
Definition DELIVS : Z := 4096.
Definition ASSERT : Z := 16384.
Definition LEVEL : Z := 32768.
Definition BCAST : Z := 524288.
Definition ICRHI : Z := 196.
Definition TIMER : Z := 200.
Definition X1 : Z := 11.
Definition PERIODIC : Z := 131072.
Definition PCINT : Z := 208.
Definition LINT0 : Z := 212.
Definition LINT1 : Z := 216.
Definition ERROR : Z := 220.
Definition MASKED : Z := 65536.
Definition TICR : Z := 224.
Definition TDCR : Z := 248.

Section code.
Context `{E : Env} `{HW : Hw}.

Definition lapicw (index value : Z) : KM unit := io_write (IO_lapic index (u32 value)).

Definition lapicinit : KM unit :=
  let* l := reads lapic in
  if l =? 0 then ret tt
  else
    lapicw SVR (Z.lor ENABLE (T_IRQ0 + IRQ_SPURIOUS)) ;;;
    lapicw TDCR X1 ;;;
    lapicw TIMER (Z.lor PERIODIC (T_IRQ0 + IRQ_TIMER)) ;;;
    lapicw TICR 10000000 ;;;
    lapicw LINT0 MASKED ;;;
    lapicw LINT1 MASKED ;;;
    let* v := lapic_reg VER in
    (when 4 <=? Z.land (Z.shiftr v 16) 255 do lapicw PCINT MASKED) ;;;
    lapicw ERROR (T_IRQ0 + IRQ_ERROR) ;;;
    lapicw ESR 0 ;;;
    lapicw ESR 0 ;;;
    lapicw EOI 0 ;;;
    lapicw ICRHI 0 ;;;
    lapicw ICRLO (Z.lor (Z.lor BCAST INIT) LEVEL) ;;;
    forever (let* v := lapic_reg ICRLO in
             if Zb (Z.land v DELIVS) then others ;;; ret None else ret (Some tt)) ;;;
    lapicw TPR 0.

Definition lapiceoi : KM unit :=
  let* l := reads lapic in
  when negb (l =? 0) do lapicw EOI 0.

Definition microdelay (us : Z) : KM unit := ret tt.

Definition CMOS_PORT : Z := 112.
Definition CMOS_RETURN : Z := 113.

Definition lapicstartap (id addr : Z) : KM unit :=
  outb CMOS_PORT 15 ;;;
  outb (CMOS_PORT + 1) 10 ;;;
  let wrv := P2V (Z.lor (Z.shiftl 64 4) 103) in
  upd_mem (fun m => stbs m wrv (le16 0)) ;;;
  upd_mem (fun m => stbs m (wrv + 2) (le16 (Z.shiftr addr 4))) ;;;
  lapicw ICRHI (Z.shiftl id 24) ;;;
  lapicw ICRLO (Z.lor (Z.lor INIT LEVEL) ASSERT) ;;;
  microdelay 200 ;;;
  lapicw ICRLO (Z.lor INIT LEVEL) ;;;
  microdelay 100 ;;;
  for_each (seq 0 2) (fun _ =>
    lapicw ICRHI (Z.shiftl id 24) ;;;
    lapicw ICRLO (Z.lor STARTUP (Z.shiftr addr 12)) ;;;
    microdelay 200).

(** *** The real-time clock *)

Record rtcdate := mk_rtcdate {
  second : Z; minute : Z; hour : Z; day : Z; month : Z; year : Z }.
#[global] Instance rtcdate_eq_dec : EqDecision rtcdate.
Proof. solve_decision. Defined.

Definition cmos_read (reg : Z) : KM Z :=
  outb CMOS_PORT reg ;;;
  microdelay 200 ;;;
  in_port CMOS_RETURN.

Definition fill_rtcdate : KM rtcdate :=
  let* s := cmos_read 0 in
  let* mi := cmos_read 2 in
  let* h := cmos_read 4 in
  let* d := cmos_read 7 in
  let* mo := cmos_read 8 in
  let* y := cmos_read 9 in
  ret (mk_rtcdate s mi h d mo y).

Definition CONV (x : Z) : Z := Z.shiftr x 4 * 10 + Z.land x 15.
Definition conv_rtcdate (t : rtcdate) : rtcdate :=
  mk_rtcdate (CONV (second t)) (CONV (minute t)) (CONV (hour t)) (CONV (day t)) (CONV (month t))
    (CONV (year t)).

Definition cmostime : KM rtcdate :=
  let* sb := cmos_read 11 in
  let bcd := Z.land sb 4 =? 0 in
  let* t1 := forever
    (let* t1 := fill_rtcdate in
     let* a := cmos_read 10 in
     if Zb (Z.land a 128) then others ;;; ret None
     else
       let* t2 := fill_rtcdate in
       if bool_decide (t1 = t2) then ret (Some t1) else others ;;; ret None) in
  let t := if bcd then conv_rtcdate t1 else t1 in
  ret (mk_rtcdate (second t) (minute t) (hour t) (day t) (month t) (u32 (year t + 2000))).
End code.
End Lapic.

Module Ioapic.

Definition REG_ID : Z := 0.
Definition REG_VER : Z := 1.
Definition REG_TABLE : Z := 16.
Definition INT_DISABLED : Z := 65536.

Section code.
Context `{E : Env} `{HW : Hw}.

(** Selecting a register has no effect but on the next access. *)
Definition ioapicread (reg : Z) : KM Z := ioapic_data reg.
Definition ioapicwrite (reg data : Z) : KM unit := io_write (IO_ioapic reg (u32 data)).

Definition ioapicinit : KM unit :=
  let* v := ioapicread REG_VER in
  let maxintr := Z.land (Z.shiftr v 16) 255 in
  let* r := ioapicread REG_ID in
  let id := Z.shiftr r 24 in
  let* known := reads ioapicid in
  (when negb (id =? known) do
     cprintf (bytes "ioapicinit: id isn't equal to ioapicid; not a MP
") []) ;;;
  for_each (zseq 0 (maxintr + 1)) (fun i =>
    ioapicwrite (REG_TABLE + 2 * i) (Z.lor INT_DISABLED (T_IRQ0 + i)) ;;;
    ioapicwrite (REG_TABLE + 2 * i + 1) 0).

Definition ioapicenable (irq cpunum : Z) : KM unit :=
  ioapicwrite (REG_TABLE + 2 * irq) (T_IRQ0 + irq) ;;;
  ioapicwrite (REG_TABLE + 2 * irq + 1) (Z.shiftl cpunum 24).

Definition picinit : KM unit :=
  outb 33 255 ;;;
  outb 161 255.
End code.
End Ioapic.

Module Mp.

Definition sum (m : mem) (addr : Z) (len : nat) : Z := u8 (foldr Z.add 0 (ldbs m addr len)).

Definition sizeof_mp : Z := 16.
Definition sizeof_mpconf : Z := 44.
Definition sizeof_mpproc : Z := 20.
Definition sizeof_mpioapic : Z := 8.

(** The candidates mpsearch1 looks at: [len / 16] of them. *)
Definition is_mp (m : mem) (p : Z) : bool :=
  bool_decide (ldbs m p 4 = bytes "_MP_") && (sum m p (Z.to_nat sizeof_mp) =? 0).
Definition mpsearch1 (m : mem) (a len : Z) : option Z :=
  snd <$> list_find (fun p => is_mp m p = true)
            ((fun i => P2V a + sizeof_mp * i) <$> zseq 0 ((len + sizeof_mp - 1) / sizeof_mp)).

Definition mpsearch (m : mem) : option Z :=
  let bda := P2V 1024 in
  let p := Z.shiftl (Z.lor (Z.shiftl (ldb m (bda + 15)) 8) (ldb m (bda + 14))) 4 in
  let found :=
    if negb (p =? 0) then mpsearch1 m p 1024
    else
      let p := Z.lor (Z.shiftl (ldb m (bda + 20)) 8) (ldb m (bda + 19)) * 1024 in
      mpsearch1 m (u32 (p - 1024)) 1024 in
  match found with
  | Some mp => Some mp
  | None => mpsearch1 m 983040 65536
  end.

Definition mp_physaddr (m : mem) (mp : Z) : Z := ldw m (mp + 4).
Definition mp_imcrp (m : mem) (mp : Z) : Z := ldb m (mp + 12).
Definition conf_length (m : mem) (conf : Z) : Z := of_le (ldbs m (conf + 4) 2).
Definition conf_version (m : mem) (conf : Z) : Z := ldb m (conf + 6).
Definition conf_lapicaddr (m : mem) (conf : Z) : Z := ldw m (conf + 36).

(** The pair of tables mpconfig finds: the floating pointer and the
    configuration. *)
Definition mpconfig (m : mem) : option (Z * Z) :=
  match mpsearch m with
  | None => None
  | Some mp =>
      if mp_physaddr m mp =? 0 then None
      else
        let conf := P2V (mp_physaddr m mp) in
        if negb (bool_decide (ldbs m conf 4 = bytes "PCMP")) then None
        else if negb (conf_version m conf =? 1) && negb (conf_version m conf =? 4) then None
        else if negb (sum m conf (Z.to_nat (conf_length m conf)) =? 0) then None
        else Some (mp, conf)
  end.

Section code.
Context `{E : Env} `{HW : Hw}.

(** The loop of mpinit over the table's entries.  An entry of an unknown type
    clears [ismp], and its [break] leaves the switch, not the loop. *)
Fixpoint mp_entries (fuel : nat) (p e : Z) (ismp : bool) : KM bool :=
  if negb (p <? e) then ret ismp
  else
    match fuel with
    | O => hang
    | S fuel =>
        let* t := reads (fun k => ldb (memory k) p) in
        if t =? 0 then
          let* n := reads ncpu in
          let* id := reads (fun k => ldb (memory k) (p + 1)) in
          (when bool_decide (n < NCPU)%nat do
             (upd_cpu n (set_apicid id) ;;; modify (set_ncpu (S n)))) ;;;
          mp_entries fuel (p + sizeof_mpproc) e ismp
        else if t =? 2 then
          let* id := reads (fun k => ldb (memory k) (p + 1)) in
          modify (set_ioapicid id) ;;;
          mp_entries fuel (p + sizeof_mpioapic) e ismp
        else if (t =? 1) || (t =? 3) || (t =? 4) then mp_entries fuel (p + 8) e ismp
        else mp_entries fuel p e false
    end.

(** Every entry that moves [p] moves it by at least 8 bytes, so [length] turns
    are enough for a table the loop gets through. *)
Definition mpinit : KM unit :=
  let* m := reads memory in
  match mpconfig m with
  | None => panic "Expect to run on an SMP"
  | Some (mp, conf) =>
      modify (set_lapic (conf_lapicaddr m conf)) ;;;
      let len := conf_length m conf in
      let* ismp := mp_entries (Z.to_nat len) (conf + sizeof_mpconf) (conf + len) true in
      if negb ismp then panic "Didn't find a suitable machine"
      else when Zb (mp_imcrp m mp) do
        (outb 34 112 ;;;
         let* v := in_port 35 in
         outb 35 (Z.lor v 1))
  end.
End code.
End Mp.
