(* ===== verification/Input.v ===== *)
(** * Console input (the second half of console.c, kbd.c, kbd.h, uart.c)

    Interrupt handlers append what the keyboard and the serial port deliver
    to a circular line buffer, with the line editing of console.c; consoleread
    takes whole lines out of it. *)

From Stdlib Require Import ZArith Lia.
From stdpp Require Import base gmap list strings numbers.
From S2P Require Import Prelude Strings State Spinlock Sched Kalloc Console Vm Disk Bio Log Fs Pipe File Proc Apic.

Import string_c Ioapic.
Open Scope Z_scope.

(** ** The keyboard *)

Module Kbd.

Definition SHIFT : Z := 1.
Definition CTL : Z := 2.
Definition ALT : Z := 4.
Definition CAPSLOCK : Z := 8.
Definition NUMLOCK : Z := 16.
Definition SCROLLLOCK : Z := 32.
Definition E0ESC : Z := 64.

Definition KEY_HOME : Z := 224.
Definition KEY_END : Z := 225.
Definition KEY_UP : Z := 226.
Definition KEY_DN : Z := 227.
Definition KEY_LF : Z := 228.
Definition KEY_RT : Z := 229.
Definition KEY_PGUP : Z := 230.
Definition KEY_PGDN : Z := 231.
Definition KEY_INS : Z := 232.
Definition KEY_DEL : Z := 233.

(** A 256-byte table: its first entries, then the designated ones. *)
Definition table (l : list Z) (des : list (Z * Z)) : list Z :=
  foldr (fun '(i, v) t => <[Z.to_nat i := v]> t) (l ++ replicate (256 - length l) 0) des.

Definition shiftcode : list Z :=
  table [] [(29, CTL); (42, SHIFT); (54, SHIFT); (56, ALT); (157, CTL); (184, ALT)].
Definition togglecode : list Z :=
  table [] [(58, CAPSLOCK); (69, NUMLOCK); (70, SCROLLLOCK)].

(** The keys every map treats alike. *)
Definition special_keys : list (Z * Z) :=
  [(200, KEY_UP); (208, KEY_DN); (201, KEY_PGUP); (209, KEY_PGDN); (203, KEY_LF); (205, KEY_RT);
   (151, KEY_HOME); (207, KEY_END); (210, KEY_INS); (211, KEY_DEL)].
Definition keypad : list Z :=
  replicate 13 0 ++ bytes "789-456+1230." ++ [0; 0; 0; 0].

Definition normalmap : list Z :=
  table ([0; 27] ++ bytes "1234567890-=" ++ [8; 9] ++ bytes "qwertyuiop[]" ++ [10; 0]
         ++ bytes "asdfghjkl;'`" ++ [0; 92] ++ bytes "zxcvbnm,./" ++ [0; 42; 0; 32] ++ keypad)
    ([(156, 10); (181, 47)] ++ special_keys).
Definition shiftmap : list Z :=
  table ([0; 27] ++ bytes "!@#$%^&*()_+" ++ [8; 9] ++ bytes "QWERTYUIOP{}" ++ [10; 0]
         ++ bytes "ASDFGHJKL:" ++ [34; 126] ++ [0; 124] ++ bytes "ZXCVBNM<>?" ++ [0; 42; 0; 32] ++ keypad)
    ([(156, 10); (181, 47)] ++ special_keys).

(** [C(x)] of kbd.h, in a byte. *)
Definition C (x : Z) : Z := u8 (x - 64).
Definition ctlmap : list Z :=
  table (replicate 16 0 ++ (C <$> bytes "QWERTYUIOP") ++ [0; 0; 13; 0] ++ (C <$> bytes "ASDFGHJKL")
         ++ [0; 0; 0; 0; C 92] ++ (C <$> bytes "ZXCVBNM") ++ [0; 0; C 47; 0; 0])
    ([(156, 13); (181, C 47)] ++ special_keys).

Definition at_byte (t : list Z) (i : Z) : Z := nth (Z.to_nat i) t 0.

(** kbdgetc on one scan code: the new shift state and the character. *)
Definition kbd_decode (shift data : Z) : Z * Z :=
  if data =? 224 then (Z.lor shift E0ESC, 0)
  else if Zb (Z.land data 128) then
    let data := if Zb (Z.land shift E0ESC) then data else Z.land data 127 in
    (Z.land shift (Z.lnot (Z.lor (at_byte shiftcode data) E0ESC)), 0)
  else
    let '(data, shift) :=
      if Zb (Z.land shift E0ESC) then (Z.lor data 128, Z.land shift (Z.lnot E0ESC)) else (data, shift) in
    let shift := Z.lor shift (at_byte shiftcode data) in
    let shift := Z.lxor shift (at_byte togglecode data) in
    let charcode := [normalmap; shiftmap; ctlmap; ctlmap] in
    let c := at_byte (nth (Z.to_nat (Z.land shift (Z.lor CTL SHIFT))) charcode []) data in
    let c :=
      if Zb (Z.land shift CAPSLOCK) then
        if (97 <=? c) && (c <=? 122) then c + (65 - 97)
        else if (65 <=? c) && (c <=? 90) then c + (97 - 65)
        else c
      else c in
    (shift, c).

(** The controller has data when a scan code is pending. *)
Definition kbdgetc : M consdev Z :=
  let* pending := reads kbd_rx in
  match pending with
  | [] => ret (-1)
  | data :: rest =>
      modify (set_kbd_rx rest) ;;;
      let* shift := reads kbd_shift in
      let '(shift, c) := kbd_decode shift data in
      modify (set_kbd_shift shift) ;;;
      ret c
  end.
End Kbd.
Import Kbd.

Definition uartgetc : M consdev Z :=
  let* u := reads uart in
  if negb (Zb u) then ret (-1)
  else
    let* pending := reads uart_rx in
    match pending with
    | [] => ret (-1)
    | c :: rest => modify (set_uart_rx rest) ;;; ret c
    end.

(** ** The line buffer *)

Definition INPUT_BUF : Z := 128.
Definition slot (i : Z) : nat := Z.to_nat (i mod INPUT_BUF).

(** [input.buf[i % INPUT_BUF]], a signed char. *)
Definition in_at (inp : input_t) (i : Z) : Z := i8 (nth (slot i) (in_buf inp) 0).
Definition in_put (inp : input_t) (c : Z) : input_t :=
  set_in_e (u32 (in_e inp + 1)) (set_in_buf (<[slot (in_e inp) := u8 c]> (in_buf inp)) inp).
Definition upd_input (f : input_t -> input_t) : KM unit :=
  upd_cons (fun d => set_input (f (input d)) d).
Definition get_input : KM input_t := reads (fun k => input (console k)).

Section code.
Context `{E : Env} `{LY : Layout} `{D : Disk} `{EN : Entries} `{HW : Hw}.

(** The loop of the kill-line key, for at most [n] characters. *)
Fixpoint kill_line (n : nat) : KM unit :=
  let* inp := get_input in
  if (in_e inp =? in_w inp) || (in_at inp (u32 (in_e inp - 1)) =? 10) then ret tt
  else
    match n with
    | O => hang
    | S n =>
        upd_input (fun inp => set_in_e (u32 (in_e inp - 1)) inp) ;;;
        consputc BACKSPACE ;;;
        kill_line n
    end.

(** consoleintr's treatment of a character; whether it asks for a process
    listing. *)
Definition console_key (c : Z) : KM bool :=
  if c =? KEY_LF then
    on_console move_left_cursor ;;;
    upd_cons (fun d => set_back_counter (back_counter d + 1) d) ;;;
    ret false
  else if c =? KEY_RT then
    let* bc := reads (fun k => back_counter (console k)) in
    (when negb (bc =? 0) do
       (on_console move_right_cursor ;;;
        upd_cons (fun d => set_back_counter (back_counter d - 1) d))) ;;;
    ret false
  else if c =? C 80 then ret true
  else if c =? C 85 then
    let* inp := get_input in
    kill_line (Z.to_nat (u32 (in_e inp - in_w inp))) ;;;
    ret false
  else if (c =? C 72) || (c =? 127) then
    let* inp := get_input in
    (when negb (in_e inp =? in_w inp) do
       (upd_input (fun inp => set_in_e (u32 (in_e inp - 1)) inp) ;;;
        consputc BACKSPACE)) ;;;
    ret false
  else
    let* inp := get_input in
    (when negb (c =? 0) && (u32 (in_e inp - in_r inp) <? INPUT_BUF) do
       (let c := if c =? 13 then 10 else c in
        upd_input (fun inp => in_put inp c) ;;;
        consputc c ;;;
        let* inp := get_input in
        when (c =? 10) || (c =? C 68) || (in_e inp =? u32 (in_r inp + INPUT_BUF)) do
          (upd_input (fun inp => set_in_w (in_e inp) inp) ;;;
           wakeup Ch_input_r))) ;;;
    ret false.

Fixpoint consoleintr_loop (n : nat) (getc : M consdev Z) (dump : bool) : KM bool :=
  let* c := on_console getc in
  if c <? 0 then ret dump
  else
    match n with
    | O => hang
    | S n =>
        let* d := console_key c in
        consoleintr_loop n getc (dump || d)
    end.

(** Every call of [getc] but the last takes a byte from its device. *)
Definition consoleintr (getc : M consdev Z) : KM unit :=
  acquire L_cons ;;;
  let* n := reads (fun k => length (kbd_rx (console k)) + length (uart_rx (console k)))%nat in
  let* dump := consoleintr_loop n getc false in
  release L_cons ;;;
  when dump do procdump.

Definition kbdintr : KM unit := consoleintr kbdgetc.
Definition uartintr : KM unit := consoleintr uartgetc.

(** The wait for input in consoleread; false when the process was killed. *)
Definition input_wait : KM bool :=
  forever
    (let* inp := get_input in
     if negb (in_r inp =? in_w inp) then ret (Some true)
     else
       let* cur := curproc_ in
       let* p := get_proc cur in
       if Zb (killed p) then ret (Some false)
       else sleep Ch_input_r (Some L_cons) ;;; ret None).

(** The loop of consoleread, with the bytes stored so far; what is left of
    [n], or nothing when the process was killed. *)
Fixpoint consoleread_loop (fuel : nat) (n target : Z) (dst : list Z) : KM (option Z * list Z) :=
  if negb (0 <? n) then ret (Some n, dst)
  else
    match fuel with
    | O => hang
    | S fuel =>
        let* ready := input_wait in
        if negb ready then ret (None, dst)
        else
          let* inp := get_input in
          let c := in_at inp (in_r inp) in
          upd_input (fun inp => set_in_r (u32 (in_r inp + 1)) inp) ;;;
          if c =? C 68 then
            (when n <? target do upd_input (fun inp => set_in_r (u32 (in_r inp - 1)) inp)) ;;;
            ret (Some n, dst)
          else
            let dst := dst ++ [u8 c] in
            if c =? 10 then ret (Some (n - 1), dst)
            else consoleread_loop fuel (n - 1) target dst
    end.

Definition consoleread (ip : nat) (n : Z) : KM (Z * list Z) :=
  iunlock (Some ip) ;;;
  acquire L_cons ;;;
  let* (rest, dst) := consoleread_loop (Z.to_nat n) n n [] in
  release L_cons ;;;
  ilock (Some ip) ;;;
  match rest with
  | None => ret (-1, dst)
  | Some rest => ret (n - rest, dst)
  end.

Definition consolewrite (ip : nat) (buf : list Z) : KM Z :=
  iunlock (Some ip) ;;;
  acquire L_cons ;;;
  for_each buf (fun c => consputc (Z.land c 255)) ;;;
  release L_cons ;;;
  ilock (Some ip) ;;;
  ret (Z.of_nat (length buf)).

(** The device functions the kernel installs, by number. *)
Definition console_fn : nat := 0.
#[global] Instance console_devsw : Devsw := {|
  dev_read f ip n := if bool_decide (f = console_fn) then consoleread ip n else undefined "devsw";
  dev_write f ip src := if bool_decide (f = console_fn) then consolewrite ip src else undefined "devsw" |}.

Definition consoleinit : KM unit :=
  initlock L_cons ;;;
  modify (fun k => set_devsw_write (<[Z.to_nat CONSOLE := Some console_fn]> (devsw_write k)) k) ;;;
  modify (fun k => set_devsw_read (<[Z.to_nat CONSOLE := Some console_fn]> (devsw_read k)) k) ;;;
  upd_cons (set_cons_locking 1) ;;;
  ioapicenable IRQ_KBD 0.

Definition COM1 : Z := 1016.
Definition uartinit : KM unit :=
  outb (COM1 + 2) 0 ;;;
  outb (COM1 + 3) 128 ;;;
  outb (COM1 + 0) (115200 / 9600) ;;;
  outb (COM1 + 1) 0 ;;;
  outb (COM1 + 3) 3 ;;;
  outb (COM1 + 4) 0 ;;;
  outb (COM1 + 1) 1 ;;;
  let* st := in_port (COM1 + 5) in
  if st =? 255 then ret tt
  else
    upd_cons (set_uart 1) ;;;
    let* _ := in_port (COM1 + 2) in
    let* _ := in_port (COM1 + 0) in
    ioapicenable IRQ_COM1 0 ;;;
    for_each (bytes "xv6...
") (fun c => on_console (uartputc c)).

(** What panic does before it stops this CPU; [frame] is the address of its
    argument on the stack. *)
Definition panic_body (s : list Z) (frame : Z) : KM unit :=
  cli ;;;
  upd_cons (set_cons_locking 0) ;;;
  let* id := reads k_lapicid in
  cprintf (bytes "lapicid %d: panic: ") [A_int id] ;;;
  cprintf s [] ;;;
  cprintf (bytes "
") [] ;;;
  let* m := reads memory in
  for_each (getcallerpcs m frame) (fun pc => cprintf (bytes " %p") [A_int pc]) ;;;
  upd_cons (set_panicked 1) ;;;
  hang.
End code.
