(* ===== verification/Syscall.v ===== *)
(** * System call arguments (syscall.c, up to the dispatcher)

    The kernel runs on the page table of the current process, so that a user
    pointer is dereferenced by the paging hardware: [translate] is what the
    MMU does with the tables in memory, and an access it refuses ends in
    trap's panic. *)

From Stdlib Require Import ZArith Lia.
From stdpp Require Import base gmap list strings numbers.
From S2P Require Import Prelude Strings State Spinlock Sched Kalloc Console Vm Disk Bio Log Fs Pipe File Proc.

Import string_c.
Open Scope Z_scope.

(** ** User memory *)

Definition translate (m : mem) (cr3 va : Z) (write : bool) : option Z :=
  let pte := pte_of m (P2V cr3) va in
  if present pte && (negb write || Zb (Z.land pte PTE_W))
  then Some (P2V (PTE_ADDR pte) + va mod PGSIZE) else None.

Definition user_ldb (va : Z) : KM Z :=
  let* m := reads memory in
  let* cr3 := reads k_cr3 in
  match translate m cr3 va false with
  | Some a => ret (ldb m a)
  | None => panic "trap"
  end.
Definition user_stb (va b : Z) : KM unit :=
  let* m := reads memory in
  let* cr3 := reads k_cr3 in
  match translate m cr3 va true with
  | Some a => upd_mem (fun m => stb m a b)
  | None => panic "trap"
  end.

Fixpoint user_ldbs (va : Z) (n : nat) : KM (list Z) :=
  match n with
  | O => ret []
  | S n =>
      let* b := user_ldb va in
      let* bs := user_ldbs (u32 (va + 1)) n in
      ret (b :: bs)
  end.
Fixpoint user_stbs (va : Z) (bs : list Z) : KM unit :=
  match bs with
  | [] => ret tt
  | b :: bs => user_stb va b ;;; user_stbs (u32 (va + 1)) bs
  end.

(** ** The code *)

Section code.
Context `{E : Env}.

Definition fetchint (addr : Z) : KM (option Z) :=
  let* cur := curproc_ in
  let* p := get_proc cur in
  if (sz p <=? addr) || (sz p <? u32 (addr + 4)) then ret None
  else
    let* bs := user_ldbs addr 4 in
    ret (Some (i32 (of_le bs))).

(** The scan of fetchstr from [s] to [ep]: the bytes before the NUL. *)
Fixpoint fetchstr_scan (n : nat) (s : Z) : KM (option (list Z)) :=
  match n with
  | O => ret None
  | S n =>
      let* b := user_ldb s in
      if b =? 0 then ret (Some [])
      else
        let* r := fetchstr_scan n (s + 1) in
        ret (cons b <$> r)
  end.

(** The string instead of its length and a pointer to it. *)
Definition fetchstr (addr : Z) : KM (option (list Z)) :=
  let* cur := curproc_ in
  let* p := get_proc cur in
  if sz p <=? addr then ret None
  else fetchstr_scan (Z.to_nat (sz p - addr)) addr.

Definition argint (n : Z) : KM (option Z) :=
  let* cur := curproc_ in
  let* p := get_proc cur in
  fetchint (u32 (tf_esp (tf p) + 4 + 4 * n)).

Definition argptr (n size : Z) : KM (option Z) :=
  let* cur := curproc_ in
  let* i := argint n in
  match i with
  | None => ret None
  | Some i =>
      let* p := get_proc cur in
      if (size <? 0) || (sz p <=? u32 i) || (sz p <? u32 (u32 i + size)) then ret None
      else ret (Some (u32 i))
  end.

Definition argstr (n : Z) : KM (option (list Z)) :=
  let* addr := argint n in
  match addr with
  | None => ret None
  | Some addr => fetchstr (u32 addr)
  end.
End code.

(** ** What the kernel reads of user memory *)

Section user_lemmas.
Context `{E : Env}.
Implicit Types (k : K) (va : Z).

(** Every address below [sz] is mapped in the current page table. *)
Definition user_mapped (k : K) (sz : Z) : Prop :=
  sz <= KERNBASE /\ forall va, 0 <= va < sz -> is_Some (translate (memory k) (k_cr3 k) va false).

Definition user_byte (k : K) (va : Z) : Z :=
  match translate (memory k) (k_cr3 k) va false with
  | Some a => ldb (memory k) a
  | None => 0
  end.
Definition user_bytes (k : K) (va : Z) (n : nat) : list Z := user_byte k <$> zseq va (Z.of_nat n).

Lemma user_bytes_cons k va n : user_bytes k va (S n) = user_byte k va :: user_bytes k (va + 1) n.
Proof.
  unfold user_bytes. rewrite zseq_cons by lia. cbn [fmap list_fmap].
  by replace (Z.of_nat (S n) - 1) with (Z.of_nat n) by lia.
Qed.

Lemma user_ldb_ok k sz va :
  user_mapped k sz -> 0 <= va < sz -> user_ldb va k = Ok (user_byte k va) k.
Proof.
  intros [_ Hm] Hva. unfold user_ldb, user_byte. msimp. by destruct (Hm va Hva) as [a ->].
Qed.

Lemma user_ldbs_ok k sz va n :
  user_mapped k sz -> 0 <= va -> va + Z.of_nat n <= sz ->
  user_ldbs va n k = Ok (user_bytes k va n) k.
Proof.
  intros Hm. revert va. induction n as [|n IH]; intros va H0 Hn; [done|].
  cbn [user_ldbs]. mrun (user_ldb_ok k sz va Hm ltac:(lia)).
  pose proof (proj1 Hm) as Hsz. destruct n as [|n].
  - msimp. by rewrite user_bytes_cons.
  - rewrite u32_small by (unfold is_u32; unfold KERNBASE in Hsz; lia).
    mrun (IH (va + 1) ltac:(lia) ltac:(lia)). by rewrite (user_bytes_cons k va).
Qed.

Lemma fetchint_ok cur p k addr :
  quiet k -> curproc k = Some cur -> ptable k !! cur = Some p -> user_mapped k (sz p) -> is_u32 addr ->
  fetchint addr k =
  Ok (if addr + 4 <=? sz p then Some (i32 (of_le (user_bytes k addr 4))) else None) k.
Proof.
  intros Hq Hc Hp Hm Ha. unfold fetchint. mrun (curproc_ok _ _ Hq Hc). mrun (get_proc_ok _ _ _ Hp).
  pose proof (proj1 Hm) as Hsz. unfold is_u32 in Ha.
  destruct (Z.leb_spec (sz p) addr); cbn [orb].
  - by destruct (Z.leb_spec (addr + 4) (sz p)); [lia|].
  - rewrite u32_small by (unfold is_u32, KERNBASE in *; lia).
    destruct (Z.ltb_spec (sz p) (addr + 4)), (Z.leb_spec (addr + 4) (sz p)); try lia; [done|].
    mrun (user_ldbs_ok k (sz p) addr 4 Hm ltac:(lia) ltac:(lia)). done.
Qed.

(** The [n]th word of the caller's argument list. *)
Definition arg_addr (p : proc) (n : Z) : Z := u32 (tf_esp (tf p) + 4 + 4 * n).
Definition arg_word (k : K) (p : proc) (n : Z) : Z := of_le (user_bytes k (arg_addr p n) 4).

Lemma argint_ok cur p k n :
  quiet k -> curproc k = Some cur -> ptable k !! cur = Some p -> user_mapped k (sz p) ->
  argint n k = Ok (if arg_addr p n + 4 <=? sz p then Some (i32 (arg_word k p n)) else None) k.
Proof.
  intros Hq Hc Hp Hm. unfold argint. mrun (curproc_ok _ _ Hq Hc). mrun (get_proc_ok _ _ _ Hp).
  rewrite (fetchint_ok cur p) by (done || apply u32_bound). done.
Qed.

Lemma user_bytes_ok k va n : mem_ok (memory k) -> Forall is_u8 (user_bytes k va n).
Proof.
  intros Hb. apply list.Forall_fmap, Forall_true. intros a. unfold user_byte, compose.
  destruct (translate _ _ _ _); [by apply ldb_ok | unfold is_u8; lia].
Qed.

Lemma arg_word_u32 k p n : mem_ok (memory k) -> is_u32 (arg_word k p n).
Proof.
  intros Hb. exact (of_le_bound (user_bytes k (arg_addr p n) 4) (user_bytes_ok k _ 4 Hb)).
Qed.

(** C36. argptr accepts exactly the arguments that lie in user memory and whose
    block of [size] bytes does, with no wrap-around, and changes nothing;
    the kernel can then read the whole block. *)
Theorem argptr_spec cur p k n size :
  quiet k -> curproc k = Some cur -> ptable k !! cur = Some p -> user_mapped k (sz p) -> mem_ok (memory k) ->
  is_i32 size ->
  let a := arg_word k p n in
  let accepted := arg_addr p n + 4 <= sz p /\ 0 <= size /\ a < sz p /\ a + size <= sz p in
  argptr n size k = Ok (if bool_decide accepted then Some a else None) k /\
  (accepted -> user_ldbs a (Z.to_nat size) k = Ok (user_bytes k a (Z.to_nat size)) k).
Proof.
  intros Hq Hc Hp Hm Hb Hsize a accepted. pose proof (proj1 Hm) as Hsz.
  assert (is_u32 a) as Ha by (by apply arg_word_u32). split.
  - unfold argptr. mrun (curproc_ok _ _ Hq Hc). mrun (argint_ok cur p k n Hq Hc Hp Hm). fold a.
    destruct (Z.leb_spec (arg_addr p n + 4) (sz p)).
    2: { rewrite bool_decide_eq_false_2; [done|]. unfold accepted. lia. }
    mrun (get_proc_ok _ _ _ Hp). rewrite u32_i32, (u32_small a) by done.
    destruct (Z.ltb_spec size 0), (Z.leb_spec (sz p) a); cbn [orb];
      try (rewrite bool_decide_eq_false_2; [done | unfold accepted; lia]).
    rewrite u32_small by (unfold is_u32, is_i32, KERNBASE in *; lia).
    destruct (Z.ltb_spec (sz p) (a + size)).
    + rewrite bool_decide_eq_false_2; [done | unfold accepted; lia].
    + rewrite bool_decide_eq_true_2; [done | unfold accepted; lia].
  - intros (_ & Hs & _ & Hle). apply (user_ldbs_ok k (sz p)); [done | unfold is_u32 in Ha; lia | lia].
Qed.

Lemma fetchstr_scan_ok k sz n s :
  user_mapped k sz -> 0 <= s -> s + Z.of_nat n <= sz ->
  fetchstr_scan n s k =
  Ok (if bool_decide (0 ∈ user_bytes k s n) then Some (string_facts.cstr n (user_bytes k s n)) else None) k.
Proof.
  intros Hm. revert s. induction n as [|n IH]; intros s H0 Hn; [done|].
  cbn [fetchstr_scan]. mrun (user_ldb_ok k sz s Hm ltac:(lia)). rewrite user_bytes_cons.
  cbn [string_facts.cstr]. destruct (Z.eqb_spec (user_byte k s) 0) as [Hz|Hz].
  - rewrite bool_decide_eq_true_2; [done|]. rewrite Hz. left.
  - mrun (IH (s + 1) ltac:(lia) ltac:(lia)).
    rewrite (bool_decide_ext (0 ∈ user_byte k s :: user_bytes k (s + 1) n) (0 ∈ user_bytes k (s + 1) n)).
    + by case_bool_decide.
    + rewrite elem_of_cons. naive_solver.
Qed.

(** C37. fetchstr returns the string at the address when its NUL lies below the
    size of the process, and fails otherwise; it reads nothing beyond. *)
Theorem fetchstr_spec cur p k addr :
  quiet k -> curproc k = Some cur -> ptable k !! cur = Some p -> user_mapped k (sz p) -> 0 <= addr ->
  let room := user_bytes k addr (Z.to_nat (sz p - addr)) in
  fetchstr addr k =
  Ok (if bool_decide (0 ∈ room) then Some (string_facts.cstr (length room) room) else None) k.
Proof.
  intros Hq Hc Hp Hm Ha room. unfold fetchstr. mrun (curproc_ok _ _ Hq Hc). mrun (get_proc_ok _ _ _ Hp).
  assert (length room = Z.to_nat (sz p - addr)) as Hl
    by (unfold room, user_bytes; rewrite length_fmap, zseq_length; lia).
  destruct (Z.leb_spec (sz p) addr).
  - unfold room. replace (Z.to_nat (sz p - addr)) with 0%nat by lia. done.
  - rewrite (fetchstr_scan_ok k (sz p)) by (done || lia). by rewrite Hl.
Qed.
End user_lemmas.

(** ** A sample process with one page of memory *)

Definition user_page : Z := KERNBASE + 3145728.
Definition user_mem : mem :=
  let pt := user_page + PGSIZE in
  let pd := pt + PGSIZE in
  stbs (stw (stw ∅ pd (V2P pt + 7)) pt (V2P user_page + 7)) user_page (le32 0 ++ le32 8 ++ bytes "init").
Definition user_proc : proc :=
  set_sz PGSIZE (set_tf (set_tf_esp 0 trapframe0) (set_state RUNNING (set_pid 1 proc0))).
Definition sample_user : K :=
  set_k_cr3 (V2P (user_page + 2 * PGSIZE)) (set_memory user_mem
    (set_ptable (<[0%nat := user_proc]> (ptable bss)) sample)).

Lemma sample_user_quiet : quiet sample_user.
Proof.
  exact (quiet_framed (fun k => set_k_cr3 _ (set_memory _ (set_ptable _ k))) _ _ sample_quiet).
Qed.

Lemma sample_user_mapped : user_mapped sample_user (sz user_proc).
Proof.
  split; [vm_compute; discriminate|]. intros va Hva. change (sz user_proc) with 4096 in Hva.
  assert (PDX va = 0 /\ PTX va = 0) as [H1 H2].
  { unfold PDX, PTX. rewrite !Z.shiftr_div_pow2 by lia. by rewrite !Z.div_small by lia. }
  assert (pte_of (memory sample_user) (P2V (k_cr3 sample_user)) va = V2P user_page + 7) as Hpte
    by (unfold pte_of; rewrite H1, H2; vm_compute; reflexivity).
  unfold translate. rewrite Hpte. by eexists.
Qed.

Lemma sample_user_bytes : mem_ok (memory sample_user).
Proof. apply stbs_ok, stw_ok, stw_ok. apply map_Forall_empty. Qed.

Lemma argptr_spec_witness :
  argptr 0 4 sample_user = Ok (Some 8) sample_user.
Proof.
  destruct (argptr_spec 0 user_proc sample_user 0 4) as [H _].
  - apply sample_user_quiet.
  - reflexivity.
  - reflexivity.
  - apply sample_user_mapped.
  - apply sample_user_bytes.
  - unfold is_i32. lia.
  - rewrite H. vm_compute. reflexivity.
Defined.

Lemma fetchstr_spec_witness :
  fetchstr 8 sample_user = Ok (Some (bytes "init")) sample_user.
Proof.
  rewrite (fetchstr_spec 0 user_proc sample_user 8).
  - vm_compute. reflexivity.
  - apply sample_user_quiet.
  - reflexivity.
  - reflexivity.
  - apply sample_user_mapped.
  - lia.
Defined.
