(* ===== verification/Exec.v ===== *)
(** * Program loading (exec.c, and loaduvm of vm.c) *)

From Stdlib Require Import ZArith Lia.
From stdpp Require Import base gmap list strings numbers.
From S2P Require Import Prelude Strings State Spinlock Sched Kalloc Console Vm Disk Bio Log Fs Pipe File Proc.

Import string_c.
Open Scope Z_scope.

(** ** ELF headers (elf.h) *)

Definition ELF_MAGIC : Z := 1179403647.
Definition ELF_PROG_LOAD : Z := 1.

Record elfhdr := mk_elfhdr { e_magic : Z; e_entry : Z; e_phoff : Z; e_phnum : Z }.
Definition sizeof_elfhdr : Z := 52.
Definition get_elfhdr (bs : list Z) : elfhdr :=
  mk_elfhdr (uint_at bs 0) (uint_at bs 24) (uint_at bs 28) (of_le (slice 44 2 bs)).

Record proghdr := mk_proghdr {
  ph_type : Z; ph_off : Z; ph_vaddr : Z; ph_filesz : Z; ph_memsz : Z }.
Definition sizeof_proghdr : Z := 32.
Definition get_proghdr (bs : list Z) : proghdr :=
  mk_proghdr (uint_at bs 0) (uint_at bs 4) (uint_at bs 8) (uint_at bs 16) (uint_at bs 20).

(** The last element of a path: what follows the last slash. *)
Fixpoint last_elem (path last : list Z) : list Z :=
  match path with
  | [] => last
  | c :: rest =>
      if c =? 0 then last
      else last_elem rest (if c =? slash then rest else last)
  end.

Section code.
Context `{E : Env} `{LY : Layout} `{D : Disk} `{DV : Devsw} `{EN : Entries}.

(** The loop of loaduvm, for at most [n] pages; whether all were read. *)
Fixpoint loaduvm_loop (n : nat) (pgdir addr : Z) (ip : nat) (offset i sz : Z) : KM Z :=
  if negb (i <? sz) then ret 0
  else
    match n with
    | O => hang
    | S n =>
        let* pte := walkpgdir pgdir (u32 (addr + i)) false in
        if pte =? 0 then panic "loaduvm: address should exist"
        else
          let* e := ldw_k pte in
          let pa := PTE_ADDR e in
          let cnt := if sz - i <? PGSIZE then sz - i else PGSIZE in
          let* (r, bs) := readi ip (u32 (offset + i)) cnt in
          upd_mem (fun m => stbs m (P2V pa) bs) ;;;
          if negb (r =? cnt) then ret (-1)
          else loaduvm_loop n pgdir addr ip offset (i + PGSIZE) sz
    end.
Definition loaduvm (pgdir addr : Z) (ip : nat) (offset sz : Z) : KM Z :=
  if negb (addr mod PGSIZE =? 0) then panic "loaduvm: addr must be page aligned"
  else loaduvm_loop (Z.to_nat (sz / PGSIZE + 1)) pgdir addr ip offset 0 sz.

(** The loop over program headers, [n] of them left: the size of the image,
    or nothing for [goto bad]. *)
Fixpoint exec_load (n : nat) (ip : nat) (pgdir off sz : Z) : KM (option Z) :=
  match n with
  | O => ret (Some sz)
  | S n =>
      let* (r, bs) := readi ip off sizeof_proghdr in
      let ph := get_proghdr bs in
      let next := u32 (off + sizeof_proghdr) in
      if negb (r =? sizeof_proghdr) then ret None
      else if negb (ph_type ph =? ELF_PROG_LOAD) then exec_load n ip pgdir next sz
      else if ph_memsz ph <? ph_filesz ph then ret None
      else if u32 (ph_vaddr ph + ph_memsz ph) <? ph_vaddr ph then ret None
      else
        let* sz := allocuvm pgdir sz (u32 (ph_vaddr ph + ph_memsz ph)) in
        if sz =? 0 then ret None
        else if negb (ph_vaddr ph mod PGSIZE =? 0) then ret None
        else
          let* r := loaduvm pgdir (ph_vaddr ph) ip (ph_off ph) (ph_filesz ph) in
          if r <? 0 then ret None
          else exec_load n ip pgdir next sz
  end.

(** The loop that pushes the argument strings: the stack pointer and the
    addresses of the strings. *)
Fixpoint exec_args (pgdir : Z) (argv : list (list Z)) (argc sp : Z) : KM (option (Z * list Z)) :=
  match argv with
  | [] => ret (Some (sp, []))
  | a :: argv =>
      if MAXARG <=? argc then ret None
      else
        let sp := Z.land (u32 (sp - (Z.of_nat (length a) + 1))) (Z.lnot 3) in
        let* r := copyout pgdir sp (a ++ [0]) in
        if r <? 0 then ret None
        else
          let* r := exec_args pgdir argv (argc + 1) sp in
          ret ((fun '(sp', ps) => (sp', sp :: ps)) <$> r)
  end.

(** exec after the image is loaded: build the stack, commit.  A result of
    nothing is [goto bad], with [ip = 0]. *)
Definition exec_commit (cur : nat) (path : list Z) (argv : list (list Z)) (pgdir0 sz0 : Z) (elf : elfhdr)
    : KM (option Z) :=
  let sz1 := PGROUNDUP sz0 in
  let* sz1 := allocuvm pgdir0 sz1 (u32 (sz1 + 2 * PGSIZE)) in
  if sz1 =? 0 then ret None
  else
    clearpteu pgdir0 (u32 (sz1 - 2 * PGSIZE)) ;;;
    let* r := exec_args pgdir0 argv 0 sz1 in
    match r with
    | None => ret None
    | Some (sp, ptrs) =>
        let argc := Z.of_nat (length argv) in
        let ustack := [2 ^ 32 - 1; argc; u32 (sp - (argc + 1) * 4)] ++ ptrs ++ [0] in
        let sp := u32 (sp - (3 + argc + 1) * 4) in
        let* r := copyout pgdir0 sp (concat (le32 <$> ustack)) in
        if r <? 0 then ret None
        else
          upd_proc cur (fun p => set_name (safestrcpy (name p) (last_elem path path) 16) p) ;;;
          let* p := get_proc cur in
          let oldpgdir := pgdir p in
          upd_proc cur (set_pgdir pgdir0) ;;;
          upd_proc cur (set_sz sz1) ;;;
          upd_proc cur (fun p => set_tf (set_tf_eip (e_entry elf) (tf p)) p) ;;;
          upd_proc cur (fun p => set_tf (set_tf_esp sp (tf p)) p) ;;;
          switchuvm (Some cur) ;;;
          freevm oldpgdir ;;;
          ret (Some 0)
    end.

(** The label [bad], with [ip] still locked or already put. *)
Definition exec_bad (pgdir : Z) (ip : option nat) : KM Z :=
  (when negb (pgdir =? 0) do freevm pgdir) ;;;
  match ip with
  | Some ip => iunlockput ip ;;; end_op ;;; ret (-1)
  | None => ret (-1)
  end.

Definition exec (path : list Z) (argv : list (list Z)) : KM Z :=
  let* cur := curproc_ in
  begin_op ;;;
  let* oip := namei path in
  match oip with
  | None =>
      end_op ;;;
      cprintf (bytes "exec: fail
") [] ;;;
      ret (-1)
  | Some ip =>
      ilock (Some ip) ;;;
      let* (r, bs) := readi ip 0 sizeof_elfhdr in
      let elf := get_elfhdr bs in
      if negb (r =? sizeof_elfhdr) then exec_bad 0 (Some ip)
      else if negb (e_magic elf =? ELF_MAGIC) then exec_bad 0 (Some ip)
      else
        let* pgdir0 := setupkvm in
        if pgdir0 =? 0 then exec_bad 0 (Some ip)
        else
          let* r := exec_load (Z.to_nat (e_phnum elf)) ip pgdir0 (e_phoff elf) 0 in
          match r with
          | None => exec_bad pgdir0 (Some ip)
          | Some sz0 =>
              iunlockput ip ;;;
              end_op ;;;
              let* r := exec_commit cur path argv pgdir0 sz0 elf in
              match r with
              | None => exec_bad pgdir0 None
              | Some v => ret v
              end
          end
  end.
End code.
