(* ===== verification/Sysproc.v ===== *)
(** * Process system calls (sysproc.c) *)

From Stdlib Require Import ZArith Lia.
From stdpp Require Import base gmap list strings numbers.
From S2P Require Import Prelude Strings State Spinlock Sched Kalloc Console Vm Disk Bio Log Fs Pipe File Proc Syscall.

Open Scope Z_scope.

(** [argint] and an early return of -1. *)
Notation "'let?' x ':=' m 'in' k" :=
  (bind m (fun o => match o with None => ret (-1) | Some x => k end))
  (at level 10, x pattern, m at level 200, k at level 200) : kernel_scope.

Definition counter_at (p : proc) (i : Z) : option Z :=
  if i <? 0 then None else counter p !! Z.to_nat i.

Section code.
Context `{E : Env} `{LY : Layout} `{D : Disk} `{DV : Devsw} `{EN : Entries}.

Definition sys_fork : KM Z := fork.

Definition sys_exit : KM Z := exit ;;; ret 0.

Definition sys_wait : KM Z := wait.

Definition sys_kill : KM Z :=
  let? pid := argint 0 in
  kill pid.

Definition sys_getpid : KM Z :=
  let* cur := curproc_ in
  let* p := get_proc cur in
  ret (pid p).

Definition sys_sbrk : KM Z :=
  let? n := argint 0 in
  let* cur := curproc_ in
  let* p := get_proc cur in
  let addr := i32 (sz p) in
  let* r := growproc n in
  if r <? 0 then ret (-1) else ret addr.

(** The comparison is one of unsigned numbers. *)
Definition sys_sleep : KM Z :=
  let? n := argint 0 in
  acquire L_tickslock ;;;
  let* ticks0 := reads ticks in
  forever
    (let* now := reads ticks in
     if u32 (now - ticks0) <? u32 n then
       let* cur := curproc_ in
       let* p := get_proc cur in
       if Zb (killed p) then
         release L_tickslock ;;;
         ret (Some (-1))
       else
         sleep Ch_ticks (Some L_tickslock) ;;;
         ret None
     else
       release L_tickslock ;;;
       ret (Some 0)).

Definition sys_uptime : KM Z :=
  acquire L_tickslock ;;;
  let* xticks := reads ticks in
  release L_tickslock ;;;
  ret (i32 xticks).

Definition sys_getyear : KM Z := ret 1975.

Definition sys_getnextprime : KM Z :=
  let* cur := curproc_ in
  let* p := get_proc cur in
  let num := i32 (tf_ebx (tf p)) in
  cprintf (bytes "sys_find_next_prime_number()called for %d
") [A_int num] ;;;
  find_next_prime_number num.

Definition sys_getcallcount : KM Z :=
  let? syscallid := argint 0 in
  let* cur := curproc_ in
  let* p := get_proc cur in
  deref "counter" (counter_at p syscallid).

Definition sys_getmostcaller : KM Z :=
  let? syscallid := argint 0 in
  getMostCaller syscallid.

Definition sys_waitforprocess : KM Z :=
  let? child := argint 0 in
  waitForProcess child.
End code.
