(* ===== verification/Sysfile.v ===== *)
(** * File system calls (sysfile.c)

    Argument checking, and the calls into file.c, fs.c and exec.c. *)

From Stdlib Require Import ZArith Lia.
From stdpp Require Import base gmap list strings numbers.
From S2P Require Import Prelude Strings State Spinlock Sched Kalloc Console Vm Disk Bio Log Fs Pipe File Proc Syscall Exec Sysproc.

Open Scope Z_scope.

(** The first empty slot of a descriptor table. *)
Definition free_fd (fds : list (option nat)) : option nat :=
  fst <$> list_find (fun f => f = None) (take NOFILE fds).

(** An array [char name[DIRSIZ]] of a caller of nameiparent, before the call. *)
Definition fresh_name : list Z := replicate DIRSIZ 0.

Section code.
Context `{E : Env} `{LY : Layout} `{D : Disk} `{DV : Devsw} `{EN : Entries}.

Definition argfd (n : Z) : KM (option (Z * nat)) :=
  let* o := argint n in
  match o with
  | None => ret None
  | Some fd =>
      if (fd <? 0) || (Z.of_nat NOFILE <=? fd) then ret None
      else
        let* cur := curproc_ in
        let* p := get_proc cur in
        match ofile p !! Z.to_nat fd with
        | Some (Some f) => ret (Some (fd, f))
        | _ => ret None
        end
  end.

Definition set_fd (fd : nat) (ofl : option nat) : KM unit :=
  let* cur := curproc_ in
  upd_proc cur (fun p => set_ofile (<[fd := ofl]> (ofile p)) p).

Definition fdalloc (f : nat) : KM Z :=
  let* cur := curproc_ in
  let* p := get_proc cur in
  match free_fd (ofile p) with
  | Some fd =>
      upd_proc cur (fun p => set_ofile (<[fd := Some f]> (ofile p)) p) ;;;
      ret (Z.of_nat fd)
  | None => ret (-1)
  end.

Definition sys_dup : KM Z :=
  let? (_, f) := argfd 0 in
  let* fd := fdalloc f in
  if fd <? 0 then ret (-1)
  else
    let* _ := filedup f in
    ret fd.

(** fileread stores the bytes it gets through the user pointer. *)
Definition sys_read : KM Z :=
  let? (_, f) := argfd 0 in
  let? n := argint 2 in
  let? p := argptr 1 n in
  let* (r, bs) := fileread f n in
  user_stbs p bs ;;;
  ret r.

Definition sys_write : KM Z :=
  let? (_, f) := argfd 0 in
  let? n := argint 2 in
  let? p := argptr 1 n in
  let* bs := user_ldbs p (Z.to_nat n) in
  filewrite f bs.

Definition sys_close : KM Z :=
  let? (fd, f) := argfd 0 in
  set_fd (Z.to_nat fd) None ;;;
  fileclose f ;;;
  ret 0.

(** A [struct stat] at a user address: its fields, without the padding. *)
Definition user_put_stat (a : Z) (st : stat) : KM unit :=
  user_stbs (u32 (a + 4)) (le32 (st_dev st)) ;;;
  user_stbs (u32 (a + 8)) (le32 (st_ino st)) ;;;
  user_stbs a (le16 (st_type st)) ;;;
  user_stbs (u32 (a + 12)) (le16 (st_nlink st)) ;;;
  user_stbs (u32 (a + 16)) (le32 (st_size st)).

Definition sys_fstat : KM Z :=
  let? (_, f) := argfd 0 in
  let? a := argptr 1 20 in
  let* (r, ost) := filestat f in
  match ost with
  | Some st => user_put_stat a st ;;; ret r
  | None => ret r
  end.

Definition upd_nlink (i : nat) (d : Z) : KM unit :=
  upd_inode i (fun ip => set_i_nlink (i16 (i_nlink ip + d)) ip).

(** The label [bad] of sys_link. *)
Definition link_bad (ip : nat) : KM Z :=
  ilock (Some ip) ;;;
  upd_nlink ip (-1) ;;;
  iupdate ip ;;;
  iunlockput ip ;;;
  end_op ;;;
  ret (-1).

Definition sys_link : KM Z :=
  let? old := argstr 0 in
  let? new := argstr 1 in
  begin_op ;;;
  let* oip := namei old in
  match oip with
  | None => end_op ;;; ret (-1)
  | Some ip =>
      ilock (Some ip) ;;;
      let* i := get_inode ip in
      if i_type i =? T_DIR then
        iunlockput ip ;;;
        end_op ;;;
        ret (-1)
      else
        upd_nlink ip 1 ;;;
        iupdate ip ;;;
        iunlock (Some ip) ;;;
        let* (odp, name) := nameiparent new fresh_name in
        match odp with
        | None => link_bad ip
        | Some dp =>
            ilock (Some dp) ;;;
            let* d := get_inode dp in
            let* i := get_inode ip in
            let* ok :=
              (if negb (i_dev d =? i_dev i) then ret false
               else
                 let* r := dirlink dp name (i_inum i) in
                 ret (negb (r <? 0))) in
            if negb ok then
              iunlockput dp ;;;
              link_bad ip
            else
              iunlockput dp ;;;
              iput ip ;;;
              end_op ;;;
              ret 0
        end
  end.

(** The offsets isdirempty visits: those of dirlookup but the first two. *)
Definition isdirempty (dp : nat) : KM bool :=
  let* d := get_inode dp in
  let* r := for_ret (drop 2 (dir_offs (i_size d))) (fun off =>
    let* (r, bs) := readi dp off 16 in
    if negb (r =? 16) then panic "isdirempty: readi"
    else ret (if negb (de_inum (get_dirent bs) =? 0) then Some tt else None)) in
  ret (match r with Some _ => false | None => true end).

(** The label [bad] of sys_unlink. *)
Definition unlink_bad (dp : nat) : KM Z :=
  iunlockput dp ;;;
  end_op ;;;
  ret (-1).

Definition sys_unlink : KM Z :=
  let? path := argstr 0 in
  begin_op ;;;
  let* (odp, name) := nameiparent path fresh_name in
  match odp with
  | None => end_op ;;; ret (-1)
  | Some dp =>
      ilock (Some dp) ;;;
      if (namecmp name (bytes ".") =? 0) || (namecmp name (bytes "..") =? 0) then unlink_bad dp
      else
        let* found := dirlookup dp name in
        match found with
        | None => unlink_bad dp
        | Some (ip, off) =>
            ilock (Some ip) ;;;
            let* i := get_inode ip in
            if i_nlink i <? 1 then panic "unlink: nlink < 1"
            else
              let* full :=
                (if i_type i =? T_DIR then let* e := isdirempty ip in ret (negb e) else ret false) in
              if full then
                iunlockput ip ;;;
                unlink_bad dp
              else
                let* w := writei dp (dirent_bytes (mk_dirent 0 (replicate DIRSIZ 0))) off in
                if negb (w =? 16) then panic "unlink: writei"
                else
                  (when i_type i =? T_DIR do (upd_nlink dp (-1) ;;; iupdate dp)) ;;;
                  iunlockput dp ;;;
                  upd_nlink ip (-1) ;;;
                  iupdate ip ;;;
                  iunlockput ip ;;;
                  end_op ;;;
                  ret 0
        end
  end.

Definition create (path : list Z) (type major minor : Z) : KM (option nat) :=
  let* (odp, name) := nameiparent path fresh_name in
  match odp with
  | None => ret None
  | Some dp =>
      ilock (Some dp) ;;;
      let* found := dirlookup dp name in
      match found with
      | Some (ip, _) =>
          iunlockput dp ;;;
          ilock (Some ip) ;;;
          let* i := get_inode ip in
          if (type =? T_FILE) && (i_type i =? T_FILE) then ret (Some ip)
          else
            iunlockput ip ;;;
            ret None
      | None =>
          let* d := get_inode dp in
          let* ip := ialloc (i_dev d) type in
          ilock (Some ip) ;;;
          upd_inode ip (fun i => set_i_nlink 1 (set_i_minor (i16 minor) (set_i_major (i16 major) i))) ;;;
          iupdate ip ;;;
          (when type =? T_DIR do
             (upd_nlink dp 1 ;;;
              iupdate dp ;;;
              let* i := get_inode ip in
              let* d := get_inode dp in
              let* r1 := dirlink ip (bytes ".") (i_inum i) in
              if r1 <? 0 then panic "create dots"
              else
                let* r2 := dirlink ip (bytes "..") (i_inum d) in
                when r2 <? 0 do panic "create dots")) ;;;
          let* i := get_inode ip in
          let* r := dirlink dp name (i_inum i) in
          if r <? 0 then panic "create: dirlink"
          else
            iunlockput dp ;;;
            ret (Some ip)
      end
  end.

(** The first half of sys_open: the inode, locked. *)
Definition open_inode (path : list Z) (omode : Z) : KM (option nat) :=
  if Zb (Z.land omode O_CREATE) then create path T_FILE 0 0
  else
    let* oip := namei path in
    match oip with
    | None => ret None
    | Some ip =>
        ilock (Some ip) ;;;
        let* i := get_inode ip in
        if (i_type i =? T_DIR) && negb (omode =? O_RDONLY) then
          iunlockput ip ;;;
          ret None
        else ret (Some ip)
    end.

Definition sys_open : KM Z :=
  let? path := argstr 0 in
  let? omode := argint 1 in
  begin_op ;;;
  let* oip := open_inode path omode in
  match oip with
  | None => end_op ;;; ret (-1)
  | Some ip =>
      let* ofl := filealloc in
      let* fd := (match ofl with Some f => fdalloc f | None => ret (-1) end) in
      match ofl with
      | Some f =>
          if fd <? 0 then
            fileclose f ;;;
            iunlockput ip ;;;
            end_op ;;;
            ret (-1)
          else
            iunlock (Some ip) ;;;
            end_op ;;;
            upd_file f (fun f =>
              set_f_writable (bZ (Zb (Z.land omode O_WRONLY) || Zb (Z.land omode O_RDWR)))
                (set_f_readable (bZ (negb (Zb (Z.land omode O_WRONLY))))
                  (set_f_off 0 (set_f_ip (Some ip) (set_f_type FD_INODE f))))) ;;;
            ret fd
      | None =>
          iunlockput ip ;;;
          end_op ;;;
          ret (-1)
      end
  end.

Definition sys_mkdir : KM Z :=
  begin_op ;;;
  let* path := argstr 0 in
  let* oip := (match path with Some path => create path T_DIR 0 0 | None => ret None end) in
  match oip with
  | None => end_op ;;; ret (-1)
  | Some ip => iunlockput ip ;;; end_op ;;; ret 0
  end.

Definition sys_mknod : KM Z :=
  begin_op ;;;
  let* path := argstr 0 in
  let* oip :=
    (match path with
     | None => ret None
     | Some path =>
         let* major := argint 1 in
         match major with
         | None => ret None
         | Some major =>
             let* minor := argint 2 in
             match minor with
             | None => ret None
             | Some minor => create path T_DEV (i16 major) (i16 minor)
             end
         end
     end) in
  match oip with
  | None => end_op ;;; ret (-1)
  | Some ip => iunlockput ip ;;; end_op ;;; ret 0
  end.

Definition sys_chdir : KM Z :=
  let* cur := curproc_ in
  begin_op ;;;
  let* path := argstr 0 in
  let* oip := (match path with Some path => namei path | None => ret None end) in
  match oip with
  | None => end_op ;;; ret (-1)
  | Some ip =>
      ilock (Some ip) ;;;
      let* i := get_inode ip in
      if negb (i_type i =? T_DIR) then
        iunlockput ip ;;;
        end_op ;;;
        ret (-1)
      else
        iunlock (Some ip) ;;;
        let* p := get_proc cur in
        let* d := deref "cwd" (cwd p) in
        iput d ;;;
        end_op ;;;
        upd_proc cur (set_cwd (Some ip)) ;;;
        ret 0
  end.

(** The loop of sys_exec over [uargv], for [n] more arguments. *)
Fixpoint fetch_argv (n : nat) (uargv i : Z) : KM (option (list (list Z))) :=
  match n with
  | O => ret None
  | S n =>
      let* uarg := fetchint (u32 (uargv + 4 * i)) in
      match uarg with
      | None => ret None
      | Some uarg =>
          if uarg =? 0 then ret (Some [])
          else
            let* s := fetchstr (u32 uarg) in
            match s with
            | None => ret None
            | Some s =>
                let* rest := fetch_argv n uargv (i + 1) in
                ret (cons s <$> rest)
            end
      end
  end.

Definition sys_exec : KM Z :=
  let? path := argstr 0 in
  let? uargv := argint 1 in
  let? argv := fetch_argv (Z.to_nat MAXARG) (u32 uargv) 0 in
  exec path argv.

Definition sys_pipe : KM Z :=
  let? fd := argptr 0 8 in
  let? (rf, wf) := pipealloc in
  let* fd0 := fdalloc rf in
  let* fd1 := (if fd0 <? 0 then ret (-1) else fdalloc wf) in
  if (fd0 <? 0) || (fd1 <? 0) then
    (when 0 <=? fd0 do set_fd (Z.to_nat fd0) None) ;;;
    fileclose rf ;;;
    fileclose wf ;;;
    ret (-1)
  else
    user_stbs fd (le32 fd0) ;;;
    user_stbs (u32 (fd + 4)) (le32 fd1) ;;;
    ret 0.
End code.
