(* ===== verification/Trap.v ===== *)
(** * Traps and the system call dispatcher (trap.c, syscall of syscall.c) *)

From Stdlib Require Import ZArith Lia.
From stdpp Require Import base gmap list strings numbers.
From S2P Require Import Prelude Strings State Spinlock Sched Kalloc Console Vm Disk Bio Log Fs Pipe File Proc Apic Input Syscall Exec Sysproc Sysfile.

Import string_c Lapic Ioapic.
Open Scope Z_scope.

Definition STS_IG32 : Z := 14.
Definition STS_TG32 : Z := 15.
Definition SETGATE (istrap : bool) (sel off d : Z) : gatedesc :=
  mk_gatedesc (Z.land off 65535) sel 0 0 (if istrap then STS_TG32 else STS_IG32) 0 d 1 (Z.shiftr off 16).

Definition is_user (f : trapframe) : bool := Z.land (tf_cs f) 3 =? DPL_USER.

Section code.
Context `{E : Env} `{LY : Layout} `{D : Disk} `{EN : Entries} `{HW : Hw}.
Context (ide_status : K -> Z) (vectors : Z -> Z).

Definition tvinit : KM unit :=
  modify (set_idt ((fun i => SETGATE false (Z.shiftl SEG_KCODE 3) (vectors i) 0) <$> zseq 0 256)) ;;;
  modify (fun k => set_idt (<[Z.to_nat T_SYSCALL :=
    SETGATE true (Z.shiftl SEG_KCODE 3) (vectors T_SYSCALL) DPL_USER]> (idt k)) k) ;;;
  initlock L_tickslock.

(** The table [syscalls], indexed by the numbers of syscall.h. *)
Definition syscalls (num : Z) : option (KM Z) :=
  nth (Z.to_nat num)
    [ None; Some sys_fork; Some sys_exit; Some sys_wait; Some sys_pipe; Some sys_read; Some sys_kill;
      Some sys_exec; Some sys_fstat; Some sys_chdir; Some sys_dup; Some sys_getpid; Some sys_sbrk;
      Some sys_sleep; Some sys_uptime; Some sys_open; Some sys_write; Some sys_mknod; Some sys_unlink;
      Some sys_link; Some sys_mkdir; Some sys_close; Some sys_getyear; Some sys_getnextprime;
      Some sys_getcallcount; Some sys_getmostcaller; Some sys_waitforprocess ] None.

(** The counter update is not bounds-checked: outside [0, 100) it is a write
    past the array. *)
Definition count_call (cur : nat) (num : Z) : KM unit :=
  let* p := get_proc cur in
  let* n := deref "counter" (counter_at p num) in
  upd_proc cur (fun p => set_counter (<[Z.to_nat num := i32 (n + 1)]> (counter p)) p).

Definition set_eax (cur : nat) (v : Z) : KM unit :=
  upd_proc cur (fun p => set_tf (set_tf_eax (u32 v) (tf p)) p).

Definition syscall : KM unit :=
  let* cur := curproc_ in
  let* p := get_proc cur in
  let num := i32 (tf_eax (tf p)) in
  count_call cur num ;;;
  match (if 0 <? num then syscalls num else None) with
  | Some f =>
      let* v := f in
      set_eax cur v
  | None =>
      cprintf (bytes "%d %s: unknown sys call %d
") [A_int (pid p); A_str (string_facts.cstr 16 (name p)); A_int num] ;;;
      set_eax cur (-1)
  end.

(** [if(myproc()->killed) exit();] *)
Definition exit_if_killed : KM unit :=
  let* cur := curproc_ in
  let* p := get_proc cur in
  when Zb (killed p) do exit.

(** [if(myproc() && myproc()->killed && (tf->cs&3) == DPL_USER) exit();] *)
Definition exit_if_killed_user (f : trapframe) : KM unit :=
  let* op := myproc in
  match op with
  | None => ret tt
  | Some cur =>
      let* p := get_proc cur in
      when Zb (killed p) && is_user f do exit
  end.

Definition timer_tick : KM unit :=
  acquire L_tickslock ;;;
  modify (fun k => set_ticks (u32 (ticks k + 1)) k) ;;;
  wakeup Ch_ticks ;;;
  release L_tickslock.

(** The default case: a fault of the kernel, or of the user program. *)
Definition trap_unexpected (f : trapframe) : KM unit :=
  let* op := myproc in
  if bool_decide (op = None) || (Z.land (tf_cs f) 3 =? 0) then
    let* c := cpuid in
    let* addr := rcr2 in
    cprintf (bytes "unexpected trap %d from cpu %d eip %x (cr2=0x%x)
") [A_int (tf_trapno f); A_int (Z.of_nat c); A_int (tf_eip f); A_int addr] ;;;
    panic "trap"
  else
    let* cur := curproc_ in
    let* p := get_proc cur in
    let* c := cpuid in
    let* addr := rcr2 in
    cprintf (bytes "pid %d %s: trap %d err %d on cpu %d eip 0x%x addr 0x%x--kill proc
") [A_int (pid p); A_str (string_facts.cstr 16 (name p)); A_int (tf_trapno f); A_int (tf_err f); A_int (Z.of_nat c);
     A_int (tf_eip f); A_int addr] ;;;
    upd_proc cur (set_killed 1).

(** The switch on the trap number. *)
Definition trap_dispatch (f : trapframe) : KM unit :=
  let n := tf_trapno f in
  if n =? T_IRQ0 + IRQ_TIMER then
    let* c := cpuid in
    (when bool_decide (c = 0%nat) do timer_tick) ;;;
    lapiceoi
  else if n =? T_IRQ0 + IRQ_IDE then ide.ideintr ide_status ;;; lapiceoi
  else if n =? T_IRQ0 + IRQ_IDE + 1 then ret tt
  else if n =? T_IRQ0 + IRQ_KBD then kbdintr ;;; lapiceoi
  else if n =? T_IRQ0 + IRQ_COM1 then uartintr ;;; lapiceoi
  else if (n =? T_IRQ0 + 7) || (n =? T_IRQ0 + IRQ_SPURIOUS) then
    let* c := cpuid in
    cprintf (bytes "cpu%d: spurious interrupt at %x:%x
") [A_int (Z.of_nat c); A_int (tf_cs f); A_int (tf_eip f)] ;;;
    lapiceoi
  else trap_unexpected f.

Definition trap (f : trapframe) : KM unit :=
  if tf_trapno f =? T_SYSCALL then
    exit_if_killed ;;;
    let* cur := curproc_ in
    upd_proc cur (set_tf f) ;;;
    syscall ;;;
    exit_if_killed
  else
    trap_dispatch f ;;;
    exit_if_killed_user f ;;;
    let* op := myproc in
    (match op with
     | None => ret tt
     | Some cur =>
         let* p := get_proc cur in
         when bool_decide (state p = RUNNING) && (tf_trapno f =? T_IRQ0 + IRQ_TIMER) do yield
     end) ;;;
    exit_if_killed_user f.
End code.

(** ** The dispatcher *)

Section syscall_lemmas.
Context `{E : Env} `{LY : Layout} `{D : Disk} `{EN : Entries} `{HW : Hw}.

(** The process table after the call was counted. *)
Definition counted (cur : nat) (num : Z) (k : K) : K :=
  set_ptable (alter (fun p => set_counter
    (alter (fun n => i32 (n + 1)) (Z.to_nat num) (counter p)) p) cur (ptable k)) k.

Lemma count_call_ok cur p num k :
  ptable k !! cur = Some p -> 0 <= num < Z.of_nat (length (counter p)) ->
  count_call cur num k = Ok tt (counted cur num k).
Proof.
  intros Hp Hn. unfold count_call. mrun (get_proc_ok _ _ _ Hp). unfold counter_at.
  destruct (Z.ltb_spec num 0); [lia|].
  destruct (lookup_lt_is_Some_2 (counter p) (Z.to_nat num) ltac:(lia)) as [n Hnum]. rewrite Hnum.
  unfold upd_proc, counted. msimp. unfold modify. do 2 f_equal.
  apply list_alter_ext; [|done]. intros q Hq. simplify_eq.
  assert (alter (fun n => i32 (n + 1)) (Z.to_nat num) (counter p) =
          <[Z.to_nat num := i32 (n + 1)]> (counter p)) as ->; [|done].
  apply list_eq. intros i. destruct (decide (i = Z.to_nat num)) as [->|].
  - rewrite list_lookup_alter_eq, Hnum, list_lookup_insert_eq by (by eapply lookup_lt_Some). done.
  - by rewrite list_lookup_alter_ne, list_lookup_insert_ne.
Qed.


(** C39. The count is updated before the number is checked: a number outside the
    100 counters writes outside the array. *)
Theorem syscall_counter_overrun cur p k :
  quiet k -> curproc k = Some cur -> ptable k !! cur = Some p -> length (counter p) = 100%nat ->
  ~ (0 <= i32 (tf_eax (tf p)) < 100) ->
  syscall k = Ub "counter" k.
Proof.
  intros Hq Hc Hp Hlen Hnum. unfold syscall.
  mrun (curproc_ok _ _ Hq Hc). mrun (get_proc_ok _ _ _ Hp).
  unfold count_call. unfold bind at 1. mrun (get_proc_ok _ _ _ Hp). unfold counter_at.
  destruct (Z.ltb_spec (i32 (tf_eax (tf p))) 0); [done|].
  rewrite lookup_ge_None_2 by (rewrite Hlen; lia). done.
Qed.
End syscall_lemmas.

(** ** Sample calls *)

#[local] Instance sample_entries : Entries := {| forkret_addr := 0; trapret_addr := 0; initcode := [] |}.

Definition calling (num : Z) : proc :=
  set_tf (set_tf_eax num trapframe0) (set_state RUNNING (set_pid 1 proc0)).
Definition sample_call (num : Z) : K := set_ptable (<[0%nat := calling num]> (ptable bss)) sample.

Lemma sample_call_quiet num : quiet (sample_call num).
Proof. exact (quiet_framed (set_ptable _) _ _ sample_quiet). Qed.


Lemma syscall_counter_overrun_witness :
  @syscall idle_env sample_layout sample_disk sample_entries (sample_call 1000) =
  Ub "counter" (sample_call 1000).
Proof.
  apply (@syscall_counter_overrun idle_env sample_layout sample_disk sample_entries
           0 (calling 1000)).
  - apply sample_call_quiet.
  - reflexivity.
  - reflexivity.
  - reflexivity.
  - vm_compute. intros [_ H]. discriminate H.
Defined.
