(* ===== verification/Main.v ===== *)
(** * Boot (main.c, ideinit of ide.c)

    The bootstrap processor's initialisation in the order of main, and the
    start of the other processors. *)

From Stdlib Require Import ZArith Lia.
From stdpp Require Import base gmap list strings numbers.
From S2P Require Import Prelude Strings State Spinlock Sched Kalloc Console Vm Disk Bio Log Fs Pipe File Proc Apic Input Syscall Exec Sysproc Sysfile Trap.

Import string_c Lapic Ioapic Mp.
Open Scope Z_scope.

(** More of the linker's symbols. *)
Class BootImage := {
  entryother : list Z;
  mpenter_addr : Z;
  entrypgdir_addr : Z }.

Definition PTE_PS : Z := 128.
Definition entrypgdir : list Z :=
  <[Z.to_nat (Z.shiftr KERNBASE 22) := Z.lor (Z.lor PTE_P PTE_W) PTE_PS]>
    (<[0%nat := Z.lor (Z.lor PTE_P PTE_W) PTE_PS]> (replicate (Z.to_nat NPDENTRIES) 0)).

Section code.
Context `{E : Env} `{LY : Layout} `{D : Disk} `{EN : Entries} `{HW : Hw} `{BI : BootImage}.
Context (ide_status : K -> Z) (vectors : Z -> Z).

(** The poll for disk 1, [n] more reads of the status port. *)
Fixpoint ide_probe (n : nat) : KM unit :=
  match n with
  | O => ret tt
  | S n =>
      let* v := in_port 503 in
      if negb (v =? 0) then modify (set_havedisk1 1) else ide_probe n
  end.

Definition ideinit : KM unit :=
  initlock L_idelock ;;;
  let* n := reads ncpu in
  ioapicenable IRQ_IDE (Z.of_nat n - 1) ;;;
  let* _ := ide.idewait ide_status false in
  outb 502 (Z.lor 224 (Z.shiftl 1 4)) ;;;
  ide_probe 1000 ;;;
  outb 502 (Z.lor 224 (Z.shiftl 0 4)).

(** idtinit loads the address of [idt] into a register of this CPU. *)
Definition mpmain : KM unit :=
  let* c1 := cpuid in
  let* c2 := cpuid in
  cprintf (bytes "cpu%d: starting %d
") [A_int (Z.of_nat c1); A_int (Z.of_nat c2)] ;;;
  let* i := mycpu in
  upd_cpu i (set_started 1) ;;;
  scheduler.

Definition mpenter : KM unit :=
  switchkvm ;;;
  seginit ;;;
  lapicinit ;;;
  mpmain.

(** Start one processor and wait until it runs. *)
Definition startother (code : Z) (c : nat) : KM unit :=
  let* me := mycpu in
  if bool_decide (c = me) then ret tt
  else
    let* stack := kalloc in
    upd_mem (fun m => stw m (code - 4) (u32 (stack + KSTACKSIZE))) ;;;
    upd_mem (fun m => stw m (code - 8) mpenter_addr) ;;;
    upd_mem (fun m => stw m (code - 12) (V2P entrypgdir_addr)) ;;;
    let* cp := get_cpu c in
    lapicstartap (apicid cp) (V2P code) ;;;
    forever (let* cp := get_cpu c in
             if started cp =? 0 then others ;;; ret None else ret (Some tt)).

Definition startothers : KM unit :=
  let code := P2V 28672 in
  upd_mem (fun m => stbs m code entryother) ;;;
  let* n := reads ncpu in
  for_each (seq 0 n) (startother code).

Definition main : KM unit :=
  kinit1 end_ (P2V (4 * 1024 * 1024)) ;;;
  kvmalloc ;;;
  mpinit ;;;
  lapicinit ;;;
  seginit ;;;
  picinit ;;;
  ioapicinit ;;;
  consoleinit ;;;
  uartinit ;;;
  pinit ;;;
  tvinit vectors ;;;
  binit ;;;
  fileinit ;;;
  ideinit ;;;
  startothers ;;;
  kinit2 (P2V (4 * 1024 * 1024)) (P2V PHYSTOP) ;;;
  userinit ;;;
  mpmain.
End code.
