(* ===== verification/User.v ===== *)
(** * A user process (usys.S, syscall.h)

    What a program sees of the machine: its memory from address 0 up to its
    size, and the kernel behind the numbered system calls of usys.S.  The
    kernel is the interface [Kernel]; programs are written, and their theorems
    proved, against it and against the laws of the calls they rely on
    ([Stdio], [Grows]).  The effects are those of the kernel's model: a load
    or store outside of the memory is [Ub], and [Stuck] means that control
    does not come back, with [u_gone] set when that is because the process
    is over. *)

From Stdlib Require Import ZArith Lia.
From stdpp Require Import base gmap list strings numbers.
From S2P Require Import Prelude Strings.

Open Scope Z_scope.

(** ** The process *)

Record U (W : Type) := mk_U {
  u_mem : mem;
  u_sz : Z;
  u_gone : bool;
  u_world : W;
}.
Global Arguments mk_U {W}.
Global Arguments u_mem {W}.
Global Arguments u_sz {W}.
Global Arguments u_gone {W}.
Global Arguments u_world {W}.

Definition set_u_mem {W} (m : mem) (u : U W) : U W := mk_U m (u_sz u) (u_gone u) (u_world u).
Definition set_u_sz {W} (z : Z) (u : U W) : U W := mk_U (u_mem u) z (u_gone u) (u_world u).
Definition set_u_gone {W} (b : bool) (u : U W) : U W := mk_U (u_mem u) (u_sz u) b (u_world u).
Definition set_u_world {W} (w : W) (u : U W) : U W := mk_U (u_mem u) (u_sz u) (u_gone u) w.

(** A system call comes back with a value in eax, or not at all (exit, and an
    exec that worked). *)
Inductive sysret (W : Type) : Type :=
| Back (eax : Z) (u : U W)
| Gone (u : U W).
Global Arguments Back {W}.
Global Arguments Gone {W}.

(** The kernel as a program sees it: a number, the words on the stack, and
    the process. *)
Class Kernel (W : Type) := sys : Z -> list Z -> U W -> sysret W.

(** syscall.h *)
Definition SYS_fork := 1.
Definition SYS_exit := 2.
Definition SYS_wait := 3.
Definition SYS_pipe := 4.
Definition SYS_read := 5.
Definition SYS_kill := 6.
Definition SYS_exec := 7.
Definition SYS_fstat := 8.
Definition SYS_chdir := 9.
Definition SYS_dup := 10.
Definition SYS_getpid := 11.
Definition SYS_sbrk := 12.
Definition SYS_sleep := 13.
Definition SYS_uptime := 14.
Definition SYS_open := 15.
Definition SYS_write := 16.
Definition SYS_mknod := 17.
Definition SYS_unlink := 18.
Definition SYS_link := 19.
Definition SYS_mkdir := 20.
Definition SYS_close := 21.
Definition SYS_getyear := 22.
Definition SYS_getnextprime := 23.
Definition SYS_getcallcount := 24.
Definition SYS_getmostcaller := 25.
Definition SYS_waitforprocess := 26.

(** fcntl.h *)
Definition O_RDONLY := 0.
Definition O_WRONLY := 1.
Definition O_RDWR := 2.
Definition O_CREATE := 512.

Section process.
Context {W : Type} `{Kernel W}.

Definition UM (A : Type) : Type := M (U W) A.

(** Loads and stores of bytes and of words. *)
Definition reaches (a n : Z) (u : U W) : bool := (0 <=? a) && (a + n <=? u_sz u).
Definition lb (a : Z) : UM Z := fun u =>
  if reaches a 1 u then Ok (ldb (u_mem u) a) u else Ub "page fault" u.
Definition sb (a v : Z) : UM unit := fun u =>
  if reaches a 1 u then Ok tt (set_u_mem (stb (u_mem u) a v) u) else Ub "page fault" u.
Definition lw (a : Z) : UM Z := fun u =>
  if reaches a 4 u then Ok (ldw (u_mem u) a) u else Ub "page fault" u.
Definition sw (a v : Z) : UM unit := fun u =>
  if reaches a 4 u then Ok tt (set_u_mem (stw (u_mem u) a v) u) else Ub "page fault" u.

(** A loop of at most [n] turns.  A loop that walks through memory and
    neither ends nor leaves it within [u_sz] turns is in a circle. *)
Fixpoint loop {A B} (n : nat) (turn : A -> UM (A + B)) (a : A) : UM B :=
  match n with
  | O => hang
  | S n =>
      let* r := turn a in
      match r with
      | inl a => loop n turn a
      | inr b => ret b
      end
  end.
Definition walk {A B} (turn : A -> UM (A + B)) (a : A) : UM B :=
  fun u => loop (S (Z.to_nat (u_sz u))) turn a u.

(** The stub of usys.S. *)
Definition usys (num : Z) (args : list Z) : UM Z := fun u =>
  match sys num args u with
  | Back r u => Ok r u
  | Gone u => Stuck (set_u_gone true u)
  end.

Definition fork : UM Z := usys SYS_fork [].
Definition exit {A} : UM A := usys SYS_exit [] ;;; undefined "exit returned".
Definition wait : UM Z := usys SYS_wait [].
Definition pipe (p : Z) : UM Z := usys SYS_pipe [p].
Definition read (fd buf n : Z) : UM Z := usys SYS_read [fd; buf; n].
Definition kill (pid : Z) : UM Z := usys SYS_kill [pid].
Definition exec (path argv : Z) : UM Z := usys SYS_exec [path; argv].
Definition fstat (fd st : Z) : UM Z := usys SYS_fstat [fd; st].
Definition chdir (path : Z) : UM Z := usys SYS_chdir [path].
Definition dup (fd : Z) : UM Z := usys SYS_dup [fd].
Definition getpid : UM Z := usys SYS_getpid [].
Definition sbrk (n : Z) : UM Z := let* r := usys SYS_sbrk [n] in ret (u32 r).
Definition sleep (n : Z) : UM Z := usys SYS_sleep [n].
Definition uptime : UM Z := usys SYS_uptime [].
Definition open (path omode : Z) : UM Z := usys SYS_open [path; omode].
Definition write (fd buf n : Z) : UM Z := usys SYS_write [fd; buf; n].
Definition mknod (path major minor : Z) : UM Z := usys SYS_mknod [path; major; minor].
Definition unlink (path : Z) : UM Z := usys SYS_unlink [path].
Definition link (old new : Z) : UM Z := usys SYS_link [old; new].
Definition mkdir (path : Z) : UM Z := usys SYS_mkdir [path].
Definition close (fd : Z) : UM Z := usys SYS_close [fd].
Definition getyear : UM Z := usys SYS_getyear [].
(** The stub has no argument; the kernel reads the ebx of its caller. *)
Definition getnextprime (ebx : Z) : UM Z := usys SYS_getnextprime [ebx].
Definition getcallcount (n : Z) : UM Z := usys SYS_getcallcount [n].
Definition getmostcaller (n : Z) : UM Z := usys SYS_getmostcaller [n].
Definition waitforprocess (pid : Z) : UM Z := usys SYS_waitforprocess [pid].

End process.
Global Arguments UM : clear implicits.

(** ** The laws of the calls

    [Stdio fi fo io]: reading from [fi] takes bytes off the input, at least
    one as long as there are any, and writing to [fo] appends to the output;
    [io w l o] says that in [w] the input still to come is [l] and the output
    so far is [o].  [fo] and [fi] may be files, pipes or the console. *)
Class Stdio (W : Type) `{Kernel W} (fi fo : Z) (io : W -> list Z -> list Z -> Prop) := {
  read_law u a n l o :
    io (u_world u) l o -> 0 < n -> reaches a n u = true ->
    exists r w, sys SYS_read [fi; a; n] u =
        Back r (set_u_world w (set_u_mem (stbs (u_mem u) a (take (Z.to_nat r) l)) u)) /\
      0 <= r <= n /\ r <= Z.of_nat (length l) /\ (r = 0 -> l = []) /\ io w (drop (Z.to_nat r) l) o;
  write_law u a n l o :
    io (u_world u) l o -> 0 <= n -> reaches a n u = true ->
    exists w, sys SYS_write [fo; a; n] u = Back n (set_u_world w u) /\
      io w l (o ++ ldbs (u_mem u) a (Z.to_nat n));
  exit_law u l o :
    io (u_world u) l o -> exists w, sys SYS_exit [] u = Gone (set_u_world w u) /\ io w l o;
}.

(** [Grows]: sbrk refuses, or gives the program the next [n] bytes. *)
Class Grows (W : Type) `{Kernel W} :=
  sbrk_law : forall u n, 0 <= n < 2 ^ 31 ->
    (exists w, sys SYS_sbrk [n] u = Back (-1) (set_u_world w u)) \/
    (u_sz u + n < 2 ^ 31 /\
     exists w, sys SYS_sbrk [n] u = Back (u_sz u) (set_u_world w (set_u_sz (u_sz u + n) u))).

(** A kernel that still has memory: [avail m u] says that sbrk grants the
    process [m] bytes more, in whatever pieces it asks for them. *)
Class Supplies (W : Type) `{Kernel W} (avail : Z -> U W -> Prop) := {
  supply_law : forall m n u, 0 <= n <= m -> avail m u ->
    exists w, sys SYS_sbrk [n] u = Back (u_sz u) (set_u_world w (set_u_sz (u_sz u + n) u)) /\
      avail (m - n) (set_u_world w (set_u_sz (u_sz u + n) u));
  supply_same : forall m u u', u_sz u' = u_sz u -> u_world u' = u_world u -> avail m u -> avail m u';
  supply_less : forall m n u, n <= m -> avail m u -> avail n u;
}.

(** ** Running programs *)

Section process_facts.
Context {W : Type} `{Kernel W}.
Implicit Types u : U W.

Lemma lb_ok a u : reaches a 1 u = true -> lb a u = Ok (ldb (u_mem u) a) u.
Proof. unfold lb. by intros ->. Qed.
Lemma sb_ok a v u : reaches a 1 u = true -> sb a v u = Ok tt (set_u_mem (stb (u_mem u) a v) u).
Proof. unfold sb. by intros ->. Qed.
Lemma lw_ok a u : reaches a 4 u = true -> lw a u = Ok (ldw (u_mem u) a) u.
Proof. unfold lw. by intros ->. Qed.
Lemma sw_ok a v u : reaches a 4 u = true -> sw a v u = Ok tt (set_u_mem (stw (u_mem u) a v) u).
Proof. unfold sw. by intros ->. Qed.

Lemma reaches_iff a n u : reaches a n u = true <-> 0 <= a /\ a + n <= u_sz u.
Proof. unfold reaches. rewrite andb_true_iff, !Z.leb_le. done. Qed.

Lemma usys_back num args u r u' : sys num args u = Back r u' -> usys num args u = Ok r u'.
Proof. unfold usys. by intros ->. Qed.

Lemma set_u_mem_same u : set_u_mem (u_mem u) u = u.
Proof. by destruct u. Qed.

Section loops.
Context {A B : Type} (turn : A -> UM W (A + B)).

(** A loop with an invariant [I k], where [k] goes down, ends within as many
    turns. *)
Lemma loop_ok (I : nat -> A -> U W -> Prop) (Q : B -> U W -> Prop) k n a u :
  (forall k a u, I k a u ->
     (exists b u', turn a u = Ok (inr b) u' /\ Q b u') \/
     (exists k' a' u', turn a u = Ok (inl a') u' /\ I k' a' u' /\ (k' < k)%nat)) ->
  I k a u -> (k < n)%nat -> exists b u', loop n turn a u = Ok b u' /\ Q b u'.
Proof.
  intros Hturn. revert k a u. induction n as [|n IH]; intros k a u Ha Hn; [lia|]. cbn. unfold bind.
  destruct (Hturn k a u Ha) as [(b & u' & -> & HQ)|(k' & a' & u' & -> & Ha' & Hlt)]; [by exists b, u'|].
  apply (IH k'); [done|lia].
Qed.

Lemma loop_next n a u a' u' : turn a u = Ok (inl a') u' -> loop (S n) turn a u = loop n turn a' u'.
Proof. intros Ht. cbn. unfold bind. by rewrite Ht. Qed.
Lemma loop_last n a u b u' : turn a u = Ok (inr b) u' -> loop (S n) turn a u = Ok b u'.
Proof. intros Ht. cbn. unfold bind. by rewrite Ht. Qed.

(** A loop that only reads: it visits [path] and then stops. *)
Lemma loop_path (x : nat -> A) (b : B) k n u :
  (forall i, (i < k)%nat -> turn (x i) u = Ok (inl (x (S i))) u) ->
  turn (x k) u = Ok (inr b) u -> (k < n)%nat -> loop n turn (x 0%nat) u = Ok b u.
Proof.
  intros Hin Hlast. revert x Hin Hlast n. induction k as [|k IH]; intros x Hin Hlast [|n] Hn; try lia.
  - by apply loop_last.
  - rewrite (loop_next n _ _ (x 1%nat) u) by (apply (Hin 0%nat); lia).
    apply (IH (fun i => x (S i))); [intros i Hi; apply Hin; lia | done | lia].
Qed.
End loops.

(** *** C strings in memory *)

Lemma ldbs_app m a n k : ldbs m a (n + k) = ldbs m a n ++ ldbs m (a + Z.of_nat n) k.
Proof.
  revert a. induction n as [|n IH]; intros a; cbn [ldbs Nat.add app]; [by rewrite Z.add_0_r|].
  rewrite IH. do 2 f_equal. f_equal. lia.
Qed.
Lemma ldbs_split m a l1 l2 : ldbs m a (length (l1 ++ l2)) = l1 ++ l2 ->
  ldbs m a (length l1) = l1 /\ ldbs m (a + Z.of_nat (length l1)) (length l2) = l2.
Proof. rewrite length_app, ldbs_app. intros E. apply app_inj_1 in E; [done | by rewrite ldbs_length]. Qed.

Definition str_at (u : U W) (a : Z) (l : list Z) : Prop :=
  0 <= a /\ a + Z.of_nat (length l) < u_sz u /\ ldbs (u_mem u) a (length l) = l /\
  ldb (u_mem u) (a + Z.of_nat (length l)) = 0 /\ Forall (fun c => 0 < c < 256) l.

Lemma str_at_char u a l i c : str_at u a l -> l !! i = Some c ->
  ldb (u_mem u) (a + Z.of_nat i) = c /\ 0 < c < 256 /\ 0 <= a + Z.of_nat i < u_sz u.
Proof.
  intros (Ha & Hsz & Hl & _ & Hf) Hc. pose proof (lookup_lt_Some _ _ _ Hc) as Hi.
  assert (ldbs (u_mem u) a (length l) !! i = l !! i) as E by by rewrite Hl.
  rewrite ldbs_lookup, Hc in E by lia. injection E as E.
  split_and!; [done | by apply (Forall_lookup_1 _ _ _ _ Hf Hc)..| lia | lia].
Qed.
Lemma str_at_lb u a l i c : str_at u a l -> l !! i = Some c ->
  lb (a + Z.of_nat i) u = Ok c u /\ Zb c = true.
Proof.
  intros Hs Hc. destruct (str_at_char u a l i c Hs Hc) as (<- & Hz & ?). split.
  - apply lb_ok, reaches_iff. lia.
  - unfold Zb. apply negb_true_iff, Z.eqb_neq. lia.
Qed.
Lemma str_at_end u a l : str_at u a l -> lb (a + Z.of_nat (length l)) u = Ok 0 u.
Proof. intros (? & ? & _ & Hz & _). rewrite lb_ok; [by rewrite Hz | apply reaches_iff; lia]. Qed.

(** The rest of a string is a string. *)
Lemma str_at_drop u a l i : str_at u a l -> (i <= length l)%nat -> str_at u (a + Z.of_nat i) (drop i l).
Proof.
  intros (Ha & Hsz & Hl & Hz & Hf) Hi. unfold str_at. rewrite length_drop.
  replace (a + Z.of_nat i + Z.of_nat (length l - i)) with (a + Z.of_nat (length l)) by lia.
  split_and!; [lia | lia | | done | by apply Forall_drop].
  rewrite <-(take_drop i l) in Hl. apply ldbs_split in Hl as [_ Hl]. rewrite length_take, length_drop in Hl.
  by rewrite Nat.min_l in Hl by lia.
Qed.
Lemma str_at_app u a l1 l2 : str_at u a (l1 ++ l2) -> str_at u (a + Z.of_nat (length l1)) l2.
Proof.
  intros Hs. rewrite <-(drop_app_length l1 l2) at 1. apply str_at_drop; [done|]. rewrite length_app. lia.
Qed.
Lemma str_at_cons u a c l : str_at u a (c :: l) ->
  lb a u = Ok c u /\ Zb c = true /\ 0 < c < 256 /\ str_at u (a + 1) l.
Proof.
  intros Hs. destruct (str_at_lb u a _ 0 c Hs eq_refl) as [R Hz].
  destruct (str_at_char u a _ 0 c Hs eq_refl) as (_ & Hc & _). rewrite Z.add_0_r in R.
  split_and!; [done | done | lia | lia |]. apply (str_at_drop u a _ 1 Hs). cbn. lia.
Qed.
Lemma str_at_nil u a : str_at u a [] -> lb a u = Ok 0 u.
Proof. intros Hs. apply str_at_end in Hs. by rewrite Z.add_0_r in Hs. Qed.
Lemma str_at_hd u a l : str_at u a l -> lb a u = Ok (hd 0 l) u /\ Zb (hd 0 l) = bool_decide (l <> []).
Proof.
  intros Hs. destruct l as [|c l]; [by rewrite (str_at_nil u a Hs)|].
  destruct (str_at_cons u a c l Hs) as (-> & Hz & _). done.
Qed.
Lemma str_at_frame u u' a l :
  str_at u a l -> u_sz u <= u_sz u' ->
  (forall b, a <= b <= a + Z.of_nat (length l) -> ldb (u_mem u') b = ldb (u_mem u) b) -> str_at u' a l.
Proof.
  intros (Ha & Hsz & Hl & Hz & Hf) Hs Hm. split_and!; [done | lia | | by rewrite Hm by lia | done].
  rewrite <-Hl at 2. apply ldbs_ext. intros b Hb. apply Hm. lia.
Qed.

(** Storing a string: its bytes and the NUL. *)
Lemma str_at_stbs u a l :
  0 <= a -> a + Z.of_nat (length l) < u_sz u -> Forall (fun c => 0 < c < 256) l ->
  str_at (set_u_mem (stbs (u_mem u) a (l ++ [0])) u) a l.
Proof.
  intros Ha Hs Hf. split_and!; try done; cbn.
  - assert (Forall is_u8 (l ++ [0])) as Hb.
    { apply Forall_app. split; [|repeat constructor; unfold is_u8; lia].
      eapply list.Forall_impl; [apply Hf|]. unfold is_u8. intros x ?. lia. }
    pose proof (ldbs_stbs_same (u_mem u) a _ Hb) as E. apply (f_equal (take (length l))) in E.
    rewrite take_app_length in E. rewrite <-E at 3. rewrite length_app. cbn [length].
    apply list_eq. intros j. destruct (decide (j < length l)%nat).
    + rewrite lookup_take_lt, !ldbs_lookup by lia. done.
    + rewrite !lookup_ge_None_2; [done | rewrite length_take, ldbs_length; lia | rewrite ldbs_length; lia].
  - rewrite ldb_stbs, decide_True by (rewrite length_app; cbn; lia).
    rewrite app_nth2 by lia. by replace (Z.to_nat (a + Z.of_nat (length l) - a) - length l)%nat with 0%nat by lia.
Qed.
End process_facts.

(** ** A sample kernel

    Every descriptor reads one tape, at most [t_chunk] bytes at a time, and
    writes another; sbrk works while [t_room] bytes are left; other calls
    fail. *)
Record tape := mk_tape { t_in : list Z; t_out : list Z; t_chunk : Z; t_room : Z }.

#[export] Instance tape_kernel : Kernel tape := fun num args u =>
  let w := u_world u in
  match args with
  | [fd; a; n] =>
      if num =? SYS_read then
        let r := Z.min (Z.min n (t_chunk w)) (Z.of_nat (length (t_in w))) in
        Back r (set_u_world (mk_tape (drop (Z.to_nat r) (t_in w)) (t_out w) (t_chunk w) (t_room w))
                  (set_u_mem (stbs (u_mem u) a (take (Z.to_nat r) (t_in w))) u))
      else if num =? SYS_write then
        Back n (set_u_world (mk_tape (t_in w) (t_out w ++ ldbs (u_mem u) a (Z.to_nat n)) (t_chunk w) (t_room w)) u)
      else Back (-1) u
  | [n] =>
      if (num =? SYS_sbrk) && (n <=? t_room w) && (u_sz u + n <? 2 ^ 31) then
        Back (u_sz u) (set_u_world (mk_tape (t_in w) (t_out w) (t_chunk w) (t_room w - n))
                         (set_u_sz (u_sz u + n) u))
      else Back (-1) u
  | [] => if num =? SYS_exit then Gone u else Back (-1) u
  | _ => Back (-1) u
  end.

Definition tape_io (w : tape) (l o : list Z) : Prop := t_in w = l /\ t_out w = o /\ 0 < t_chunk w.

#[export] Instance tape_stdio fi fo : Stdio tape fi fo tape_io.
Proof.
  split.
  - intros u a n l o (<- & <- & Hc) Hn _. eexists _, _. split; [reflexivity|]. cbn.
    split_and!; try lia; [| done..]. intros Hr. destruct (t_in (u_world u)); [done|]. cbn in Hr. lia.
  - intros u a n l o (<- & <- & Hc) Hn _. eexists. split; [reflexivity|]. done.
  - intros u l o Hi. exists (u_world u). by destruct u.
Qed.

#[export] Instance tape_grows : Grows tape.
Proof.
  intros u n Hn. cbn. destruct (n <=? t_room (u_world u)) eqn:E1; cbn; [|left; exists (u_world u); by destruct u].
  destruct (Z.ltb_spec (u_sz u + n) (2 ^ 31)); cbn; [right | left; exists (u_world u); by destruct u].
  split; [done|]. by eexists.
Qed.
Definition tape_avail (m : Z) (u : U tape) : Prop := m <= t_room (u_world u) /\ u_sz u + m < 2 ^ 31.
#[export] Instance tape_supplies : Supplies tape tape_avail.
Proof.
  split; unfold tape_avail.
  - intros m n u Hn [Hm Hs]. cbn. rewrite (proj2 (Z.leb_le n _)) by lia. rewrite (proj2 (Z.ltb_lt (u_sz u + n) _)) by lia.
    cbn. eexists. split; [done|]. cbn. lia.
  - intros m u u' -> ->. done.
  - intros m n u Hn [Hm Hs]. lia.
Qed.
