(* ===== verification/Asm.v ===== *)
(** * Assembly: context switches and traps (swtch.S, vectors.S, trapasm.S, initcode.S)

    The 32-bit machine that the assembly files run on: registers, memory as
    bytes, and the instructions the files use, in AT&T operand order (source
    first).  Segments are flat, as bootasm.S and seginit make them, so a
    segment register is just its selector.  A routine is a list of
    instructions; [run] executes it up to a transfer of control, which leaves
    the new program counter in [x_eip].  Protection and page faults of the
    instructions themselves are not part of this machine. *)

From Stdlib Require Import ZArith Lia.
From stdpp Require Import base gmap list strings numbers.
From S2P Require Import Prelude Strings User State Spinlock Sched Kalloc Console Vm Disk Bio Log Fs Pipe File Proc Apic Input Syscall Exec Sysproc Sysfile Trap.

Import string_c.
Open Scope Z_scope.

(** ** The machine *)

Inductive reg := EAX | ECX | EDX | EBX | ESP | EBP | ESI | EDI.
Inductive sreg := CS | DS | ES | FS | GS | SS.
Inductive creg := CR0 | CR2 | CR3 | CR4.
#[export] Instance reg_eq_dec : EqDecision reg.
Proof. solve_decision. Defined.
#[export] Instance sreg_eq_dec : EqDecision sreg.
Proof. solve_decision. Defined.
#[export] Instance creg_eq_dec : EqDecision creg.
Proof. solve_decision. Defined.

(** Register banks. *)
Record regs := mk_regs { r_eax : Z; r_ecx : Z; r_edx : Z; r_ebx : Z; r_esp : Z; r_ebp : Z; r_esi : Z; r_edi : Z }.
Definition get_regs (b : regs) (r : reg) : Z :=
  match r with
  | EAX => r_eax b
  | ECX => r_ecx b
  | EDX => r_edx b
  | EBX => r_ebx b
  | ESP => r_esp b
  | EBP => r_ebp b
  | ESI => r_esi b
  | EDI => r_edi b
  end.
Definition put_regs (r : reg) (v : Z) (b : regs) : regs :=
  let '(mk_regs v0 v1 v2 v3 v4 v5 v6 v7) := b in
  match r with
  | EAX => mk_regs v v1 v2 v3 v4 v5 v6 v7
  | ECX => mk_regs v0 v v2 v3 v4 v5 v6 v7
  | EDX => mk_regs v0 v1 v v3 v4 v5 v6 v7
  | EBX => mk_regs v0 v1 v2 v v4 v5 v6 v7
  | ESP => mk_regs v0 v1 v2 v3 v v5 v6 v7
  | EBP => mk_regs v0 v1 v2 v3 v4 v v6 v7
  | ESI => mk_regs v0 v1 v2 v3 v4 v5 v v7
  | EDI => mk_regs v0 v1 v2 v3 v4 v5 v6 v
  end.
Record sregs := mk_sregs { r_cs : Z; r_ds : Z; r_es : Z; r_fs : Z; r_gs : Z; r_ss : Z }.
Definition get_sregs (b : sregs) (r : sreg) : Z :=
  match r with
  | CS => r_cs b
  | DS => r_ds b
  | ES => r_es b
  | FS => r_fs b
  | GS => r_gs b
  | SS => r_ss b
  end.
Definition put_sregs (r : sreg) (v : Z) (b : sregs) : sregs :=
  let '(mk_sregs v0 v1 v2 v3 v4 v5) := b in
  match r with
  | CS => mk_sregs v v1 v2 v3 v4 v5
  | DS => mk_sregs v0 v v2 v3 v4 v5
  | ES => mk_sregs v0 v1 v v3 v4 v5
  | FS => mk_sregs v0 v1 v2 v v4 v5
  | GS => mk_sregs v0 v1 v2 v3 v v5
  | SS => mk_sregs v0 v1 v2 v3 v4 v
  end.
Record cregs := mk_cregs { r_cr0 : Z; r_cr2 : Z; r_cr3 : Z; r_cr4 : Z }.
Definition get_cregs (b : cregs) (r : creg) : Z :=
  match r with
  | CR0 => r_cr0 b
  | CR2 => r_cr2 b
  | CR3 => r_cr3 b
  | CR4 => r_cr4 b
  end.
Definition put_cregs (r : creg) (v : Z) (b : cregs) : cregs :=
  let '(mk_cregs v0 v1 v2 v3) := b in
  match r with
  | CR0 => mk_cregs v v1 v2 v3
  | CR2 => mk_cregs v0 v v2 v3
  | CR3 => mk_cregs v0 v1 v v3
  | CR4 => mk_cregs v0 v1 v2 v
  end.

(** What the processor holds: the registers, the table registers (limit and
    base of the GDT, the gates of the IDT, the kernel stack of the TSS), the
    bytes that a read of a port will deliver, and the port writes so far,
    the latest first. *)
Record x86 := mk_x86 {
  x_regs : regs;
  x_sregs : sregs;
  x_cregs : cregs;
  x_eip : Z;
  x_eflags : Z;
  x_gdtr : Z * Z;
  x_idt : list gatedesc;
  x_tss : Z * Z;
  x_mem : mem;
  x_in : list Z;
  x_out : list (Z * Z) }.
Definition x_reg (s : x86) (r : reg) : Z := get_regs (x_regs s) r.
Definition x_sreg (s : x86) (r : sreg) : Z := get_sregs (x_sregs s) r.
Definition x_creg (s : x86) (r : creg) : Z := get_cregs (x_cregs s) r.

Definition set_reg (r : reg) (v : Z) (s : x86) : x86 :=
  mk_x86 (put_regs r v (x_regs s)) (x_sregs s) (x_cregs s) (x_eip s) (x_eflags s) (x_gdtr s) (x_idt s) (x_tss s) (x_mem s) (x_in s) (x_out s).
Definition set_sreg (r : sreg) (v : Z) (s : x86) : x86 :=
  mk_x86 (x_regs s) (put_sregs r v (x_sregs s)) (x_cregs s) (x_eip s) (x_eflags s) (x_gdtr s) (x_idt s) (x_tss s) (x_mem s) (x_in s) (x_out s).
Definition set_creg (r : creg) (v : Z) (s : x86) : x86 :=
  mk_x86 (x_regs s) (x_sregs s) (put_cregs r v (x_cregs s)) (x_eip s) (x_eflags s) (x_gdtr s) (x_idt s) (x_tss s) (x_mem s) (x_in s) (x_out s).
Definition set_eip (v : Z) (s : x86) : x86 :=
  mk_x86 (x_regs s) (x_sregs s) (x_cregs s) v (x_eflags s) (x_gdtr s) (x_idt s) (x_tss s) (x_mem s) (x_in s) (x_out s).
Definition set_eflags (v : Z) (s : x86) : x86 :=
  mk_x86 (x_regs s) (x_sregs s) (x_cregs s) (x_eip s) v (x_gdtr s) (x_idt s) (x_tss s) (x_mem s) (x_in s) (x_out s).
Definition set_gdtr (v : Z * Z) (s : x86) : x86 :=
  mk_x86 (x_regs s) (x_sregs s) (x_cregs s) (x_eip s) (x_eflags s) v (x_idt s) (x_tss s) (x_mem s) (x_in s) (x_out s).
Definition set_xmem (v : mem) (s : x86) : x86 :=
  mk_x86 (x_regs s) (x_sregs s) (x_cregs s) (x_eip s) (x_eflags s) (x_gdtr s) (x_idt s) (x_tss s) v (x_in s) (x_out s).
Definition set_in (v : list Z) (s : x86) : x86 :=
  mk_x86 (x_regs s) (x_sregs s) (x_cregs s) (x_eip s) (x_eflags s) (x_gdtr s) (x_idt s) (x_tss s) (x_mem s) v (x_out s).
Definition set_out (v : list (Z * Z)) (s : x86) : x86 :=
  mk_x86 (x_regs s) (x_sregs s) (x_cregs s) (x_eip s) (x_eflags s) (x_gdtr s) (x_idt s) (x_tss s) (x_mem s) (x_in s) v.

Definition XM (A : Type) : Type := M x86 A.

(** ** Instructions *)

Inductive operand :=
| Imm (v : Z)                  (* $v *)
| Reg (r : reg)                (* %r *)
| Mem (disp : Z) (base : reg)  (* disp(%base) *)
| Abs (a : Z)                  (* (a) *)
| Seg (s : sreg)
| Ctl (c : creg).

Inductive instr :=
| movl (src dst : operand) | movw (src dst : operand) | movb (src dst : operand)
| orl (src dst : operand) | addl (src dst : operand) | xorw (src dst : operand)
| pushl (src : operand) | popl (dst : operand) | pushal | popal
| cli_ | lgdt (a : Z) | inb_al (port : Z) | outb_al (port : Z) | outw_ax_dx
| jmp (dst : operand) | ljmp (sel a : Z)
| call (dst : operand) (next : Z) | ret_ | iret | int_ (n next : Z).

(** Operands.  A selector is 16 bits wide; a 16-bit or 8-bit write to a
    general register keeps the rest of it. *)
Definition rd (o : operand) : XM Z :=
  match o with
  | Imm v => ret (u32 v)
  | Reg r => reads (fun s => x_reg s r)
  | Mem d b => reads (fun s => ldw (x_mem s) (u32 (x_reg s b + d)))
  | Abs a => reads (fun s => ldw (x_mem s) (u32 a))
  | Seg r => reads (fun s => x_sreg s r)
  | Ctl c => reads (fun s => x_creg s c)
  end.
Definition wr (o : operand) (v : Z) : XM unit :=
  match o with
  | Imm _ => undefined "operand"
  | Reg r => modify (set_reg r v)
  | Mem d b => modify (fun s => set_xmem (stw (x_mem s) (u32 (x_reg s b + d)) v) s)
  | Abs a => modify (fun s => set_xmem (stw (x_mem s) (u32 a) v) s)
  | Seg r => modify (set_sreg r (u16 v))
  | Ctl c => modify (set_creg c v)
  end.
Definition low_bits (w old v : Z) : Z := old - old mod 2 ^ w + v mod 2 ^ w.
Definition wr_low (w : Z) (o : operand) (v : Z) : XM unit :=
  match o with
  | Reg r => modify (fun s => set_reg r (low_bits w (x_reg s r) v) s)
  | Seg r => modify (set_sreg r (u16 v))
  | _ => undefined "operand"
  end.

(** The stack grows down, a word at a time. *)
Definition push (v : Z) : XM unit :=
  modify (fun s =>
    let sp := u32 (x_reg s ESP - 4) in
    set_xmem (stw (x_mem s) sp v) (set_reg ESP sp s)).
Definition pop : XM Z := fun s =>
  Ok (ldw (x_mem s) (x_reg s ESP)) (set_reg ESP (u32 (x_reg s ESP + 4)) s).
Definition pop_to (o : operand) : XM unit := let* v := pop in wr o v.

(** Delivery of interrupt or exception [n], with the error code that the
    processor adds to some exceptions, interrupting before [next].  Coming
    from an outer privilege level it starts on the stack of the TSS; an
    interrupt gate also disables interrupts. *)
Definition cpl (s : x86) : Z := Z.land (x_sreg s CS) 3.
Definition gate_off (g : gatedesc) : Z := off_15_0 g + 2 ^ 16 * off_31_16 g.
Definition FL_TRACE : Z := 213248. (* TF, NT, RF and VM *)
Definition gate_flags (g : gatedesc) (f : Z) : Z :=
  Z.ldiff (if gd_type g =? STS_IG32 then Z.ldiff f FL_IF else f) FL_TRACE.
Definition deliver (n next : Z) (err : option Z) : XM unit :=
  let* s := reads id in
  match x_idt s !! Z.to_nat n with
  | None => undefined "no gate"
  | Some g =>
      (when Z.land (gd_cs g) 3 <? cpl s do
         (modify (fun s' => set_sreg SS (u16 (snd (x_tss s))) (set_reg ESP (fst (x_tss s)) s')) ;;;
          push (x_sreg s SS) ;;;
          push (x_reg s ESP))) ;;;
      push (x_eflags s) ;;;
      push (x_sreg s CS) ;;;
      push next ;;;
      match err with Some e => push e | None => ret tt end ;;;
      modify (fun s' => set_eip (gate_off g) (set_sreg CS (u16 (gd_cs g)) (set_eflags (gate_flags g (x_eflags s)) s')))
  end.

(** A software interrupt through a gate that the current privilege level may
    not use is a general protection fault at the instruction (two bytes). *)
Definition soft_int (n next : Z) : XM unit :=
  let* s := reads id in
  match x_idt s !! Z.to_nat n with
  | None => undefined "no gate"
  | Some g => if gd_dpl g <? cpl s then deliver 13 (u32 (next - 2)) (Some (8 * n + 2)) else deliver n next None
  end.

Definition do_iret : XM unit :=
  let* s := reads id in
  let* eip := pop in
  let* cs := pop in
  let* fl := pop in
  modify (fun s' => set_eip eip (set_sreg CS (u16 cs) (set_eflags fl s'))) ;;;
  when cpl s <? Z.land (u16 cs) 3 do
    (let* sp := pop in
     let* ss := pop in
     modify (fun s' => set_sreg SS (u16 ss) (set_reg ESP sp s'))).

Definition do_pushal : XM unit :=
  let* sp := reads (fun s => x_reg s ESP) in
  let all := [EAX; ECX; EDX; EBX] in
  for_each all (fun r => let* v := rd (Reg r) in push v) ;;;
  push sp ;;;
  for_each [EBP; ESI; EDI] (fun r => let* v := rd (Reg r) in push v).
Definition do_popal : XM unit :=
  for_each [EDI; ESI; EBP] (fun r => pop_to (Reg r)) ;;;
  let* _ := pop in
  for_each [EBX; EDX; ECX; EAX] (fun r => pop_to (Reg r)).

(** One instruction; the answer is whether it transfers control. *)
Definition goes (m : XM unit) : XM bool := m ;;; ret true.
Definition next (m : XM unit) : XM bool := m ;;; ret false.
Definition exec_instr (i : instr) : XM bool :=
  match i with
  | movl a b => next (let* v := rd a in wr b v)
  | movw a b => next (let* v := rd a in wr_low 16 b v)
  | movb a b => next (let* v := rd a in wr_low 8 b v)
  | orl a b => next (let* v := rd a in let* w := rd b in wr b (Z.lor w v))
  | addl a b => next (let* v := rd a in let* w := rd b in wr b (u32 (w + v)))
  | xorw a b => next (let* v := rd a in let* w := rd b in wr_low 16 b (Z.lxor w v))
  | pushl a => next (let* v := rd a in push v)
  | popl b => next (pop_to b)
  | pushal => next do_pushal
  | popal => next do_popal
  | cli_ => next (modify (fun s => set_eflags (Z.ldiff (x_eflags s) FL_IF) s))
  | lgdt a => next (modify (fun s => set_gdtr (of_le (ldbs (x_mem s) a 2), ldw (x_mem s) (a + 2)) s))
  | inb_al _ => next (fun s =>
      match x_in s with
      | [] => Stuck s
      | v :: l => Ok tt (set_reg EAX (low_bits 8 (x_reg s EAX) v) (set_in l s))
      end)
  | outb_al p => next (modify (fun s => set_out ((p, u8 (x_reg s EAX)) :: x_out s) s))
  | outw_ax_dx => next (modify (fun s => set_out ((u16 (x_reg s EDX), u16 (x_reg s EAX)) :: x_out s) s))
  | jmp a => goes (let* v := rd a in modify (set_eip v))
  | ljmp sel a => goes (modify (fun s => set_eip (u32 a) (set_sreg CS (u16 sel) s)))
  | call a r => goes (let* v := rd a in push (u32 r) ;;; modify (set_eip v))
  | ret_ => goes (let* v := pop in modify (set_eip v))
  | iret => goes do_iret
  | int_ n r => goes (soft_int n (u32 r))
  end.

(** A piece of code, up to the first transfer of control; [false] when it
    falls through its end. *)
Fixpoint run (code : list instr) : XM bool :=
  match code with
  | [] => ret false
  | i :: code => let* j := exec_instr i in if j then ret true else run code
  end.

(** ** The routines *)

(** swtch(old, new). *)
Definition swtch : list instr :=
  [movl (Mem 4 ESP) (Reg EAX);
   movl (Mem 8 ESP) (Reg EDX);
   pushl (Reg EBP);
   pushl (Reg EBX);
   pushl (Reg ESI);
   pushl (Reg EDI);
   movl (Reg ESP) (Mem 0 EAX);
   movl (Reg EDX) (Reg ESP);
   popl (Reg EDI);
   popl (Reg ESI);
   popl (Reg EBX);
   popl (Reg EBP);
   ret_].

(** The entry point of vector [n] that vectors.pl prints: the exceptions for
    which the processor pushes an error code do without the dummy one. *)
Definition has_error (n : Z) : bool := (n =? 8) || ((10 <=? n) && (n <=? 14)) || (n =? 17).
Definition vector (a_alltraps n : Z) : list instr :=
  (if has_error n then [] else [pushl (Imm 0)]) ++
  [pushl (Imm n);
   jmp (Imm a_alltraps)].

(** alltraps up to the call of trap at [a_trap], which returns to [next]. *)
Definition alltraps (a_trap next : Z) : list instr :=
  [pushl (Seg DS);
   pushl (Seg ES);
   pushl (Seg FS);
   pushl (Seg GS);
   pushal;
   movw (Imm (Z.shiftl SEG_KDATA 3)) (Reg EAX);
   movw (Reg EAX) (Seg DS);
   movw (Reg EAX) (Seg ES);
   pushl (Reg ESP);
   call (Imm a_trap) next].
Definition trapret : list instr :=
  [popal;
   popl (Seg GS);
   popl (Seg FS);
   popl (Seg ES);
   popl (Seg DS);
   addl (Imm 8) (Reg ESP);
   iret].
Definition alltraps_rest : list instr := addl (Imm 4) (Reg ESP) :: trapret.

(** The first user code, up to its first and its second system call; [init],
    [argv] and [exit_] are the addresses of the labels. *)
Definition initcode_start (init argv exit_ : Z) : list instr :=
  [pushl (Imm argv);
   pushl (Imm init);
   pushl (Imm 0);
   movl (Imm SYS_exec) (Reg EAX);
   int_ T_SYSCALL exit_].
Definition initcode_exit (jump : Z) : list instr :=
  [movl (Imm SYS_exit) (Reg EAX);
   int_ T_SYSCALL jump].

(** A trap as the processor and the assembly handle it, up to the entry of
    the C function trap. *)
Definition trap_path (a_alltraps a_trap after n ip : Z) (err : option Z) : XM bool :=
  deliver n ip err ;;;
  (let* _ := run (vector a_alltraps n) in
   run (alltraps a_trap after)).

(** ** Well-formed machine states

    Registers, selectors and bytes have their width. *)

Record gate_ok (g : gatedesc) : Prop := {
  gate_lo : is_u16 (off_15_0 g);
  gate_hi : is_u16 (off_31_16 g) }.
Record x86_ok (s : x86) : Prop := {
  ok_reg : forall r, is_u32 (x_reg s r);
  ok_sreg : forall r, is_u16 (x_sreg s r);
  ok_creg : forall r, is_u32 (x_creg s r);
  ok_eip : is_u32 (x_eip s);
  ok_eflags : is_u32 (x_eflags s);
  ok_gates : length (x_idt s) = 256%nat;
  ok_idt : Forall gate_ok (x_idt s);
  ok_tss : is_u32 (fst (x_tss s));
  ok_mem : mem_ok (x_mem s) }.

Lemma u16_bound z : is_u16 (u16 z).
Proof. unfold u16, is_u16. apply Z.mod_pos_bound. lia. Qed.
Lemma u16_u32 z : is_u16 z -> is_u32 z.
Proof. unfold is_u16, is_u32. lia. Qed.
Create HintDb x86.
#[export] Hint Resolve u16_bound u16_u32 u32_bound ldw_bound stw_ok : x86.

Lemma is_u32_log2 a : is_u32 a <-> 0 <= a /\ forall i, 32 <= i -> Z.testbit a i = false.
Proof.
  unfold is_u32. split.
  - intros H. split; [lia|]. intros i Hi. destruct (decide (a = 0)) as [->|]; [apply Z.testbit_0_l|].
    apply Z.bits_above_log2; [lia|]. apply Z.log2_lt_pow2; [lia|].
    apply (Z.lt_le_trans _ (2 ^ 32)); [lia|]. by apply Z.pow_le_mono_r.
  - intros [H0 Hb]. assert (a mod 2 ^ 32 = a) as <-; [|apply Z.mod_pos_bound; lia].
    apply Z.bits_inj'. intros i Hi. rewrite Z.testbit_mod_pow2 by lia.
    destruct (Z.ltb_spec i 32); [done|]. cbn. symmetry. by apply Hb.
Qed.
Lemma u32_lor a b : is_u32 a -> is_u32 b -> is_u32 (Z.lor a b).
Proof.
  rewrite !is_u32_log2. intros [Ha Ia] [Hb Ib]. split; [by apply Z.lor_nonneg|].
  intros i Hi. by rewrite Z.lor_spec, Ia, Ib.
Qed.
Lemma u32_ldiff a b : is_u32 a -> 0 <= b -> is_u32 (Z.ldiff a b).
Proof.
  rewrite !is_u32_log2. intros [Ha Ia] Hb. split; [apply Z.ldiff_nonneg; by left|].
  intros i Hi. by rewrite Z.ldiff_spec, Ia.
Qed.
Lemma u32_low w old v : 0 <= w <= 32 -> is_u32 old -> is_u32 (low_bits w old v).
Proof.
  intros Hw Ho. unfold low_bits, is_u32 in *.
  pose proof (Z.mod_pos_bound v (2 ^ w) ltac:(lia)).
  replace (2 ^ 32) with (2 ^ w * 2 ^ (32 - w)) in * by (rewrite <-Z.pow_add_r; [f_equal; lia | lia | lia]).
  pose proof (Z.div_mod old (2 ^ w) ltac:(lia)).
  assert (old / 2 ^ w < 2 ^ (32 - w)) by (apply Z.div_lt_upper_bound; lia).
  assert (0 <= old / 2 ^ w) by (apply Z.div_pos; lia).
  nia.
Qed.
Lemma u32_gate g : gate_ok g -> is_u32 (gate_off g).
Proof. intros [? ?]. unfold gate_off, is_u16, is_u32 in *. lia. Qed.
#[export] Hint Resolve u32_lor u32_ldiff u32_low u32_gate : x86.

(** [safe m P]: from a well-formed state [m] returns in one, with an answer
    that satisfies [P]. *)
Definition safe {A} (m : XM A) (P : A -> Prop) : Prop :=
  forall s, x86_ok s -> exists a s', m s = Ok a s' /\ x86_ok s' /\ P a.

Lemma safe_bind {A B} (m : XM A) (f : A -> XM B) P Q :
  safe m P -> (forall a, P a -> safe (f a) Q) -> safe (bind m f) Q.
Proof.
  intros Hm Hf s Hs. destruct (Hm s Hs) as (a & s1 & E & H1 & Ha).
  destruct (Hf a Ha s1 H1) as (b & s2 & E2 & ?). exists b, s2. by rewrite (bind_ok _ _ _ _ _ E).
Qed.
Lemma safe_ret {A} (a : A) (P : A -> Prop) : P a -> safe (ret a) P.
Proof. intros Ha s Hs. by exists a, s. Qed.
Lemma safe_reads {A} (f : x86 -> A) (P : A -> Prop) : (forall s, x86_ok s -> P (f s)) -> safe (reads f) P.
Proof. intros Hf s Hs. exists (f s), s. auto. Qed.
Lemma safe_modify f : (forall s, x86_ok s -> x86_ok (f s)) -> safe (modify f) (fun _ => True).
Proof. intros Hf s Hs. exists tt, (f s). auto. Qed.

(** The updates keep a state well-formed. *)
Lemma reg_ok r v s : is_u32 v -> x86_ok s -> x86_ok (set_reg r v s).
Proof.
  intros Hv []. split; try done. intros r'. pose proof (ok_reg0 r').
  destruct s as [b0 b1 b2]; cbn in *. destruct b0, r, r'; cbn in *; done.
Qed.
Lemma sreg_ok r v s : is_u16 v -> x86_ok s -> x86_ok (set_sreg r v s).
Proof.
  intros Hv []. split; try done. intros r'. pose proof (ok_sreg0 r').
  destruct s as [b0 b1 b2]; cbn in *. destruct b1, r, r'; cbn in *; done.
Qed.
Lemma creg_ok r v s : is_u32 v -> x86_ok s -> x86_ok (set_creg r v s).
Proof.
  intros Hv []. split; try done. intros r'. pose proof (ok_creg0 r').
  destruct s as [b0 b1 b2]; cbn in *. destruct b2, r, r'; cbn in *; done.
Qed.
Lemma eip_ok v s : is_u32 v -> x86_ok s -> x86_ok (set_eip v s).
Proof. by intros Hv []. Qed.
Lemma eflags_ok v s : is_u32 v -> x86_ok s -> x86_ok (set_eflags v s).
Proof. by intros Hv []. Qed.
Lemma gdtr_ok v s : x86_ok s -> x86_ok (set_gdtr v s).
Proof. by intros []. Qed.
Lemma xmem_ok m s : mem_ok m -> x86_ok s -> x86_ok (set_xmem m s).
Proof. by intros ? []. Qed.
Lemma out_ok l s : x86_ok s -> x86_ok (set_out l s).
Proof. by intros []. Qed.
#[export] Hint Resolve reg_ok sreg_ok creg_ok eip_ok eflags_ok gdtr_ok xmem_ok out_ok : x86.
#[export] Hint Resolve ok_reg ok_sreg ok_creg ok_eip ok_eflags ok_tss ok_mem : x86.

Lemma safe_push v : safe (push v) (fun _ => True).
Proof. apply safe_modify. intros s Hs. cbn zeta. auto 6 with x86. Qed.
Lemma safe_pop : safe pop is_u32.
Proof. intros s Hs. do 2 eexists. split; [reflexivity|]. auto 6 with x86. Qed.

(** Instructions whose operands make sense. *)
Definition dst_ok (o : operand) : bool := match o with Imm _ => false | _ => true end.
Definition low_ok (o : operand) : bool := match o with Reg _ | Seg _ => true | _ => false end.
Definition instr_ok (i : instr) : bool :=
  match i with
  | movl _ b | orl _ b | addl _ b | popl b => dst_ok b
  | movw _ b | movb _ b | xorw _ b => low_ok b
  | inb_al _ => false
  | int_ n _ => (0 <=? n) && (n <? 256)
  | _ => true
  end.

Lemma safe_rd o : safe (rd o) is_u32.
Proof. destruct o; cbn; (apply safe_ret || apply safe_reads); auto with x86. Qed.
Lemma safe_wr o v : dst_ok o = true -> is_u32 v -> safe (wr o v) (fun _ => True).
Proof. destruct o; cbn; intros; try done; apply safe_modify; auto with x86. Qed.
Lemma safe_wr_low w o v : low_ok o = true -> 0 <= w <= 32 -> safe (wr_low w o v) (fun _ => True).
Proof. destruct o; cbn; intros; try done; apply safe_modify; auto with x86. Qed.
#[export] Hint Resolve safe_push safe_pop safe_rd safe_wr safe_wr_low : x86.

Lemma safe_for_each {A} (l : list A) (body : A -> XM unit) :
  (forall x, safe (body x) (fun _ => True)) -> safe (for_each l body) (fun _ => True).
Proof. intros Hb. induction l; cbn; [by apply safe_ret|]. eapply safe_bind; eauto. Qed.

Ltac safe_step :=
  lazymatch goal with
  | |- safe (@bind _ unit _ _ _) _ => eapply (safe_bind _ _ (fun _ => True)); [|intros ??]
  | |- safe (@bind _ Z _ _ _) _ => eapply (safe_bind _ _ is_u32); [|intros ??]
  | |- safe (ret _) _ => apply safe_ret
  | |- safe (reads _) _ => apply safe_reads
  | |- safe (modify _) _ => apply safe_modify; intros
  | |- safe (if ?b then _ else _) _ => destruct b
  | |- safe (for_each _ _) _ => apply safe_for_each; intros
  | |- safe (let _ := _ in _) _ => cbv zeta
  | |- safe (pop_to _) _ => unfold pop_to
  end.
Ltac safe_tac := repeat first [safe_step | solve [auto 8 with x86]].


Lemma gate_exists s n : x86_ok s -> 0 <= n < 256 -> exists g, x_idt s !! Z.to_nat n = Some g /\ gate_ok g.
Proof.
  intros Hs Hn. destruct (lookup_lt_is_Some_2 (x_idt s) (Z.to_nat n)) as [g Hg].
  { rewrite (ok_gates s Hs). lia. }
  exists g. split; [done|]. eapply Forall_lookup_1; [apply (ok_idt s Hs) | done].
Qed.
Lemma gate_flags_ok g f : is_u32 f -> is_u32 (gate_flags g f).
Proof. intros. unfold gate_flags. apply u32_ldiff; [case_match|done]; auto with x86. by apply u32_ldiff. Qed.
#[export] Hint Resolve gate_flags_ok : x86.

Lemma safe_deliver n ip err : 0 <= n < 256 -> safe (deliver n ip err) (fun _ => True).
Proof.
  intros Hn. unfold deliver. eapply (safe_bind _ _ x86_ok); [by apply safe_reads|]. intros s0 H0.
  destruct (gate_exists s0 n H0 Hn) as (g & -> & Hg).
  destruct err; safe_tac; auto 10 with x86.
Qed.
Lemma safe_soft_int n ip : 0 <= n < 256 -> safe (soft_int n ip) (fun _ => True).
Proof.
  intros Hn. unfold soft_int. eapply (safe_bind _ _ x86_ok); [by apply safe_reads|]. intros s0 H0.
  destruct (gate_exists s0 n H0 Hn) as (g & -> & Hg). case_match; apply safe_deliver; lia.
Qed.
Lemma safe_iret : safe do_iret (fun _ => True).
Proof.
  unfold do_iret. eapply (safe_bind _ _ x86_ok); [by apply safe_reads|]. intros s0 H0.
  safe_tac; auto 10 with x86.
Qed.
Lemma safe_pushal : safe do_pushal (fun _ => True).
Proof. unfold do_pushal. safe_tac. Qed.
Lemma safe_popal : safe do_popal (fun _ => True).
Proof. unfold do_popal. safe_tac. Qed.
#[export] Hint Resolve safe_deliver safe_soft_int safe_iret safe_pushal safe_popal : x86.

Lemma safe_instr i : instr_ok i = true -> safe (exec_instr i) (fun _ => True).
Proof.
  destruct i; cbn; intros Hi; unfold next, goes; try done; safe_tac.
  all: try (apply safe_wr_low; [done | lia]).
  - apply eflags_ok; [apply u32_ldiff; [by apply ok_eflags | done] | done].
  - apply safe_soft_int. lia.
Qed.
Lemma safe_run code : forallb instr_ok code = true -> safe (run code) (fun _ => True).
Proof.
  induction code as [|i code IH]; cbn; intros Hc; [by apply safe_ret|].
  apply andb_prop in Hc as [Hi Hc]. eapply safe_bind; [by apply safe_instr|]. intros []; eauto.
  intros _. by apply safe_ret.
Qed.

(** Code that ends in a transfer of control, and nowhere before. *)
Definition goes_b (i : instr) : bool :=
  match i with jmp _ | ljmp _ _ | call _ _ | ret_ | iret | int_ _ _ => true | _ => false end.
Fixpoint ends (code : list instr) : Prop :=
  match code with
  | [] => False
  | [i] => goes_b i = true
  | i :: code => goes_b i = false /\ ends code
  end.
Lemma instr_goes i s b s' : exec_instr i s = Ok b s' -> b = goes_b i.
Proof.
  destruct i; cbn [exec_instr goes_b]; unfold goes, next, bind at 1; case_match; by intros [= <- _].
Qed.
Lemma ends_run code s b s' : ends code -> run code s = Ok b s' -> b = true.
Proof.
  revert s. induction code as [|i code IH]; intros s He; [done|]. cbn [run]. unfold bind.
  destruct (exec_instr i s) as [j s1| | |] eqn:E; try done. apply instr_goes in E as ->.
  destruct code as [|i' code].
  - cbn in He. rewrite He. by intros [= <- _].
  - destruct He as [-> He]. by apply IH.
Qed.

(** ** Symbolic execution

    Addresses near the stack pointer do not wrap, so [u32] disappears from
    them, and a load sees the last store to its word. *)

Ltac u32s :=
  repeat match goal with
  | |- context [u32 ?e] =>
      lazymatch e with context [u32 _] => fail | _ => rewrite (u32_small e) by (unfold is_u32; lia) end
  end.
Ltac u32s_in H :=
  repeat match type of H with
  | context [u32 ?e] =>
      lazymatch e with context [u32 _] => fail | _ => rewrite (u32_small e) in H by (unfold is_u32; lia) end
  end.
Lemma ldw_stw m a b v : a = b -> is_u32 v -> ldw (stw m a v) b = v.
Proof. intros ->. apply ldw_stw_same. Qed.
Lemma u16_ldw m a : mem_ok m -> u16 (ldw m a) = ldh m a.
Proof.
  intros Hm. unfold ldw, ldh. cbn [ldbs of_le]. unfold u16.
  pose proof (ldb_ok m a Hm). pose proof (ldb_ok m (a + 1) Hm). unfold is_u8 in *.
  replace (a + 1 + 1) with (a + 2) by lia.
  generalize (ldb m (a + 2)) (ldb m (a + 2 + 1)). intros x y.
  replace (ldb m a + 2 ^ 8 * (ldb m (a + 1) + 2 ^ 8 * (x + 2 ^ 8 * (y + 2 ^ 8 * 0))))
    with (ldb m a + 2 ^ 8 * (ldb m (a + 1) + 2 ^ 8 * 0) + (x + 2 ^ 8 * y) * 2 ^ 16) by lia.
  rewrite Z_mod_plus_full. apply Z.mod_small. lia.
Qed.
Lemma ldh_stw m a b v : a = b -> is_u16 v -> ldh (stw m a v) b = v.
Proof.
  intros -> Hv. unfold ldh, stw. cbn [stbs le32 ldbs].
  rewrite !ldb_stb. repeat case_decide; try lia. cbn [of_le].
  unfold u8, is_u16 in *. rewrite !Z.mod_mod by lia.
  rewrite (Z.mod_small (v / 2 ^ 8)) by (split; [apply Z.div_pos | apply Z.div_lt_upper_bound]; lia).
  pose proof (Z.div_mod v (2 ^ 8) ltac:(lia)). lia.
Qed.
Lemma ldh_stw_ne m a b v : b + 2 <= a \/ a + 4 <= b -> ldh (stw m a v) b = ldh m b.
Proof.
  intros H. unfold ldh. f_equal. apply ldbs_ext. intros c Hc. apply ldb_stw_ne. lia.
Qed.
Ltac ldws :=
  repeat first
  [ rewrite ldw_stw by first [lia | assumption | unfold is_u32; lia]
  | rewrite ldw_stw_ne by lia
  | rewrite ldh_stw by first [lia | assumption | unfold is_u16; lia]
  | rewrite ldh_stw_ne by lia ].

(** Runs code on a state whose registers are known. *)
Ltac xrun_in E m :=
  let r := eval lazy -[u32 u16 ldw ldh stw Z.add Z.sub Z.land Z.ltb Z.lor low_bits] in m in
  change m with r in E.
Ltac xrun E := lazymatch type of E with ?m = _ => xrun_in E m end.

(** ** swtch

    What a context switch saves: the callee-saved registers and the program
    counter. *)

Definition context_at (m : mem) (a : Z) : context :=
  mk_context (ldw m a) (ldw m (a + 4)) (ldw m (a + 8)) (ldw m (a + 12)) (ldw m (a + 16)).
Definition running (s : x86) : context :=
  mk_context (x_reg s EDI) (x_reg s ESI) (x_reg s EBX) (x_reg s EBP) (x_eip s).
Definition apart (a n b k : Z) : Prop := a + n <= b \/ b + k <= a.

(** A call swtch(old, new) about to execute its first instruction: the
    return address and the arguments are on the stack, and the three blocks
    that swtch uses do not overlap. *)
Record calls_swtch (s : x86) (sp old new : Z) : Prop := {
  cs_ok : x86_ok s;
  cs_sp : x_reg s ESP = sp;
  cs_room : 16 <= sp /\ sp + 12 <= 2 ^ 32;
  cs_old : ldw (x_mem s) (sp + 4) = old;
  cs_new : ldw (x_mem s) (sp + 8) = new;
  cs_top : new + 20 < 2 ^ 32;
  cs_apart1 : apart old 4 (sp - 16) 20;
  cs_apart2 : apart old 4 new 20;
  cs_apart3 : apart new 20 (sp - 16) 16 }.

Lemma swtch_run s sp old new : calls_swtch s sp old new -> exists s',
  run swtch s = Ok true s' /\ x86_ok s' /\
  running s' = context_at (x_mem s) new /\ x_reg s' ESP = new + 20 /\
  ldw (x_mem s') old = sp - 16 /\
  context_at (x_mem s') (sp - 16) = set_cx_eip (ldw (x_mem s) sp) (running s) /\
  (forall b, ~ (sp - 16 <= b < sp) -> ~ (old <= b < old + 4) -> ldb (x_mem s') b = ldb (x_mem s) b).
Proof.
  intros [OK Hsp ? Ho Hn ???]. destruct (safe_run swtch eq_refl s OK) as (b & s' & E & OK' & _).
  destruct s as [[ax cx dx bx p bp si di] sr cr ip fl gd it ts m li lo].
  pose proof (ok_mem _ OK) as Hm. pose proof (ok_reg _ OK EBP) as R1. pose proof (ok_reg _ OK EBX) as R2.
  pose proof (ok_reg _ OK ESI) as R3. pose proof (ok_reg _ OK EDI) as R4.
  cbn in Hsp, Ho, Hn, Hm, R1, R2, R3, R4. subst p.
  pose proof (ldw_bound m (sp + 4) Hm) as Bo. pose proof (ldw_bound m (sp + 8) Hm) as Bn.
  rewrite Ho in Bo. rewrite Hn in Bn. unfold is_u32 in Bo, Bn.
  exists s'. pose proof E as R. xrun E. unfold apart in *.
  rewrite (u32_small (sp + 4)), (u32_small (sp + 8)), Ho, Hn in E by (unfold is_u32; lia).
  u32s_in E. injection E as <- <-. split; [exact R|]. clear R. split; [done|].
  unfold running, context_at, x_reg. cbn [x_mem x_regs x_eip get_regs r_edi r_esi r_ebx r_ebp r_esp].
  split_and!.
  - f_equal; ldws; f_equal; lia.
  - lia.
  - ldws. lia.
  - unfold set_cx_eip. cbn. f_equal; ldws; done || (f_equal; lia).
  - intros c Hc Hc'. rewrite !ldb_stw_ne by lia. done.
Qed.

(** ** Traps

    A trap from user mode: what the processor and the assembly find. *)

Definition frame_of (s : x86) (top n ip : Z) (err : option Z) : trapframe :=
  mk_trapframe (x_reg s EDI) (x_reg s ESI) (x_reg s EBP) (top - 44) (x_reg s EBX) (x_reg s EDX)
    (x_reg s ECX) (x_reg s EAX) (x_sreg s GS) (x_sreg s FS) (x_sreg s ES) (x_sreg s DS) n
    (default 0 err) ip (x_sreg s CS) (x_eflags s) (x_reg s ESP) (x_sreg s SS).

Record user_trap (s : x86) (top n ip : Z) (err : option Z) (g : gatedesc) : Prop := {
  ut_ok : x86_ok s;
  ut_user : cpl s = 3;
  ut_gate : x_idt s !! Z.to_nat n = Some g;
  ut_code : gd_cs g = 8;
  ut_tss : x_tss s = (top, 16);
  ut_top : 84 <= top < 2 ^ 32;
  ut_num : 0 <= n < 256;
  ut_ip : is_u32 ip;
  ut_err : if has_error n then exists e, err = Some e /\ is_u32 e else err = None }.

(** With the gate and the change of stack resolved, the delivery is
    straight-line code. *)
Definition deliver_up (g : gatedesc) (ip top : Z) (err : option Z) : XM unit :=
  let* s := reads id in
  modify (fun s' => set_sreg SS (u16 16) (set_reg ESP top s')) ;;;
  push (x_sreg s SS) ;;;
  push (x_reg s ESP) ;;;
  push (x_eflags s) ;;;
  push (x_sreg s CS) ;;;
  push ip ;;;
  match err with Some e => push e | None => ret tt end ;;;
  modify (fun s' => set_eip (gate_off g) (set_sreg CS (u16 8) (set_eflags (gate_flags g (x_eflags s)) s'))).
Lemma deliver_user s top n ip err g :
  user_trap s top n ip err g -> deliver n ip err s = deliver_up g ip top err s.
Proof.
  intros [OK Hu Hg Hc Ht Htop Hn Hip He]. unfold deliver, deliver_up, bind, reads, id.
  rewrite Hg, Hc, Hu, Ht. done.
Qed.

Lemma u16_low a v : u16 (low_bits 16 a v) = u16 v.
Proof.
  unfold u16, low_bits. pose proof (Z.div_mod a (2 ^ 16) ltac:(lia)).
  replace (a - a mod 2 ^ 16) with (a / 2 ^ 16 * 2 ^ 16) by lia.
  by rewrite Z.add_comm, Z_mod_plus_full, Z.mod_mod by lia.
Qed.

(** The state [s] with memory [m] and the stack pointer at [a]: the form in
    which pushes and pops keep a state. *)
Definition stk (s : x86) (m : mem) (a : Z) : x86 := set_xmem m (set_reg ESP a s).

Lemma run_next i code s s1 : exec_instr i s = Ok false s1 -> run (i :: code) s = run code s1.
Proof. intros E. cbn [run]. by rewrite (bind_ok _ _ _ _ _ E). Qed.
Lemma run_goes i code s s1 : exec_instr i s = Ok true s1 -> run (i :: code) s = Ok true s1.
Proof. intros E. cbn [run]. by rewrite (bind_ok _ _ _ _ _ E). Qed.
Lemma run_app_next c1 c2 s s1 : run c1 s = Ok false s1 -> run (c1 ++ c2) s = run c2 s1.
Proof.
  revert s. induction c1 as [|i c1 IH]; cbn [run app]; intros s; [by intros [= ->]|].
  unfold bind. destruct (exec_instr i s) as [[] | | |]; try done. apply IH.
Qed.

Lemma stk_esp s m a : x_reg (stk s m a) ESP = a.
Proof. unfold stk, x_reg. cbn. by destruct (x_regs s). Qed.
Lemma stk_reg s m a r : r <> ESP -> x_reg (stk s m a) r = x_reg s r.
Proof. unfold stk, x_reg. cbn. destruct (x_regs s), r; done. Qed.
Lemma stk_again s m a m' a' : set_xmem m' (set_reg ESP a' (stk s m a)) = stk s m' a'.
Proof. unfold stk, set_xmem, set_reg. cbn. by destruct (x_regs s). Qed.
Lemma stk_self s : stk s (x_mem s) (x_reg s ESP) = s.
Proof. destruct s as [[]]. done. Qed.
Lemma stk_set_reg s m a r v : r <> ESP -> set_reg r v (stk s m a) = stk (set_reg r v s) m a.
Proof. unfold stk, set_reg, set_xmem. cbn. destruct (x_regs s), r; done. Qed.
Lemma reg_same s r v : x_reg (set_reg r v s) r = v.
Proof. unfold x_reg. cbn. by destruct (x_regs s), r. Qed.
Lemma reg_other s r r' v : r <> r' -> x_reg (set_reg r v s) r' = x_reg s r'.
Proof. unfold x_reg. cbn. by destruct (x_regs s), r, r'. Qed.

Lemma push_stk s m a v : 4 <= a < 2 ^ 32 -> push v (stk s m a) = Ok tt (stk s (stw m (a - 4) v) (a - 4)).
Proof.
  intros Ha. unfold push, modify. rewrite stk_esp. cbv zeta. u32s. by rewrite stk_again.
Qed.
Lemma pop_stk s m a : 0 <= a < 2 ^ 32 - 4 -> pop (stk s m a) = Ok (ldw m a) (stk s m (a + 4)).
Proof.
  intros Ha. unfold pop. rewrite stk_esp. u32s. f_equal. unfold stk, set_reg. cbn. by destruct (x_regs s).
Qed.

(** A word list pushed below [a]. *)
Fixpoint pushes (m : mem) (a : Z) (vs : list Z) : mem :=
  match vs with
  | [] => m
  | v :: vs => pushes (stw m (a - 4) v) (a - 4) vs
  end.
Definition below (a : Z) (vs : list Z) : Z := a - 4 * Z.of_nat (length vs).

Lemma pushes_app m a vs ws : pushes m a (vs ++ ws) = pushes (pushes m a vs) (below a vs) ws.
Proof.
  revert m a. unfold below. induction vs as [|v vs IH]; intros m a; cbn [pushes app length].
  - by replace (a - 4 * Z.of_nat 0) with a by lia.
  - rewrite IH. f_equal. lia.
Qed.
Lemma ldb_pushes m a vs b : ~ (below a vs <= b < a) -> ldb (pushes m a vs) b = ldb m b.
Proof.
  revert m a. unfold below. induction vs as [|v vs IH]; intros m a Hb; cbn [pushes length] in *; [done|].
  rewrite IH by lia. apply ldb_stw_ne. lia.
Qed.
Lemma ldb_pushes_above m a vs b : a <= b -> ldb (pushes m a vs) b = ldb m b.
Proof. intros. apply ldb_pushes. lia. Qed.
Lemma ldw_pushes m a vs i v b :
  vs !! i = Some v -> is_u32 v -> b = a - 4 * (Z.of_nat i + 1) -> ldw (pushes m a vs) b = v.
Proof.
  intros Hi Hv ->. rewrite <-(take_drop_middle vs i v Hi), pushes_app. cbn [pushes]. unfold below.
  rewrite length_take_le by (apply lookup_lt_Some in Hi; lia).
  rewrite (ldw_frame (stw (pushes m a (take i vs)) (a - 4 * Z.of_nat i - 4) v)).
  - apply ldw_stw; [lia | done].
  - intros b Hb. apply ldb_pushes_above. lia.
Qed.
Lemma ldh_pushes m a vs i v b :
  vs !! i = Some v -> is_u16 v -> b = a - 4 * (Z.of_nat i + 1) -> ldh (pushes m a vs) b = v.
Proof.
  intros Hi Hv ->. rewrite <-(take_drop_middle vs i v Hi), pushes_app. cbn [pushes]. unfold below.
  rewrite length_take_le by (apply lookup_lt_Some in Hi; lia).
  rewrite <-(ldh_stw (pushes m a (take i vs)) (a - 4 * Z.of_nat i - 4) (a - 4 * (Z.of_nat i + 1)) v) at 2 by (done || lia).
  unfold ldh. f_equal. apply ldbs_ext. intros b Hb. apply ldb_pushes_above. lia.
Qed.

#[local] Arguments pushes : simpl never.
#[local] Arguments ldh : simpl never.
#[local] Arguments x_reg : simpl never.
#[local] Arguments x_sreg : simpl never.

(** The load of the [i]-th pushed word. *)
Ltac word i :=
  lazymatch goal with
  | |- ldw _ _ = _ => apply (ldw_pushes _ _ _ i)
  | |- ldh _ _ = _ => apply (ldh_pushes _ _ _ i)
  end; [reflexivity | assumption | lia].

(** The trap frame that a list of pushed words is. *)
Definition frame_words (f : trapframe) : list Z :=
  [tf_ss f; tf_esp f; tf_eflags f; tf_cs f; tf_eip f; tf_err f; tf_trapno f; tf_ds f; tf_es f;
   tf_fs f; tf_gs f; tf_eax f; tf_ecx f; tf_edx f; tf_ebx f; tf_oesp f; tf_ebp f; tf_esi f; tf_edi f].
Record frame_ok (f : trapframe) : Prop := {
  fo_words : Forall is_u32 (frame_words f);
  fo_segs : Forall is_u16 [tf_ss f; tf_cs f; tf_ds f; tf_es f; tf_fs f; tf_gs f] }.
Lemma tf_at_pushes m a f : frame_ok f -> tf_at (pushes m a (frame_words f)) (a - 76) = f.
Proof.
  intros [Hw Hs]. unfold frame_words in *. repeat (apply list.Forall_cons in Hw as [? Hw]). repeat (apply list.Forall_cons in Hs as [? Hs]).
  unfold tf_at. destruct f. cbn in *. f_equal;
    [ word 18%nat | word 17%nat | word 16%nat | word 15%nat | word 14%nat | word 13%nat | word 12%nat
    | word 11%nat | word 10%nat | word 9%nat | word 8%nat | word 7%nat | word 6%nat | word 5%nat
    | word 4%nat | word 3%nat | word 2%nat | word 1%nat | word 0%nat ].
Qed.

(** *** Entry *)

Lemma push_run s m a vs v : 4 * (Z.of_nat (length vs) + 1) <= a < 2 ^ 32 ->
  push v (stk s (pushes m a vs) (below a vs)) = Ok tt (stk s (pushes m a (vs ++ [v])) (below a (vs ++ [v]))).
Proof.
  intros Ha. unfold below in *. rewrite push_stk by lia. rewrite pushes_app, length_app. cbn [pushes length].
  unfold below. do 2 f_equal. lia.
Qed.
Lemma stk_eq s m m' a a' : m = m' -> a = a' -> stk s m a = stk s m' a'.
Proof. by intros -> ->. Qed.

(** A register or constant pushed on such a stack. *)
Definition reads_off_stack (o : operand) (s : x86) (v : Z) : Prop :=
  forall m a, rd o (stk s m a) = Ok v (stk s m a).
Lemma reads_reg s r : r <> ESP -> reads_off_stack (Reg r) s (x_reg s r).
Proof. intros Hr m a. cbn. unfold reads. by rewrite stk_reg. Qed.
Lemma reads_seg s r : reads_off_stack (Seg r) s (x_sreg s r).
Proof. done. Qed.
Lemma reads_imm s v : reads_off_stack (Imm v) s (u32 v).
Proof. done. Qed.
Lemma rd_push_run o s m a vs v : reads_off_stack o s v -> 4 * (Z.of_nat (length vs) + 1) <= a < 2 ^ 32 ->
  (let* w := rd o in push w) (stk s (pushes m a vs) (below a vs)) =
    Ok tt (stk s (pushes m a (vs ++ [v])) (below a (vs ++ [v]))).
Proof. intros Hr Ha. rewrite (bind_ok _ _ _ _ _ (Hr _ _)). by apply push_run. Qed.
Lemma pushl_run o s m a vs v : reads_off_stack o s v -> 4 * (Z.of_nat (length vs) + 1) <= a < 2 ^ 32 ->
  exec_instr (pushl o) (stk s (pushes m a vs) (below a vs)) =
    Ok false (stk s (pushes m a (vs ++ [v])) (below a (vs ++ [v]))).
Proof. intros Hr Ha. unfold exec_instr, next. by rewrite (bind_ok _ _ _ _ _ (rd_push_run _ _ _ _ _ _ Hr Ha)). Qed.
Lemma push_regs_run l s m a vs : ESP ∉ l -> 4 * Z.of_nat (length vs + length l) <= a < 2 ^ 32 ->
  for_each l (fun r => let* v := rd (Reg r) in push v) (stk s (pushes m a vs) (below a vs)) =
    Ok tt (stk s (pushes m a (vs ++ (x_reg s <$> l))) (below a (vs ++ (x_reg s <$> l)))).
Proof.
  revert vs. induction l as [|r l IH]; intros vs Hl Ha; [cbn; by rewrite app_nil_r|].
  apply not_elem_of_cons in Hl as [Hr Hl]. cbn [for_each length] in *.
  rewrite (bind_ok _ _ _ _ _ (rd_push_run _ _ m a vs _ (reads_reg s r (not_eq_sym Hr)) ltac:(lia))).
  rewrite IH by (done || rewrite length_app; cbn; lia). by rewrite <-app_assoc.
Qed.
Lemma pushal_run s m a vs : 4 * Z.of_nat (length vs + 8) <= a < 2 ^ 32 ->
  exec_instr pushal (stk s (pushes m a vs) (below a vs)) =
    let ws := vs ++ [x_reg s EAX; x_reg s ECX; x_reg s EDX; x_reg s EBX; below a vs; x_reg s EBP; x_reg s ESI; x_reg s EDI] in
    Ok false (stk s (pushes m a ws) (below a ws)).
Proof.
  intros Ha. unfold exec_instr, next, do_pushal. rewrite bind_assoc. unfold reads at 1. unfold bind at 1. rewrite stk_esp.
  cbv zeta. rewrite bind_assoc.
  rewrite (bind_ok _ _ _ _ _ (push_regs_run [EAX; ECX; EDX; EBX] s m a vs ltac:(set_solver) ltac:(cbn; lia))).
  rewrite bind_assoc, (bind_ok _ _ _ _ _ (push_run s m a (vs ++ (x_reg s <$> [EAX; ECX; EDX; EBX])) _ ltac:(rewrite length_app; cbn; lia))).
  erewrite bind_ok by (apply (push_regs_run [EBP; ESI; EDI]); [set_solver | rewrite !length_app; cbn; lia]).
  by rewrite <-!app_assoc.
Qed.

Lemma tf_at_ext m m' a : (forall b, a <= b < a + 76 -> ldb m' b = ldb m b) -> tf_at m' a = tf_at m a.
Proof.
  intros H. unfold tf_at, ldh. f_equal.
  all: try (apply ldw_frame; intros b Hb; apply H; lia).
  all: f_equal; apply ldbs_ext; intros b Hb; apply H; lia.
Qed.

(** The processor's part, vectors.S and alltraps, each as a list of pushed
    words and changed registers. *)
Definition entered (g : gatedesc) (s : x86) : x86 :=
  set_eip (gate_off g) (set_sreg CS (u16 8) (set_eflags (gate_flags g (x_eflags s)) (set_sreg SS (u16 16) s))).
Definition hw_words (s : x86) (ip : Z) (err : option Z) : list Z :=
  [x_sreg s SS; x_reg s ESP; x_eflags s; x_sreg s CS; ip] ++ match err with Some e => [e] | None => [] end.

Ltac pushstep :=
  rewrite (bind_ok _ _ _ _ _ (push_run _ _ _ _ _ ltac:(cbn [length app]; lia))).

Lemma deliver_run s top n ip err g : user_trap s top n ip err g ->
  let ws := hw_words s ip err in
  deliver n ip err s = Ok tt (stk (entered g s) (pushes (x_mem s) top ws) (below top ws)).
Proof.
  intros T. cbv zeta. rewrite (deliver_user _ _ _ _ _ _ T). destruct T as [_ _ _ _ _ Htop _ _ _].
  unfold deliver_up. unfold reads at 1, bind at 1. unfold modify at 1, bind at 1. unfold id.
  set (s1 := set_sreg SS (u16 16) s).
  assert (set_sreg SS (u16 16) (set_reg ESP top s) = stk s1 (pushes (x_mem s) top []) (below top [])) as ->.
  { unfold below. cbn [length]. replace (top - 4 * Z.of_nat 0) with top by lia. done. }
  do 5 (erewrite bind_ok by (apply push_run; cbn [length app]; lia)).
  destruct err as [e|].
  - erewrite bind_ok by (apply push_run; cbn [length app]; lia). done.
  - done.
Qed.

Lemma vector_run a_alltraps s m top vs n : 4 * Z.of_nat (length vs + 2) <= top < 2 ^ 32 -> 0 <= n < 256 ->
  let ws := vs ++ (if has_error n then [] else [0]) ++ [n] in
  run (vector a_alltraps n) (stk s (pushes m top vs) (below top vs)) =
    Ok true (stk (set_eip (u32 a_alltraps) s) (pushes m top ws) (below top ws)).
Proof.
  intros Hl Hn. cbv zeta. unfold vector. destruct (has_error n); cbn [app].
  - erewrite run_next by (apply pushl_run; [apply reads_imm | lia]). u32s. by erewrite run_goes by reflexivity.
  - erewrite run_next by (apply pushl_run; [apply reads_imm | lia]). u32s.
    erewrite run_next by (apply pushl_run; [apply reads_imm | rewrite length_app; cbn; lia]). u32s.
    rewrite <-app_assoc. by erewrite run_goes by reflexivity.
Qed.

Definition seg_words (s : x86) : list Z := [x_sreg s DS; x_sreg s ES; x_sreg s FS; x_sreg s GS].
Definition all_words (s : x86) (sp : Z) : list Z :=
  [x_reg s EAX; x_reg s ECX; x_reg s EDX; x_reg s EBX; sp; x_reg s EBP; x_reg s ESI; x_reg s EDI].
Definition trapping (a_trap : Z) (s : x86) : x86 :=
  set_eip (u32 a_trap) (set_sreg ES 16 (set_sreg DS 16 (set_reg EAX (low_bits 16 (x_reg s EAX) 16) s))).
Lemma movw_reg_run s m a v : exec_instr (movw (Imm v) (Reg EAX)) (stk s m a) =
  Ok false (stk (set_reg EAX (low_bits 16 (x_reg s EAX) (u32 v)) s) m a).
Proof.
  unfold exec_instr, next, wr_low, rd, modify, bind, ret. by rewrite stk_reg, stk_set_reg.
Qed.
Lemma movw_seg_run s m a r : exec_instr (movw (Reg EAX) (Seg r)) (stk s m a) =
  Ok false (stk (set_sreg r (u16 (x_reg s EAX)) s) m a).
Proof. unfold exec_instr, next, wr_low, rd, reads, modify, bind, ret. by rewrite stk_reg. Qed.
Lemma push_esp_run s m a vs : 4 * (Z.of_nat (length vs) + 1) <= a < 2 ^ 32 ->
  exec_instr (pushl (Reg ESP)) (stk s (pushes m a vs) (below a vs)) =
    Ok false (stk s (pushes m a (vs ++ [below a vs])) (below a (vs ++ [below a vs]))).
Proof.
  intros Ha. unfold exec_instr, next. erewrite bind_ok; [done|].
  erewrite (bind_ok (rd (Reg ESP))); [by apply push_run|]. unfold rd, reads. by rewrite stk_esp.
Qed.
Lemma call_run a_fun after s m a vs : 4 * (Z.of_nat (length vs) + 1) <= a < 2 ^ 32 ->
  exec_instr (call (Imm a_fun) after) (stk s (pushes m a vs) (below a vs)) =
    Ok true (stk (set_eip (u32 a_fun) s) (pushes m a (vs ++ [u32 after])) (below a (vs ++ [u32 after]))).
Proof.
  intros Ha. unfold exec_instr, goes. erewrite bind_ok; [done|].
  erewrite (bind_ok (rd (Imm a_fun))) by reflexivity.
  by rewrite (bind_ok _ _ _ _ _ (push_run _ _ _ _ _ Ha)).
Qed.

Lemma alltraps_run a_trap after s m top vs : 4 * Z.of_nat (length vs + 14) <= top < 2 ^ 32 ->
  let ws := (vs ++ seg_words s) ++ all_words s (below top (vs ++ seg_words s)) in
  let ws' := (ws ++ [below top ws]) ++ [u32 after] in
  run (alltraps a_trap after) (stk s (pushes m top vs) (below top vs)) =
    Ok true (stk (trapping a_trap s) (pushes m top ws') (below top ws')).
Proof.
  intros Hl. cbv zeta. unfold alltraps.
  do 4 (erewrite run_next by (apply pushl_run; [apply reads_seg | rewrite ?length_app; cbn; lia])).
  replace ((((vs ++ [x_sreg s DS]) ++ [x_sreg s ES]) ++ [x_sreg s FS]) ++ [x_sreg s GS]) with (vs ++ seg_words s)
    by (by rewrite <-!app_assoc).
  erewrite run_next by (apply pushal_run; rewrite ?length_app; cbn; lia). cbv zeta.
  fold (all_words s (below top (vs ++ seg_words s))).
  set (ws := (vs ++ seg_words s) ++ all_words s (below top (vs ++ seg_words s))).
  assert (length ws = length vs + 12)%nat as Hw by (unfold ws; rewrite !length_app; cbn; lia).
  erewrite run_next by apply movw_reg_run. do 2 erewrite run_next by apply movw_seg_run.
  erewrite run_next by (apply push_esp_run; lia).
  erewrite run_goes by (apply call_run; rewrite length_app; cbn; lia).
  unfold trapping. change (u32 (Z.shiftl SEG_KDATA 3)) with 16.
  set (s1 := set_reg EAX _ s). assert (u16 (x_reg s1 EAX) = 16) as E1 by (unfold s1; by rewrite reg_same, u16_low).
  change (x_reg (set_sreg DS (u16 (x_reg s1 EAX)) s1) EAX) with (x_reg s1 EAX). by rewrite E1.
Qed.

Lemma frame_of_ok s top n ip err g : user_trap s top n ip err g -> frame_ok (frame_of s top n ip err).
Proof.
  intros [OK _ _ _ _ Htop Hn Hip He]. pose proof (ok_reg s OK) as Hr. pose proof (ok_sreg s OK) as Hs.
  assert (is_u32 (default 0 err)).
  { destruct (has_error n); [destruct He as (e & -> & He); done | subst; unfold is_u32; cbn; lia]. }
  pose proof (ok_eflags s OK).
  split; repeat apply Forall_cons_2; cbn; auto with x86; unfold is_u32; lia.
Qed.

Lemma trap_words s top n ip err g : user_trap s top n ip err g ->
  let e := entered g s in
  let vs := hw_words s ip err ++ (if has_error n then [] else [0]) ++ [n] in
  (vs ++ seg_words e) ++ all_words e (below top (vs ++ seg_words e)) = frame_words (frame_of s top n ip err).
Proof.
  intros [OK _ _ _ _ Htop Hn Hip He]. cbv zeta. unfold hw_words, frame_words, frame_of, seg_words, all_words, below.
  destruct s as [? []], (has_error n); [destruct He as (e & -> & He) | subst err]; reflexivity.
Qed.

Lemma trap_entry_run a_alltraps a_trap after s top n ip err g :
  user_trap s top n ip err g ->
  let f := frame_of s top n ip err in
  trap_path a_alltraps a_trap after n ip err s =
    Ok true (stk (trapping a_trap (entered g s))
               (pushes (x_mem s) top ((frame_words f ++ [top - 76]) ++ [u32 after])) (top - 84)).
Proof.
  intros T. cbv zeta. unfold trap_path.
  rewrite (bind_ok _ _ _ _ _ (deliver_run _ _ _ _ _ _ T)). pose proof (trap_words _ _ _ _ _ _ T) as Hw. cbv zeta in Hw.
  assert (length (hw_words s ip err ++ (if has_error n then [] else [0]) ++ [n]) = 7%nat) as Hl.
  { destruct T as [_ _ _ _ _ _ _ _ He]. unfold hw_words.
    destruct (has_error n); [destruct He as (e & -> & He) | subst err]; done. }
  pose proof (ut_top _ _ _ _ _ _ T). pose proof (ut_num _ _ _ _ _ _ T).
  assert (length (hw_words s ip err) <= 6)%nat by (unfold hw_words; destruct err; cbn; lia).
  erewrite bind_ok by (apply vector_run; [lia | done]). rewrite alltraps_run by lia.
  change (seg_words (set_eip (u32 a_alltraps) (entered g s))) with (seg_words (entered g s)).
  change (all_words (set_eip (u32 a_alltraps) (entered g s))) with (all_words (entered g s)). rewrite Hw.
  by replace (below top (frame_words (frame_of s top n ip err))) with (top - 76) by done.
Qed.

(** *** Return *)

Lemma pop_reg_run s m a r : r <> ESP -> 0 <= a < 2 ^ 32 - 4 ->
  pop_to (Reg r) (stk s m a) = Ok tt (stk (set_reg r (ldw m a) s) m (a + 4)).
Proof.
  intros Hr Ha. unfold pop_to. rewrite (bind_ok _ _ _ _ _ (pop_stk s m a Ha)). cbn [wr]. unfold modify.
  by rewrite stk_set_reg.
Qed.
(** The same with an address given as an offset. *)
Lemma pop_reg_at s m a k r : r <> ESP -> 0 <= a + k < 2 ^ 32 - 4 ->
  pop_to (Reg r) (stk s m (a + k)) = Ok tt (stk (set_reg r (ldw m (a + k)) s) m (a + (k + 4))).
Proof. intros. rewrite Z.add_assoc. by apply pop_reg_run. Qed.
Lemma popl_seg_run s m a r : 0 <= a < 2 ^ 32 - 4 ->
  exec_instr (popl (Seg r)) (stk s m a) = Ok false (stk (set_sreg r (u16 (ldw m a)) s) m (a + 4)).
Proof.
  intros Ha. unfold exec_instr, next, pop_to. rewrite bind_assoc, (bind_ok _ _ _ _ _ (pop_stk s m a Ha)). done.
Qed.
Lemma popl_seg_at s m a k r : 0 <= a + k < 2 ^ 32 - 4 ->
  exec_instr (popl (Seg r)) (stk s m (a + k)) = Ok false (stk (set_sreg r (u16 (ldw m (a + k))) s) m (a + (k + 4))).
Proof. intros. rewrite Z.add_assoc. by apply popl_seg_run. Qed.
Lemma addl_esp_run s m a v : 0 <= v -> 0 <= a -> a + v < 2 ^ 32 ->
  exec_instr (addl (Imm v) (Reg ESP)) (stk s m a) = Ok false (stk s m (a + v)).
Proof.
  intros Hv Ha Hs. unfold exec_instr, next. erewrite bind_ok; [done|].
  erewrite (bind_ok (rd (Imm v))) by reflexivity. erewrite (bind_ok (rd (Reg ESP))).
  2:{ unfold rd, reads. by rewrite stk_esp. }
  cbn [wr]. unfold modify. u32s. f_equal. unfold stk, set_reg. cbn. by destruct (x_regs s).
Qed.

(** The registers that trapret takes from the frame at [a]. *)
Definition popped (m : mem) (a : Z) (s : x86) : x86 :=
  set_sreg DS (u16 (ldw m (a + 44))) (set_sreg ES (u16 (ldw m (a + 40))) (set_sreg FS (u16 (ldw m (a + 36)))
  (set_sreg GS (u16 (ldw m (a + 32)))
  (set_reg EAX (ldw m (a + 28)) (set_reg ECX (ldw m (a + 24)) (set_reg EDX (ldw m (a + 20)) (set_reg EBX (ldw m (a + 16))
  (set_reg EBP (ldw m (a + 8)) (set_reg ESI (ldw m (a + 4)) (set_reg EDI (ldw m a) s)))))))))).
#[local] Opaque pop_to pop.
Lemma pop_at s m a k : 0 <= a + k < 2 ^ 32 - 4 ->
  pop (stk s m (a + k)) = Ok (ldw m (a + k)) (stk s m (a + (k + 4))).
Proof. intros. rewrite Z.add_assoc. by apply pop_stk. Qed.
Ltac offsets :=
  repeat match goal with |- context [?a + (?k + 4)] =>
    let k' := eval vm_compute in (k + 4) in change (k + 4) with k'
  end.
Ltac popstep :=
  repeat first [rewrite bind_assoc | rewrite bind_ret_l];
  erewrite bind_ok by first [apply pop_reg_at; [done | lia] | apply pop_at; lia];
  offsets.
Lemma popal_run s m a : 0 <= a < 2 ^ 32 - 32 ->
  exec_instr popal (stk s m a) = Ok false (stk
    (set_reg EAX (ldw m (a + 28)) (set_reg ECX (ldw m (a + 24)) (set_reg EDX (ldw m (a + 20)) (set_reg EBX (ldw m (a + 16))
    (set_reg EBP (ldw m (a + 8)) (set_reg ESI (ldw m (a + 4)) (set_reg EDI (ldw m a) s))))))) m (a + 32)).
Proof.
  intros Ha. unfold exec_instr, next, do_popal. cbn [for_each].
  replace (stk s m a) with (stk s m (a + 0)) by (f_equal; lia). do 8 popstep.
  by rewrite Z.add_0_r.
Qed.
#[local] Transparent pop_to pop.
Lemma trapret_frame s m a : 0 <= a < 2 ^ 32 - 80 ->
  run trapret (stk s m a) = run [iret] (stk (popped m a s) m (a + 56)).
Proof.
  intros Ha. unfold trapret. erewrite run_next by (apply popal_run; lia).
  do 4 (erewrite run_next by (apply popl_seg_at; lia); offsets).
  erewrite run_next by (apply addl_esp_run; lia).
  by replace (a + 48 + 8) with (a + 56) by lia.
Qed.

(** What the interrupted code sees again. *)
Record resumed (f : trapframe) (s : x86) : Prop := {
  rs_eax : x_reg s EAX = tf_eax f; rs_ecx : x_reg s ECX = tf_ecx f;
  rs_edx : x_reg s EDX = tf_edx f; rs_ebx : x_reg s EBX = tf_ebx f;
  rs_ebp : x_reg s EBP = tf_ebp f; rs_esi : x_reg s ESI = tf_esi f; rs_edi : x_reg s EDI = tf_edi f;
  rs_gs : x_sreg s GS = tf_gs f; rs_fs : x_sreg s FS = tf_fs f;
  rs_es : x_sreg s ES = tf_es f; rs_ds : x_sreg s DS = tf_ds f;
  rs_eip : x_eip s = tf_eip f; rs_cs : x_sreg s CS = tf_cs f; rs_eflags : x_eflags s = tf_eflags f }.

Lemma iret_run s m a : 0 <= a < 2 ^ 32 - 24 -> cpl s = 0 -> 0 < Z.land (u16 (ldw m (a + 4))) 3 ->
  run [iret] (stk s m a) = Ok true
    (stk (set_sreg SS (u16 (ldw m (a + 16))) (set_eip (ldw m a) (set_sreg CS (u16 (ldw m (a + 4))) (set_eflags (ldw m (a + 8)) s))))
       m (ldw m (a + 12))).
Proof.
  intros Ha Hc Hu. apply run_goes. unfold exec_instr, goes. erewrite bind_ok; [done|].
  unfold do_iret. unfold reads at 1, bind at 1. unfold id.
  replace (stk s m a) with (stk s m (a + 0)) by (f_equal; lia). 
  do 3 (erewrite bind_ok by (apply pop_at; lia); offsets).
  change (cpl (stk s m (a + 0))) with (cpl s). rewrite Hc, Z.add_0_r.
  destruct (Z.ltb_spec 0 (Z.land (u16 (ldw m (a + 4))) 3)); [|lia].
  unfold modify at 1, bind at 1.
  set (s1 := set_eip (ldw m a) (set_sreg CS (u16 (ldw m (a + 4))) (set_eflags (ldw m (a + 8)) s))).
  change (set_eip (ldw m a) _) with (stk s1 m (a + 12)).
  do 2 (erewrite bind_ok by (apply pop_at; lia); offsets).
  unfold modify. f_equal. unfold stk, set_sreg, set_reg, set_xmem. cbn. by destruct (x_regs s).
Qed.

Lemma trap_return_run s m a : mem_ok m -> 4 <= a < 2 ^ 32 - 84 -> cpl s = 0 ->
  0 < Z.land (tf_cs (tf_at m a)) 3 -> exists s',
  run alltraps_rest (stk s m (a - 4)) = Ok true s' /\ resumed (tf_at m a) s' /\
  x_reg s' ESP = tf_esp (tf_at m a) /\ x_sreg s' SS = tf_ss (tf_at m a) /\ x_mem s' = m.
Proof.
  intros Hm Ha Hc Hu. unfold alltraps_rest.
  erewrite run_next by (apply addl_esp_run; lia). replace (a - 4 + 4) with a by lia.
  rewrite trapret_frame by lia. cbn [tf_at tf_cs] in Hu. rewrite iret_run.
  2: lia.
  2:{ unfold popped, cpl, x_sreg in *. destruct s as [? []]. done. }
  2:{ replace (a + 56 + 4) with (a + 60) by lia. by rewrite u16_ldw. }
  eexists. split; [reflexivity|].
  replace (a + 56 + 16) with (a + 72) by lia. replace (a + 56 + 4) with (a + 60) by lia.
  replace (a + 56 + 8) with (a + 64) by lia. replace (a + 56 + 12) with (a + 68) by lia.
  unfold popped. rewrite !u16_ldw by done.
  destruct s as [[] []]. split_and!; [split | ..]; reflexivity.
Qed.

(** The memory at the entry of trap. *)
Lemma frame_words_length f : length (frame_words f) = 19%nat.
Proof. done. Qed.
Lemma trap_mem m top f after : 84 <= top < 2 ^ 32 -> is_u32 after -> frame_ok f ->
  let m' := pushes m top ((frame_words f ++ [top - 76]) ++ [after]) in
  ldw m' (top - 84) = after /\ ldw m' (top - 80) = top - 76 /\ tf_at m' (top - 76) = f /\
  (forall b, ~ (top - 84 <= b < top) -> ldb m' b = ldb m b).
Proof.
  intros Ht Ha Hf. cbv zeta. assert (is_u32 (top - 76)) by (unfold is_u32; lia). split_and!.
  - apply (ldw_pushes _ _ _ 20%nat); [done | done | lia].
  - apply (ldw_pushes _ _ _ 19%nat); [done | done | lia].
  - rewrite <-app_assoc, pushes_app. rewrite (tf_at_ext (pushes m top (frame_words f))); [by apply tf_at_pushes|].
    intros b Hb. apply ldb_pushes_above. unfold below. rewrite frame_words_length. lia.
  - intros b Hb. apply ldb_pushes. unfold below. rewrite !length_app, frame_words_length. cbn. lia.
Qed.

(** *** The gates that tvinit sets up *)

Definition tv_idt (vectors : Z -> Z) : list gatedesc :=
  <[Z.to_nat T_SYSCALL := SETGATE true (Z.shiftl SEG_KCODE 3) (vectors T_SYSCALL) DPL_USER]>
    ((fun i => SETGATE false (Z.shiftl SEG_KCODE 3) (vectors i) 0) <$> zseq 0 256).
Lemma tvinit_idt vectors k k' : tvinit vectors k = Ok tt k' -> idt k' = tv_idt vectors.
Proof.
  unfold tvinit, initlock, upd_lock, bind, modify. intros [= <-]. done.
Qed.

Lemma gate_off_set t sel off d : is_u32 off -> gate_off (SETGATE t sel off d) = off.
Proof.
  intros Ho. unfold gate_off, SETGATE. cbn [off_15_0 off_31_16]. change 65535 with (Z.ones 16).
  rewrite Z.land_ones, Z.shiftr_div_pow2 by lia. pose proof (Z.div_mod off (2 ^ 16) ltac:(lia)). lia.
Qed.
Lemma tv_gate vectors n : 0 <= n < 256 -> tv_idt vectors !! Z.to_nat n =
  Some (if n =? T_SYSCALL then SETGATE true (Z.shiftl SEG_KCODE 3) (vectors T_SYSCALL) DPL_USER
        else SETGATE false (Z.shiftl SEG_KCODE 3) (vectors n) 0).
Proof.
  intros Hn. unfold tv_idt. destruct (Z.eqb_spec n T_SYSCALL) as [->|Hne].
  - apply list_lookup_insert_eq. rewrite length_fmap, zseq_length. unfold T_SYSCALL. lia.
  - rewrite list_lookup_insert_ne by (unfold T_SYSCALL in *; lia). rewrite list_lookup_fmap.
    rewrite zseq_lookup by lia. cbn. do 3 f_equal. lia.
Qed.

Lemma pushes_ok m a vs : mem_ok m -> mem_ok (pushes m a vs).
Proof.
  revert m a. induction vs as [|v vs IH]; intros m a Hm; [done|].
  change (mem_ok (pushes (stw m (a - 4) v) (a - 4) vs)). by apply IH, stw_ok.
Qed.
Lemma stk_ok s m a : x86_ok s -> mem_ok m -> is_u32 a -> x86_ok (stk s m a).
Proof. intros. unfold stk. auto with x86. Qed.

(** initcode up to its first system call. *)
Lemma initcode_run s init argv exit_ sp : x_reg s ESP = sp -> 12 <= sp < 2 ^ 32 -> is_u32 init -> is_u32 argv ->
  run (initcode_start init argv exit_) s =
    run [int_ T_SYSCALL exit_] (stk (set_reg EAX SYS_exec s) (pushes (x_mem s) sp [argv; init; 0]) (sp - 12)).
Proof.
  intros Hsp Hr Hi Ha. unfold initcode_start. rewrite <-(stk_self s) at 1. rewrite Hsp.
  replace (stk s (x_mem s) sp) with (stk s (pushes (x_mem s) sp []) (below sp [])) by (apply stk_eq; [done | unfold below; cbn; lia]).
  do 3 (erewrite run_next by (apply pushl_run; [apply reads_imm | cbn; lia])). u32s. rewrite !u32_small by done.
  change (below sp ([argv; init; 0])) with (sp - 12).
  erewrite run_next; [reflexivity|]. unfold exec_instr, next, rd, wr, modify, bind, ret. by rewrite stk_set_reg.
Qed.

Section user.
Context (vectors : Z -> Z) (top : Z).

(** A user program running with those gates and a kernel stack ending at
    [top]. *)
Record in_user (s : x86) : Prop := {
  iu_ok : x86_ok s;
  iu_cpl : cpl s = 3;
  iu_idt : x_idt s = tv_idt vectors;
  iu_tss : x_tss s = (top, 16);
  iu_top : 84 <= top < 2 ^ 32 }.
Definition tv (n : Z) : gatedesc :=
  if n =? T_SYSCALL then SETGATE true (Z.shiftl SEG_KCODE 3) (vectors T_SYSCALL) DPL_USER
  else SETGATE false (Z.shiftl SEG_KCODE 3) (vectors n) 0.
Lemma tv_user_trap s n ip err : in_user s -> 0 <= n < 256 -> is_u32 ip ->
  (if has_error n then exists e, err = Some e /\ is_u32 e else err = None) -> user_trap s top n ip err (tv n).
Proof.
  intros [] Hn Hip He. split; try done.
  - by rewrite iu_idt0, tv_gate.
  - unfold tv. by destruct (n =? T_SYSCALL).
Qed.
Lemma tv_off n : (forall i, is_u32 (vectors i)) -> gate_off (tv n) = vectors n.
Proof.
  intros Hv. unfold tv. destruct (Z.eqb_spec n T_SYSCALL) as [->|]; by apply gate_off_set.
Qed.

(** Where a software interrupt goes. *)
Lemma soft_int_user s n ip : in_user s -> 0 <= n < 256 ->
  soft_int n ip s = if n =? T_SYSCALL then deliver n ip None s else deliver 13 (u32 (ip - 2)) (Some (8 * n + 2)) s.
Proof.
  intros [] Hn. unfold soft_int. unfold reads, bind, id. rewrite iu_idt0, tv_gate, iu_cpl0 by done.
  by destruct (Z.eqb_spec n T_SYSCALL).
Qed.
Lemma int_run s n ip s1 : is_u32 ip -> soft_int n ip s = Ok tt s1 -> run [int_ n ip] s = Ok true s1.
Proof.
  intros Hip E. apply run_goes. unfold exec_instr, goes. rewrite (u32_small ip) by done.
  by rewrite (bind_ok _ _ _ _ _ E).
Qed.
Lemma delivered s n ip err : in_user s -> 0 <= n < 256 -> is_u32 ip -> (forall i, is_u32 (vectors i)) ->
  (if has_error n then exists e, err = Some e /\ is_u32 e else err = None) -> exists s',
  deliver n ip err s = Ok tt s' /\ cpl s' = 0 /\ x_eip s' = vectors n /\ ldw (x_mem s') (top - 20) = ip /\
  (forall e, err = Some e -> ldw (x_mem s') (top - 24) = e).
Proof.
  intros Hs Hn Hip Hv He. pose proof (tv_user_trap s n ip err Hs Hn Hip He) as T.
  eexists. split; [apply (deliver_run _ _ _ _ _ _ T)|]. split_and!.
  - destruct s as [? []]. done.
  - by apply tv_off.
  - apply (ldw_pushes _ _ _ 4%nat); [done | done | lia].
  - intros e ->. destruct (has_error n); [|done]. destruct He as (e' & [= ->] & He').
    apply (ldw_pushes _ _ _ 5%nat); [done | done | lia].
Qed.
End user.

(** ** Theorems *)


(** C11. A context switch and the switch back: swtch(old, new) leaves the address
    of a saved context in *old and continues where the context [new] was
    saved; as long as nobody touches the saved context, a later switch to it
    returns to the caller of the first, with its callee-saved registers and
    its stack as they were. *)
Theorem swtch_resumes s sp old new : calls_swtch s sp old new -> exists s1,
  run swtch s = Ok true s1 /\
  running s1 = context_at (x_mem s) new /\ x_reg s1 ESP = new + 20 /\
  ldw (x_mem s1) old = sp - 16 /\
  (forall b, ~ (sp - 16 <= b < sp) -> ~ (old <= b < old + 4) -> ldb (x_mem s1) b = ldb (x_mem s) b) /\
  forall s2 sp2 old2, calls_swtch s2 sp2 old2 (sp - 16) ->
    (forall b, sp - 16 <= b < sp + 4 -> ldb (x_mem s2) b = ldb (x_mem s1) b) -> exists s3,
    run swtch s2 = Ok true s3 /\
    running s3 = set_cx_eip (ldw (x_mem s) sp) (running s) /\ x_reg s3 ESP = sp + 4.
Proof.
  intros C. destruct (swtch_run _ _ _ _ C) as (s1 & E1 & _ & R1 & P1 & O1 & X1 & F1).
  exists s1. split_and!; [done..|]. intros s2 sp2 old2 C2 Hm.
  destruct (swtch_run _ _ _ _ C2) as (s3 & E3 & _ & R3 & P3 & _). exists s3.
  split_and!; [done | | lia]. rewrite R3, <-X1. unfold context_at.
  f_equal; apply ldw_frame; intros b Hb; apply Hm; lia.
Qed.


(** C6. Traps are transparent: when trap returns with the frame as it was but for
    a new eax (as a system call leaves it), the program continues with every
    register and flag as it was and that value in eax. *)
Theorem trap_round_trip a_alltraps a_trap after s top n ip err g r :
  user_trap s top n ip err g -> is_u32 a_trap -> is_u32 after -> top < 2 ^ 32 - 16 -> exists s1,
  trap_path a_alltraps a_trap after n ip err s = Ok true s1 /\
  forall s2, mem_ok (x_mem s2) -> cpl s2 = 0 -> x_reg s2 ESP = x_reg s1 ESP + 4 ->
    tf_at (x_mem s2) (top - 76) = set_tf_eax r (tf_at (x_mem s1) (top - 76)) -> exists s3,
    run alltraps_rest s2 = Ok true s3 /\ x_reg s3 EAX = r /\
    (forall q, q <> EAX -> x_reg s3 q = x_reg s q) /\ (forall q, x_sreg s3 q = x_sreg s q) /\
    x_eip s3 = ip /\ x_eflags s3 = x_eflags s /\ x_mem s3 = x_mem s2.
Proof.
  intros T Ha Haf Ht. eexists. split; [apply (trap_entry_run _ _ _ _ _ _ _ _ _ T)|].
  intros s2 Hm Hc Hsp Hf. rewrite stk_esp in Hsp.
  pose proof (trap_mem (x_mem s) top _ after (ut_top _ _ _ _ _ _ T) Haf (frame_of_ok _ _ _ _ _ _ T)) as (_ & _ & M3 & _).
  pose proof (ut_top _ _ _ _ _ _ T). rewrite (u32_small after) in Hf by done. change (x_mem (stk _ ?m _)) with m in Hf.
  rewrite M3 in Hf. rewrite <-(stk_self s2). rewrite Hsp. replace (top - 84 + 4) with (top - 76 - 4) by lia.
  destruct (trap_return_run s2 (x_mem s2) (top - 76)) as (s3 & R & [] & Hesp & Hss & Hm3); [done | lia | done | |].
  { rewrite Hf. change (0 < cpl s). rewrite (ut_user _ _ _ _ _ _ T). lia. }
  rewrite Hf in *. exists s3. split; [exact R|]. clear R. split; [exact rs_eax0|]. split_and!.
  - intros [] Hq; [by destruct Hq | assumption..].
  - intros []; assumption.
  - assumption.
  - assumption.
  - assumption.
Qed.

(** A user program enters the kernel by itself only through the system call
    gate: any other software interrupt is a general protection fault at the
    instruction, whose error code names the gate. *)
Theorem user_int vectors k k' s top n ip :
  tvinit vectors k = Ok tt k' -> x_idt s = idt k' -> (forall i, is_u32 (vectors i)) ->
  x86_ok s -> cpl s = 3 -> x_tss s = (top, 16) -> 84 <= top < 2 ^ 32 -> 0 <= n < 256 -> is_u32 ip -> 2 <= ip ->
  exists s', run [int_ n ip] s = Ok true s' /\ cpl s' = 0 /\
  if n =? T_SYSCALL then x_eip s' = vectors T_SYSCALL /\ ldw (x_mem s') (top - 20) = ip
  else x_eip s' = vectors 13 /\ ldw (x_mem s') (top - 20) = ip - 2 /\ ldw (x_mem s') (top - 24) = 8 * n + 2.
Proof.
  intros Htv Hidt Hv OK Hu Ht Htop Hn Hip Hip2. rewrite (tvinit_idt _ _ _ Htv) in Hidt.
  assert (in_user vectors top s) as Hs by done.
  destruct (Z.eqb_spec n T_SYSCALL) as [->|Hne].
  - destruct (delivered _ _ _ T_SYSCALL ip None Hs Hn Hip Hv eq_refl) as (s' & E & ? & ? & ? & _).
    exists s'. split; [|done]. apply int_run; [done|]. by rewrite (soft_int_user _ _ _ _ _ Hs Hn).
  - assert (is_u32 (ip - 2)) by (unfold is_u32 in *; lia).
    destruct (delivered _ _ _ 13 (ip - 2) (Some (8 * n + 2)) Hs ltac:(lia) ltac:(done) Hv) as (s' & E & ? & ? & ? & He).
    { exists (8 * n + 2). unfold is_u32. split; [done | lia]. }
    exists s'. split; [|by rewrite (He _ eq_refl)]. apply int_run; [done|].
    rewrite (soft_int_user _ _ _ _ _ Hs Hn). destruct (Z.eqb_spec n T_SYSCALL); [done|]. by rewrite u32_small.
Qed.

(** The first user process: initcode's first system call arrives in trap as
    exec, and the words where the kernel looks for the arguments are the
    addresses of the path and of the argument vector. *)
Theorem initcode_execs vectors a_alltraps a_trap after top sp init argv exit_ s :
  in_user vectors top s -> x_reg s ESP = sp -> 12 <= sp <= top - 84 ->
  is_u32 init -> is_u32 argv -> is_u32 exit_ -> is_u32 after -> exists s',
  (let* _ := run (initcode_start init argv exit_) in
   let* _ := run (vector a_alltraps T_SYSCALL) in
   run (alltraps a_trap after)) s = Ok true s' /\
  let f := tf_at (x_mem s') (top - sizeof_trapframe) in
  tf_trapno f = T_SYSCALL /\ tf_eax f = SYS_exec /\ tf_eip f = exit_ /\
  ldw (x_mem s') (tf_esp f + 4) = init /\ ldw (x_mem s') (tf_esp f + 8) = argv.
Proof.
  intros Hs Hsp Hr Hi Ha He Haf. pose proof (iu_top _ _ _ Hs) as Ht.
  set (m1 := pushes (x_mem s) sp [argv; init; 0]). set (s1 := stk (set_reg EAX SYS_exec s) m1 (sp - 12)).
  assert (in_user vectors top s1) as H1.
  { destruct Hs. split; try done. apply stk_ok; [| by apply pushes_ok, ok_mem | unfold is_u32; lia].
    apply reg_ok; [unfold is_u32, SYS_exec; lia | done]. }
  pose proof (tv_user_trap _ _ s1 T_SYSCALL exit_ None H1 ltac:(unfold T_SYSCALL; lia) He eq_refl) as T.
  pose proof (trap_entry_run a_alltraps a_trap after _ _ _ _ _ _ T) as R. unfold trap_path in R. cbv zeta in R.
  rewrite (bind_ok _ _ _ _ _ (deliver_run _ _ _ _ _ _ T)) in R.
  eexists. split.
  - erewrite bind_ok; [exact R|]. rewrite (initcode_run _ _ _ _ _ Hsp) by (done || lia). apply int_run; [done|].
    rewrite (soft_int_user _ _ _ _ _ H1) by (unfold T_SYSCALL; lia). apply (deliver_run _ _ _ _ _ _ T).
  - pose proof (trap_mem m1 top _ after Ht Haf (frame_of_ok _ _ _ _ _ _ T)) as (_ & _ & M3 & M4).
    rewrite (u32_small after) by done. change sizeof_trapframe with 76.
    change (x_mem (stk _ ?m _)) with m. change (x_mem s1) with m1. cbv zeta. rewrite M3. split_and!.
    + done.
    + change (x_reg s1 EAX = SYS_exec). unfold s1. by rewrite stk_reg, reg_same.
    + done.
    + change (tf_esp _) with (x_reg s1 ESP). unfold s1 at 2. rewrite stk_esp.
      rewrite (ldw_frame m1); [by apply (ldw_pushes _ _ _ 1%nat); [| |lia]|]. intros b Hb. apply M4. lia.
    + change (tf_esp _) with (x_reg s1 ESP). unfold s1 at 2. rewrite stk_esp.
      rewrite (ldw_frame m1); [by apply (ldw_pushes _ _ _ 0%nat); [| |lia]|]. intros b Hb. apply M4. lia.
Qed.

(** ** Instances of the theorems *)

Lemma tv_gates_ok vectors : (forall i, is_u32 (vectors i)) -> Forall gate_ok (tv_idt vectors).
Proof.
  intros Hv. assert (forall t sel off d, is_u32 off -> gate_ok (SETGATE t sel off d)) as H.
  { intros t sel off d Ho. unfold is_u32 in Ho. split; cbn; unfold is_u16.
    - change 65535 with (Z.ones 16). rewrite Z.land_ones by lia. apply Z.mod_pos_bound. lia.
    - rewrite Z.shiftr_div_pow2 by lia. split; [apply Z.div_pos | apply Z.div_lt_upper_bound]; lia. }
  apply Forall_insert; [|by apply H]. apply Forall_fmap, Forall_forall. intros i _. by apply H.
Qed.
Definition sample_vectors (i : Z) : Z := 1048576 + u8 i.
Lemma sample_vectors_ok i : is_u32 (sample_vectors i).
Proof. unfold sample_vectors, is_u32. pose proof (u8_bound i). unfold is_u8 in *. lia. Qed.
Definition sample_x86 (m : mem) (sp cs : Z) : x86 :=
  mk_x86 (mk_regs 1 2 3 4 sp 6 7 8) (mk_sregs cs 35 35 0 0 35) (mk_cregs 0 0 0 0) 0 512 (0, 0)
    (tv_idt sample_vectors) (8192, 16) m [] [].
Lemma sample_x86_ok m sp cs : mem_ok m -> is_u32 sp -> is_u16 cs -> x86_ok (sample_x86 m sp cs).
Proof.
  intros Hm Hsp Hcs. split; unfold sample_x86, x_reg, x_sreg, x_creg; cbn [x_regs x_sregs x_cregs x_eip x_eflags x_idt x_tss x_mem].
  - intros []; cbn; unfold is_u32 in *; lia.
  - intros []; cbn; unfold is_u16 in *; lia.
  - intros []; cbn; unfold is_u32; lia.
  - unfold is_u32. lia.
  - unfold is_u32. lia.
  - vm_compute. reflexivity.
  - apply tv_gates_ok, sample_vectors_ok.
  - cbn. unfold is_u32. lia.
  - exact Hm.
Qed.
Lemma sample_in_user sp : is_u32 sp -> in_user sample_vectors 8192 (sample_x86 ∅ sp 27).
Proof. intros Hsp. split; try done. by apply sample_x86_ok. Qed.

Lemma swtch_resumes_witness : exists s1,
  run swtch (sample_x86 (stw (stw ∅ 4100 100) 4104 200) 4096 8) = Ok true s1 /\ x_reg s1 ESP = 220.
Proof.
  destruct (swtch_resumes (sample_x86 (stw (stw ∅ 4100 100) 4104 200) 4096 8) 4096 100 200) as (s1 & E & _ & P & _).
  - split; try done; [apply sample_x86_ok; try done; by repeat apply stw_ok | unfold apart; lia..].
  - by exists s1.
Defined.
Lemma trap_round_trip_witness : exists s1, trap_path 10 20 30 64 40 None (sample_x86 ∅ 4096 27) = Ok true s1.
Proof.
  destruct (trap_round_trip 10 20 30 (sample_x86 ∅ 4096 27) 8192 64 40 None (tv sample_vectors 64) 9) as (s1 & E & _).
  - apply tv_user_trap; [by apply sample_in_user | done | done | done].
  - done.
  - done.
  - done.
  - by exists s1.
Defined.
Lemma user_int_witness : exists s', run [int_ 3 40] (sample_x86 ∅ 4096 27) = Ok true s' /\ x_eip s' = sample_vectors 13.
Proof.
  destruct (user_int sample_vectors sample (set_locks (<[L_tickslock := mk_spinlock 0 None]> (locks sample)) (set_idt (tv_idt sample_vectors) sample))
    (sample_x86 ∅ 4096 27) 8192 3 40) as (s' & E & _ & F); try done.
  - apply sample_vectors_ok.
  - by apply sample_x86_ok.
  - exists s'. by destruct F.
Defined.
Lemma initcode_execs_witness : exists s',
  (let* _ := run (initcode_start 28 36 19) in
   let* _ := run (vector 10 T_SYSCALL) in
   run (alltraps 20 30)) (sample_x86 ∅ 4096 27) = Ok true s'.
Proof.
  destruct (initcode_execs sample_vectors 10 20 30 8192 4096 28 36 19 (sample_x86 ∅ 4096 27)) as (s' & E & _); try done.
  - by apply sample_in_user.
  - by exists s'.
Defined.
