(* ===== verification/Bootasm.v ===== *)
(** * Assembly: from reset to C (asm.h, bootasm.S, entry.S, entryother.S)

    The three pieces of start-up code on the machine of [Asm]: the boot
    sector that switches to protected mode, the kernel's entry that turns
    paging on, and the code the other processors start with.  In real mode
    the segment registers are zero where the code uses them, so the flat
    machine covers that part too; the instruction fetch is not modelled. *)

From Stdlib Require Import ZArith Lia.
From stdpp Require Import base gmap list strings numbers.
From S2P Require Import Prelude Strings User State Spinlock Sched Kalloc Console Vm Disk Bio Log Fs Pipe File Proc Apic Input Syscall Exec Sysproc Sysfile Trap Main Asm.

Import string_c.
Open Scope Z_scope.

Definition CR0_PE : Z := 1.
Definition CR0_WP : Z := 65536.
Definition CR0_PG : Z := 2147483648.
Definition CR4_PSE : Z := 16.

(** ** asm.h *)

Definition SEG_NULLASM : list Z := le16 0 ++ le16 0 ++ [0; 0; 0; 0].
Definition SEG_ASM (type base lim : Z) : list Z :=
  le16 (Z.land (Z.shiftr lim 12) 65535) ++ le16 (Z.land base 65535) ++
  [Z.land (Z.shiftr base 16) 255; Z.lor 144 type;
   Z.lor 192 (Z.land (Z.shiftr lim 28) 15); Z.land (Z.shiftr base 24) 255].

(** ** Polling

    A loop that reads a status port until a bit of it is clear: at most one
    turn for every byte the port delivers. *)

Fixpoint poll (n : nat) (port mask : Z) : XM unit :=
  match n with
  | O => hang
  | S n =>
      exec_instr (inb_al port) ;;;
      let* v := rd (Reg EAX) in
      if Z.land v mask =? 0 then ret tt else poll n port mask
  end.
Definition wait_clear (port mask : Z) : XM unit := fun s => poll (S (length (x_in s))) port mask s.

(** ** bootasm.S *)

Definition gdt_bytes : list Z :=
  SEG_NULLASM ++ SEG_ASM (Z.lor STA_X STA_R) 0 4294967295 ++ SEG_ASM STA_W 0 4294967295.
Definition gdtdesc_bytes (gdt : Z) : list Z := le16 (Z.of_nat (length gdt_bytes) - 1) ++ le32 gdt.

(** cli and the zeroed data segments. *)
Definition real_segments : list instr :=
  [cli_;
   xorw (Reg EAX) (Reg EAX);
   movw (Reg EAX) (Seg DS);
   movw (Reg EAX) (Seg ES);
   movw (Reg EAX) (Seg SS)].
Definition protect (gdtdesc start32 : Z) : list instr :=
  [lgdt gdtdesc;
   movl (Ctl CR0) (Reg EAX);
   orl (Imm CR0_PE) (Reg EAX);
   movl (Reg EAX) (Ctl CR0);
   ljmp (Z.shiftl SEG_KCODE 3) start32].
Definition flat_segments : list instr :=
  [movw (Imm (Z.shiftl SEG_KDATA 3)) (Reg EAX);
   movw (Reg EAX) (Seg DS);
   movw (Reg EAX) (Seg ES);
   movw (Reg EAX) (Seg SS);
   movw (Imm 0) (Reg EAX);
   movw (Reg EAX) (Seg FS);
   movw (Reg EAX) (Seg GS)].
Definition seta20 : XM unit :=
  wait_clear 100 2 ;;;
  (let* _ := run [movb (Imm 209) (Reg EAX); outb_al 100] in ret tt) ;;;
  wait_clear 100 2 ;;;
  (let* _ := run [movb (Imm 223) (Reg EAX); outb_al 96] in ret tt).

(** From the first instruction of the boot sector, at [start], to the call of
    bootmain. *)
Definition bootasm (start gdtdesc start32 a_bootmain next : Z) : XM bool :=
  let* _ := run real_segments in
  seta20 ;;;
  let* _ := run (protect gdtdesc start32) in
  run (flat_segments ++ [movl (Imm start) (Reg ESP); call (Imm a_bootmain) next]).

(** What follows when bootmain returns, before the endless loop. *)
Definition boot_failed : list instr :=
  [movw (Imm 35328) (Reg EAX);
   movw (Reg EAX) (Reg EDX);
   outw_ax_dx;
   movw (Imm 35552) (Reg EAX);
   outw_ax_dx].

(** ** entry.S *)

Definition multiboot_header : list Z := [464367618; 0; u32 (- 464367618 - 0)].
Definition paging (pgdir : operand) (cr0_bits : Z) : list instr :=
  [movl (Ctl CR4) (Reg EAX);
   orl (Imm CR4_PSE) (Reg EAX);
   movl (Reg EAX) (Ctl CR4);
   movl pgdir (Reg EAX);
   movl (Reg EAX) (Ctl CR3);
   movl (Ctl CR0) (Reg EAX);
   orl (Imm cr0_bits) (Reg EAX);
   movl (Reg EAX) (Ctl CR0)].
Definition entry (a_pgdir stack a_main : Z) : list instr :=
  paging (Imm (V2P a_pgdir)) (Z.lor CR0_PG CR0_WP) ++
  [movl (Imm (stack + KSTACKSIZE)) (Reg ESP);
   movl (Imm a_main) (Reg EAX);
   jmp (Reg EAX)].

(** ** entryother.S *)

Definition entryother_code (start gdtdesc start32 next : Z) : XM bool :=
  let* _ := run (real_segments ++ protect gdtdesc start32) in
  run (flat_segments ++
       paging (Abs (start - 12)) (Z.lor (Z.lor CR0_PE CR0_PG) CR0_WP) ++
       [movl (Abs (start - 4)) (Reg ESP);
        call (Abs (start - 8)) next]).

(** ** The memory management unit

    Translation of a virtual address through the page directory, with 4 MB
    pages when they are enabled. *)

Definition translate (s : x86) (va : Z) : option Z :=
  if Z.land (x_creg s CR0) CR0_PG =? 0 then Some va
  else
    let pde := ldw (x_mem s) (PTE_ADDR (x_creg s CR3) + 4 * PDX va) in
    if Z.land pde PTE_P =? 0 then None
    else if negb (Z.land (x_creg s CR4) CR4_PSE =? 0) && negb (Z.land pde PTE_PS =? 0)
    then Some (Z.shiftl (Z.shiftr pde 22) 22 + va mod 2 ^ 22)
    else
      let pte := ldw (x_mem s) (PTE_ADDR pde + 4 * PTX va) in
      if Z.land pte PTE_P =? 0 then None else Some (PTE_ADDR pte + va mod PGSIZE).

(** ** Descriptors *)

(** The eight bytes of a segment descriptor, its bit fields in order. *)
Definition segdesc_bytes (d : segdesc) : list Z :=
  le16 (lim_15_0 d) ++ le16 (base_15_0 d) ++
  [base_23_16 d;
   sd_type d + 2 ^ 4 * sd_s d + 2 ^ 5 * sd_dpl d + 2 ^ 7 * sd_p d;
   lim_19_16 d + 2 ^ 4 * sd_avl d + 2 ^ 5 * sd_rsv1 d + 2 ^ 6 * sd_db d + 2 ^ 7 * sd_g d;
   base_31_24 d].

Lemma small_case (P : Z -> bool) n x : forallb P (zseq 0 n) = true -> 0 <= x < n -> P x = true.
Proof.
  intros H Hx. apply (proj1 (List.forallb_forall P (zseq 0 n)) H). apply list_elem_of_In, elem_of_zseq. lia.
Qed.
Lemma land_ones_small x k : 0 <= k -> 0 <= x < 2 ^ k -> Z.land x (Z.ones k) = x.
Proof. intros. rewrite Z.land_ones by done. by apply Z.mod_small. Qed.

Lemma low_bits_land old v mask : 0 <= mask < 256 -> Z.land (low_bits 8 old v) mask = Z.land v mask.
Proof.
  intros Hm. assert (forall x, Z.land x mask = Z.land (x mod 2 ^ 8) mask) as H.
  { intros x. rewrite <-Z.land_ones by lia. rewrite <-Z.land_assoc, (Z.land_comm (Z.ones 8)).
    by rewrite land_ones_small by lia. }
  rewrite H, (H v). f_equal. unfold low_bits. pose proof (Z.div_mod old (2 ^ 8) ltac:(lia)).
  replace (old - old mod 2 ^ 8) with (old / 2 ^ 8 * 2 ^ 8) by lia.
  by rewrite Z.add_comm, Z_mod_plus_full, Z.mod_mod by lia.
Qed.

(** A port that answers busy some times and then ready. *)
Lemma poll_run busy r rest port mask n s :
  x_in s = busy ++ r :: rest -> Forall (fun v => Z.land v mask <> 0) busy -> Z.land r mask = 0 ->
  0 <= mask < 256 -> (length busy < n)%nat ->
  exists v, poll n port mask s = Ok tt (set_reg EAX v (set_in rest s)).
Proof.
  revert n s. induction busy as [|b busy IH]; intros [|n] s Hin Hb Hr Hm Hn; cbn [length] in Hn; try lia; cbn [app] in Hin.
  - exists (low_bits 8 (x_reg s EAX) r). cbn [poll]. erewrite bind_ok.
    2:{ unfold exec_instr, next, bind. rewrite Hin. reflexivity. }
    erewrite bind_ok by reflexivity. by rewrite reg_same, low_bits_land, Hr.
  - apply list.Forall_cons in Hb as [Hb Hbs]. cbn [poll]. erewrite bind_ok.
    2:{ unfold exec_instr, next, bind. rewrite Hin. reflexivity. }
    erewrite bind_ok by reflexivity. rewrite reg_same, low_bits_land by done.
    destruct (Z.eqb_spec (Z.land b mask) 0); [done|].
    destruct (IH n (set_reg EAX (low_bits 8 (x_reg s EAX) b) (set_in (busy ++ r :: rest) s))) as [v E]; try done; [lia|].
    exists v. rewrite E. f_equal. unfold set_reg, set_in. cbn. by destruct (x_regs s).
Qed.
Lemma wait_run busy r rest port mask s :
  x_in s = busy ++ r :: rest -> Forall (fun v => Z.land v mask <> 0) busy -> Z.land r mask = 0 ->
  0 <= mask < 256 -> exists v, wait_clear port mask s = Ok tt (set_reg EAX v (set_in rest s)).
Proof. intros Hin. unfold wait_clear. intros. apply (poll_run busy r); try done. rewrite Hin, length_app. cbn. lia. Qed.

Lemma set_reg_twice r a b s : set_reg r a (set_reg r b s) = set_reg r a s.
Proof. unfold set_reg. cbn. by destruct (x_regs s), r. Qed.
Lemma set_out_reg l r v s : set_out l (set_reg r v s) = set_reg r v (set_out l s).
Proof. done. Qed.
Lemma set_in_reg l r v s : set_in l (set_reg r v s) = set_reg r v (set_in l s).
Proof. done. Qed.
Lemma u8_low a v : u8 (low_bits 8 a v) = u8 v.
Proof.
  unfold u8, low_bits. pose proof (Z.div_mod a (2 ^ 8) ltac:(lia)).
  replace (a - a mod 2 ^ 8) with (a / 2 ^ 8 * 2 ^ 8) by lia.
  by rewrite Z.add_comm, Z_mod_plus_full, Z.mod_mod by lia.
Qed.
Lemma command_run c p s : 0 <= c < 256 -> exists v,
  (let* _ := run [movb (Imm c) (Reg EAX); outb_al p] in ret tt) s =
    Ok tt (set_reg EAX v (set_out ((p, c) :: x_out s) s)).
Proof.
  intros Hc. exists (low_bits 8 (x_reg s EAX) (u32 c)). erewrite bind_ok.
  2:{ erewrite run_next by reflexivity. erewrite run_next by reflexivity. reflexivity. }
  unfold ret. f_equal. rewrite reg_same, u8_low. u32s. replace (u8 c) with c; [done|].
  unfold u8. by rewrite Z.mod_small.
Qed.

(** A20: two waits and two commands. *)
Lemma seta20_run busy1 r1 busy2 r2 rest s :
  x_in s = busy1 ++ r1 :: busy2 ++ r2 :: rest ->
  Forall (fun v => Z.land v 2 <> 0) busy1 -> Z.land r1 2 = 0 ->
  Forall (fun v => Z.land v 2 <> 0) busy2 -> Z.land r2 2 = 0 ->
  exists v, seta20 s = Ok tt (set_reg EAX v (set_out ((96, 223) :: (100, 209) :: x_out s) (set_in rest s))).
Proof.
  intros Hin B1 R1 B2 R2. unfold seta20.
  destruct (wait_run busy1 r1 (busy2 ++ r2 :: rest) 100 2 s Hin B1 R1 ltac:(lia)) as [v1 E1]. rewrite (bind_ok _ _ _ _ _ E1).
  edestruct (command_run 209 100) as [v2 E2]; [lia|]. rewrite (bind_ok _ _ _ _ _ E2). clear E2.
  match goal with |- exists v, bind _ _ ?st = _ =>
    destruct (wait_run busy2 r2 rest 100 2 st eq_refl B2 R2 ltac:(lia)) as [v3 E3] end.
  rewrite (bind_ok _ _ _ _ _ E3). clear E3.
  edestruct (command_run 223 96) as [v4 E4]; [lia|]. rewrite E4. exists v4. f_equal.
  repeat first [rewrite set_out_reg | rewrite set_in_reg | rewrite set_reg_twice]. reflexivity.
Qed.

(** Runs straight-line code instruction by instruction, on a state whose
    registers are known. *)
Ltac banks s :=
  destruct s as [[va vc vd vb vsp vbp vsi vdi] [vcs vds ves vfs vgs vss] [c0 c2 c3 c4] vip vfl [gl gb] vidt
    [tsp tss] vm vin vout].
Ltac fields :=
  unfold x_reg, x_sreg, x_creg;
  cbn [x_regs x_sregs x_cregs x_eip x_eflags x_gdtr x_out x_mem get_regs get_sregs get_cregs
    r_eax r_esp r_cs r_ds r_es r_fs r_gs r_ss r_cr0 r_cr3 r_cr4].
Ltac xstep :=
  lazymatch goal with
  | |- context [run (?i :: ?code) ?s] =>
      let r := eval lazy -[u32 u16 u8 ldw stw Z.add Z.sub Z.land Z.lor Z.ldiff Z.lxor low_bits ldbs of_le
        CR0_PE CR0_PG CR0_WP CR4_PSE] in (exec_instr i s) in
      lazymatch r with
      | Ok false ?s1 => rewrite (run_next i code s s1) by reflexivity
      | Ok true ?s1 => rewrite (run_goes i code s s1) by reflexivity
      end
  end.
Lemma protect_run gdtdesc start32 s : is_u32 start32 -> exists v,
  run (protect gdtdesc start32) s =
    Ok true (set_reg EAX v (set_eip start32 (set_sreg CS 8 (set_creg CR0 (Z.lor (x_creg s CR0) CR0_PE)
      (set_gdtr (of_le (ldbs (x_mem s) gdtdesc 2), ldw (x_mem s) (gdtdesc + 2)) s))))).
Proof.
  intros Hs. exists (Z.lor (x_creg s CR0) CR0_PE). unfold protect. banks s. repeat xstep.
  rewrite (u32_small start32) by done. reflexivity.
Qed.
Lemma real_segments_run s : exists v,
  run real_segments s = Ok false (set_reg EAX v (set_sreg SS 0 (set_sreg ES 0 (set_sreg DS 0
    (set_eflags (Z.ldiff (x_eflags s) FL_IF) s))))).
Proof.
  exists (low_bits 16 (x_reg s EAX) 0). unfold real_segments.
  banks s. repeat xstep. rewrite u16_low, Z.lxor_nilpotent. reflexivity.
Qed.
Lemma flat_segments_run code s : exists v,
  run (flat_segments ++ code) s = run code (set_reg EAX v (set_sreg GS 0 (set_sreg FS 0 (set_sreg SS 16 (set_sreg ES 16 (set_sreg DS 16 s)))))).
Proof.
  unfold flat_segments. cbn [app]. banks s. eexists. do 7 xstep. rewrite !u16_low. reflexivity.
Qed.
(** The page directory's address is a constant or a word in memory. *)
Definition constant (o : operand) (s : x86) : option Z :=
  match o with
  | Imm v => Some (u32 v)
  | Abs p => Some (ldw (x_mem s) (u32 p))
  | _ => None
  end.
Lemma paging_run pgdir bits code s a : constant pgdir s = Some a -> exists v,
  run (paging pgdir bits ++ code) s =
    run code (set_reg EAX v (set_creg CR0 (Z.lor (x_creg s CR0) (u32 bits))
      (set_creg CR3 a (set_creg CR4 (Z.lor (x_creg s CR4) (u32 CR4_PSE)) s)))).
Proof.
  intros Ha. unfold paging. cbn [app]. banks s. eexists.
  destruct pgdir; try done; injection Ha as <-; do 8 xstep; reflexivity.
Qed.

Lemma desc_run m gdtdesc gdt : is_u32 gdt -> ldbs m gdtdesc 6 = gdtdesc_bytes gdt ->
  (of_le (ldbs m gdtdesc 2), ldw m (gdtdesc + 2)) = (23, gdt).
Proof.
  intros Hg H. change 6%nat with (2 + 4)%nat in H. rewrite ldbs_app in H. unfold gdtdesc_bytes in H.
  apply app_inj_1 in H as [H1 H2]; [|done]. change (Z.of_nat 2) with 2 in H2. unfold ldw.
  rewrite H1, H2, of_le_le32 by done. reflexivity.
Qed.

(** ** Theorems *)

(** The boot sector: once the keyboard controller has been ready twice, the
    processor calls bootmain in protected mode with interrupts off, flat
    segments from the boot sector's own GDT, the A20 line commanded on, and
    a stack that grows down from the boot sector. *)
Theorem bootasm_enters start gdt gdtdesc start32 a_bootmain after busy1 r1 busy2 r2 rest s :
  x_in s = busy1 ++ r1 :: busy2 ++ r2 :: rest ->
  Forall (fun v => Z.land v 2 <> 0) busy1 -> Z.land r1 2 = 0 ->
  Forall (fun v => Z.land v 2 <> 0) busy2 -> Z.land r2 2 = 0 ->
  ldbs (x_mem s) gdtdesc 6 = gdtdesc_bytes gdt ->
  4 <= start < 2 ^ 32 -> is_u32 gdt -> is_u32 start32 -> is_u32 a_bootmain -> is_u32 after -> exists s',
  bootasm start gdtdesc start32 a_bootmain after s = Ok true s' /\
  x_eip s' = a_bootmain /\ x_reg s' ESP = start - 4 /\ ldw (x_mem s') (start - 4) = after /\
  x_sreg s' CS = 8 /\ x_sreg s' DS = 16 /\ x_sreg s' ES = 16 /\ x_sreg s' SS = 16 /\
  x_sreg s' FS = 0 /\ x_sreg s' GS = 0 /\
  x_creg s' CR0 = Z.lor (x_creg s CR0) CR0_PE /\ x_gdtr s' = (23, gdt) /\
  x_eflags s' = Z.ldiff (x_eflags s) FL_IF /\
  x_out s' = (96, 223) :: (100, 209) :: x_out s.
Proof.
  intros Hin B1 R1 B2 R2 Hd Hst Hg H32 Hb Ha. unfold bootasm.
  destruct (real_segments_run s) as [v1 E1]. rewrite (bind_ok _ _ _ _ _ E1).
  match goal with |- exists s', bind _ _ ?st = _ /\ _ =>
    destruct (seta20_run busy1 r1 busy2 r2 rest st Hin B1 R1 B2 R2) as [v2 E2] end.
  rewrite (bind_ok _ _ _ _ _ E2). clear E1 E2.
  match goal with |- exists s', bind _ _ ?st = _ /\ _ => destruct (protect_run gdtdesc start32 st H32) as [v3 E3] end.
  rewrite (bind_ok _ _ _ _ _ E3). clear E3.
  match goal with |- exists s', run (_ ++ ?c) ?st = _ /\ _ => destruct (flat_segments_run c st) as [v4 E4] end.
  rewrite E4. clear E4 Hin. banks s. cbn [x_mem] in Hd. do 2 xstep. eexists. split; [reflexivity|].
  fields. rewrite (desc_run _ _ _ Hg Hd). u32s. rewrite !u32_small by done.
  split_and!; try done. by apply ldw_stw_same.
Qed.

(** asm.h's segment descriptors are byte for byte those that mmu.h's SEG
    describes for privilege level 0: the boot sector's segments are the
    kernel's. *)
Theorem SEG_ASM_SEG type base lim : 0 <= type < 16 -> is_u32 base -> is_u32 lim ->
  SEG_ASM type base lim = segdesc_bytes (SEG type base lim 0).
Proof.
  intros Ht Hb Hl. unfold SEG_ASM, segdesc_bytes, SEG.
  cbn [lim_15_0 base_15_0 base_23_16 sd_type sd_s sd_dpl sd_p lim_19_16 sd_avl sd_rsv1 sd_db sd_g base_31_24].
  assert (0 <= Z.shiftr lim 28 < 16) as Hs.
  { unfold is_u32 in Hl. rewrite Z.shiftr_div_pow2 by lia. split; [apply Z.div_pos | apply Z.div_lt_upper_bound]; lia. }
  assert (0 <= Z.shiftr base 24 < 256).
  { unfold is_u32 in Hb. rewrite Z.shiftr_div_pow2 by lia. split; [apply Z.div_pos | apply Z.div_lt_upper_bound]; lia. }
  assert (Z.lor 144 type = type + 2 ^ 4 * 1 + 2 ^ 5 * 0 + 2 ^ 7 * 1) as ->.
  { apply Z.eqb_eq. by apply (small_case (fun t => Z.lor 144 t =? t + 2 ^ 4 * 1 + 2 ^ 5 * 0 + 2 ^ 7 * 1) 16). }
  change 15 with (Z.ones 4). change 255 with (Z.ones 8).
  rewrite (land_ones_small (Z.shiftr lim 28)), (land_ones_small (Z.shiftr base 24)) by lia.
  assert (Z.lor 192 (Z.shiftr lim 28) = Z.shiftr lim 28 + 2 ^ 4 * 0 + 2 ^ 5 * 0 + 2 ^ 6 * 1 + 2 ^ 7 * 1) as ->; [|done].
  apply Z.eqb_eq. by apply (small_case (fun t => Z.lor 192 t =? t + 2 ^ 4 * 0 + 2 ^ 5 * 0 + 2 ^ 6 * 1 + 2 ^ 7 * 1) 16).
Qed.

(** A control register with some bits or-ed in has them. *)
Lemma lor_has x bits b : Z.land (u32 bits) b <> 0 -> (Z.land (Z.lor x (u32 bits)) b =? 0) = false.
Proof.
  intros Hb. apply Z.eqb_neq. rewrite Z.land_lor_distr_l. intros [_ H]%Z.lor_eq_0_iff. done.
Qed.

(** The boot page directory in memory. *)
Definition boot_pgdir (m : mem) (pa : Z) : Prop :=
  forall i, 0 <= i < 1024 -> entrypgdir !! Z.to_nat i = Some (ldw m (pa + 4 * i)).
Lemma boot_translate s pa a i : x_creg s CR3 = pa -> boot_pgdir (x_mem s) pa -> pa mod PGSIZE = 0 ->
  (Z.land (x_creg s CR0) CR0_PG =? 0) = false -> (Z.land (x_creg s CR4) CR4_PSE =? 0) = false ->
  0 <= a < 2 ^ 22 -> i = 0 \/ i = 512 -> translate s (2 ^ 22 * i + a) = Some a.
Proof.
  intros H3 Hp Hal H0 H4 Ha Hi. unfold translate. rewrite H0, H4, H3.
  assert (PTE_ADDR pa = pa) as ->.
  { unfold PTE_ADDR. rewrite <-Z.ldiff_land. change 4095 with (Z.ones 12).
    rewrite Z.ldiff_ones_r, Z.shiftr_div_pow2, Z.shiftl_mul_pow2 by lia. unfold PGSIZE in Hal.
    pose proof (Z.div_mod pa 4096 ltac:(lia)). change (2 ^ 12) with 4096. lia. }
  assert (PDX (2 ^ 22 * i + a) = i) as ->.
  { unfold PDX. rewrite Z.shiftr_div_pow2 by lia. rewrite Z.mul_comm, Z.div_add_l, (Z.div_small a) by lia.
    by destruct Hi as [-> | ->]. }
  assert (ldw (x_mem s) (pa + 4 * i) = 131) as ->.
  { assert (0 <= i < 1024) as Hr by lia. specialize (Hp i Hr). by destruct Hi as [-> | ->]; injection Hp as <-. }
  cbn [negb andb Z.land]. f_equal.
  rewrite (Z.add_comm (2 ^ 22 * i)), (Z.mul_comm (2 ^ 22)), Z_mod_plus_full, Z.mod_small by lia. done.
Qed.

Lemma boot_low_high s pa : x_creg s CR3 = pa -> boot_pgdir (x_mem s) pa -> pa mod PGSIZE = 0 ->
  (Z.land (x_creg s CR0) CR0_PG =? 0) = false -> (Z.land (x_creg s CR4) CR4_PSE =? 0) = false ->
  forall a, 0 <= a < 4 * 2 ^ 20 -> translate s a = Some a /\ translate s (KERNBASE + a) = Some a.
Proof.
  intros H3 Hp Hal H0 H4 a Ha. split.
  - replace a with (2 ^ 22 * 0 + a) at 1 by lia. apply (boot_translate _ pa); auto; lia.
  - replace (KERNBASE + a) with (2 ^ 22 * 512 + a) by klia. apply (boot_translate _ pa); auto; lia.
Qed.

(** C22. The kernel's entry: paging is on with the boot page directory, which
    maps the first 4 MB at 0, where the processor is still executing, and at
    KERNBASE, where main is linked; main is entered on the boot stack. *)
Theorem entry_maps a_pgdir stack a_main s :
  KERNBASE <= a_pgdir < 2 ^ 32 -> a_pgdir mod PGSIZE = 0 -> boot_pgdir (x_mem s) (V2P a_pgdir) ->
  is_u32 (stack + KSTACKSIZE) -> is_u32 a_main -> exists s',
  run (entry a_pgdir stack a_main) s = Ok true s' /\
  x_eip s' = a_main /\ x_reg s' ESP = stack + KSTACKSIZE /\ x_mem s' = x_mem s /\
  forall a, 0 <= a < 4 * 2 ^ 20 -> translate s' a = Some a /\ translate s' (KERNBASE + a) = Some a.
Proof.
  intros Hp Hal Hd Hst Hm. unfold entry.
  destruct (paging_run (Imm (V2P a_pgdir)) (Z.lor CR0_PG CR0_WP)
    [movl (Imm (stack + KSTACKSIZE)) (Reg ESP); movl (Imm a_main) (Reg EAX); jmp (Reg EAX)] s _ eq_refl) as [v ->].
  banks s. cbn [x_mem] in *. do 3 xstep. eexists. split; [reflexivity|]. fields. rewrite !u32_small by done.
  split_and!; try done.
  assert (V2P a_pgdir mod PGSIZE = 0) as Hv.
  { unfold V2P. rewrite u32_small by (unfold is_u32; klia). unfold PGSIZE, KERNBASE in *.
    rewrite Zminus_mod, Hal. done. }
  assert (u32 (V2P a_pgdir) = V2P a_pgdir) as E3 by (apply u32_small, u32_bound).
  pose proof (lor_has c0 (Z.lor CR0_PG CR0_WP) CR0_PG ltac:(done)) as H0.
  pose proof (lor_has c4 CR4_PSE CR4_PSE ltac:(done)) as H4.
  apply (boot_low_high _ (V2P a_pgdir)); [exact E3 | exact Hd | exact Hv | exact H0 | exact H4].
Qed.

(** Where startothers puts the arguments of entryother.S, as the new
    processor sees them with paging off. *)
Section other.
Context `{BI : BootImage}.
Definition ap_base : Z := 28672.
Definition ap_args (stack : Z) (m : mem) : mem :=
  let code := P2V ap_base in
  stw (stw (stw m (code - 4) (u32 (stack + KSTACKSIZE))) (code - 8) mpenter_addr) (code - 12) (V2P entrypgdir_addr).

Lemma ldbs_shift p q k n a : (forall b, a <= b < a + Z.of_nat n -> ldb p b = ldb q (b + k)) ->
  ldbs p a n = ldbs q (a + k) n.
Proof.
  revert a. induction n as [|n IH]; intros a H; cbn [ldbs]; [done|]. rewrite H by lia. f_equal.
  rewrite IH by (intros; apply H; lia). f_equal. lia.
Qed.
Lemma ap_word m stack p : (forall b, ap_base - 12 <= b < ap_base -> ldb p b = ldb (ap_args stack m) (P2V b)) ->
  is_u32 mpenter_addr ->
  ldw p (ap_base - 4) = u32 (stack + KSTACKSIZE) /\ ldw p (ap_base - 8) = mpenter_addr /\
  ldw p (ap_base - 12) = V2P entrypgdir_addr.
Proof.
  intros Hp He.
  assert (forall a, ap_base - 12 <= a <= ap_base - 4 -> ldw p a = ldw (ap_args stack m) (a + KERNBASE)) as H.
  { intros a Ha. unfold ldw. f_equal. apply ldbs_shift. intros b Hb. unfold ap_base in *.
    rewrite Hp by lia. f_equal. unfold P2V. apply u32_small. unfold is_u32. klia. }
  assert (is_u32 (V2P entrypgdir_addr)) by apply u32_bound.
  assert (is_u32 (u32 (stack + KSTACKSIZE))) by apply u32_bound.
  rewrite !H by (unfold ap_base; lia). unfold ap_args, P2V, ap_base.
  rewrite (u32_small (28672 + KERNBASE)) by (unfold is_u32; klia). unfold KERNBASE. split_and!; ldws; done.
Qed.

(** The other processors: with the arguments that startothers leaves below
    the copied code, a processor that starts there calls mpenter in
    protected mode, on the stack allocated for it, with the boot page
    directory mapping the low 4 MB at 0 and at KERNBASE. *)
Theorem ap_enters gdt gdtdesc start32 after stack m s :
  (forall b, ap_base - 12 <= b < ap_base -> ldb (x_mem s) b = ldb (ap_args stack m) (P2V b)) ->
  ldbs (x_mem s) gdtdesc 6 = gdtdesc_bytes gdt -> boot_pgdir (x_mem s) (V2P entrypgdir_addr) ->
  V2P entrypgdir_addr mod PGSIZE = 0 -> V2P entrypgdir_addr < PHYSTOP ->
  is_u32 mpenter_addr -> KERNBASE <= stack < 2 ^ 32 - KSTACKSIZE ->
  is_u32 gdt -> is_u32 start32 -> is_u32 after -> exists s',
  entryother_code ap_base gdtdesc start32 after s = Ok true s' /\
  x_eip s' = mpenter_addr /\ x_reg s' ESP = stack + KSTACKSIZE - 4 /\
  x_sreg s' CS = 8 /\ x_sreg s' DS = 16 /\ x_sreg s' SS = 16 /\
  x_gdtr s' = (23, gdt) /\ x_eflags s' = Z.ldiff (x_eflags s) FL_IF /\
  forall a, 0 <= a < 4 * 2 ^ 20 -> translate s' a = Some a /\ translate s' (KERNBASE + a) = Some a.
Proof.
  intros Hargs Hd Hpd Hal Htop Hmp Hst Hg H32 Haf.
  destruct (ap_word m stack (x_mem s) Hargs Hmp) as (W4 & W8 & W12). unfold entryother_code.
  destruct (real_segments_run s) as [v1 E1].
  match type of E1 with _ = Ok _ ?st => destruct (protect_run gdtdesc start32 st H32) as [v2 E2] end.
  rewrite <-(run_app_next _ _ _ _ E1) in E2. rewrite (bind_ok _ _ _ _ _ E2). clear E1 E2.
  match goal with |- exists s', run (_ ++ ?c) ?st = _ /\ _ => destruct (flat_segments_run c st) as [v3 ->] end.
  match goal with |- exists s', run (paging ?o ?b ++ ?c) ?st = _ /\ _ => destruct (paging_run o b c st _ eq_refl) as [v4 ->] end.
  banks s. cbn [x_mem] in *. do 2 xstep.
  change (u32 (28672 - 4)) with (ap_base - 4). change (u32 (28672 - 8)) with (ap_base - 8).
  change (u32 (28672 - 12)) with (ap_base - 12). rewrite W4, W8, W12.
  rewrite (u32_small (stack + KSTACKSIZE)) by (unfold is_u32; klia).
  rewrite (u32_small (stack + KSTACKSIZE - 4)) by (unfold is_u32; klia).
  eexists. split; [reflexivity|]. fields. split_and!; try done.
  { exact (desc_run _ _ _ Hg Hd). }
  pose proof (lor_has (Z.lor c0 CR0_PE) (Z.lor (Z.lor CR0_PE CR0_PG) CR0_WP) CR0_PG ltac:(done)) as H0.
  pose proof (lor_has c4 CR4_PSE CR4_PSE ltac:(done)) as H4.
  apply (boot_low_high _ (V2P entrypgdir_addr)); [reflexivity | | exact Hal | exact H0 | exact H4].
  intros i Hi. rewrite (Hpd i Hi). f_equal. symmetry. cbn [x_mem]. apply ldw_stw_ne. left.
  unfold PHYSTOP, KERNBASE, KSTACKSIZE in *. lia.
Qed.
End other.

(** ** Instances of the theorems *)

Definition sample_boot (m : mem) (inputs : list Z) : x86 :=
  mk_x86 (mk_regs 0 0 0 0 0 0 0 0) (mk_sregs 0 0 0 0 0 0) (mk_cregs 0 0 0 0) 31744 514 (0, 0) [] (0, 0) m inputs [].
Lemma bootasm_enters_witness : exists s',
  bootasm 31744 31880 31820 32000 31840 (sample_boot (stbs ∅ 31880 (gdtdesc_bytes 31856)) [2; 2; 0; 6; 1]) = Ok true s' /\
  x_eip s' = 32000 /\ x_gdtr s' = (23, 31856).
Proof.
  destruct (bootasm_enters 31744 31856 31880 31820 32000 31840 [2; 2] 0 [6] 1 []
    (sample_boot (stbs ∅ 31880 (gdtdesc_bytes 31856)) [2; 2; 0; 6; 1])) as (s' & E & I & _ & _ & _ & _ & _ & _ & _ & _ & _ & G & _);
    try done.
  - by repeat apply Forall_cons_2.
  - by repeat apply Forall_cons_2.
  - by exists s'.
Defined.
Lemma SEG_ASM_SEG_witness : SEG_ASM 10 0 4294967295 = [255; 255; 0; 0; 0; 154; 207; 0].
Proof. rewrite (SEG_ASM_SEG 10 0 4294967295) by (unfold is_u32; lia). reflexivity. Defined.
Definition sample_pd : mem := stw (stw ∅ 1052672 131) 1054720 131.
Lemma sample_pd_ok : boot_pgdir sample_pd 1052672.
Proof.
  intros i Hi. destruct (lookup_lt_is_Some_2 entrypgdir (Z.to_nat i)) as [v Hv].
  { change (length entrypgdir) with 1024%nat. lia. }
  rewrite Hv. f_equal. apply Z.eqb_eq. change v with (default (-1) (Some v)). rewrite <-Hv.
  apply (small_case (fun i => default (-1) (entrypgdir !! Z.to_nat i) =? ldw sample_pd (1052672 + 4 * i)) 1024); [|done].
  vm_compute. reflexivity.
Qed.
Lemma entry_maps_witness : exists s', run (entry (KERNBASE + 1052672) 2148540416 2148536320) (sample_boot sample_pd []) = Ok true s' /\
  translate s' (KERNBASE + 4096) = Some 4096.
Proof.
  destruct (entry_maps (KERNBASE + 1052672) 2148540416 2148536320 (sample_boot sample_pd [])) as (s' & E & _ & _ & _ & T).
  - done.
  - reflexivity.
  - exact sample_pd_ok.
  - done.
  - done.
  - exists s'. split; [exact E|]. by apply T.
Defined.

#[local] Instance sample_image : BootImage := {| entryother := []; mpenter_addr := 2148536320; entrypgdir_addr := KERNBASE + 1052672 |}.
Definition sample_low : mem :=
  stbs (stw (stw (stw sample_pd 28668 (KERNBASE + 2097152 + KSTACKSIZE)) 28664 2148536320) 28660 1052672) 28900 (gdtdesc_bytes 28876).
Lemma ap_enters_witness : exists s', entryother_code ap_base 28900 28720 28800 (sample_boot sample_low []) = Ok true s' /\
  x_eip s' = mpenter_addr.
Proof.
  destruct (ap_enters 28876 28900 28720 28800 (KERNBASE + 2097152) ∅ (sample_boot sample_low [])) as (s' & E & I & _).
  - intros b Hb. apply Z.eqb_eq.
    replace b with (28660 + (b - 28660)) by lia.
    apply (small_case (fun j => ldb sample_low (28660 + j) =? ldb (ap_args (KERNBASE + 2097152) ∅) (P2V (28660 + j))) 12);
      [by vm_compute | unfold ap_base in Hb; lia].
  - vm_compute. reflexivity.
  - intros i Hi. rewrite (sample_pd_ok i Hi). f_equal. apply ldw_frame. intros b Hb.
    change (V2P entrypgdir_addr) with 1052672 in Hb. cbn [sample_boot x_mem]. unfold sample_low. rewrite ldb_stbs_ne by (cbn; lia). by rewrite !ldb_stw_ne by lia.
  - reflexivity.
  - reflexivity.
  - done.
  - done.
  - done.
  - done.
  - done.
  - by exists s'.
Defined.
