(* ===== verification/Bootmain.v ===== *)
(** * The boot loader (bootmain.c)

    Loads the kernel's ELF image from the disk, sector by sector.  The disk
    controller is its registers: the block address and count are latched by
    writes to the ports, the read command makes the addressed sector
    available on the data port, and reads of the status port return what
    the controller answers, one status after the other.  The disk's contents
    are a parameter. *)

From Stdlib Require Import ZArith Lia.
From stdpp Require Import base gmap list strings numbers.
From S2P Require Import Prelude Strings.

Import string_c string_facts.
Open Scope Z_scope.

Definition SECTSIZE : Z := 512.

Class BootDisk := sector : Z -> list Z.

Record loader := mk_loader {
  ld_mem : mem;
  ld_status : list Z;     (* what the status port will answer *)
  ld_latch : gmap Z Z;    (* the bytes written to ports 0x1F2 to 0x1F6 *)
  ld_data : list Z }.     (* what the data port will deliver *)
Definition set_ld_mem (m : mem) (s : loader) : loader := mk_loader m (ld_status s) (ld_latch s) (ld_data s).
Definition set_ld_status (l : list Z) (s : loader) : loader := mk_loader (ld_mem s) l (ld_latch s) (ld_data s).
Definition LM (A : Type) : Type := M loader A.

Section bootmain.
Context `{BD : BootDisk}.

(** ** The controller *)

Definition latched (s : loader) (port : Z) : Z := default 0 (ld_latch s !! port).
Definition lba (s : loader) : Z :=
  latched s 499 + 2 ^ 8 * latched s 500 + 2 ^ 16 * latched s 501 + 2 ^ 24 * Z.land (latched s 502) 15.
Definition outb (port v : Z) : LM unit :=
  modify (fun s =>
    if (port =? 503) && (u8 v =? 32)
    then mk_loader (ld_mem s) (ld_status s) (ld_latch s) (sector (lba s))
    else mk_loader (ld_mem s) (ld_status s) (<[port := u8 v]> (ld_latch s)) (ld_data s)).
Definition insl (addr cnt : Z) : LM unit :=
  modify (fun s =>
    let n := Z.to_nat (4 * cnt) in
    mk_loader (stbs (ld_mem s) addr (take n (ld_data s))) (ld_status s) (ld_latch s) (drop n (ld_data s))).

(** ** The loader *)

Fixpoint waitdisk_loop (answers : list Z) : LM unit :=
  match answers with
  | [] => hang
  | v :: answers =>
      modify (set_ld_status answers) ;;;
      if Z.land v 192 =? 64 then ret tt else waitdisk_loop answers
  end.
Definition waitdisk : LM unit := let* l := reads ld_status in waitdisk_loop l.

Definition readsect (dst offset : Z) : LM unit :=
  waitdisk ;;;
  outb 498 1 ;;;
  outb 499 offset ;;;
  outb 500 (Z.shiftr offset 8) ;;;
  outb 501 (Z.shiftr offset 16) ;;;
  outb 502 (Z.lor (Z.shiftr offset 24) 224) ;;;
  outb 503 32 ;;;
  waitdisk ;;;
  insl dst (SECTSIZE / 4).

(** The loop of readseg, with a bound on its turns. *)
Fixpoint readseg_loop (n : nat) (pa epa offset : Z) : LM unit :=
  if pa <? epa then
    match n with
    | O => hang
    | S n => readsect pa offset ;;; readseg_loop n (u32 (pa + SECTSIZE)) epa (u32 (offset + 1))
    end
  else ret tt.
Definition readseg (pa count offset : Z) : LM unit :=
  let epa := u32 (pa + count) in
  let pa := u32 (pa - offset mod SECTSIZE) in
  let offset := offset / SECTSIZE + 1 in
  readseg_loop (Z.to_nat ((epa - pa) / SECTSIZE + 1)) pa epa offset.

(** Program headers, as the loader uses them. *)
Record segment := mk_segment { sg_paddr : Z; sg_filesz : Z; sg_memsz : Z; sg_off : Z }.
Definition segment_at (m : mem) (ph : Z) : segment :=
  mk_segment (ldw m (ph + 12)) (ldw m (ph + 16)) (ldw m (ph + 20)) (ldw m (ph + 4)).
Definition load_segment (ph : Z) : LM unit :=
  let* m := reads ld_mem in
  let g := segment_at m ph in
  readseg (sg_paddr g) (sg_filesz g) (sg_off g) ;;;
  when sg_filesz g <? sg_memsz g do
    modify (fun s => set_ld_mem (stosb (ld_mem s) (sg_paddr g + sg_filesz g) 0 (Z.to_nat (sg_memsz g - sg_filesz g))) s).

Definition ELF_MAGIC : Z := 1179403647.
Definition elf : Z := 65536.

(** bootmain, up to the jump: the entry point, or nothing when it returns
    because the image is not an ELF executable. *)
Definition bootmain : LM (option Z) :=
  readseg elf 4096 0 ;;;
  let* m := reads ld_mem in
  if negb (ldw m elf =? ELF_MAGIC) then ret None
  else
    let ph := elf + ldw m (elf + 28) in
    let phnum := of_le (ldbs m (elf + 44) 2) in
    for_each (zseq 0 phnum) (fun i => load_segment (ph + 32 * i)) ;;;
    let* m := reads ld_mem in
    ret (Some (ldw m (elf + 24))).

(** ** Facts *)

(** The image that the loader reads starts in sector 1. *)
Definition image_byte (i : Z) : Z := nth (Z.to_nat (i mod SECTSIZE)) (sector (1 + i / SECTSIZE)) 0.
Class SectorsOk : Prop := {
  sector_length : forall n, length (sector n) = Z.to_nat SECTSIZE;
  sector_bytes : forall n, Forall is_u8 (sector n) }.

(** How often the controller will be ready. *)
Definition ready (v : Z) : bool := Z.land v 192 =? 64.
Definition readies (s : loader) : nat := length (filter (fun v => ready v = true) (ld_status s)).

Lemma waitdisk_run s k : readies s = S k -> exists l,
  waitdisk s = Ok tt (set_ld_status l s) /\ readies (set_ld_status l s) = k.
Proof.
  unfold waitdisk, readies. unfold bind, reads at 1. cbn [ld_status set_ld_status].
  assert (forall l s0, set_ld_status l (set_ld_status s0 s) = set_ld_status l s) as Hs by done.
  cut (forall l0 s0, (exists s1, s0 = set_ld_status s1 s) -> length (filter (fun v => ready v = true) l0) = S k -> exists l,
    waitdisk_loop l0 s0 = Ok tt (set_ld_status l s) /\ length (filter (fun v => ready v = true) l) = k).
  { intros H Hk. apply H; [|done]. exists (ld_status s). by destruct s. }
  induction l0 as [|v l0 IH]; intros s0 [s1 ->]; [done|]. rewrite filter_cons. cbn [waitdisk_loop].
  unfold bind, modify. rewrite Hs. fold (ready v). destruct (ready v) eqn:E; cbn.
  - intros [= H]. by exists l0.
  - intros H. destruct (IH (set_ld_status l0 s)) as (l & Hl & Hk); [by exists l0 | done|]. by exists l.
Qed.

Lemma lba_bytes n : 0 <= n < 2 ^ 28 ->
  u8 n + 2 ^ 8 * u8 (Z.shiftr n 8) + 2 ^ 16 * u8 (Z.shiftr n 16) + 2 ^ 24 * Z.land (u8 (Z.lor (Z.shiftr n 24) 224)) 15 = n.
Proof.
  intros Hn.
  assert (Z.land (u8 (Z.lor (Z.shiftr n 24) 224)) 15 = Z.shiftr n 24) as ->.
  { unfold u8. rewrite <-Z.land_ones by lia. rewrite <-Z.land_assoc. change (Z.land (Z.ones 8) 15) with 15.
    rewrite Z.land_lor_distr_l. change (Z.land 224 15) with 0. rewrite Z.lor_0_r.
    change 15 with (Z.ones 4). rewrite Z.land_ones by lia. apply Z.mod_small.
    rewrite Z.shiftr_div_pow2 by lia. split; [apply Z.div_pos | apply Z.div_lt_upper_bound]; lia. }
  unfold u8. rewrite !Z.shiftr_div_pow2 by lia.
  pose proof (Z.div_mod n (2 ^ 8) ltac:(lia)).
  replace (n / 2 ^ 16) with (n / 2 ^ 8 / 2 ^ 8) by (rewrite Z.div_div by lia; done).
  replace (n / 2 ^ 24) with (n / 2 ^ 8 / 2 ^ 8 / 2 ^ 8) by (rewrite !Z.div_div by lia; done).
  pose proof (Z.div_mod (n / 2 ^ 8) (2 ^ 8) ltac:(lia)).
  pose proof (Z.div_mod (n / 2 ^ 8 / 2 ^ 8) (2 ^ 8) ltac:(lia)). lia.
Qed.

Section loading.
Context `{SO : !SectorsOk}.

Definition command (n : Z) : LM unit :=
  outb 498 1 ;;;
  outb 499 n ;;;
  outb 500 (Z.shiftr n 8) ;;;
  outb 501 (Z.shiftr n 16) ;;;
  outb 502 (Z.lor (Z.shiftr n 24) 224) ;;;
  outb 503 32.
Lemma command_reads n s : 0 <= n < 2 ^ 28 -> exists latch,
  command n s = Ok tt (mk_loader (ld_mem s) (ld_status s) latch (sector n)).
Proof.
  intros Hn.
  exists (<[502 := u8 (Z.lor (Z.shiftr n 24) 224)]> (<[501 := u8 (Z.shiftr n 16)]> (<[500 := u8 (Z.shiftr n 8)]>
    (<[499 := u8 n]> (<[498 := u8 1]> (ld_latch s)))))).
  unfold command, outb, bind, modify. cbn [Z.eqb Pos.eqb andb ld_mem ld_status ld_latch ld_data]. change (u8 32 =? 32) with true.
  cbn iota. do 3 f_equal. unfold lba, latched. cbn [ld_latch].
  rewrite (lookup_insert_ne _ 502 499), (lookup_insert_ne _ 501 499), (lookup_insert_ne _ 500 499), lookup_insert_eq by done.
  rewrite (lookup_insert_ne _ 502 500), (lookup_insert_ne _ 501 500), lookup_insert_eq by done.
  rewrite (lookup_insert_ne _ 502 501), lookup_insert_eq, lookup_insert_eq by done.
  by apply lba_bytes.
Qed.

Lemma readsect_run dst n s k : readies s = S (S k) -> 0 <= n < 2 ^ 28 -> exists s',
  readsect dst n s = Ok tt s' /\ readies s' = k /\ ld_mem s' = stbs (ld_mem s) dst (sector n).
Proof.
  intros Hr Hn. assert (readsect dst n s = (waitdisk ;;; command n ;;; waitdisk ;;; insl dst (SECTSIZE / 4)) s) as ->.
  { unfold readsect, command, bind. destruct (waitdisk s); reflexivity. }
  destruct (waitdisk_run s _ Hr) as (l1 & E1 & R1). rewrite (bind_ok _ _ _ _ _ E1).
  destruct (command_reads n (set_ld_status l1 s) Hn) as (lt & E2). rewrite (bind_ok _ _ _ _ _ E2).
  match goal with |- exists s', bind _ _ ?st = _ /\ _ => destruct (waitdisk_run st k R1) as (l2 & E3 & R2) end.
  rewrite (bind_ok _ _ _ _ _ E3). eexists. split; [reflexivity|]. split; [exact R2|]. cbn [ld_mem ld_data set_ld_status].
  by rewrite take_ge by (rewrite sector_length; done).
Qed.

(** The number of sectors that cover [pa, epa). *)
Definition sectors (pa epa : Z) : Z := (epa - pa + SECTSIZE - 1) / SECTSIZE.

(** [m'] is [m] with the bytes of the image from [i] on stored in [a, b). *)
Definition filled (m : mem) (a b i : Z) (m' : mem) : Prop :=
  forall c, ldb m' c = if decide (a <= c < b) then image_byte (i + (c - a)) else ldb m c.

Lemma sector_filled m a n : 0 <= n -> filled m a (a + SECTSIZE) (SECTSIZE * n) (stbs m a (sector (1 + n))).
Proof.
  intros Hn c. rewrite ldb_stbs, sector_length. unfold SECTSIZE. change (Z.of_nat (Z.to_nat 512)) with 512.
  destruct (decide (a <= c < a + 512)); [|done]. unfold image_byte, SECTSIZE.
  replace (512 * n + (c - a)) with (c - a + n * 512) by lia.
  rewrite Z_mod_plus_full, Z.div_add, (Z.div_small (c - a)), Z.mod_small by lia. rewrite Z.add_0_l. apply u8_small.
  destruct (lookup_lt_is_Some_2 (sector (1 + n)) (Z.to_nat (c - a))) as [v Hv].
  { rewrite sector_length. unfold SECTSIZE. lia. }
  rewrite (nth_lookup_Some _ _ _ _ Hv). by eapply Forall_lookup_1; [apply sector_bytes|].
Qed.
Lemma filled_app m a b d i m1 m2 : a <= b <= d -> filled m a b i m1 -> filled m1 b d (i + (b - a)) m2 -> filled m a d i m2.
Proof.
  intros Hb H1 H2 c. rewrite H2, H1. repeat case_decide; try lia; try done. f_equal. lia.
Qed.

Lemma sectors_none pa epa : epa <= pa < epa + SECTSIZE -> sectors pa epa = 0.
Proof. intros. unfold sectors, SECTSIZE in *. apply Z.div_small. lia. Qed.
Lemma readseg_loop_run n : forall pa epa o s, 0 <= pa -> epa + SECTSIZE <= 2 ^ 32 -> 0 <= o -> o + Z.of_nat n < 2 ^ 28 - 1 ->
  epa - pa <= SECTSIZE * Z.of_nat n -> 2 * sectors pa epa <= Z.of_nat (readies s) -> pa < epa + SECTSIZE -> exists s',
  readseg_loop n pa epa (1 + o) s = Ok tt s' /\
  Z.of_nat (readies s') = Z.of_nat (readies s) - 2 * sectors pa epa /\
  filled (ld_mem s) pa (pa + SECTSIZE * sectors pa epa) (SECTSIZE * o) (ld_mem s').
Proof.
  induction n as [|n IH]; intros pa epa o s Hpa Hepa Ho Hn Hk Hr Hle; cbn [readseg_loop];
    destruct (Z.ltb_spec pa epa) as [Hlt|Hge].
  - unfold SECTSIZE in Hk. lia.
  - rewrite (sectors_none pa epa) by lia. exists s. split_and!; [done | lia |]. intros c. by rewrite decide_False by lia.
  - assert (sectors pa epa = 1 + sectors (pa + SECTSIZE) epa) as Es.
    { unfold sectors, SECTSIZE. replace (epa - pa + 512 - 1) with (epa - (pa + 512) + 512 - 1 + 1 * 512) by lia.
      rewrite Z.div_add by lia. lia. }
    assert (0 <= sectors (pa + SECTSIZE) epa) as Hs0 by (unfold sectors, SECTSIZE; apply Z.div_pos; lia).
    destruct (readies s) as [|[|k]] eqn:Er; [lia | lia |].
    destruct (readsect_run pa (1 + o) s k Er ltac:(lia)) as (s1 & E1 & R1 & M1). rewrite (bind_ok _ _ _ _ _ E1).
    rewrite (u32_small (pa + SECTSIZE)), (u32_small (1 + o + 1)) by (unfold is_u32, SECTSIZE in *; lia).
    replace (1 + o + 1) with (1 + (o + 1)) by lia.
    destruct (IH (pa + SECTSIZE) epa (o + 1) s1) as (s' & E & R & F); try (unfold SECTSIZE in *; lia).
    exists s'. split; [done|]. split; [lia|].
    apply (filled_app _ _ (pa + SECTSIZE) _ _ (ld_mem s1)); [unfold SECTSIZE in *; lia | rewrite M1; by apply sector_filled |].
    replace (pa + SECTSIZE * sectors pa epa) with (pa + SECTSIZE + SECTSIZE * sectors (pa + SECTSIZE) epa) by lia.
    by replace (SECTSIZE * o + (pa + SECTSIZE - pa)) with (SECTSIZE * (o + 1)) by lia.
  - rewrite (sectors_none pa epa) by lia. exists s. split_and!; [done | lia |]. intros c. by rewrite decide_False by lia.
Qed.

(** readseg: the range that is asked for holds the image's bytes; what else
    is written lies in the first and last sector. *)
Lemma readseg_run pa count off s : 0 <= off -> off mod SECTSIZE <= pa -> 0 <= count -> pa + count + SECTSIZE <= 2 ^ 32 ->
  off + count < 2 ^ 32 ->
  let lo := pa - off mod SECTSIZE in
  let hi := lo + SECTSIZE * sectors lo (pa + count) in
  2 * sectors lo (pa + count) <= Z.of_nat (readies s) -> exists s',
  readseg pa count off s = Ok tt s' /\
  Z.of_nat (readies s') = Z.of_nat (readies s) - 2 * sectors lo (pa + count) /\
  pa + count <= hi /\ filled (ld_mem s) lo hi (off - off mod SECTSIZE) (ld_mem s').
Proof.
  intros Ho Hpa Hc Htop Hoc lo hi Hr. unfold readseg. pose proof (Z.mod_pos_bound off SECTSIZE ltac:(done)).
  rewrite (u32_small (pa + count)), (u32_small (pa - off mod SECTSIZE)) by (unfold is_u32, SECTSIZE in *; lia). fold lo.
  pose proof (Z.div_mod off SECTSIZE ltac:(done)). pose proof (Z.div_mod (pa + count - lo) SECTSIZE ltac:(done)).
  pose proof (Z.mod_pos_bound (pa + count - lo) SECTSIZE ltac:(done)).
  assert (0 <= off / SECTSIZE) by (apply Z.div_pos; done).
  assert (0 <= (pa + count - lo) / SECTSIZE) by (apply Z.div_pos; [lia | done]).
  destruct (readseg_loop_run (Z.to_nat ((pa + count - lo) / SECTSIZE + 1)) lo (pa + count) (off / SECTSIZE) s)
    as (s' & E & R & F); try (unfold SECTSIZE in *; lia).
  exists s'. rewrite (Z.add_comm (off / SECTSIZE) 1). split; [done|].
  split; [done|]. split.
  - unfold hi, sectors. pose proof (Z.div_mod (pa + count - lo + SECTSIZE - 1) SECTSIZE ltac:(done)).
    pose proof (Z.mod_pos_bound (pa + count - lo + SECTSIZE - 1) SECTSIZE ltac:(done)). lia.
  - by replace (off - off mod SECTSIZE) with (SECTSIZE * (off / SECTSIZE)) by lia.
Qed.

(** ** What the loader promises *)

(** The image's header, as its bytes say. *)
Definition image_bytes (i : Z) (n : nat) : list Z := image_byte <$> zseq i (Z.of_nat n).
Definition image_word (i : Z) : Z := of_le (image_bytes i 4).
Definition image_phoff : Z := image_word 28.
Definition image_phnum : Z := of_le (image_bytes 44 2).
Definition image_segment (i : Z) : segment :=
  mk_segment (image_word (i + 12)) (image_word (i + 16)) (image_word (i + 20)) (image_word (i + 4)).
Definition image_segments : list segment := (fun i => image_segment (image_phoff + 32 * i)) <$> zseq 0 image_phnum.

Definition loaded (m : mem) (g : segment) : Prop :=
  (forall i, 0 <= i < sg_filesz g -> ldb m (sg_paddr g + i) = image_byte (sg_off g + i)) /\
  (forall i, sg_filesz g <= i < sg_memsz g -> ldb m (sg_paddr g + i) = 0).

(** A segment that occupies nothing, such as the stack's; where a segment
    starts to be written and where it ends. *)
Definition vacant (g : segment) : bool := (sg_filesz g =? 0) && (sg_memsz g =? 0) && (sg_off g mod SECTSIZE =? 0).
Definition first (g : segment) : Z := sg_paddr g - sg_off g mod SECTSIZE.
Definition past (g : segment) : Z := sg_paddr g + Z.max (sg_filesz g) (sg_memsz g).
(** The segments come in increasing order, the first one not below [cur]. *)
Fixpoint ordered (cur : Z) (gs : list segment) : bool :=
  match gs with
  | [] => true
  | g :: gs =>
      (past g + SECTSIZE <=? 2 ^ 32) && (sg_off g + sg_filesz g <? 2 ^ 32) &&
      (vacant g || (cur <=? first g)) && ordered (if vacant g then cur else past g) gs
  end.
(** The sectors that loading them reads. *)
Definition cost (gs : list segment) : Z :=
  foldr (fun g n => sectors (first g) (sg_paddr g + sg_filesz g) + n) 0 gs.

(** The scratch page holds the image's first page. *)
Definition scratch (m : mem) : Prop := forall c, elf <= c < elf + 4096 -> ldb m c = image_byte (c - elf).

Lemma image_byte_u8 i : 0 <= i -> is_u8 (image_byte i).
Proof.
  intros Hi. unfold image_byte. pose proof (Z.mod_pos_bound i SECTSIZE ltac:(done)).
  destruct (lookup_lt_is_Some_2 (sector (1 + i / SECTSIZE)) (Z.to_nat (i mod SECTSIZE))) as [v Hv].
  { rewrite sector_length. lia. }
  rewrite (nth_lookup_Some _ _ _ _ Hv). by eapply Forall_lookup_1; [apply sector_bytes|].
Qed.
Lemma image_bytes_bound i n : 0 <= i -> 0 <= of_le (image_bytes i n) < 2 ^ (8 * Z.of_nat n).
Proof.
  intros Hi. replace n with (length (image_bytes i n)) at 3 by (unfold image_bytes; rewrite length_fmap, zseq_length; lia).
  apply of_le_bound, Forall_fmap, Forall_lookup_2. intros k z Hz.
  pose proof (lookup_lt_Some _ _ _ Hz) as Hk. rewrite zseq_length in Hk. rewrite zseq_lookup in Hz by done.
  simplify_eq. apply image_byte_u8. lia.
Qed.
Lemma scratch_bytes m i n : scratch m -> 0 <= i -> i + Z.of_nat n <= 4096 -> ldbs m (elf + i) n = image_bytes i n.
Proof.
  intros Hm Hi Hn. apply list_eq_same_length with (n := n); [|apply ldbs_length|].
  { unfold image_bytes. rewrite length_fmap, zseq_length. lia. }
  intros k x y Hk. rewrite ldbs_lookup by done. unfold image_bytes. rewrite list_lookup_fmap, zseq_lookup by lia. cbn.
  intros [= <-] [= <-]. rewrite Hm by lia. f_equal. lia.
Qed.
Lemma scratch_word m i : scratch m -> 0 <= i -> i + 4 <= 4096 -> ldw m (elf + i) = image_word i.
Proof. intros. unfold ldw, image_word. f_equal. by apply scratch_bytes. Qed.

Lemma sectors_nonneg a b : a <= b -> 0 <= sectors a b.
Proof. intros. apply Z.div_pos; unfold SECTSIZE; lia. Qed.

(** One segment: its bytes are loaded, the rest of it is zero, and nothing
    below it changes; a vacant segment changes nothing. *)
Lemma load_segment_run ph g cur s : segment_at (ld_mem s) ph = g ->
  0 <= sg_paddr g -> 0 <= sg_filesz g -> 0 <= sg_memsz g -> 0 <= sg_off g -> ordered cur [g] = true -> 0 <= cur ->
  2 * sectors (first g) (sg_paddr g + sg_filesz g) <= Z.of_nat (readies s) -> exists s',
  load_segment ph s = Ok tt s' /\
  Z.of_nat (readies s') = Z.of_nat (readies s) - 2 * sectors (first g) (sg_paddr g + sg_filesz g) /\
  loaded (ld_mem s') g /\
  (forall c, c < cur -> ldb (ld_mem s') c = ldb (ld_mem s) c).
Proof.
  intros Eg Hp Hf Hm Ho Hord Hcur Hr. cbn [ordered] in Hord. rewrite !andb_true_iff, orb_true_iff in Hord.
  destruct Hord as [[[Htop Hoff] Hpl] _]. unfold past in *. fold (first g).
  pose proof (Z.mod_pos_bound (sg_off g) SECTSIZE ltac:(done)).
  assert (vacant g = true -> sg_filesz g = 0 /\ sg_memsz g = 0 /\ sg_off g mod SECTSIZE = 0) as Hv.
  { unfold vacant. rewrite !andb_true_iff. lia. }
  unfold first in *.
  destruct (readseg_run (sg_paddr g) (sg_filesz g) (sg_off g) s) as (s1 & E1 & R1 & H1 & F1); try lia.
  { destruct Hpl as [Hg|]; [|lia]. destruct (Hv Hg) as (_ & _ & ->). lia. }
  assert (forall i, 0 <= i < sg_filesz g -> ldb (ld_mem s1) (sg_paddr g + i) = image_byte (sg_off g + i)) as Hl.
  { intros i Hi. rewrite F1, decide_True by lia. f_equal. lia. }
  assert (forall c, c < cur -> ldb (ld_mem s1) c = ldb (ld_mem s) c) as Hfr.
  { intros c Hc. rewrite F1. destruct Hpl as [Hg|]; [|by rewrite decide_False by lia].
    destruct (Hv Hg) as (E0 & _ & Eo). rewrite (sectors_none _ (sg_paddr g + sg_filesz g)) by (unfold SECTSIZE in *; lia).
    by rewrite decide_False by lia. }
  unfold load_segment. unfold bind at 1, reads at 1. rewrite Eg. rewrite (bind_ok _ _ _ _ _ E1).
  destruct (Z.ltb_spec (sg_filesz g) (sg_memsz g)) as [Hlt|Hge].
  - eexists. split; [reflexivity|]. cbn [ld_mem set_ld_mem]. split; [exact R1|]. split; [split|].
    + intros i Hi. rewrite ldb_stosb, decide_False by lia. by apply Hl.
    + intros i Hi. rewrite ldb_stosb, decide_True by lia. done.
    + intros c Hc. rewrite ldb_stosb. rewrite decide_False; [by apply Hfr|]. destruct Hpl as [Hg|]; [apply Hv in Hg; lia | lia].
  - exists s1. split; [done|]. split; [exact R1|]. split; [split; [done | lia] | done].
Qed.

Lemma loaded_frame m m' g : (forall c, c < past g -> ldb m' c = ldb m c) -> loaded m g -> loaded m' g.
Proof. unfold past. intros H [H1 H2]. split; intros i Hi; rewrite H by lia; auto. Qed.

Lemma image_segment_nonneg i : 0 <= i -> let g := image_segment i in
  0 <= sg_paddr g /\ 0 <= sg_filesz g /\ 0 <= sg_memsz g /\ 0 <= sg_off g.
Proof. intros Hi. cbn. unfold image_word. split_and!; apply image_bytes_bound; lia. Qed.

Lemma segment_at_image m i : scratch m -> 0 <= i -> i + 32 <= 4096 -> segment_at m (elf + i) = image_segment i.
Proof.
  intros Hm Hi Hb. unfold segment_at, image_segment.
  f_equal; rewrite <-Z.add_assoc; (apply scratch_word; [done | lia | lia]).
Qed.

Lemma cost_nonneg gs : Forall (fun g => 0 <= sg_filesz g) gs -> 0 <= cost gs.
Proof.
  induction 1 as [|g gs Hg _ IH]; cbn; [lia|]. pose proof (Z.mod_pos_bound (sg_off g) SECTSIZE ltac:(done)).
  pose proof (sectors_nonneg (first g) (sg_paddr g + sg_filesz g) ltac:(unfold first; lia)). unfold cost in IH. lia.
Qed.

Lemma image_cost_nonneg i n : 0 <= i ->
  0 <= cost ((fun i => image_segment (image_phoff + 32 * i)) <$> zseq i n).
Proof.
  intros Hi. assert (0 <= image_phoff) by (apply image_bytes_bound; lia).
  apply cost_nonneg, Forall_fmap, Forall_lookup_2. intros k z Hz.
  pose proof (lookup_lt_Some _ _ _ Hz) as Hk. rewrite zseq_length in Hk. rewrite zseq_lookup in Hz by done. simplify_eq.
  apply image_segment_nonneg. lia.
Qed.

Lemma load_run n : forall i cur s, let gs := (fun i => image_segment (image_phoff + 32 * i)) <$> zseq i (Z.of_nat n) in
  scratch (ld_mem s) -> ordered cur gs = true -> elf + 4096 <= cur -> 0 <= i ->
  image_phoff + 32 * (i + Z.of_nat n) <= 4096 -> 2 * cost gs <= Z.of_nat (readies s) -> exists s',
  for_each (zseq i (Z.of_nat n)) (fun i => load_segment (elf + image_phoff + 32 * i)) s = Ok tt s' /\
  Forall (loaded (ld_mem s')) gs /\
  (forall c, c < cur -> ldb (ld_mem s') c = ldb (ld_mem s) c).
Proof.
  assert (0 <= image_phoff) as Hph by (apply image_bytes_bound; lia).
  induction n as [|n IH]; intros i cur s gs Hm Hord Hcur Hi Hb Hr; unfold gs in *.
  { exists s. split_and!; [done | constructor | done]. }
  rewrite (zseq_cons i) in Hord, Hr |- * by lia. replace (Z.of_nat (S n) - 1) with (Z.of_nat n) in * by lia.
  cbn [fmap list_fmap ordered cost foldr for_each] in *.
  set (g := image_segment (image_phoff + 32 * i)) in *.
  destruct (image_segment_nonneg (image_phoff + 32 * i) ltac:(lia)) as (N1 & N2 & N3 & N4). fold g in N1, N2, N3, N4.
  rewrite !andb_true_iff in Hord. destruct Hord as [[[O1 O2] O3] O4].
  fold (cost ((fun i => image_segment (image_phoff + 32 * i)) <$> zseq (i + 1) (Z.of_nat n))) in Hr.
  assert (0 <= cost ((fun i => image_segment (image_phoff + 32 * i)) <$> zseq (i + 1) (Z.of_nat n))) as Hc.
  { by apply image_cost_nonneg; lia. }
  destruct (load_segment_run (elf + image_phoff + 32 * i) g cur s) as (s1 & E1 & R1 & L1 & F1); try done; try lia.
  { rewrite <-Z.add_assoc. apply segment_at_image; [done | lia | lia]. }
  { cbn [ordered]. by rewrite O1, O2, O3. }
  { unfold elf in Hcur. lia. }
  rewrite (bind_ok _ _ _ _ _ E1).
  assert (cur <= (if vacant g then cur else past g)) as Hnext.
  { destruct (vacant g); [lia|]. cbn in O3. unfold first, past in *.
    pose proof (Z.mod_pos_bound (sg_off g) SECTSIZE ltac:(done)). lia. }
  assert (scratch (ld_mem s1)) as Hm1 by (intros c Hc'; rewrite F1 by lia; by apply Hm).
  destruct (IH (i + 1) (if vacant g then cur else past g) s1 Hm1 O4) as (s' & E & L & F); try lia.
  exists s'. split; [exact E|]. split.
  - constructor; [|exact L]. destruct (vacant g) eqn:Ev; [|by apply (loaded_frame (ld_mem s1))].
    unfold vacant in Ev. rewrite !andb_true_iff in Ev. split; lia.
  - intros c Hc'. rewrite F, F1 by lia. done.
Qed.

(** Reading the first page fills the scratch page. *)
Lemma read_header_run s : 16 <= Z.of_nat (readies s) -> exists s',
  readseg elf 4096 0 s = Ok tt s' /\ Z.of_nat (readies s') = Z.of_nat (readies s) - 16 /\ scratch (ld_mem s').
Proof.
  intros Hr. destruct (readseg_run elf 4096 0 s) as (s1 & E1 & R1 & _ & F1); [done..|].
  exists s1. split; [done|]. split; [done|]. intros c Hc. change (0 mod SECTSIZE) with 0 in F1.
  change (sectors (elf - 0) (elf + 4096)) with 8 in F1. rewrite F1, decide_True by (unfold SECTSIZE; lia). by rewrite Z.sub_0_r.
Qed.

(** An image without the ELF magic number makes bootmain return, so that
    the boot sector can report the failure. *)
Theorem bootmain_rejects s : 16 <= Z.of_nat (readies s) -> image_word 0 <> ELF_MAGIC -> exists s',
  bootmain s = Ok None s'.
Proof.
  intros Hr Hmagic. unfold bootmain. destruct (read_header_run s Hr) as (s1 & E1 & _ & Hs).
  rewrite (bind_ok _ _ _ _ _ E1). unfold bind, reads. exists s1.
  rewrite <-(Z.add_0_r elf), (scratch_word _ 0) by (done || lia). by apply Z.eqb_neq in Hmagic as ->.
Qed.

(** C16. The loader puts every segment of the image where its program header says:
    the file's bytes first, zeroes up to the segment's size, whatever the
    loading of later segments writes around them; and it hands over to the
    image's entry point. *)
Theorem bootmain_loads s : image_word 0 = ELF_MAGIC -> image_phoff + 32 * image_phnum <= 4096 ->
  ordered (elf + 4096) image_segments = true ->
  2 * (8 + cost image_segments) <= Z.of_nat (readies s) -> exists s',
  bootmain s = Ok (Some (image_word 24)) s' /\ Forall (loaded (ld_mem s')) image_segments.
Proof.
  intros Hmagic Htab Hord Hr. unfold bootmain.
  assert (0 <= image_phnum) as Hn by (apply image_bytes_bound; lia).
  assert (0 <= cost image_segments) as Hc by (by apply image_cost_nonneg).
  destruct (read_header_run s ltac:(lia)) as (s1 & E1 & R1 & Hs).
  rewrite (bind_ok _ _ _ _ _ E1). unfold bind at 1, reads at 1.
  rewrite (scratch_word _ 28) by (done || lia). rewrite (scratch_bytes _ 44 2) by (done || lia).
  replace (ldw (ld_mem s1) elf) with (image_word 0) by (symmetry; apply (scratch_word _ 0); [done | lia | lia]).
  rewrite Hmagic. cbn [negb Z.eqb]. rewrite Z.eqb_refl. cbn [negb]. fold image_phoff. fold image_phnum.
  destruct (load_run (Z.to_nat image_phnum) 0 (elf + 4096) s1) as (s' & E & L & F); try rewrite Z2Nat.id by done; try done.
  { unfold image_segments in Hr. lia. }
  rewrite Z2Nat.id in E, L by done. rewrite (bind_ok _ _ _ _ _ E). exists s'. split; [|exact L].
  unfold bind, reads, ret. do 2 f_equal. rewrite <-(scratch_word (ld_mem s') 24); [done | | lia | lia].
  intros c Hc'. rewrite F by lia. by apply Hs.
Qed.
End loading.
End bootmain.

(** ** A small image: one segment of 600 bytes with 400 bytes of zeroes after
    it, and an empty one, as the linker emits for the stack. *)
Definition sample_image : list Z :=
  le32 ELF_MAGIC ++ replicate 20 0 ++ le32 1048588 ++ le32 52 ++ replicate 12 0 ++ le16 2 ++ replicate 6 0 ++
  (le32 1 ++ le32 4096 ++ le32 2148532224 ++ le32 1048576 ++ le32 600 ++ le32 1000 ++ le32 7 ++ le32 4096) ++
  (le32 1685382481 ++ replicate 28 0) ++ replicate 3980 0 ++ ((fun i => u8 i) <$> zseq 1 600).
Definition sample_sector (n : Z) : list Z := resize 512 0 (take 512 (drop (Z.to_nat (512 * (n - 1))) sample_image)).
Definition sample_loader : loader := mk_loader ∅ (concat (replicate 40 [128; 80])) ∅ [].

Lemma sample_sectors_ok : @SectorsOk sample_sector.
Proof.
  split; intros n; unfold sample_sector; [apply length_resize|].
  assert (Forall is_u8 sample_image) as H.
  { apply (bool_decide_unpack _). vm_compute. exact I. }
  apply Forall_resize; [done|]. by apply Forall_take, Forall_drop.
Qed.
Lemma bootmain_loads_witness : exists s',
  @bootmain sample_sector sample_loader = Ok (Some 1048588) s' /\
  Forall (@loaded sample_sector (ld_mem s')) (@image_segments sample_sector).
Proof.
  exact (@bootmain_loads sample_sector sample_sectors_ok sample_loader
    ltac:(vm_compute; reflexivity) ltac:(vm_compute; discriminate) ltac:(vm_compute; reflexivity)
    ltac:(vm_compute; discriminate)).
Defined.
Lemma bootmain_rejects_witness : exists s', @bootmain (fun _ => replicate 512 0) sample_loader = Ok None s'.
Proof.
  assert (@SectorsOk (fun _ => replicate 512 0)) as Hok.
  { split; intros n; [done|]. apply (Forall_replicate is_u8 512 0). split; done. }
  exact (@bootmain_rejects (fun _ => replicate 512 0) Hok sample_loader ltac:(vm_compute; discriminate) ltac:(vm_compute; discriminate)).
Defined.
