(* ===== verification/Ulib.v ===== *)
(** * The user library (ulib.c, printf.c)

    The string routines, [gets], [stat], [atoi] and [printf], over the memory
    of a process.  A local variable whose address is passed to a system call
    needs a place on the stack: [slot] is the address of that byte.  String
    literals are constants of the program and appear as byte lists. *)

From Stdlib Require Import ZArith Lia.
From stdpp Require Import base gmap list strings numbers.
From S2P Require Import Prelude Numeral Strings User.

Open Scope Z_scope.

Class Frame := slot : Z.

(** A variadic argument: a word, or the address of a string literal. *)
Inductive warg :=
| Wd (z : Z)
| Lit (s : list Z).

Section ulib.
Context {W : Type} `{Kernel W} `{Frame}.

Definition strcpy (s t : Z) : UM W Z :=
  let os := s in
  walk (fun '(s, t) =>
    let* c := lb t in
    sb s c ;;;
    if Zb c then ret (inl (s + 1, t + 1)) else ret (inr os)) (s, t).

Definition strcmp (p q : Z) : UM W Z :=
  walk (fun '(p, q) =>
    let* a := lb p in
    if Zb a then
      let* b := lb q in
      if a =? b then ret (inl (p + 1, q + 1)) else ret (inr (u8 a - u8 b))
    else
      let* b := lb q in
      ret (inr (u8 a - u8 b))) (p, q).

Definition strlen (s : Z) : UM W Z :=
  walk (fun n =>
    let* c := lb (s + n) in
    if Zb c then ret (inl (n + 1)) else ret (inr n)) 0.

Definition memset (dst c n : Z) : UM W Z :=
  for_each (zseq dst n) (fun a => sb a c) ;;;
  ret dst.

Definition strchr (s c : Z) : UM W Z :=
  walk (fun s =>
    let* x := lb s in
    if Zb x then if x =? c then ret (inr s) else ret (inl (s + 1))
    else ret (inr 0)) s.

(** One turn of the loop of [gets]. *)
Definition gets_turn (buf max i : Z) : UM W (Z + Z) :=
  if i + 1 <? max then
    let* cc := read 0 slot 1 in
    if cc <? 1 then ret (inr i)
    else
      let* c := lb slot in
      sb (buf + i) c ;;;
      if (c =? 10) || (c =? 13) then ret (inr (i + 1)) else ret (inl (i + 1))
  else ret (inr i).
Definition gets (buf max : Z) : UM W Z :=
  let* i := loop (S (Z.to_nat max)) (gets_turn buf max) 0 in
  sb (buf + i) 0 ;;;
  ret buf.

Definition stat (n st : Z) : UM W Z :=
  let* fd := open n O_RDONLY in
  if fd <? 0 then ret (-1)
  else
    let* r := fstat fd st in
    close fd ;;;
    ret r.

Definition atoi (s : Z) : UM W Z :=
  walk (fun '(s, n) =>
    let* c := lb s in
    if (48 <=? c) && (c <=? 57) then ret (inl (s + 1, i32 (n * 10 + c - 48)))
    else ret (inr n)) (s, 0).

Definition memmove (vdst vsrc n : Z) : UM W Z :=
  for_each (zseq 0 n) (fun j => let* c := lb (vsrc + j) in sb (vdst + j) c) ;;;
  ret vdst.

(** ** printf.c *)

Definition putc (fd c : Z) : UM W unit :=
  sb slot c ;;;
  write fd slot 1 ;;;
  ret tt.

Definition digits : list Z := bytes "0123456789ABCDEF".
Definition digit (d : Z) : Z := nth (Z.to_nat d) digits 0.
Definition printint_buf (xx base : Z) (sgn : bool) : list Z := numeral digit 32 xx base sgn.

Definition printint (fd xx base : Z) (sgn : bool) : UM W unit :=
  let buf := printint_buf xx base sgn in
  if (length buf <=? 16)%nat then for_each (rev buf) (putc fd)
  else undefined "printint: buf".

Definition puts (fd s : Z) : UM W unit :=
  walk (fun s =>
    let* c := lb s in
    if Zb c then putc fd c ;;; ret (inl (s + 1)) else ret (inr tt)) s.

(** One format character after a percent sign; what is left of the arguments. *)
Definition next_arg (ap : list warg) : UM W (Z * list warg) :=
  match ap with
  | Wd z :: ap => ret (z, ap)
  | _ => undefined "printf: argument"
  end.
Definition printf_conv (fd c : Z) (ap : list warg) : UM W (list warg) :=
  if c =? 100 then
    let* (z, ap) := next_arg ap in printint fd (i32 z) 10 true ;;; ret ap
  else if (c =? 120) || (c =? 112) then
    let* (z, ap) := next_arg ap in printint fd (i32 z) 16 false ;;; ret ap
  else if c =? 115 then
    match ap with
    | Lit s :: ap => for_each s (putc fd) ;;; ret ap
    | Wd s :: ap =>
        (if s =? 0 then for_each (bytes "(null)") (putc fd) else puts fd s) ;;; ret ap
    | [] => undefined "printf: argument"
    end
  else if c =? 99 then
    let* (z, ap) := next_arg ap in putc fd z ;;; ret ap
  else if c =? 37 then putc fd c ;;; ret ap
  else putc fd 37 ;;; putc fd c ;;; ret ap.

(** The loop over the format; [state] is whether the last character was a
    percent sign. *)
Fixpoint printf_loop (fd : Z) (fmt : list Z) (state : bool) (ap : list warg) : UM W unit :=
  match fmt with
  | [] => ret tt
  | c :: fmt =>
      if state then
        let* ap := printf_conv fd c ap in
        printf_loop fd fmt false ap
      else if c =? 37 then printf_loop fd fmt true ap
      else putc fd c ;;; printf_loop fd fmt false ap
  end.
Definition printf (fd : Z) (fmt : list Z) (ap : list warg) : UM W unit :=
  printf_loop fd fmt false ap.

End ulib.

Lemma user_digits : Digits digit.
Proof. apply digits_check. vm_compute. reflexivity. Qed.
#[export] Existing Instance user_digits.

(** ** Strings *)

Lemma memmove_up_below n m d s a : a < d -> ldb (string_c.memmove_up m d s n) a = ldb m a.
Proof.
  revert m d s. induction n as [|n IH]; intros m d s Ha; [done|]. cbn [string_c.memmove_up].
  rewrite IH by lia. apply ldb_stb_ne. lia.
Qed.

Lemma memmove_up_above n m d s a : d + Z.of_nat n <= a -> ldb (string_c.memmove_up m d s n) a = ldb m a.
Proof.
  revert m d s. induction n as [|n IH]; intros m d s Ha; [done|]. cbn [string_c.memmove_up].
  rewrite IH by lia. apply ldb_stb_ne. lia.
Qed.
(** Copying to a place that does not start inside of the source. *)
Lemma memmove_up_ldbs n m d s : ~ s < d < s + Z.of_nat n -> Forall is_u8 (ldbs m s n) ->
  ldbs (string_c.memmove_up m d s n) d n = ldbs m s n.
Proof.
  revert m d s. induction n as [|n IH]; intros m d s Hd Hb; [done|]. cbn [string_c.memmove_up ldbs] in *.
  apply Forall_cons_1 in Hb as [Hb Hbs].
  assert (ldbs (stb m d (ldb m s)) (s + 1) n = ldbs m (s + 1) n) as E by (apply ldbs_ext; intros; apply ldb_stb_ne; lia).
  f_equal; [rewrite memmove_up_below, ldb_stb_eq by lia; by apply u8_small|]. rewrite IH; [done | lia | by rewrite E].
Qed.

Section strings.
Context {W : Type} `{Kernel W} `{Frame}.
Implicit Types u : U W.

(** Running a loop that only reads and goes through [x 0, x 1, ...]. *)
Lemma walk_path {A B} (turn : A -> UM W (A + B)) (x : nat -> A) b k a u :
  a = x 0%nat -> (forall i, (i < k)%nat -> turn (x i) u = Ok (inl (x (S i))) u) ->
  turn (x k) u = Ok (inr b) u -> Z.of_nat k <= u_sz u -> walk turn a u = Ok b u.
Proof. intros -> Hin Hlast Hk. apply (loop_path turn x b k); [done | done | lia]. Qed.

Lemma strlen_ok u s l : str_at u s l -> strlen s u = Ok (Z.of_nat (length l)) u.
Proof.
  intros Hs. apply (walk_path _ Z.of_nat _ (length l)); [done | intros i Hi | | destruct Hs; lia].
  - destruct (lookup_lt_is_Some_2 l i Hi) as [c Hc]. destruct (str_at_lb u s l i c Hs Hc) as [R Hz].
    mrun R. rewrite Hz. unfold ret. do 2 f_equal. lia.
  - by mrun (str_at_end u s l Hs).
Qed.

(** Where a character first occurs. *)
Definition first_at (c : Z) (l : list Z) : option nat := fst <$> list_find (eq c) l.

Lemma strchr_ok u s l c : str_at u s l ->
  strchr s c u = Ok (match first_at c l with Some i => s + Z.of_nat i | None => 0 end) u.
Proof.
  intros Hs. unfold first_at, strchr.
  destruct (list_find (eq c) l) as [[i x]|] eqn:Hf; cbn [fmap option_fmap option_map fst].
  - apply list_find_Some in Hf as (Hi & <- & Hbefore). pose proof (lookup_lt_Some _ _ _ Hi) as Hlt.
    apply (walk_path _ (fun i => s + Z.of_nat i) _ i); [lia | intros j Hj | | destruct Hs; lia].
    + destruct (lookup_lt_is_Some_2 l j ltac:(lia)) as [y Hy]. destruct (str_at_lb u s l j y Hs Hy) as [R Hz].
      mrun R. rewrite Hz, (proj2 (Z.eqb_neq y c)) by (intros ->; by apply (Hbefore j c)).
      unfold ret. do 2 f_equal. lia.
    + destruct (str_at_lb u s l i c Hs Hi) as [R Hz]. mrun R. by rewrite Hz, Z.eqb_refl.
  - apply list_find_None in Hf.
    apply (walk_path _ (fun i => s + Z.of_nat i) _ (length l)); [lia | intros j Hj | | destruct Hs; lia].
    + destruct (lookup_lt_is_Some_2 l j Hj) as [y Hy]. destruct (str_at_lb u s l j y Hs Hy) as [R Hz].
      pose proof (Forall_lookup_1 _ _ _ _ Hf Hy) as Hne.
      mrun R. rewrite Hz, (proj2 (Z.eqb_neq y c)) by (intros ->; by apply Hne).
      unfold ret. do 2 f_equal. lia.
    + by mrun (str_at_end u s l Hs).
Qed.

(** The order of C strings, and the value that strcmp computes. *)
Fixpoint lexdiff (p q : list Z) : Z :=
  match p, q with
  | [], [] => 0
  | [], b :: _ => - b
  | a :: _, [] => a
  | a :: p, b :: q => if a =? b then lexdiff p q else a - b
  end.

Lemma lexdiff_eq p q :
  Forall (fun c => 0 < c < 256) p -> Forall (fun c => 0 < c < 256) q -> lexdiff p q = 0 <-> p = q.
Proof.
  intros Hp. revert q. induction Hp as [|a p Ha _ IH]; intros q Hq; destruct Hq as [|b q Hb Hq]; cbn.
  - done.
  - split; [lia | done].
  - split; [lia | done].
  - destruct (Z.eqb_spec a b) as [->|Hne].
    + rewrite IH by done. naive_solver.
    + split; [lia | naive_solver].
Qed.

Lemma strcmp_ok u p q l1 l2 : str_at u p l1 -> str_at u q l2 -> strcmp p q u = Ok (lexdiff l1 l2) u.
Proof.
  intros H1 H2. unfold strcmp, walk. assert (length l1 < S (Z.to_nat (u_sz u)))%nat as Hn
    by (destruct H1 as (? & ? & _); lia).
  revert Hn p q l2 H1 H2. generalize (S (Z.to_nat (u_sz u))). intros n Hn.
  revert n Hn. induction l1 as [|a l1 IH]; intros [|n] Hn p q l2 H1 H2; cbn [length] in Hn; try lia.
  - apply loop_last. mrun (str_at_nil u p H1). cbn [Zb negb Z.eqb].
    destruct l2 as [|b l2].
    + by mrun (str_at_nil u q H2).
    + destruct (str_at_cons u q b l2 H2) as (R & _ & Hb & _). mrun R.
      by rewrite (u8_small b) by (unfold is_u8; lia).
  - destruct (str_at_cons u p a l1 H1) as (R1 & Z1 & Ha & T1). destruct l2 as [|b l2].
    + apply loop_last. mrun R1. rewrite Z1. mrun (str_at_nil u q H2). rewrite (proj2 (Z.eqb_neq a 0)) by lia.
      rewrite (u8_small a) by (unfold is_u8; lia). change (u8 0) with 0. unfold ret. cbn. do 2 f_equal. lia.
    + destruct (str_at_cons u q b l2 H2) as (R2 & _ & Hb & T2). cbn [lexdiff].
      destruct (Z.eqb_spec a b) as [->|Hne].
      * erewrite loop_next by (mrun R1; rewrite Z1; mrun R2; rewrite Z.eqb_refl; reflexivity).
        apply IH; [lia | done | done].
      * apply loop_last. mrun R1. rewrite Z1. mrun R2. rewrite (proj2 (Z.eqb_neq a b)) by done.
        rewrite !u8_small by (unfold is_u8; lia). done.
Qed.

(** strcpy copies the string and its NUL, also to a place that overlaps the
    string from below. *)
Lemma strcpy_ok u s t l :
  str_at u t l -> 0 <= s -> s + Z.of_nat (length l) < u_sz u -> s <= t \/ t + Z.of_nat (length l) < s ->
  strcpy s t u = Ok s (set_u_mem (stbs (u_mem u) s (l ++ [0])) u).
Proof.
  intros Ht. unfold strcpy, walk. assert (length l < S (Z.to_nat (u_sz u)))%nat as Hn
    by (destruct Ht as (? & ? & _); lia).
  revert Hn. generalize (S (Z.to_nat (u_sz u))). intros n Hn. generalize s at 5 7. intros os.
  revert n Hn u s t Ht. induction l as [|c l IH]; intros [|n] Hn u s t Ht Hs Hsz Hov; cbn [length] in *; try lia.
  - apply loop_last. mrun (str_at_nil u t Ht). mrun (sb_ok s 0 u ltac:(apply reaches_iff; lia)). done.
  - destruct (str_at_cons u t c l Ht) as (R & Hz & Hc & T).
    assert (sb s c u = Ok tt (set_u_mem (stb (u_mem u) s c) u)) as R2 by (apply sb_ok, reaches_iff; lia).
    erewrite loop_next by (mrun R; mrun R2; rewrite Hz; reflexivity).
    rewrite IH; [done | lia | | lia | cbn; lia | lia].
    apply (str_at_frame u); [done | cbn; lia |]. intros b Hb. cbn. apply ldb_stb_ne. lia.
Qed.

(** memset and memmove run through their blocks upwards. *)
Lemma memset_run u dst c n : 0 <= dst -> 0 <= n -> dst + n <= u_sz u ->
  exists m, memset dst c n u = Ok dst (set_u_mem m u) /\
    forall a, ldb m a = if decide (dst <= a < dst + n) then u8 c else ldb (u_mem u) a.
Proof.
  intros Hd Hn. unfold memset. rewrite <-(Z2Nat.id n) by done.
  generalize (Z.to_nat n). clear n Hn. intros n.
  enough (forall d u, 0 <= d -> d + Z.of_nat n <= u_sz u -> exists m,
    for_each (zseq d (Z.of_nat n)) (fun a => sb a c) u = Ok tt (set_u_mem m u) /\
    forall a, ldb m a = if decide (d <= a < d + Z.of_nat n) then u8 c else ldb (u_mem u) a) as Hgo.
  { intros Hsz. destruct (Hgo dst u Hd Hsz) as (m & R & Hm). exists m. by mrun R. }
  induction n as [|n IH]; intros d u' Hd' Hsz.
  - exists (u_mem u'). rewrite zseq_nil, set_u_mem_same by lia. split; [done|]. intros a. by case_decide; [lia|].
  - rewrite zseq_cons by lia. cbn [for_each].
    mrun (sb_ok d c u' ltac:(apply reaches_iff; lia)).
    destruct (IH (d + 1) (set_u_mem (stb (u_mem u') d c) u')) as (m & R & Hm); [lia | cbn; lia |].
    exists m. replace (Z.of_nat (S n) - 1) with (Z.of_nat n) by lia. rewrite R. split; [done|].
    intros a. rewrite Hm. cbn [u_mem set_u_mem]. rewrite ldb_stb. repeat case_decide; lia || done.
Qed.

Lemma memmove_run u dst src n : 0 <= dst -> 0 <= src -> 0 <= n ->
  dst + n <= u_sz u -> src + n <= u_sz u ->
  memmove dst src n u = Ok dst (set_u_mem (string_c.memmove_up (u_mem u) dst src (Z.to_nat n)) u).
Proof.
  intros Hd Hs Hn. unfold memmove. rewrite <-(Z2Nat.id n) at 1 2 3 by done.
  generalize (Z.to_nat n). clear n Hn. intros n Hdz Hsz.
  enough (forall j u, 0 <= j -> dst + j + Z.of_nat n <= u_sz u -> src + j + Z.of_nat n <= u_sz u ->
    for_each (zseq j (Z.of_nat n)) (fun j => let* c := lb (src + j) in sb (dst + j) c) u =
    Ok tt (set_u_mem (string_c.memmove_up (u_mem u) (dst + j) (src + j) n) u)) as Hgo.
  { mrun (Hgo 0 u ltac:(lia) ltac:(lia) ltac:(lia)). by rewrite !Z.add_0_r. }
  clear u Hdz Hsz. induction n as [|n IH]; intros j u Hj Hdz Hsz.
  - rewrite zseq_nil by lia. cbn. by rewrite set_u_mem_same.
  - rewrite zseq_cons by lia. cbn [for_each string_c.memmove_up]. rewrite bind_assoc.
    mrun (lb_ok (src + j) u ltac:(apply reaches_iff; lia)).
    mrun (sb_ok (dst + j) (ldb (u_mem u) (src + j)) u ltac:(apply reaches_iff; lia)).
    replace (Z.of_nat (S n) - 1) with (Z.of_nat n) by lia. rewrite IH; [|cbn; lia..].
    by rewrite !Z.add_assoc.
Qed.
End strings.

(** ** Numbers *)

Section numbers.
Context {W : Type} `{Kernel W} `{Frame}.
Implicit Types u : U W.

Definition is_digit (c : Z) : Prop := 48 <= c <= 57.

Lemma i32_step n c : i32 (i32 n * 10 + c - 48) = i32 (n * 10 + (c - 48)).
Proof.
  rewrite <-(i32_u32 (i32 n * 10 + c - 48)), <-(i32_u32 (n * 10 + (c - 48))). f_equal. unfold i32, u32.
  set (q := (n + 2 ^ 31) / 2 ^ 32). pose proof (Z.div_mod (n + 2 ^ 31) (2 ^ 32) ltac:(lia)) as E. fold q in E.
  replace (((n + 2 ^ 31) mod 2 ^ 32 - 2 ^ 31) * 10 + c - 48) with (n * 10 + (c - 48) + (- 10 * q) * 2 ^ 32) by lia.
  by rewrite Z_mod_plus_full.
Qed.

(** atoi computes the value of the leading digits, modulo the width of int. *)
Lemma atoi_ok u s ds rest :
  str_at u s (ds ++ rest) -> Forall is_digit ds -> (forall c, head rest = Some c -> ~ is_digit c) ->
  atoi s u = Ok (i32 (denotes 10 ds)) u.
Proof.
  intros Hs Hd Hr. unfold atoi, walk, denotes. assert (length ds < S (Z.to_nat (u_sz u)))%nat as Hn.
  { destruct Hs as (? & Hsz & _). rewrite length_app in Hsz. lia. }
  revert Hn. generalize (S (Z.to_nat (u_sz u))). intros n Hn.
  change 0 with (i32 0) at 1. generalize 0 at 1 2. revert s n Hs Hn.
  induction Hd as [|c ds Hc Hd IH]; intros s [|n] Hs Hn v; cbn [length] in Hn; try lia.
  - cbn [fold_left]. apply loop_last. destruct rest as [|c rest].
    + by mrun (str_at_nil u s Hs).
    + destruct (str_at_cons u s c rest Hs) as (R & _). mrun R. specialize (Hr c eq_refl). unfold is_digit in Hr.
      destruct (_ && _) eqn:E; [|done]. apply andb_true_iff in E as [E1 E2]. lia.
  - destruct (str_at_cons u s c (ds ++ rest) Hs) as (R & _ & _ & T). unfold is_digit in Hc.
    assert ((48 <=? c) && (c <=? 57) = true) as E by (apply andb_true_iff; lia).
    erewrite loop_next by (mrun R; rewrite E; reflexivity). rewrite i32_step. cbn [fold_left].
    unfold digit_value at 2. rewrite (proj2 (Z.ltb_lt c 58)) by lia. apply IH; [done | lia].
Qed.

(** The digits of printint are digits. *)
Lemma digits_of_digit fuel x : Forall is_digit (digits_of digit fuel x 10).
Proof.
  revert x. induction fuel as [|fuel IH]; intros x; cbn [digits_of]; constructor.
  - pose proof (Z.mod_pos_bound x 10 ltac:(lia)) as Hb. unfold is_digit.
    assert (x mod 10 = 0 \/ x mod 10 = 1 \/ x mod 10 = 2 \/ x mod 10 = 3 \/ x mod 10 = 4 \/ x mod 10 = 5 \/
      x mod 10 = 6 \/ x mod 10 = 7 \/ x mod 10 = 8 \/ x mod 10 = 9) as Hx by lia.
    repeat destruct Hx as [Hx|Hx]; rewrite Hx; cbv; done.
  - destruct (negb _); [apply IH | constructor].
Qed.
End numbers.

(** ** Output *)

Section output.
Context {W : Type} `{Kernel W} `{Frame} {fi fo : Z} {io : W -> list Z -> list Z -> Prop} `{!Stdio W fi fo io}.
Implicit Types u : U W.

(** [u'] has another byte in [slot] and another world than [u]. *)
Definition scratch u u' : Prop :=
  u_sz u' = u_sz u /\ u_gone u' = u_gone u /\ forall a, a <> slot -> ldb (u_mem u') a = ldb (u_mem u) a.

#[export] Instance scratch_preorder : PreOrder scratch.
Proof.
  split; [done|]. intros u1 u2 u3 (S1 & G1 & M1) (S2 & G2 & M2).
  split_and!; [by rewrite S2 | by rewrite G2 | intros a Ha; by rewrite M2, M1].
Qed.

Lemma scratch_reaches u u' a n : scratch u u' -> reaches a n u' = reaches a n u.
Proof. intros (E & _). unfold reaches. by rewrite E. Qed.
Lemma scratch_str_at u u' a s : scratch u u' -> str_at u a s ->
  ~ (a <= slot <= a + Z.of_nat (length s)) -> str_at u' a s.
Proof.
  intros (E & _ & Hm) Hs Hn. apply (str_at_frame u); [done | lia |]. intros b Hb. apply Hm. intros ->. done.
Qed.

(** [prints m u l o bs]: [m] runs in [u] and puts [bs] on the output. *)
Definition prints {A} (m : UM W A) (a : A) u l o (bs : list Z) : Prop :=
  exists u', m u = Ok a u' /\ scratch u u' /\ io (u_world u') l (o ++ bs).

Lemma prints_bind {A B} (m : UM W A) (k : A -> UM W B) a b u l o bs1 bs2 :
  prints m a u l o bs1 -> (forall u', scratch u u' -> io (u_world u') l (o ++ bs1) -> prints (k a) b u' l (o ++ bs1) bs2) ->
  prints (bind m k) b u l o (bs1 ++ bs2).
Proof.
  intros (u1 & R1 & S1 & I1) Hk. destruct (Hk u1 S1 I1) as (u2 & R2 & S2 & I2). exists u2. mrun R1.
  split_and!; [done | by transitivity u1 | by rewrite app_assoc].
Qed.
Lemma prints_ret {A} (a : A) u l o : io (u_world u) l o -> prints (ret a) a u l o [].
Proof. intros Hi. exists u. split_and!; [done | done | by rewrite app_nil_r]. Qed.

Context (Hslot : 0 <= slot).

Lemma putc_ok c u l o : slot < u_sz u -> io (u_world u) l o -> prints (putc fo c) tt u l o [u8 c].
Proof.
  intros Hz Hi. unfold prints, putc. mrun (sb_ok slot c u ltac:(apply reaches_iff; lia)).
  destruct (write_law (set_u_mem (stb (u_mem u) slot c) u) slot 1 l o) as (w & R & I2);
    [done | lia | apply reaches_iff; cbn; lia |].
  unfold write. mrun (usys_back _ _ _ _ _ R). eexists. split; [done|].
  change (ldbs _ slot _) with [ldb (stb (u_mem u) slot c) slot] in I2. rewrite ldb_stb_eq in I2.
  split; [|done]. split; [done|]. split; [done|]. intros a Ha. by apply ldb_stb_ne.
Qed.

Lemma putcs_ok bs u l o : slot < u_sz u -> Forall is_u8 bs -> io (u_world u) l o ->
  prints (for_each bs (putc fo)) tt u l o bs.
Proof.
  intros Hz Hb. revert u o Hz. induction Hb as [|c bs Hc Hb IH]; intros u o Hz Hi; [by apply prints_ret|].
  cbn [for_each]. apply (prints_bind _ _ tt tt u l o [c] bs).
  - rewrite <-(u8_small c) at 2 by done. by apply putc_ok.
  - intros u' (E & _) Hi'. apply IH; [by rewrite E | done].
Qed.

Lemma printint_ok xx base sgn u l o :
  slot < u_sz u -> is_i32 xx -> base = 10 \/ base = 16 -> io (u_world u) l o ->
  prints (printint fo xx base sgn) tt u l o (rev (printint_buf xx base sgn)).
Proof.
  intros Hz Hx Hb Hi. unfold printint.
  destruct (numeral_denotes digit 32 xx base sgn Hx Hb ltac:(lia)) as [_ Hlen].
  unfold printint_buf in *. rewrite (proj2 (Nat.leb_le _ 16)) by lia. apply putcs_ok; [done | | done].
  apply Forall_rev. eapply list.Forall_impl; [apply numeral_chars; [apply _ | lia]|]. unfold is_u8. intros c ?. lia.
Qed.

Lemma puts_ok s str u l o :
  slot < u_sz u -> str_at u s str -> ~ (s <= slot <= s + Z.of_nat (length str)) -> io (u_world u) l o ->
  prints (puts fo s) tt u l o str.
Proof.
  intros Hz Hs Hno Hi. unfold prints, puts, walk. assert (length str < S (Z.to_nat (u_sz u)))%nat as Hn
    by (destruct Hs as (? & ? & _); lia).
  revert Hn. generalize (S (Z.to_nat (u_sz u))). intros n Hn. revert s u o n Hz Hs Hno Hi Hn.
  induction str as [|c str IH]; intros s u o [|n] Hz Hs Hno Hi Hn; cbn [length] in *; try lia.
  - exists u. split_and!; [apply loop_last; by mrun (str_at_nil u s Hs) | done | by rewrite app_nil_r].
  - destruct (str_at_cons u s c str Hs) as (R & Z1 & Hc & T).
    destruct (putc_ok c u l o Hz Hi) as (u1 & R1 & S1 & I1). rewrite u8_small in I1 by (unfold is_u8; lia).
    destruct (IH (s + 1) u1 (o ++ [c]) n) as (u2 & R2 & S2 & I2); [by destruct S1 as [-> _] | | lia | done | lia |].
    { apply (scratch_str_at u); [done | done | lia]. }
    exists u2. split_and!; [| by transitivity u1 | by rewrite <-app_assoc in I2].
    erewrite loop_next by (mrun R; rewrite Z1; mrun R1; reflexivity). done.
Qed.

(** A format as a list of pieces: what each contributes to the format, to the
    arguments and to the output. *)
Inductive piece :=
| PChr (c : Z)
| PDec (z : Z)
| PHex (z : Z)
| PStr (a : Z) (s : list Z)
| PLit (s : list Z)
| PChar (z : Z)
| PPct.
Definition piece_fmt (p : piece) : list Z :=
  match p with
  | PChr c => [c]
  | PDec _ => [37; 100]
  | PHex _ => [37; 120]
  | PStr _ _ | PLit _ => [37; 115]
  | PChar _ => [37; 99]
  | PPct => [37; 37]
  end.
Definition piece_arg (p : piece) : list warg :=
  match p with
  | PDec z | PHex z | PChar z => [Wd z]
  | PStr a _ => [Wd a]
  | PLit s => [Lit s]
  | _ => []
  end.
Definition piece_out (p : piece) : list Z :=
  match p with
  | PChr c => [c]
  | PDec z => rev (printint_buf (i32 z) 10 true)
  | PHex z => rev (printint_buf (i32 z) 16 false)
  | PStr _ s | PLit s => s
  | PChar z => [u8 z]
  | PPct => [37]
  end.
Definition piece_ok u (p : piece) : Prop :=
  match p with
  | PChr c => is_u8 c /\ c <> 37
  | PStr a s => a <> 0 /\ str_at u a s /\ ~ (a <= slot <= a + Z.of_nat (length s))
  | PLit s => Forall is_u8 s
  | _ => True
  end.

Lemma i32_is z : is_i32 (i32 z).
Proof. unfold is_i32, i32. pose proof (Z.mod_pos_bound (z + 2 ^ 31) (2 ^ 32)). lia. Qed.

Lemma piece_ok_scratch u u' p : scratch u u' -> piece_ok u p -> piece_ok u' p.
Proof. intros S. destruct p; cbn; try done. intros (? & ? & ?). split_and!; [done | by eapply scratch_str_at | done]. Qed.

Lemma printf_piece p u l o fmt ap bs :
  slot < u_sz u -> piece_ok u p -> io (u_world u) l o ->
  (forall u', scratch u u' -> io (u_world u') l (o ++ piece_out p) ->
     prints (printf_loop fo fmt false ap) tt u' l (o ++ piece_out p) bs) ->
  prints (printf_loop fo (piece_fmt p ++ fmt) false (piece_arg p ++ ap)) tt u l o (piece_out p ++ bs).
Proof.
  intros Hz Hp Hi Hk.
  assert (forall m : UM W unit, prints m tt u l o (piece_out p) ->
    prints (let* ap' := m ;;; ret ap in printf_loop fo fmt false ap') tt u l o (piece_out p ++ bs)) as Hgo.
  { intros m (u1 & R1 & S1 & I1). destruct (Hk u1 S1 I1) as (u2 & R2 & S2 & I2). exists u2.
    rewrite bind_assoc. mrun R1. rewrite bind_ret_l. split_and!; [done | by transitivity u1 | by rewrite app_assoc]. }
  destruct p as [c|z|z|a s|s|z|]; cbn in *.
  - destruct Hp as [Hc Hne]. rewrite (proj2 (Z.eqb_neq c 37) Hne).
    apply (prints_bind _ _ tt tt u l o [c]); [rewrite <-(u8_small c) at 2 by done; by apply putc_ok | done].
  - apply Hgo. apply printint_ok; [done | apply i32_is | by left | done].
  - apply Hgo. apply printint_ok; [done | apply i32_is | by right | done].
  - apply Hgo. destruct Hp as (Ha & Hs & Hno). rewrite (proj2 (Z.eqb_neq a 0) Ha). by apply puts_ok.
  - apply Hgo. by apply putcs_ok.
  - apply Hgo. by apply putc_ok.
  - apply Hgo. by apply (putc_ok 37).
Qed.

Lemma printf_ok ps u l o :
  slot < u_sz u -> Forall (piece_ok u) ps -> io (u_world u) l o ->
  prints (printf fo (ps ≫= piece_fmt) (ps ≫= piece_arg)) tt u l o (ps ≫= piece_out).
Proof.
  unfold printf. revert u o. induction ps as [|p ps IH]; intros u o Hz Hp Hi; [by apply prints_ret|].
  apply Forall_cons_1 in Hp as [Hp Hps]. cbn [mbind list_bind]. apply printf_piece; [done..|].
  intros u' S' I'. apply IH; [by destruct S' as [-> _] | | done].
  eapply list.Forall_impl; [apply Hps|]. intros q. by apply piece_ok_scratch.
Qed.
End output.

(** ** Input *)

(** What gets takes off its input: up to a newline or a carriage return, and
    at most [k] bytes. *)
Fixpoint line_of (k : nat) (l : list Z) : list Z :=
  match k, l with
  | S k, c :: l => if (c =? 10) || (c =? 13) then [c] else c :: line_of k l
  | _, _ => []
  end.

Lemma line_of_length k l : (length (line_of k l) <= k)%nat.
Proof.
  revert l. induction k as [|k IH]; intros [|c l]; cbn; try lia. destruct (_ || _); cbn; [lia|].
  specialize (IH l). lia.
Qed.

Lemma line_of_prefix k l : line_of k l ++ drop (length (line_of k l)) l = l.
Proof.
  revert l. induction k as [|k IH]; intros [|c l]; cbn; try done.
  destruct (_ || _); cbn; [done | by rewrite IH].
Qed.

Section input.
Context {W : Type} `{Kernel W} `{Frame} {fo : Z} {io : W -> list Z -> list Z -> Prop} `{!Stdio W 0 fo io}.
Implicit Types u : U W.

Lemma getc_ok u l o : 0 <= slot < u_sz u -> io (u_world u) l o -> Forall is_u8 l ->
  exists u', read 0 slot 1 u = Ok (match l with [] => 0 | _ => 1 end) u' /\ scratch u u' /\
    io (u_world u') (tail l) o /\ forall c, head l = Some c -> ldb (u_mem u') slot = c.
Proof.
  intros Hs Hi Hl. destruct (read_law u slot 1 l o Hi ltac:(lia)) as (r & w & R & Hr & Hlen & Hend & Hi');
    [apply reaches_iff; lia|].
  unfold read. rewrite (usys_back _ _ _ _ _ R). destruct l as [|c l].
  - assert (r = 0) as -> by (cbn in Hlen; lia). eexists. split; [done|]. split; [|done].
    split; [done|]. split; [done|]. intros a Ha. done.
  - assert (r = 1) as -> by (destruct (decide (r = 0)) as [->|]; [by specialize (Hend eq_refl) | lia]).
    eexists. split; [done|]. change (take _ (c :: l)) with [c]. split; [|split; [done|]].
    + split; [done|]. split; [done|]. intros a Ha. by apply ldb_stb_ne.
    + intros c' [= <-]. apply Forall_cons_1 in Hl as [Hc _]. cbn [u_mem set_u_world set_u_mem stbs].
      rewrite ldb_stb_eq. by apply u8_small.
Qed.

Lemma gets_loop k u i l o buf max n :
  Z.of_nat k = max - 1 - i -> (k < n)%nat -> 0 <= i -> 0 <= buf -> buf + max <= u_sz u ->
  0 <= slot < u_sz u -> ~ (buf <= slot < buf + max) -> io (u_world u) l o -> Forall is_u8 l ->
  let line := line_of k l in
  exists u', loop n (gets_turn buf max) i u = Ok (i + Z.of_nat (length line)) u' /\
    u_sz u' = u_sz u /\ u_gone u' = u_gone u /\ io (u_world u') (drop (length line) l) o /\
    forall a, a <> slot -> ldb (u_mem u') a = ldb (stbs (u_mem u) (buf + i) line) a.
Proof.
  intros Hk Hn Hi0 Hb Hbz Hs Hno. revert u i l o n Hk Hn Hi0 Hbz Hs.
  induction k as [|k IH]; intros u i l o [|n] Hk Hn Hi0 Hbz Hs Hi Hl line; try lia.
  - exists u. rewrite Z.add_0_r. split_and!; [|done..]. apply loop_last.
    unfold gets_turn. by rewrite (proj2 (Z.ltb_ge _ _)) by lia.
  - destruct (getc_ok u l o Hs Hi Hl) as (u1 & R1 & S1 & I1 & C1). pose proof S1 as (Z1 & G1 & M1).
    assert ((i + 1 <? max) = true) as E by lia. destruct l as [|c l].
    { exists u1. rewrite Z.add_0_r. split_and!; [|done..]. apply loop_last. unfold gets_turn. rewrite E. by mrun R1. }
    specialize (C1 c eq_refl). apply Forall_cons_1 in Hl as [Hc Hl].
    set (u2 := set_u_mem (stb (u_mem u1) (buf + i) c) u1).
    assert (sb (buf + i) c u1 = Ok tt u2) as R2 by (apply sb_ok, reaches_iff; lia).
    assert (lb slot u1 = Ok c u1) as Rc by (rewrite lb_ok; [by rewrite C1 | apply reaches_iff; lia]).
    assert (forall bs a, a <> slot -> ldb (stbs (u_mem u2) (buf + (i + 1)) bs) a =
      ldb (stbs (u_mem u) (buf + i) (c :: bs)) a) as M2.
    { intros bs a Ha. cbn [stbs u2 u_mem set_u_mem]. replace (buf + (i + 1)) with (buf + i + 1) by lia.
      rewrite !ldb_stbs. case_decide; [done|]. rewrite !ldb_stb. case_decide; [done | by apply M1]. }
    subst line. cbn [line_of]. destruct ((c =? 10) || (c =? 13)) eqn:Enl.
    + exists u2. split_and!; [| done | done | done | by apply (M2 [])]. apply loop_last.
      unfold gets_turn. rewrite E. mrun R1. change (1 <? 1) with false. cbv iota. mrun Rc. mrun R2. by rewrite Enl.
    + destruct (IH u2 (i + 1) l o n) as (u3 & R3 & Z3 & G3 & I3 & M3);
        [lia | lia | lia | cbn; lia | cbn; lia | done | done |].
      exists u3. split_and!; [| by rewrite Z3 | by rewrite G3 | done | intros a Ha; by rewrite M3, M2].
      erewrite loop_next; [|unfold gets_turn; rewrite E; mrun R1; change (1 <? 1) with false; cbv iota; mrun Rc; mrun R2; rewrite Enl; reflexivity].
      rewrite R3. f_equal. cbn [length]. lia.
Qed.

Lemma gets_ok u l o buf max :
  0 < max -> 0 <= buf -> buf + max <= u_sz u -> 0 <= slot < u_sz u -> ~ (buf <= slot < buf + max) ->
  io (u_world u) l o -> Forall is_u8 l ->
  let line := line_of (Z.to_nat (max - 1)) l in
  exists u', gets buf max u = Ok buf u' /\ u_sz u' = u_sz u /\ u_gone u' = u_gone u /\
    io (u_world u') (drop (length line) l) o /\
    forall a, a <> slot -> ldb (u_mem u') a = ldb (stbs (u_mem u) buf (line ++ [0])) a.
Proof.
  intros Hm Hb Hbz Hs Hno Hi Hl line. unfold gets.
  destruct (gets_loop (Z.to_nat (max - 1)) u 0 l o buf max (S (Z.to_nat max))) as (u1 & R1 & Z1 & G1 & I1 & M1);
    [lia | lia | lia | done.. |]. fold line in R1, I1, M1.
  assert (length line <= Z.to_nat (max - 1))%nat as Hlen by apply line_of_length.
  mrun R1. mrun (sb_ok (buf + (0 + Z.of_nat (length line))) 0 u1 ltac:(apply reaches_iff; lia)).
  eexists. split; [done|]. split_and!; [done | done | done |]. intros a Ha. cbn [u_mem set_u_mem].
  rewrite ldb_stb, M1, !Z.add_0_r, !ldb_stbs, length_app by done. cbn [length Z.add].
  repeat case_decide; try lia; subst; try done.
  - rewrite app_nth2 by lia. by replace (Z.to_nat _ - _)%nat with 0%nat by lia.
  - by rewrite app_nth1 by lia.
Qed.
End input.

(** ** Properties *)

Section properties.
Context {W : Type} `{Kernel W} `{Frame}.
Implicit Types u : U W.

(** gets stores one line of its input, with the newline and a NUL, never
    writes outside of [buf, buf + max), and leaves the rest of the input to
    the next call. *)
Theorem gets_spec fo io `{!Stdio W 0 fo io} u l o buf max :
  0 < max -> 0 <= buf -> buf + max <= u_sz u -> 0 <= slot < u_sz u -> ~ (buf <= slot < buf + max) ->
  io (u_world u) l o -> Forall is_u8 l ->
  let line := line_of (Z.to_nat (max - 1)) l in
  (length line < Z.to_nat max)%nat /\ line ++ drop (length line) l = l /\
  exists u', gets buf max u = Ok buf u' /\ u_sz u' = u_sz u /\ io (u_world u') (drop (length line) l) o /\
    forall a, a <> slot -> ldb (u_mem u') a = ldb (stbs (u_mem u) buf (line ++ [0])) a.
Proof.
  intros Hm Hb Hbz Hs Hno Hi Hl line. pose proof (line_of_length (Z.to_nat (max - 1)) l) as Hlen. fold line in Hlen.
  split_and!; [lia | apply line_of_prefix |].
  destruct (gets_ok u l o buf max Hm Hb Hbz Hs Hno Hi Hl) as (u' & R & Z1 & _ & I1 & M1). by exists u'.
Qed.


(** atoi reads back what printf prints for a number that is not negative. *)
Theorem atoi_printint u s n :
  0 <= n < 2 ^ 31 -> str_at u s (piece_out (PDec n)) -> atoi s u = Ok n u.
Proof.
  intros Hn Hs. cbn in Hs. unfold printint_buf, numeral in Hs. rewrite i32_small in Hs by (unfold is_i32; lia).
  rewrite (proj2 (Z.ltb_ge n 0)) in Hs by lia. cbn [andb] in Hs. rewrite app_nil_r in Hs.
  rewrite (u32_small n) in Hs by (unfold is_u32; lia).
  rewrite (atoi_ok u s (rev (digits_of digit 32 n 10)) []); [| by rewrite app_nil_r | apply Forall_rev, digits_of_digit | done].
  rewrite rev_alt. change (rev_append (digits_of digit 32 n 10) []) with (reverse (digits_of digit 32 n 10)).
  destruct (digits_of_u32 digit 32 n 10) as [-> _]; [unfold is_u32; lia | by left | lia |].
  by rewrite i32_small by (unfold is_i32; lia).
Qed.

(** Unlike the kernel's, this memmove copies upwards whatever the blocks: moved
    up by one byte, a block becomes copies of its first byte. *)
Theorem memmove_smears u s n : 0 <= s -> 0 <= n -> s + 1 + n <= u_sz u ->
  exists u', memmove (s + 1) s n u = Ok (s + 1) u' /\
    forall a, s < a <= s + n -> ldb (u_mem u') a = u8 (ldb (u_mem u) s).
Proof.
  intros Hs Hn Hsz. rewrite memmove_run by lia. eexists. split; [done|]. cbn [u_mem set_u_mem].
  rewrite <-(Z2Nat.id n) by done. generalize (Z.to_nat n). clear Hn Hsz. intros k.
  rewrite Nat2Z.id. generalize (u_mem u). clear u Hs. revert s. induction k as [|k IH]; intros s m a Ha; [lia|].
  cbn [string_c.memmove_up]. destruct (decide (a = s + 1)) as [->|Hne].
  - rewrite memmove_up_below by lia. by rewrite ldb_stb_eq.
  - rewrite IH by lia. rewrite ldb_stb_eq. unfold u8. by rewrite Z.mod_mod.
Qed.
End properties.

(** *** The properties at work *)

#[local] Instance sample_frame : Frame := 3.
Definition sample_u (m : mem) (input : list Z) : U tape := mk_U m 64 false (mk_tape input [] 5 0).

Lemma gets_spec_witness :
  exists u', gets 10 8 (sample_u ∅ (bytes "ls" ++ [10] ++ bytes "cat")) = Ok 10 u' /\
    tape_io (u_world u') (bytes "cat") [].
Proof.
  destruct (gets_spec 1 tape_io (sample_u ∅ (bytes "ls" ++ [10] ++ bytes "cat")) (bytes "ls" ++ [10] ++ bytes "cat") [] 10 8)
    as (_ & _ & u' & R & _ & I & _);
    [lia | lia | cbn; lia | cbv; split; congruence | cbv; intros []; congruence | done | |].
  - repeat constructor; cbv; congruence.
  - exists u'. done.
Defined.


Lemma atoi_printint_witness :
  atoi 10 (sample_u (stbs ∅ 10 (bytes "2024")) []) = Ok 2024 (sample_u (stbs ∅ 10 (bytes "2024")) []).
Proof.
  apply atoi_printint; [lia|]. vm_compute. repeat split; try congruence; repeat constructor; congruence.
Defined.

Lemma memmove_smears_witness :
  exists u', memmove 11 10 3 (sample_u (stbs ∅ 10 (bytes "abcd")) []) = Ok 11 u' /\
    ldbs (u_mem u') 10 4 = bytes "aaaa".
Proof.
  destruct (memmove_smears (sample_u (stbs ∅ 10 (bytes "abcd")) []) 10 3) as (u' & R & _); [lia | lia | cbn; lia |].
  exists u'. split; [exact R|]. vm_compute in R. injection R as <-. reflexivity.
Defined.
