(* ===== verification/Umalloc.v ===== *)
(** * The user memory allocator (umalloc.c)

    Free blocks form a circular list through their headers, in the order of
    their addresses; the list starts at the static header [base] and [freep]
    points to the block where the next search starts.  A header is two words
    in memory, the link and the size in units of 8 bytes. *)

From Stdlib Require Import ZArith Lia.
From stdpp Require Import base gmap list strings numbers.
From S2P Require Import Prelude Strings User.

Open Scope Z_scope.

(** Where the linker puts the two static variables, and where the heap can
    start: the first address that sbrk may return. *)
Class Statics := { a_base : Z; a_freep : Z; heap_lo : Z }.

Section umalloc.
Context {W : Type} `{Kernel W} `{Statics}.

(** The fields of a header. *)
Definition s_ptr (p : Z) : UM W Z := lw p.
Definition s_size (p : Z) : UM W Z := lw (p + 4).
Definition set_s_ptr (p v : Z) : UM W unit := sw p v.
Definition set_s_size (p v : Z) : UM W unit := sw (p + 4) v.

(** The search of [free]: the block after which [bp] belongs. *)
Definition free_turn (bp p : Z) : UM W (Z + Z) :=
  let* nx := s_ptr p in
  if (p <? bp) && (bp <? nx) then ret (inr p)
  else if (nx <=? p) && ((p <? bp) || (bp <? nx)) then ret (inr p)
  else ret (inl nx).

(** Joining [bp] to the block after it, and to the block [p] before it. *)
Definition join_upper (bp p : Z) : UM W unit :=
  let* bs := s_size bp in
  let* nx := s_ptr p in
  if u32 (bp + 8 * bs) =? nx then
    let* ns := s_size nx in
    set_s_size bp (u32 (bs + ns)) ;;;
    let* nn := s_ptr nx in
    set_s_ptr bp nn
  else set_s_ptr bp nx.
Definition join_lower (bp p : Z) : UM W unit :=
  let* ps := s_size p in
  if u32 (p + 8 * ps) =? bp then
    let* bs := s_size bp in
    set_s_size p (u32 (ps + bs)) ;;;
    let* bn := s_ptr bp in
    set_s_ptr p bn
  else set_s_ptr p bp.

Definition free (ap : Z) : UM W unit :=
  let bp := u32 (ap - 8) in
  let* f := lw a_freep in
  let* p := walk (free_turn bp) f in
  join_upper bp p ;;;
  join_lower bp p ;;;
  sw a_freep p.

Definition morecore (nu : Z) : UM W Z :=
  let nu := if nu <? 4096 then 4096 else nu in
  let* p := sbrk (i32 (nu * 8)) in
  if p =? u32 (-1) then ret 0
  else
    set_s_size p nu ;;;
    free (p + 8) ;;;
    lw a_freep.

(** The number of units for [nbytes] bytes, in the arithmetic of [uint]. *)
Definition units (nbytes : Z) : Z := u32 (nbytes + 8 - 1) / 8 + 1.

Definition malloc_turn (nunits : Z) (pp : Z * Z) : UM W (Z * Z + Z) :=
  let '(prevp, p) := pp in
  let* sz := s_size p in
  if nunits <=? sz then
    let* p :=
      if sz =? nunits then
        let* nx := s_ptr p in
        set_s_ptr prevp nx ;;;
        ret p
      else
        set_s_size p (sz - nunits) ;;;
        let p := u32 (p + 8 * (sz - nunits)) in
        set_s_size p nunits ;;;
        ret p in
    sw a_freep prevp ;;;
    ret (inr (u32 (p + 8)))
  else
    let* f := lw a_freep in
    if p =? f then
      let* p := morecore nunits in
      if p =? 0 then ret (inr 0)
      else let* nx := s_ptr p in ret (inl (p, nx))
    else let* nx := s_ptr p in ret (inl (p, nx)).

Definition malloc (nbytes : Z) : UM W Z :=
  let nunits := units nbytes in
  let* f := lw a_freep in
  let* prevp :=
    if f =? 0 then
      sw a_freep a_base ;;;
      set_s_ptr a_base a_base ;;;
      set_s_size a_base 0 ;;;
      ret a_base
    else ret f in
  let* p := s_ptr prevp in
  walk (malloc_turn nunits) (prevp, p).

End umalloc.

(** ** The heap's invariant *)

(** Blocks are pairs of an address and a size in units. *)
Abbreviation block := (Z * Z)%type.

(** The address where a list of blocks starts, [e] for the empty list. *)
Definition start (l : list block) (e : Z) : Z := match l with [] => e | (a, _) :: _ => a end.

(** The headers of the blocks [l] hold their sizes and link them to one
    another and finally to [e]. *)
Fixpoint chain (m : mem) (l : list block) (e : Z) : Prop :=
  match l with
  | [] => True
  | (a, s) :: l => ldw m a = start l e /\ ldw m (a + 4) = s /\ chain m l e
  end.

(** The blocks lie between [lo] and [hi] in ascending order and no two of them
    touch; a header takes a unit even when its size is 0, as that of [base]. *)
Fixpoint spaced (lo : Z) (l : list block) (hi : Z) : Prop :=
  match l with
  | [] => lo <= hi + 1
  | (a, s) :: l => lo <= a /\ 0 <= s /\ spaced (a + 8 * Z.max 1 s + 1) l hi
  end.

Section lists.
Implicit Types l : list block.

Lemma start_app l1 l2 e : start (l1 ++ l2) e = start l1 (start l2 e).
Proof. by destruct l1 as [|[]]. Qed.

Lemma chain_app m l1 l2 e : chain m (l1 ++ l2) e <-> chain m l1 (start l2 e) /\ chain m l2 e.
Proof.
  induction l1 as [|[a s] l1 IH]; cbn; [naive_solver|]. rewrite IH, start_app. naive_solver.
Qed.

Lemma chain_frame m m' l e :
  (forall a s, (a, s) ∈ l -> ldw m' a = ldw m a /\ ldw m' (a + 4) = ldw m (a + 4)) ->
  chain m l e -> chain m' l e.
Proof.
  induction l as [|[a s] l IH]; intros Hf; cbn; [done|]. intros (H1 & H2 & H3).
  destruct (Hf a s ltac:(left)) as [E1 E2]. rewrite E1, E2. split_and!; [done | done |].
  apply IH; [|done]. intros. by apply (Hf _ s0); right.
Qed.

Lemma chain_lookup m l e j a s : chain m l e -> l !! j = Some (a, s) ->
  ldw m a = start (drop (S j) l) e /\ ldw m (a + 4) = s.
Proof.
  intros Hc Hj. rewrite <-(take_drop_middle l j _ Hj) in Hc. apply chain_app in Hc as [_ (H1 & H2 & _)].
  done.
Qed.

Lemma spaced_lo lo lo' l hi : spaced lo l hi -> lo' <= lo -> spaced lo' l hi.
Proof. destruct l as [|[a s] l]; cbn; [lia|]. intros (? & ? & ?) ?. split_and!; [lia | done | done]. Qed.
Lemma spaced_hi lo l hi hi' : spaced lo l hi -> hi <= hi' -> spaced lo l hi'.
Proof.
  revert lo. induction l as [|[a s] l IH]; intros lo; cbn; [lia|]. intros (? & ? & ?) ?.
  split_and!; [lia | done | by apply IH].
Qed.

Lemma spaced_le lo l hi : spaced lo l hi -> lo <= hi + 1.
Proof. revert lo. induction l as [|[a s] l IH]; intros lo; cbn; [done|]. intros (? & ? & Hr%IH). lia. Qed.

(** Splitting and joining at a block. *)
Lemma spaced_mid lo l1 a s l2 hi :
  spaced lo (l1 ++ (a, s) :: l2) hi <->
  spaced lo l1 (a - 1) /\ lo <= a /\ 0 <= s /\ spaced (a + 8 * Z.max 1 s + 1) l2 hi.
Proof.
  revert lo. induction l1 as [|[b t] l1 IH]; intros lo; cbn; [split; intros; split_and!; naive_solver lia|].
  rewrite IH. split; intros; destruct_and!; split_and!; try done; try lia.
  match goal with Hl : spaced _ l1 _ |- _ => apply spaced_le in Hl end. lia.
Qed.

Lemma spaced_in lo l hi a s : spaced lo l hi -> (a, s) ∈ l ->
  lo <= a /\ 0 <= s /\ a + 8 * Z.max 1 s <= hi.
Proof.
  intros Hs (l1 & l2 & ->)%list_elem_of_split. apply spaced_mid in Hs as (_ & ? & ? & H2).
  apply spaced_le in H2. lia.
Qed.

Lemma spaced_length lo l hi : spaced lo l hi -> lo + 9 * Z.of_nat (length l) <= hi + 1.
Proof.
  revert lo. induction l as [|[a s] l IH]; intros lo; cbn; [lia|]. intros (? & ? & Hr%IH). lia.
Qed.
End lists.

Class StaticsOk `{Statics} : Prop := {
  st_base : 0 < a_base;
  st_lo : a_base + 8 < heap_lo;
  st_freep : 0 <= a_freep /\ a_freep + 4 <= heap_lo;
  st_apart : a_freep + 4 <= a_base \/ a_base + 8 <= a_freep;
}.

Section heap.
Context {W : Type} `{Kernel W} `{Statics} `{!StaticsOk}.
Implicit Types (u : U W) (L l : list block).

(** The free list: [base] and the free blocks of the heap. *)
Record ring_ok u L : Prop := {
  ro_sz : heap_lo <= u_sz u < 2 ^ 31;
  ro_head : exists l, L = (a_base, 0) :: l /\ Forall (fun x => heap_lo <= x.1 /\ 1 <= x.2) l;
  ro_chain : chain (u_mem u) L a_base;
  ro_spaced : spaced a_base L (u_sz u);
  ro_freep : exists j s, L !! j = Some (ldw (u_mem u) a_freep, s);
}.

(** Two blocks that do not overlap. *)
Definition disjoint_from (a s b t : Z) : Prop := a + 8 * s <= b \/ b + 8 * Z.max 1 t <= a.

(** A block that the program holds; [al] are all of them. *)
Record held u L a s : Prop := {
  he_lo : heap_lo <= a;
  he_units : 1 <= s;
  he_hi : a + 8 * s <= u_sz u;
  he_size : ldw (u_mem u) (a + 4) = s;
  he_free : forall b t, (b, t) ∈ L -> disjoint_from a s b t;
}.
Record heap_ok u L (al : gmap Z Z) : Prop := {
  ho_ring : ring_ok u L;
  ho_held : forall a s, al !! a = Some s -> held u L a s;
  ho_apart : forall a s b t, al !! a = Some s -> al !! b = Some t -> a <> b -> disjoint_from a s b t;
}.

Lemma ring_in u L a s : ring_ok u L -> (a, s) ∈ L ->
  a_base <= a /\ a + 8 * Z.max 1 s <= u_sz u /\ ((a = a_base /\ s = 0) \/ (heap_lo <= a /\ 1 <= s)).
Proof.
  intros R Hin. destruct (spaced_in _ _ _ _ _ (ro_spaced _ _ R) Hin) as (? & ? & ?).
  split_and!; [done | done |]. destruct (ro_head _ _ R) as (l & -> & Hl).
  apply elem_of_cons in Hin as [[= -> ->]|Hin]; [by left | right].
  by apply (proj1 (list.Forall_forall _ _) Hl (a, s)).
Qed.

(** The words of a block of the ring can be loaded. *)
Lemma ring_reaches u L a s : ring_ok u L -> (a, s) ∈ L -> reaches a 4 u = true /\ reaches (a + 4) 4 u = true.
Proof.
  intros R Hin. destruct (ring_in u L a s R Hin) as (? & ? & _). pose proof st_base.
  split; apply reaches_iff; lia.
Qed.

Lemma ring_size u L a s : ring_ok u L -> (a, s) ∈ L -> s_size a u = Ok s u.
Proof.
  intros R Hin. unfold s_size. rewrite lw_ok by apply (ring_reaches u L a s R Hin).
  apply list_elem_of_lookup in Hin as [j Hj]. by destruct (chain_lookup _ _ _ _ _ _ (ro_chain _ _ R) Hj) as [_ ->].
Qed.

(** One step along the ring. *)
Lemma ring_next u L j a s : ring_ok u L -> L !! j = Some (a, s) ->
  exists nx s' j', s_ptr a u = Ok nx u /\ L !! j' = Some (nx, s') /\
    ((j' = S j /\ a + 8 * Z.max 1 s < nx) \/ (j' = 0%nat /\ S j = length L /\ nx = a_base)).
Proof.
  intros R Hj. pose proof (list_elem_of_lookup_2 _ _ _ Hj) as Hin.
  unfold s_ptr. rewrite lw_ok by apply (ring_reaches u L a s R Hin).
  destruct (chain_lookup _ _ _ _ _ _ (ro_chain _ _ R) Hj) as [-> _].
  pose proof (ro_spaced _ _ R) as Hs. rewrite <-(take_drop_middle L j _ Hj) in Hs.
  apply spaced_mid in Hs as (_ & _ & _ & Hs). destruct (drop (S j) L) as [|[b t] l2] eqn:Hd; cbn [start].
  - exists a_base, 0, 0%nat. destruct (ro_head _ _ R) as (l & -> & _). split_and!; [done | done | right].
    apply lookup_lt_Some in Hj. apply (f_equal length) in Hd. rewrite length_drop in Hd. cbn in *. lia.
  - exists b, t, (S j). split_and!; [done | |left; cbn in Hs; lia].
    rewrite <-(Nat.add_0_r (S j)), <-lookup_drop, Hd. done.
Qed.

(** Blocks are in the order of their addresses. *)
Lemma ring_order u L i j a s b t : ring_ok u L ->
  L !! i = Some (a, s) -> L !! j = Some (b, t) -> (i < j)%nat -> a + 8 * Z.max 1 s < b.
Proof.
  intros R Hi Hj Hlt. pose proof (ro_spaced _ _ R) as Hs. rewrite <-(take_drop_middle L i _ Hi) in Hs.
  apply spaced_mid in Hs as (_ & _ & _ & Hs).
  destruct (spaced_in _ _ _ b t Hs) as [? _]; [|lia].
  apply list_elem_of_lookup. exists (j - S i)%nat. rewrite lookup_drop. by replace (S i + (j - S i))%nat with j by lia.
Qed.

(** How far [i] is from [j] on a ring of [n]. *)
Definition dist (n i j : nat) : nat := if decide (j <= i)%nat then (i - j)%nat else (i + n - j)%nat.
Lemma dist_step n i j j' : (i < n)%nat -> (j < n)%nat -> i <> j ->
  (j' = S j /\ (S j < n)%nat) \/ (j' = 0%nat /\ S j = n) -> (dist n i j' < dist n i j)%nat.
Proof. unfold dist. intros. repeat case_decide; lia. Qed.
Lemma dist_next n i j j' : (i < n)%nat -> (j < n)%nat -> i <> j ->
  (j' = S j /\ (S j < n)%nat) \/ (j' = 0%nat /\ S j = n) -> dist n i j = S (dist n i j').
Proof. unfold dist. intros. repeat case_decide; lia. Qed.
Lemma dist_round n i i' : (i < n)%nat -> (i' = S i /\ (S i < n)%nat) \/ (i' = 0%nat /\ S i = n) -> S (dist n i i') = n.
Proof. unfold dist. intros. repeat case_decide; lia. Qed.
Lemma dist_zero n i j : (i < n)%nat -> (j < n)%nat -> dist n i j = 0%nat -> i = j.
Proof. unfold dist. intros. repeat case_decide; lia. Qed.
Lemma dist_inj n i j j' : (i < n)%nat -> (j < n)%nat -> (j' < n)%nat -> dist n i j = dist n i j' -> j = j'.
Proof. unfold dist. intros. repeat case_decide; lia. Qed.
Lemma dist_lt n i j : (i < n)%nat -> (j < n)%nat -> (dist n i j < n)%nat.
Proof. unfold dist. intros. case_decide; lia. Qed.

(** The place of a block between the blocks of the ring. *)
Lemma spaced_split lo a s l hi bp bs :
  spaced lo ((a, s) :: l) hi -> 1 <= bs -> a + 8 * Z.max 1 s <= bp -> (forall b t, (b, t) ∈ l -> disjoint_from bp bs b t) ->
  exists l1 p r l2, (a, s) :: l = l1 ++ (p, r) :: l2 /\ p + 8 * Z.max 1 r <= bp /\
    (l2 <> [] -> bp + 8 * bs <= start l2 0).
Proof.
  intros Hs Hbs. revert lo a s Hs. induction l as [|[b t] l IH]; intros lo a s Hs Hab Hdis.
  - exists [], a, s, []. split_and!; [done | done | done].
  - destruct (Hdis b t ltac:(left)) as [Hlt|Hgt].
    + exists [], a, s, ((b, t) :: l). split_and!; [done | done | done].
    + destruct Hs as (_ & _ & Hs).
      destruct (IH _ b t Hs Hgt) as (l1 & p & r & l2 & E & ? & ?); [intros; apply Hdis; by right|].
      exists ((a, s) :: l1), p, r, l2. split_and!; [by rewrite E | done | done].
Qed.

Lemma ring_split u L bp bs : ring_ok u L -> held u L bp bs ->
  exists l1 p s l2, L = l1 ++ (p, s) :: l2 /\ p + 8 * Z.max 1 s <= bp /\
    (l2 <> [] -> bp + 8 * bs <= start l2 0).
Proof.
  intros R [Hlo Hu _ _ Hf]. destruct (ro_head _ _ R) as (l & -> & _). pose proof st_lo.
  apply (spaced_split a_base _ _ _ (u_sz u)); [apply R | done | cbn; lia |]. intros b t Hb. apply Hf. by right.
Qed.

(** Blocks after the place of [bp] are above it. *)
Lemma ring_after u l1 x l2 e j a t :
  ring_ok u (l1 ++ x :: l2) -> (l2 <> [] -> e <= start l2 0) ->
  (l1 ++ x :: l2) !! j = Some (a, t) -> (length l1 < j)%nat -> e <= a.
Proof.
  intros R He Hj Hlt. assert ((l1 ++ x :: l2) !! S (length l1) = l2 !! 0%nat) as E
    by (rewrite lookup_app_r by lia; by replace (S (length l1) - length l1)%nat with 1%nat by lia).
  destruct l2 as [|[b r] l2].
  - apply lookup_lt_Some in Hj. rewrite length_app in Hj. cbn in Hj. lia.
  - specialize (He ltac:(done)). cbn in He, E. destruct (decide (j = S (length l1))) as [->|Hne].
    + rewrite E in Hj. by simplify_eq.
    + pose proof (ring_order _ _ _ _ _ _ _ _ R E Hj ltac:(lia)). lia.
Qed.

(** The test of the search: it holds at the block before [bp] and nowhere else. *)
Lemma free_turn_at u l1 p s l2 bp bs j a t :
  let L := l1 ++ (p, s) :: l2 in
  ring_ok u L -> p + 8 * Z.max 1 s <= bp -> 1 <= bs -> (l2 <> [] -> bp + 8 * bs <= start l2 0) ->
  L !! j = Some (a, t) ->
  (j = length l1 /\ free_turn bp a u = Ok (inr p) u) \/
  (j <> length l1 /\ exists nx s' j', free_turn bp a u = Ok (inl nx) u /\ L !! j' = Some (nx, s') /\
     ((j' = S j /\ (S j < length L)%nat) \/ (j' = 0%nat /\ S j = length L))).
Proof.
  intros L R Hp Hbs Hl2 Hj. assert (L !! length l1 = Some (p, s)) as Hi by by apply list_lookup_middle.
  destruct (ring_next u L j a t R Hj) as (nx & s' & j' & Rn & Hj' & Hnx). unfold free_turn. mrun Rn.
  pose proof (fun j a t => ring_after u l1 (p, s) l2 _ j a t R Hl2) as Hafter.
  destruct (ring_in u L a t R (list_elem_of_lookup_2 _ _ _ Hj)) as (Hab & _). pose proof st_base.
  destruct (ring_in u L p s R (list_elem_of_lookup_2 _ _ _ Hi)) as (Hpb & _).
  destruct (Nat.eq_dec j (length l1)) as [->|Hne]; [left | right]; (split; [done|]).
  - rewrite Hi in Hj. injection Hj as <- <-. destruct Hnx as [[-> Hlt]|(-> & Hlast & ->)].
    + pose proof (Hafter _ _ _ Hj' ltac:(lia)).
      by rewrite (proj2 (Z.ltb_lt p bp)), (proj2 (Z.ltb_lt bp nx)) by lia.
    + by rewrite (proj2 (Z.ltb_lt p bp)), (proj2 (Z.ltb_ge bp a_base)), (proj2 (Z.leb_le a_base p)) by lia.
  - exists nx, s', j'. split_and!; [|done|].
    2: { pose proof (lookup_lt_Some _ _ _ Hj'). destruct Hnx as [[-> _]|(-> & ? & _)]; [by left | by right]. }
    assert ((a <? bp) && (bp <? nx) = false /\ (nx <=? a) && ((a <? bp) || (bp <? nx)) = false) as [-> ->]; [|done].
    rewrite !andb_false_iff, orb_false_iff.
    destruct (decide (j < length l1)%nat) as [Hlt|Hge].
    + pose proof (lookup_lt_Some _ _ _ Hi). destruct Hnx as [[-> Hnx]|(-> & Hlast & ->)]; [|lia].
      enough (nx <= p) by lia.
      destruct (decide (S j = length l1)) as [E|E]; [rewrite E, Hi in Hj'; by injection Hj' as -> _|].
      pose proof (ring_order u L (S j) (length l1) nx s' p s R Hj' Hi ltac:(lia)). lia.
    + pose proof (Hafter _ _ _ Hj ltac:(lia)). destruct Hnx as [[-> Hnx]|(-> & Hlast & ->)]; lia.
Qed.

Lemma ring_length u L : ring_ok u L -> 9 * Z.of_nat (length L) <= u_sz u.
Proof. intros R. pose proof (spaced_length _ _ _ (ro_spaced _ _ R)). pose proof st_base. lia. Qed.

(** The search of free ends at the block before the freed one. *)
Lemma free_search u l1 p s l2 bp bs f sf jf :
  let L := l1 ++ (p, s) :: l2 in
  ring_ok u L -> p + 8 * Z.max 1 s <= bp -> 1 <= bs ->
  (l2 <> [] -> bp + 8 * bs <= start l2 0) -> L !! jf = Some (f, sf) -> walk (free_turn bp) f u = Ok p u.
Proof.
  intros L R Hp Hbs Hl2 Hf. pose proof (ring_length u L R) as Hlen.
  assert (length l1 < length L)%nat as Hil by (unfold L; rewrite length_app; cbn; lia).
  destruct (loop_ok (free_turn bp) (fun k a v => v = u /\ exists j t, L !! j = Some (a, t) /\ k = dist (length L) (length l1) j)
    (fun b v => b = p /\ v = u) (dist (length L) (length l1) jf) (S (Z.to_nat (u_sz u))) f u) as (b & v & Rw & -> & ->);
    [| | pose proof (dist_lt (length L) (length l1) jf Hil (lookup_lt_Some _ _ _ Hf)); lia | done].
  - intros k a v (-> & j & t & Hj & ->).
    destruct (free_turn_at u l1 p s l2 bp bs j a t R Hp Hbs Hl2 Hj) as [[-> Rt]|(Hne & nx & s' & j' & Rt & Hj' & Hst)].
    + left. by exists p, u.
    + right. exists (dist (length L) (length l1) j'), nx, u. split_and!; [done | done | by exists j', s' |].
      apply dist_step; [done | by eapply lookup_lt_Some | done | done].
  - split; [done|]. by exists jf, sf.
Qed.

(** *** Memory *)

(** [u'] is [u] with other bytes in [a, a + n) and nowhere else. *)
Definition wrote (a n : Z) u u' : Prop :=
  u_sz u' = u_sz u /\ u_gone u' = u_gone u /\ u_world u' = u_world u /\
  forall b, b < a \/ a + n <= b -> ldb (u_mem u') b = ldb (u_mem u) b.

Lemma wrote_ldw a n u u' b : wrote a n u u' -> b + 4 <= a \/ a + n <= b -> ldw (u_mem u') b = ldw (u_mem u) b.
Proof. intros (_ & _ & _ & Hw) Hb. apply ldw_frame. intros c Hc. apply Hw. lia. Qed.

Lemma spaced_start lo lo' l hi :
  spaced lo l hi -> (l <> [] -> lo' <= start l 0) -> lo' <= hi + 1 -> spaced lo' l hi.
Proof. destruct l as [|[a s] l]; cbn; [done|]. intros (? & ? & ?) Hl _. split_and!; [by apply Hl | done | done]. Qed.

Lemma ring_start u L l : ring_ok u L -> l ⊆ L -> is_u32 (start l a_base).
Proof.
  intros R Hl. pose proof (ro_sz _ _ R). pose proof st_base. pose proof st_lo. unfold is_u32.
  destruct l as [|[a s] l]; cbn; [lia|]. destruct (ring_in u L a s R (Hl _ ltac:(left))) as (? & ? & _). lia.
Qed.

(** *** join_upper *)

Lemma join_upper_ok u l1 p s l2 bp bs :
  let L := l1 ++ (p, s) :: l2 in
  ring_ok u L -> held u L bp bs -> p + 8 * Z.max 1 s <= bp -> (l2 <> [] -> bp + 8 * bs <= start l2 0) ->
  exists u1 bs' l3, join_upper bp p u = Ok tt u1 /\ wrote bp 8 u u1 /\
    ldw (u_mem u1) bp = start l3 a_base /\ ldw (u_mem u1) (bp + 4) = bs' /\
    ((l3 = l2 /\ bs' = bs) \/ (exists ns, 1 <= ns /\ l2 = (bp + 8 * bs, ns) :: l3 /\ bs' = bs + ns)) /\
    spaced (bp + 8 * bs' + 1) l3 (u_sz u).
Proof.
  intros L R [Hlo Hu Hhi Hsize _] Hp Hl2. unfold join_upper. pose proof st_base. pose proof st_lo.
  pose proof (ro_sz _ _ R) as Hsz. assert ((p, s) ∈ L) as Hin by (apply elem_of_app; right; left).
  assert (s_size bp u = Ok bs u) as R1.
  { unfold s_size. rewrite lw_ok; [by rewrite Hsize | apply reaches_iff; lia]. }
  pose proof (ro_chain _ _ R) as Hc. apply chain_app in Hc as [_ (Hnx & _ & Hc)].
  pose proof (ro_spaced _ _ R) as Hs. apply spaced_mid in Hs as (_ & _ & _ & Hs).
  assert (s_ptr p u = Ok (start l2 a_base) u) as R2.
  { unfold s_ptr. rewrite lw_ok; [by rewrite Hnx | apply (ring_reaches u L p s R Hin)]. }
  mrun R1. mrun R2. rewrite u32_small by (unfold is_u32; lia).
  destruct (Z.eqb_spec (bp + 8 * bs) (start l2 a_base)) as [E|E].
  - destruct l2 as [|[nx ns] l3]; cbn [start] in *; [lia|]. clear Hnx. subst nx. destruct Hc as (Hnn & Hns & Hc).
    assert ((bp + 8 * bs, ns) ∈ L) as Hin2 by (apply elem_of_app; right; right; left).
    destruct (ring_in u L _ _ R Hin2) as (_ & Hnhi & Hnsz).
    mrun (ring_size u L _ _ R Hin2). rewrite u32_small by (unfold is_u32; lia).
    unfold set_s_size. mrun (sw_ok (bp + 4) (bs + ns) u ltac:(apply reaches_iff; lia)).
    unfold s_ptr. mrun (lw_ok (bp + 8 * bs) (set_u_mem (stw (u_mem u) (bp + 4) (bs + ns)) u) ltac:(apply reaches_iff; cbn; lia)).
    cbn [u_mem set_u_mem]. rewrite ldw_stw_ne, Hnn by lia. unfold set_s_ptr.
    rewrite sw_ok by (apply reaches_iff; cbn; lia). eexists _, (bs + ns), l3. split; [done|].
    cbn [u_mem set_u_mem]. split_and!.
    + split_and!; [done | done | done |]. intros b Hb. cbn. rewrite !ldb_stw_ne; [done | lia | lia].
    + apply ldw_stw_same, (ring_start u L); [done|]. intros x Hx. apply elem_of_app. right. by right; right.
    + rewrite ldw_stw_ne, ldw_stw_same by (unfold is_u32; lia). done.
    + right. exists ns. split_and!; [lia | done | done].
    + destruct Hs as (_ & _ & Hs). by replace (bp + 8 * (bs + ns) + 1) with (bp + 8 * bs + 8 * Z.max 1 ns + 1) by lia.
  - unfold set_s_ptr. rewrite sw_ok by (apply reaches_iff; lia). eexists _, bs, l2. split; [done|].
    cbn [u_mem set_u_mem]. split_and!.
    + split_and!; [done | done | done |]. intros b Hb. cbn. rewrite ldb_stw_ne; [done | lia].
    + apply ldw_stw_same, (ring_start u L); [done|]. intros x Hx. apply elem_of_app. right. by right.
    + rewrite ldw_stw_ne by lia. done.
    + by left.
    + apply (spaced_start _ _ _ _ Hs); [|lia]. intros Hn. specialize (Hl2 Hn).
      destruct l2 as [|[c r] l2]; [done|]. cbn in *. lia.
Qed.

(** *** join_lower *)

Lemma join_lower_ok u p s bp bs e :
  0 < p -> 0 <= s -> p + 8 * Z.max 1 s <= bp -> 1 <= bs -> bp + 8 * bs <= u_sz u -> u_sz u < 2 ^ 31 -> is_u32 e ->
  ldw (u_mem u) (p + 4) = s -> ldw (u_mem u) bp = e -> ldw (u_mem u) (bp + 4) = bs ->
  exists u', join_lower bp p u = Ok tt u' /\ wrote p 8 u u' /\
    if decide (p + 8 * s = bp) then ldw (u_mem u') p = e /\ ldw (u_mem u') (p + 4) = s + bs
    else ldw (u_mem u') p = bp /\ ldw (u_mem u') (p + 4) = s.
Proof.
  intros Hp Hs Hpb Hbs Hhi Hsz He Hps Hbp Hbs'. unfold join_lower, s_size, s_ptr, set_s_size, set_s_ptr.
  mrun (lw_ok (p + 4) u ltac:(apply reaches_iff; lia)). rewrite Hps, u32_small by (unfold is_u32; lia).
  case_decide as E.
  - rewrite (proj2 (Z.eqb_eq _ _) E). mrun (lw_ok (bp + 4) u ltac:(apply reaches_iff; lia)).
    rewrite Hbs', u32_small by (unfold is_u32; lia).
    mrun (sw_ok (p + 4) (s + bs) u ltac:(apply reaches_iff; lia)).
    mrun (lw_ok bp (set_u_mem (stw (u_mem u) (p + 4) (s + bs)) u) ltac:(apply reaches_iff; cbn; lia)).
    cbn [u_mem set_u_mem]. rewrite ldw_stw_ne, Hbp, sw_ok by (lia || (apply reaches_iff; cbn; lia)).
    eexists. split; [done|]. cbn [u_mem set_u_mem]. split_and!.
    + split_and!; [done | done | done |]. intros b Hb. cbn. rewrite !ldb_stw_ne; [done | lia | lia].
    + by apply ldw_stw_same.
    + rewrite ldw_stw_ne, ldw_stw_same by (unfold is_u32; lia). done.
  - rewrite (proj2 (Z.eqb_neq _ _) E), sw_ok by (apply reaches_iff; lia).
    eexists. split; [done|]. cbn [u_mem set_u_mem]. split_and!.
    + split_and!; [done | done | done |]. intros b Hb. cbn. rewrite ldb_stw_ne; [done | lia].
    + apply ldw_stw_same. unfold is_u32. lia.
    + rewrite ldw_stw_ne by lia. done.
Qed.

(** *** free *)

(** What the ring looks like with [bp] in it: [L] up to [p], then [bp], joined
    to its neighbours where they touch. *)
Definition joined l1 p s bp bs l3 : list block :=
  l1 ++ (if decide (p + 8 * s = bp) then [(p, s + bs)] else [(p, s); (bp, bs)]) ++ l3.

Lemma joined_ok u u' l1 p s l2 bp bs l3 :
  let L := l1 ++ (p, s) :: l2 in
  ring_ok u L -> p + 8 * Z.max 1 s <= bp -> heap_lo <= bp -> 1 <= bs -> l3 ⊆ l2 ->
  u_sz u' = u_sz u -> spaced (bp + 8 * bs + 1) l3 (u_sz u) -> ldw (u_mem u') a_freep = p ->
  chain (u_mem u') l1 p -> chain (u_mem u') l3 a_base ->
  (if decide (p + 8 * s = bp) then ldw (u_mem u') p = start l3 a_base /\ ldw (u_mem u') (p + 4) = s + bs
   else ldw (u_mem u') p = bp /\ ldw (u_mem u') (p + 4) = s /\
        ldw (u_mem u') bp = start l3 a_base /\ ldw (u_mem u') (bp + 4) = bs) ->
  ring_ok u' (joined l1 p s bp bs l3).
Proof.
  intros L R Hp Hbp Hbs Hl3 Hsz Hs3 Hf Hc1 Hc3 Hpp. pose proof st_lo. pose proof (ro_sz _ _ R).
  pose proof (ro_spaced _ _ R) as Hs. apply spaced_mid in Hs as (Hs1 & Hpb & Hs0 & _).
  destruct (ring_in u L p s R) as (_ & _ & Hps); [apply elem_of_app; right; left|].
  unfold joined. split.
  - by rewrite Hsz.
  - destruct (ro_head _ _ R) as (l & EL & Hl). unfold L in EL. destruct l1 as [|[b t] l1]; cbn in EL.
    + injection EL as -> -> ->. rewrite decide_False by lia. exists ((bp, bs) :: l3). split; [done|].
      constructor; [done|]. rewrite list.Forall_forall in *. intros x Hx. by apply Hl, Hl3.
    + injection EL as -> -> <-. eexists. split; [done|]. apply Forall_app in Hl as [Hl1 Hl2].
      apply Forall_cons_1 in Hl2 as [Hps' Hl2]. cbn in Hps'. rewrite !Forall_app. split_and!; [done | |].
      * case_decide; repeat constructor; cbn; lia.
      * rewrite list.Forall_forall in *. intros x Hx. by apply Hl2, Hl3.
  - rewrite chain_app. case_decide; cbn [app chain start]; naive_solver.
  - rewrite Hsz. case_decide as E; cbn [app]; rewrite spaced_mid; split_and!; try done; try lia.
    + by replace (p + 8 * Z.max 1 (s + bs) + 1) with (bp + 8 * bs + 1) by lia.
    + cbn [spaced]. split_and!; [lia | lia |]. by replace (8 * Z.max 1 bs) with (8 * bs) by lia.
  - rewrite Hf. exists (length l1). case_decide; eexists; by apply list_lookup_middle.
Qed.

Definition in_header (a b : Z) : Prop := a <= b < a + 8.
Definition in_freep (b : Z) : Prop := a_freep <= b < a_freep + 4.

(** The units of all blocks of a list. *)
Fixpoint total (l : list block) : Z := match l with [] => 0 | (_, s) :: l => s + total l end.
Lemma total_app l1 l2 : total (l1 ++ l2) = total l1 + total l2.
Proof. induction l1 as [|[a s] l1 IH]; cbn; [done|]. rewrite IH. lia. Qed.

(** [bp] and what join_upper adds to it. *)
Definition upper bp bs bs' l2 l3 : Prop :=
  (l3 = l2 /\ bs' = bs) \/ (exists ns, 1 <= ns /\ l2 = (bp + 8 * bs, ns) :: l3 /\ bs' = bs + ns).
Lemma upper_sub bp bs bs' l2 l3 : upper bp bs bs' l2 l3 -> l3 ⊆ l2 /\ bs <= bs' /\ total l3 + bs' = total l2 + bs.
Proof.
  intros [[-> ->]|(ns & ? & -> & ->)]; [split_and!; done || lia|].
  split_and!; [intros x Hx; by right | lia | cbn; lia].
Qed.

(** Only the headers [bp] and [p] and [freep] differ. *)
Definition relinked bp p u u' : Prop :=
  u_sz u' = u_sz u /\ u_gone u' = u_gone u /\ u_world u' = u_world u /\
  forall b, ~ in_header bp b -> ~ in_header p b -> ~ in_freep b -> ldb (u_mem u') b = ldb (u_mem u) b.

Lemma relinked_ldw u u' L b r bp p : ring_ok u L -> (b, r) ∈ L -> relinked bp p u u' ->
  (b + 8 <= p \/ p + 8 <= b) -> (b + 8 <= bp \/ bp + 8 <= b) ->
  ldw (u_mem u') b = ldw (u_mem u) b /\ ldw (u_mem u') (b + 4) = ldw (u_mem u) (b + 4).
Proof.
  intros R Hb (_ & _ & _ & Hm) Hp Hbp. destruct (ring_in u _ b r R Hb) as (_ & _ & Hbr).
  pose proof st_apart. pose proof st_freep.
  split; apply ldw_frame; intros c Hcb; apply Hm; unfold in_header, in_freep; lia.
Qed.

(** The three steps after the search. *)
Lemma free_links u l1 p s l2 bp bs :
  let L := l1 ++ (p, s) :: l2 in
  ring_ok u L -> held u L bp bs -> p + 8 * Z.max 1 s <= bp -> (l2 <> [] -> bp + 8 * bs <= start l2 0) ->
  exists u' bs' l3, (join_upper bp p ;;; join_lower bp p ;;; sw a_freep p) u = Ok tt u' /\
    relinked bp p u u' /\ upper bp bs bs' l2 l3 /\ ldw (u_mem u') a_freep = p /\
    spaced (bp + 8 * bs' + 1) l3 (u_sz u) /\
    (if decide (p + 8 * s = bp) then ldw (u_mem u') p = start l3 a_base /\ ldw (u_mem u') (p + 4) = s + bs'
     else ldw (u_mem u') p = bp /\ ldw (u_mem u') (p + 4) = s /\
        ldw (u_mem u') bp = start l3 a_base /\ ldw (u_mem u') (bp + 4) = bs').
Proof.
  intros L R Hh Hp Hl2. pose proof st_base. pose proof st_lo. pose proof st_freep. pose proof st_apart.
  pose proof (ro_sz _ _ R). pose proof Hh as [Hlo Hu Hhi _ _].
  assert ((p, s) ∈ L) as Hin by (apply elem_of_app; right; left).
  destruct (ring_in u _ p s R Hin) as (Hpb & _ & Hps).
  destruct (join_upper_ok u l1 p s l2 bp bs R Hh Hp Hl2) as (u1 & bs' & l3 & R1 & W1 & Hb1 & Hb2 & Hl3 & Hs3).
  destruct (upper_sub _ _ _ _ _ Hl3) as (Hsub & Hle & _).
  pose proof (ro_chain _ _ R) as Hc. apply chain_app in Hc as [_ (_ & Hpsz & _)].
  pose proof (spaced_le _ _ _ Hs3) as Hhi'. pose proof W1 as (Z1 & G1 & V1 & M1).
  destruct (join_lower_ok u1 p s bp bs' (start l3 a_base)) as (u2 & R2 & W2 & Hpp);
    [lia | lia | lia | lia | lia | lia | | | done | done |].
  { apply (ring_start u _ l3 R). intros x Hx. apply elem_of_app. right. right. by apply Hsub. }
  { rewrite (wrote_ldw _ _ _ _ _ W1) by lia. done. }
  pose proof W2 as (Z2 & G2 & V2 & M2). exists (set_u_mem (stw (u_mem u2) a_freep p) u2), bs', l3.
  mrun R1. mrun R2. rewrite sw_ok by (apply reaches_iff; lia). cbn [u_mem set_u_mem].
  split_and!; [done | | done | apply ldw_stw_same; unfold is_u32; lia | done |].
  - split_and!; [cbn; congruence | cbn; congruence | cbn; congruence |]. unfold in_header, in_freep. intros b ???.
    cbn [u_mem set_u_mem]. rewrite ldb_stw_ne, M2, M1 by lia. done.
  - case_decide; rewrite !ldw_stw_ne by lia; [done|].
    rewrite (wrote_ldw _ _ _ _ bp W2), (wrote_ldw _ _ _ _ (bp + 4) W2) by lia. naive_solver.
Qed.

(** free inserts the block into the ring. *)
Lemma free_run u L bp bs :
  ring_ok u L -> held u L bp bs ->
  exists u' l1 p s l2 bs' l3, L = l1 ++ (p, s) :: l2 /\ free (bp + 8) u = Ok tt u' /\
    relinked bp p u u' /\ upper bp bs bs' l2 l3 /\ p + 8 * Z.max 1 s <= bp /\
    ring_ok u' (joined l1 p s bp bs' l3).
Proof.
  intros R Hh. destruct (ring_split u L bp bs R Hh) as (l1 & p & s & l2 & -> & Hp & Hl2).
  destruct (ro_freep _ _ R) as (jf & sf & Hjf). pose proof st_base. pose proof st_lo. pose proof st_freep.
  pose proof (ro_sz _ _ R). pose proof Hh as [Hlo Hu Hhi _ _].
  destruct (free_links u l1 p s l2 bp bs R Hh Hp Hl2) as (u' & bs' & l3 & R1 & Hr & Hup & Hf & Hs3 & Hpp).
  destruct (upper_sub _ _ _ _ _ Hup) as (Hsub & Hle & _).
  exists u', l1, p, s, l2, bs', l3. split_and!; [done | | done | done | done |].
  - unfold free. replace (bp + 8 - 8) with bp by lia. rewrite u32_small by (unfold is_u32; lia).
    mrun (lw_ok a_freep u ltac:(apply reaches_iff; lia)).
    mrun (free_search u l1 p s l2 bp bs _ sf jf R Hp Hu Hl2 Hjf). done.
  - pose proof (ro_chain _ _ R) as Hc. apply chain_app in Hc as [Hc1 (_ & _ & Hc2)].
    pose proof (ro_spaced _ _ R) as Hsp. apply spaced_mid in Hsp as (Hs1 & _ & _ & Hs2).
    apply (joined_ok u u' l1 p s l2); try done; [lia | apply Hr | |].
    + apply (chain_frame (u_mem u)); [|done]. intros b r Hb. destruct (spaced_in _ _ _ _ _ Hs1 Hb) as (? & ? & ?).
      apply (relinked_ldw u u' _ b r bp p R); [apply elem_of_app; by left | done | lia | lia].
    + apply (chain_frame (u_mem u)).
      * intros b r Hb. destruct (spaced_in _ _ _ _ _ Hs3 Hb) as (? & ? & ?).
        apply (relinked_ldw u u' _ b r bp p R); [apply elem_of_app; right; right; by apply Hsub | done | lia | lia].
      * destruct Hup as [[-> _]|(ns & _ & -> & _)]; [done | apply Hc2].
Qed.

(** A block outside of the ring and of the freed block is outside of the new
    ring. *)
Lemma joined_disjoint a t l1 p s l2 bp bs bs' l3 :
  1 <= t -> 0 <= s -> 1 <= bs -> upper bp bs bs' l2 l3 -> p + 8 * Z.max 1 s <= bp ->
  (forall b r, (b, r) ∈ l1 ++ (p, s) :: l2 -> disjoint_from a t b r) -> disjoint_from a t bp bs ->
  forall b r, (b, r) ∈ joined l1 p s bp bs' l3 -> disjoint_from a t b r.
Proof.
  intros Ht Hs Hbs Hup Hp HL Hbp b r Hin. assert (disjoint_from a t p s) as HP by (apply HL, elem_of_app; right; left).
  assert (disjoint_from a t bp bs') as HB.
  { destruct Hup as [[_ ->]|(ns & ? & -> & ->)]; [done|].
    assert (disjoint_from a t (bp + 8 * bs) ns) as HN by (apply HL, elem_of_app; right; right; left).
    unfold disjoint_from in *. lia. }
  destruct (upper_sub _ _ _ _ _ Hup) as (Hsub & Hle & _). unfold joined in Hin.
  apply elem_of_app in Hin as [Hin|[Hin|Hin]%elem_of_app].
  - apply HL, elem_of_app. by left.
  - case_decide; [apply list_elem_of_singleton in Hin as [= -> ->]; unfold disjoint_from in *; lia|].
    apply elem_of_cons in Hin as [[= -> ->]|[= -> ->]%list_elem_of_singleton]; done.
  - apply HL, elem_of_app. right. right. by apply Hsub.
Qed.

Lemma joined_total l1 p s bp bs bs' l2 l3 : upper bp bs bs' l2 l3 ->
  total (joined l1 p s bp bs' l3) = total (l1 ++ (p, s) :: l2) + bs.
Proof.
  intros Hup. destruct (upper_sub _ _ _ _ _ Hup) as (_ & _ & Ht). unfold joined.
  rewrite !total_app. case_decide; cbn; lia.
Qed.

(** What malloc and free must leave alone: the blocks that the program holds
    and everything below the heap but their own two variables. *)
Definition mine (al : gmap Z Z) (b : Z) : Prop :=
  (exists a s, al !! a = Some s /\ a <= b < a + 8 * s) \/ (b < heap_lo /\ ~ in_header a_base b /\ ~ in_freep b).
Definition keeps (al : gmap Z Z) u u' : Prop :=
  u_sz u <= u_sz u' /\ forall b, mine al b -> ldb (u_mem u') b = ldb (u_mem u) b.
#[export] Instance keeps_preorder al : PreOrder (keeps al).
Proof.
  split; [done|]. intros u1 u2 u3 [S1 M1] [S2 M2]. split; [lia|]. intros b Hb. by rewrite M2, M1.
Qed.

Lemma keeps_held u u' L L' al a s : keeps al u u' -> al !! a = Some s -> held u L a s -> u_sz u <= u_sz u' ->
  (forall b r, (b, r) ∈ L' -> disjoint_from a s b r) -> held u' L' a s.
Proof.
  intros Hk Ha [] Hsz Hd. split; [done | done | lia | | done].
  transitivity (ldw (u_mem u) (a + 4)); [|done]. apply ldw_frame. intros b Hb. apply Hk. left. exists a, s. split; [done | lia].
Qed.

Lemma free_heap u L al bp bs :
  heap_ok u L al -> held u L bp bs -> (forall a s, al !! a = Some s -> disjoint_from a s bp bs) ->
  exists u' L', free (bp + 8) u = Ok tt u' /\ heap_ok u' L' al /\ keeps al u u' /\
    u_sz u' = u_sz u /\ u_gone u' = u_gone u /\ u_world u' = u_world u /\
    total L' = total L + bs /\ (length L' <= S (length L))%nat /\ exists nb ns, (nb, ns) ∈ L' /\ bs <= ns.
Proof.
  intros [R Hal Hap] Hh Hdis. pose proof Hh as [Hlo Hu Hhi _ _].
  destruct (free_run u L bp bs R Hh) as (u' & l1 & p & s & l2 & bs' & l3 & -> & Rf & Hr & Hup & Hp & R').
  pose proof Hr as (Hsz & Hg & Hw & Hm). pose proof st_freep.
  assert ((p, s) ∈ l1 ++ (p, s) :: l2) as Hin by (apply elem_of_app; right; left).
  destruct (ring_in u _ p s R Hin) as (_ & _ & Hps).
  assert (keeps al u u') as Hk.
  { split; [lia|]. intros b [(a & t & Ha & Hb)|(Hb & Hb1 & Hb2)].
    - pose proof (Hal a t Ha) as []. pose proof (Hdis a t Ha). pose proof (he_free0 p s Hin).
      apply Hm; unfold in_header, in_freep, disjoint_from in *; lia.
    - apply Hm; [unfold in_header; lia | | done]. destruct Hps as [[-> _]|]; [done | unfold in_header; lia]. }
  exists u', (joined l1 p s bp bs' l3). split_and!; try done.
  - split; [done | | done]. intros a t Ha. pose proof (Hal a t Ha) as Hat.
    apply (keeps_held u u' _ _ al a t Hk Ha Hat); [lia|].
    apply (joined_disjoint a t l1 p s l2 bp bs bs' l3); [apply Hat | lia | done | done | done | apply Hat | by apply Hdis].
  - by apply joined_total.
  - unfold joined. rewrite !length_app. case_decide; cbn [length];
      destruct Hup as [[-> _]|(ns & _ & -> & _)]; cbn [length]; lia.
  - destruct (upper_sub _ _ _ _ _ Hup) as (_ & Hle & _). unfold joined. case_decide.
    + exists p, (s + bs'). split; [apply elem_of_app; right; left | lia].
    + exists bp, bs'. split; [apply elem_of_app; right; right; left | lia].
Qed.

(** *** morecore *)

Lemma heap_grow u u' L al : heap_ok u L al -> u_sz u <= u_sz u' < 2 ^ 31 ->
  (forall b, b < u_sz u -> ldb (u_mem u') b = ldb (u_mem u) b) -> heap_ok u' L al.
Proof.
  intros [R Hal Hap] Hsz Hm. pose proof st_freep. pose proof (ro_sz _ _ R). split; [split | | done].
  - lia.
  - apply R.
  - apply (chain_frame (u_mem u)); [|apply R]. intros a s Hin. destruct (ring_in u L a s R Hin) as (_ & Hhi & _).
    split; apply ldw_frame; intros b Hb; apply Hm; lia.
  - apply (spaced_hi _ _ (u_sz u)); [apply R | lia].
  - rewrite (ldw_frame (u_mem u)); [apply R | intros b Hb; apply Hm; lia].
  - intros a s Ha. destruct (Hal a s Ha) as [Hlo Hu Hhi Hsize Hf]. split; [done | done | lia | | done].
    rewrite <-Hsize. apply ldw_frame. intros b Hb. apply Hm. lia.
Qed.

Context `{!Grows W}.

(** sbrk refused, or the heap grew by one sbrk, or not at all. *)
Definition core (n : Z) : Z := 8 * Z.max 4096 n.
Definition refused n u : Prop :=
  exists v w, u_sz v = u_sz u /\ u_world v = u_world u /\ sys SYS_sbrk [core n] v = Back (-1) (set_u_world w v).
Definition granted n u u' : Prop :=
  exists v w, u_sz v = u_sz u /\ u_world v = u_world u /\ u_world u' = w /\ u_sz u' = u_sz u + core n /\
    sys SYS_sbrk [core n] v = Back (u_sz v) (set_u_world w (set_u_sz (u_sz v + core n) v)).
Definition grew n u u' : Prop := (u_sz u' = u_sz u /\ u_world u' = u_world u) \/ granted n u u'.

Lemma morecore_ok u L al nu :
  heap_ok u L al -> 1 <= nu -> 8 * nu < 2 ^ 31 ->
  (exists u', morecore nu u = Ok 0 u' /\ u_sz u' = u_sz u /\ u_mem u' = u_mem u /\ refused nu u) \/
  (exists u' L' f, morecore nu u = Ok f u' /\ f <> 0 /\ heap_ok u' L' al /\ keeps al u u' /\ granted nu u u' /\
     f = ldw (u_mem u') a_freep /\ (length L' <= S (length L))%nat /\ exists nb ns, (nb, ns) ∈ L' /\ nu <= ns).
Proof.
  intros Hok Hnu Hnu2. unfold morecore. set (n := if nu <? 4096 then 4096 else nu).
  assert (nu <= n /\ 1 <= n /\ 0 <= n * 8 < 2 ^ 31) as (Hn1 & Hn2 & Hn3) by (unfold n; destruct (Z.ltb_spec nu 4096); lia).
  rewrite (i32_small (n * 8)) by (unfold is_i32; lia). pose proof Hok as [R Hal _].
  assert (n * 8 = core nu) as Hcore by (unfold n, core; destruct (Z.ltb_spec nu 4096); lia). pose proof (ro_sz _ _ R).
  pose proof st_lo. pose proof st_base. pose proof st_freep. unfold sbrk. rewrite bind_assoc.
  destruct (sbrk_law u (n * 8) Hn3) as [(w & Rs)|(Hlt & w & Rs)]; mrun (usys_back _ _ _ _ _ Rs); rewrite bind_ret_l.
  { left. eexists. split_and!; [by rewrite Z.eqb_refl | done | done |]. exists u, w. by rewrite <-Hcore. }
  right. rewrite u32_small by (unfold is_u32; lia). rewrite (proj2 (Z.eqb_neq _ _)) by (change (u32 (-1)) with 4294967295; lia).
  set (u1 := set_u_world w (set_u_sz (u_sz u + n * 8) u)). unfold set_s_size.
  set (u2 := set_u_mem (stw (u_mem u1) (u_sz u + 4) n) u1).
  assert (sw (u_sz u + 4) n u1 = Ok tt u2) as R2 by (apply sw_ok, reaches_iff; cbn; lia). mrun R2.
  assert (forall b, b < u_sz u -> ldb (u_mem u2) b = ldb (u_mem u) b) as Hm2 by (intros b Hb; apply ldb_stw_ne; lia).
  assert (heap_ok u2 L al) as Hok2 by (apply (heap_grow u); [done | cbn; lia | done]).
  destruct (free_heap u2 L al (u_sz u) n Hok2) as (u3 & L' & R3 & Hok3 & Hk3 & Z3 & _ & W3 & _ & Hlen & nb & ns & Hin & Hle).
  { split; [lia | lia | cbn; lia | apply ldw_stw_same; unfold is_u32; lia |]. intros b t Hb.
    destruct (ring_in u L b t R Hb) as (_ & Hbt & _). by right. }
  { intros a t Ha. destruct (Hal a t Ha). by left. }
  mrun R3. pose proof (ho_ring _ _ _ Hok3) as R3'. destruct (ro_freep _ _ R3') as (j & sj & Hj).
  destruct (ring_in _ _ _ _ R3' (list_elem_of_lookup_2 _ _ _ Hj)) as (Hf & _).
  rewrite lw_ok by (apply reaches_iff; rewrite Z3; cbn; lia).
  exists u3, L', (ldw (u_mem u3) a_freep). split_and!; [done | lia | done | | | done | done | by exists nb, ns; split; [|lia]].
  - destruct Hk3 as [S3 Hk3]. split; [cbn in *; lia|]. intros b Hb. rewrite (Hk3 b Hb). apply Hm2.
    destruct Hb as [(a & t & Ha & Hb)|(Hb & _)]; [destruct (Hal a t Ha); lia | lia].
  - exists u, w. rewrite <-Hcore. split_and!; [done | done | by rewrite W3 | rewrite Z3; cbn; lia | done].
Qed.

(** *** malloc: taking a block *)

(** What the two ways to take a block have in common: [L'] has the blocks of
    [L] outside of the taken one. *)
Lemma take_heap u u' L L' al r n :
  heap_ok u L al -> ring_ok u' L' -> u_sz u' = u_sz u -> 1 <= n -> heap_lo <= r -> r + 8 * n <= u_sz u ->
  ldw (u_mem u') (r + 4) = n ->
  (exists p ps, (p, ps) ∈ L /\ p <= r /\ r + 8 * n <= p + 8 * ps) ->
  (forall b t, (b, t) ∈ L' -> disjoint_from r n b t /\ exists t', (b, t') ∈ L /\ t <= t') ->
  (forall b, (forall a s, (a, s) ∈ L -> ~ a <= b < a + 8 * Z.max 1 s) -> ~ in_freep b -> ldb (u_mem u') b = ldb (u_mem u) b) ->
  heap_ok u' L' (<[r := n]> al) /\ al !! r = None /\ keeps al u u'.
Proof.
  intros [R Hal Hap] R' Hsz Hn Hlo Hhi Hsize (p & ps & Hin & Hp1 & Hp2) HL' Hm. pose proof st_freep.
  assert (forall a s, al !! a = Some s -> disjoint_from a s p ps) as Hd by (intros a s Ha; by apply (Hal a s Ha)).
  assert (keeps al u u') as Hk.
  { split; [lia|]. intros b [(a & s & Ha & Hb)|(Hb & Hb1 & Hb2)].
    - destruct (Hal a s Ha) as [Hla Hus Hha _ Hf]. apply Hm; [|unfold in_freep; lia].
      intros c t Hc. specialize (Hf c t Hc). unfold disjoint_from in Hf. lia.
    - apply Hm; [|done]. intros c t Hc. destruct (ring_in u L c t R Hc) as (_ & _ & [[-> ->]|]); [|lia].
      unfold in_header in Hb1. lia. }
  assert (al !! r = None) as Hr.
  { destruct (al !! r) as [t|] eqn:E; [|done]. destruct (Hal r t E). specialize (Hd r t E). unfold disjoint_from in Hd. lia. }
  assert (forall a s, al !! a = Some s -> disjoint_from a s r n) as Hd2.
  { intros a s Ha. specialize (Hd a s Ha). destruct (Hal a s Ha). unfold disjoint_from in *. lia. }
  split_and!; [split; [done | |] | done | done].
  - intros a s [[<- <-]|[Hne Ha]]%lookup_insert_Some.
    + split; [done | done | lia | done | intros b t Hb; by apply HL'].
    + apply (keeps_held u u' L L' al a s Hk Ha); [by apply Hal | lia |]. intros b t Hb.
      destruct (HL' b t Hb) as (_ & t' & Hb' & Ht). pose proof (he_free _ _ _ _ (Hal a s Ha) b t' Hb').
      unfold disjoint_from in *. lia.
  - intros a s b t [[<- <-]|[Hne Ha]]%lookup_insert_Some [[<- <-]|[Hne' Hb]]%lookup_insert_Some Hab; try done.
    + specialize (Hd2 b t Hb). destruct (Hal b t Hb). unfold disjoint_from in *. lia.
    + by apply Hd2.
    + by apply Hap.
Qed.

(** Replacing the blocks [mid] of the ring by [mid'], that start at the same
    address. *)
Lemma ring_update u u' l1 mid mid' l2 bp p :
  ring_ok u (l1 ++ mid ++ l2) -> relinked bp p u u' -> mid <> [] -> mid' <> [] -> start mid' 0 = start mid 0 ->
  (forall b r, (b, r) ∈ l1 ++ l2 -> (b + 8 <= p \/ p + 8 <= b) /\ (b + 8 <= bp \/ bp + 8 <= b)) ->
  chain (u_mem u') mid' (start l2 a_base) -> spaced a_base (l1 ++ mid' ++ l2) (u_sz u) ->
  (forall a s, (a, s) ∈ mid' -> (a = a_base /\ s = 0) \/ (heap_lo <= a /\ 1 <= s)) ->
  (exists s, (ldw (u_mem u') a_freep, s) ∈ mid') -> ring_ok u' (l1 ++ mid' ++ l2).
Proof.
  intros R Hr Hm Hm' Hst Hout Hc' Hs' Hmid (sf & Hf). pose proof Hr as (Hsz & _ & _ & _). pose proof st_lo.
  destruct mid as [|[a0 s0] mid]; [done|]. destruct mid' as [|[a1 s1] mid']; [done|]. cbn in Hst. subst a1.
  assert (forall b r, (b, r) ∈ l1 ++ l2 ->
    ldw (u_mem u') b = ldw (u_mem u) b /\ ldw (u_mem u') (b + 4) = ldw (u_mem u) (b + 4)) as Hw.
  { intros b r Hb. destruct (Hout b r Hb). apply (relinked_ldw u u' (l1 ++ ((a0, s0) :: mid) ++ l2) b r bp p R); [|done..].
    apply elem_of_app in Hb. rewrite !elem_of_app. naive_solver. }
  split.
  - rewrite Hsz. apply R.
  - destruct (ro_head _ _ R) as (l & EL & Hl). destruct l1 as [|[b0 t0] l1]; cbn in EL.
    + injection EL as -> -> <-. destruct Hs' as (_ & _ & Hs').
      destruct (Hmid a_base s1 ltac:(left)) as [[_ ->]|]; [|lia]. eexists. split; [done|].
      apply Forall_app in Hl as [_ Hl2]. apply Forall_app. split; [|done].
      apply list.Forall_forall. intros [a s] Hin. cbn. destruct (Hmid a s ltac:(by right)) as [[-> ->]|]; [|done].
      destruct (spaced_in _ _ _ a_base 0 Hs'); [apply elem_of_app; by left | lia].
    + injection EL as -> -> <-. eexists. split; [done|]. apply Forall_app in Hl as [Hl1 [_ [_ Hl2]%Forall_app]%Forall_cons_1].
      rewrite !Forall_app. split_and!; [done | | done]. apply list.Forall_forall. intros [a s] Hin. cbn.
      destruct (Hmid a s Hin) as [[-> ->]|]; [|done]. destruct Hs' as (_ & _ & Hs').
      destruct (spaced_in _ _ _ a_base 0 Hs'); [apply elem_of_app; right; apply elem_of_app; by left | lia].
  - pose proof (ro_chain _ _ R) as Hc. rewrite !chain_app in *. destruct Hc as (Hc1 & _ & Hc2).
    split_and!; [apply (chain_frame (u_mem u)); [|done] | done | apply (chain_frame (u_mem u)); [|done]];
      intros b r Hb; apply (Hw b r), elem_of_app; [by left | by right].
  - by rewrite Hsz.
  - apply list_elem_of_lookup in Hf as (j & Hj). exists (length l1 + j)%nat, sf.
    rewrite lookup_app_r by lia. rewrite lookup_app_l by (apply lookup_lt_Some in Hj; lia).
    by replace (length l1 + j - length l1)%nat with j by lia.
Qed.

(** The neighbourhood of two consecutive blocks. *)
Lemma ring_pair u l1 q qs p ps l2 :
  let L := l1 ++ [(q, qs); (p, ps)] ++ l2 in
  ring_ok u L -> p <> a_base ->
  (q, qs) ∈ L /\ (p, ps) ∈ L /\ 0 < q /\ 0 <= qs /\ q + 8 * Z.max 1 qs < p /\ heap_lo <= p /\ 1 <= ps /\ p + 8 * ps <= u_sz u /\
  ((q = a_base /\ qs = 0) \/ (heap_lo <= q /\ 1 <= qs)) /\ l2 ⊆ L /\
  (forall b r, (b, r) ∈ l1 -> b + 8 * Z.max 1 r < q) /\ (forall b r, (b, r) ∈ l2 -> p + 8 * ps < b) /\
  ldw (u_mem u) (q + 4) = qs /\ ldw (u_mem u) p = start l2 a_base.
Proof.
  intros L R Hpb. pose proof st_base.
  assert ((q, qs) ∈ L) as Hq by (apply elem_of_app; right; left).
  assert ((p, ps) ∈ L) as Hp by (apply elem_of_app; right; right; left).
  destruct (ring_in u L q qs R Hq) as (Hqb & Hqh & Hqc). destruct (ring_in u L p ps R Hp) as (_ & Hph & Hpc).
  pose proof (ro_chain _ _ R) as Hc. apply chain_app in Hc as [_ (_ & Hqsz & Hpn & _)].
  pose proof (ro_spaced _ _ R) as Hs. apply spaced_mid in Hs as (Hs1 & _ & Hq0 & Hqp & _ & Hs2).
  split_and!; try done; try lia.
  - intros x Hx. apply elem_of_app. right. by right; right.
  - intros b r Hb. destruct (spaced_in _ _ _ _ _ Hs1 Hb). lia.
  - intros b r Hb. destruct (spaced_in _ _ _ _ _ Hs2 Hb). lia.
Qed.

(** *** malloc: an exact fit *)
Lemma take_exact u l1 q qs p n l2 al :
  let L := l1 ++ [(q, qs); (p, n)] ++ l2 in
  heap_ok u L al -> p <> a_base ->
  exists u', malloc_turn n (q, p) u = Ok (inr (p + 8)) u' /\ heap_ok u' (l1 ++ [(q, qs)] ++ l2) (<[p := n]> al) /\
    al !! p = None /\ keeps al u u' /\ u_sz u' = u_sz u /\ u_world u' = u_world u.
Proof.
  intros L Hok Hpb. pose proof (ho_ring _ _ _ Hok) as R. pose proof (ro_sz _ _ R).
  pose proof st_freep. pose proof st_apart. pose proof st_lo.
  destruct (ring_pair u l1 q qs p n l2 R Hpb) as (Hq & Hp & Hq0 & Hqs & Hqp & Hlo & Hn & Hhi & Hqc & Hl2 & Hb1 & Hb2 & Hqsz & Hpn).
  pose proof (ring_start u L l2 R Hl2) as Hst.
  unfold malloc_turn. mrun (ring_size u L p n R Hp). rewrite Z.leb_refl, Z.eqb_refl.
  unfold s_ptr, set_s_ptr. rewrite !bind_assoc. mrun (lw_ok p u (proj1 (ring_reaches u L p n R Hp))).
  rewrite Hpn, bind_assoc. mrun (sw_ok q (start l2 a_base) u (proj1 (ring_reaches u L q qs R Hq))). rewrite bind_ret_l.
  set (u1 := set_u_mem (stw (u_mem u) q (start l2 a_base)) u).
  mrun (sw_ok a_freep q u1 ltac:(apply reaches_iff; cbn; lia)). rewrite u32_small by (unfold is_u32; lia).
  set (u2 := set_u_mem (stw (u_mem u1) a_freep q) u1). exists u2. split; [done|].
  assert (relinked q q u u2) as Hr.
  { split_and!; [done.. |]. unfold in_header, in_freep. intros b ???. cbn [u2 u1 u_mem set_u_mem].
    by rewrite !ldb_stw_ne by lia. }
  pose proof (ro_spaced _ _ R) as Hs. apply spaced_mid in Hs as (Hs1 & Hs3 & _ & _ & _ & Hs2).
  enough (heap_ok u2 (l1 ++ [(q, qs)] ++ l2) (<[p := n]> al) /\ al !! p = None /\ keeps al u u2) by naive_solver.
  apply (take_heap u u2 L); try done.
  - apply (ring_update u u2 l1 [(q, qs); (p, n)] [(q, qs)] l2 q q); try done.
    + intros b r [Hb%Hb1|Hb%Hb2]%elem_of_app; lia.
    + cbn [chain start]. cbn [u2 u1 u_mem set_u_mem].
      split_and!; [rewrite ldw_stw_ne, ldw_stw_same by (done || lia); done | rewrite !ldw_stw_ne by lia; done | done].
    + cbn [app]. apply spaced_mid. split_and!; [done | lia | lia | apply (spaced_lo _ _ _ _ Hs2); lia].
    + intros a s [= -> ->]%list_elem_of_singleton. lia.
    + exists qs. apply list_elem_of_singleton. f_equal. apply ldw_stw_same. unfold is_u32. lia.
  - destruct Hr as (_ & _ & _ & Hm). rewrite (ldw_frame (u_mem u)).
    + pose proof (ro_chain _ _ R) as Hc. apply chain_app in Hc as [_ (_ & _ & _ & Hc & _)]. done.
    + intros b Hb. apply Hm; unfold in_header, in_freep; lia.
  - exists p, n. split_and!; [done | lia | lia].
  - intros b t [Hb|[[= -> ->]%list_elem_of_singleton|Hb]%elem_of_app]%elem_of_app.
    + split; [pose proof (Hb1 b t Hb); unfold disjoint_from; lia | exists t; split; [apply elem_of_app; by left | done]].
    + split; [unfold disjoint_from; lia | by exists qs].
    + split; [pose proof (Hb2 b t Hb); unfold disjoint_from; lia | exists t; split; [by apply Hl2 | done]].
  - intros b Hb Hf. destruct Hr as (_ & _ & _ & Hm). specialize (Hb q qs Hq).
    apply Hm; unfold in_header; [lia | lia | done].
Qed.

(** *** malloc: the tail of a larger block *)
Lemma take_split u l1 q qs p ps l2 al n :
  let L := l1 ++ [(q, qs); (p, ps)] ++ l2 in
  heap_ok u L al -> p <> a_base -> 1 <= n < ps ->
  let r := p + 8 * (ps - n) in
  exists u', malloc_turn n (q, p) u = Ok (inr (r + 8)) u' /\
    heap_ok u' (l1 ++ [(q, qs); (p, ps - n)] ++ l2) (<[r := n]> al) /\
    al !! r = None /\ keeps al u u' /\ u_sz u' = u_sz u /\ u_world u' = u_world u.
Proof.
  intros L Hok Hpb Hn r. pose proof (ho_ring _ _ _ Hok) as R. pose proof (ro_sz _ _ R).
  pose proof st_freep. pose proof st_apart. pose proof st_lo.
  destruct (ring_pair u l1 q qs p ps l2 R Hpb) as (Hq & Hp & Hq0 & Hqs & Hqp & Hlo & _ & Hhi & Hqc & Hl2 & Hb1 & Hb2 & Hqsz & Hpn).
  unfold malloc_turn. mrun (ring_size u L p ps R Hp).
  rewrite (proj2 (Z.leb_le n ps)), (proj2 (Z.eqb_neq ps n)) by lia. unfold set_s_size. rewrite bind_assoc.
  mrun (sw_ok (p + 4) (ps - n) u (proj2 (ring_reaches u L p ps R Hp))). rewrite u32_small by (unfold is_u32; lia). fold r.
  set (u1 := set_u_mem (stw (u_mem u) (p + 4) (ps - n)) u). rewrite bind_assoc.
  mrun (sw_ok (r + 4) n u1 ltac:(apply reaches_iff; cbn; lia)). rewrite bind_ret_l.
  set (u2 := set_u_mem (stw (u_mem u1) (r + 4) n) u1).
  mrun (sw_ok a_freep q u2 ltac:(apply reaches_iff; cbn; lia)). rewrite u32_small by (unfold is_u32; lia).
  set (u3 := set_u_mem (stw (u_mem u2) a_freep q) u2). exists u3. split; [done|].
  assert (relinked r p u u3) as Hr.
  { split_and!; [done.. |]. unfold in_header, in_freep. intros b ???. cbn [u3 u2 u1 u_mem set_u_mem].
    by rewrite !ldb_stw_ne by lia. }
  pose proof (ro_spaced _ _ R) as Hs. apply spaced_mid in Hs as (Hs1 & Hs3 & _ & _ & _ & Hs2).
  enough (heap_ok u3 (l1 ++ [(q, qs); (p, ps - n)] ++ l2) (<[r := n]> al) /\ al !! r = None /\ keeps al u u3) by naive_solver.
  apply (take_heap u u3 L); try done; try lia.
  - apply (ring_update u u3 l1 [(q, qs); (p, ps)] [(q, qs); (p, ps - n)] l2 r p); try done.
    + intros b t [Hb%Hb1|Hb%Hb2]%elem_of_app; lia.
    + pose proof (ro_chain _ _ R) as Hc. apply chain_app in Hc as [_ (Hc & _)]. cbn in Hc.
      cbn [chain start]. cbn [u3 u2 u1 u_mem set_u_mem].
      split_and!; [rewrite !ldw_stw_ne by lia; done | rewrite !ldw_stw_ne by lia; done | rewrite !ldw_stw_ne by lia; done | | done].
      rewrite ldw_stw_ne, ldw_stw_ne, ldw_stw_same by (unfold is_u32; lia). done.
    + cbn [app]. apply spaced_mid. split_and!; [done | lia | lia |]. cbn [spaced].
      split_and!; [lia | lia | apply (spaced_lo _ _ _ _ Hs2); lia].
    + intros a s [[= -> ->]|[= -> ->]%list_elem_of_singleton]%elem_of_cons; lia.
    + exists qs. apply elem_of_cons. left. f_equal. apply ldw_stw_same. unfold is_u32. lia.
  - cbn [u3 u2 u_mem set_u_mem]. rewrite ldw_stw_ne, ldw_stw_same by (unfold is_u32; lia). done.
  - exists p, ps. split_and!; [done | lia | lia].
  - intros b t [Hb|[[[= -> ->]|[= -> ->]%list_elem_of_singleton]%elem_of_cons|Hb]%elem_of_app]%elem_of_app.
    + split; [pose proof (Hb1 b t Hb); unfold disjoint_from; lia | exists t; split; [apply elem_of_app; by left | done]].
    + split; [unfold disjoint_from; lia | by exists qs].
    + split; [unfold disjoint_from; lia | exists ps; split; [done | lia]].
    + split; [pose proof (Hb2 b t Hb); unfold disjoint_from; lia | exists t; split; [by apply Hl2 | done]].
  - intros b Hb Hf. destruct Hr as (_ & _ & _ & Hm). specialize (Hb p ps Hp).
    apply Hm; unfold in_header; [lia | lia | done].
Qed.

(** *** malloc: the search *)

(** [jp] follows [jq] on a ring of [n]. *)
Definition follows (n jq jp : nat) : Prop := (jp = S jq /\ (S jq < n)%nat) \/ (jp = 0%nat /\ S jq = n).

(** What a successful malloc of [n] units leaves. *)
Definition taken u L al n r u' : Prop :=
  exists L' a, r = a + 8 /\ heap_ok u' L' (<[a := n]> al) /\ al !! a = None /\ keeps al u u' /\ grew n u u'.

Lemma malloc_fit u L al n jq q qs jp p ps :
  heap_ok u L al -> L !! jq = Some (q, qs) -> L !! jp = Some (p, ps) -> follows (length L) jq jp -> 1 <= n <= ps ->
  exists r u', malloc_turn n (q, p) u = Ok (inr r) u' /\ taken u L al n r u' /\ u_sz u' = u_sz u /\ u_world u' = u_world u.
Proof.
  intros Hok Hq Hp Hjj Hn. pose proof (ho_ring _ _ _ Hok) as R. pose proof st_lo.
  destruct (ring_in u L p ps R (list_elem_of_lookup_2 _ _ _ Hp)) as (_ & _ & Hpc).
  destruct Hjj as [[-> _]|[-> _]].
  2: { destruct (ro_head _ _ R) as (l & -> & _). cbn in Hp. injection Hp as <- <-. lia. }
  rewrite <-(take_drop_middle L jq _ Hq) in Hok |- *. set (l1 := take jq L) in *.
  assert (drop (S jq) L = (p, ps) :: drop (S (S jq)) L) as E by by apply drop_S. rewrite E in *.
  set (l2 := drop (S (S jq)) L) in *.
  destruct (decide (ps = n)) as [->|Hne].
  - destruct (take_exact u l1 q qs p n l2 al Hok) as (u' & Rt & Hok' & Hnone & Hk & Hsz & Hw); [lia|].
    exists (p + 8), u'. split_and!; [done | | done | done]. eexists _, p. split_and!; try done. by left.
  - destruct (take_split u l1 q qs p ps l2 al n Hok) as (u' & Rt & Hok' & Hnone & Hk & Hsz & Hw); [lia | lia |].
    eexists _, u'. split_and!; [done | | done | done]. eexists _, _. split_and!; try done. by left.
Qed.

(** A turn that finds the block too small, away from [freep]. *)
Lemma malloc_pass u L n jp q p ps f jf sf :
  ring_ok u L -> L !! jp = Some (p, ps) -> L !! jf = Some (f, sf) -> f = ldw (u_mem u) a_freep -> ps < n -> jp <> jf ->
  exists nx ns jn, malloc_turn n (q, p) u = Ok (inl (p, nx)) u /\ L !! jn = Some (nx, ns) /\ follows (length L) jp jn.
Proof.
  intros R Hp Hf -> Hps Hne. pose proof st_freep. pose proof (ro_sz _ _ R).
  destruct (ring_next u L jp p ps R Hp) as (nx & ns & jn & Rn & Hn & Hnx).
  exists nx, ns, jn. unfold malloc_turn. mrun (ring_size u L p ps R (list_elem_of_lookup_2 _ _ _ Hp)).
  rewrite (proj2 (Z.leb_gt n ps)) by lia. mrun (lw_ok a_freep u ltac:(apply reaches_iff; lia)).
  assert (p <> ldw (u_mem u) a_freep) as Hpf.
  { intros ->. destruct (decide (jp < jf)%nat).
    - pose proof (ring_order u L jp jf _ _ _ _ R Hp Hf ltac:(lia)). lia.
    - pose proof (ring_order u L jf jp _ _ _ _ R Hf Hp ltac:(lia)). lia. }
  rewrite (proj2 (Z.eqb_neq _ _) Hpf). mrun Rn. split_and!; [done | done |].
  pose proof (lookup_lt_Some _ _ _ Hn). destruct Hnx as [[-> _]|(-> & ? & _)]; [by left | by right].
Qed.

(** The two phases of the search: first the ring as it was, where every block
    passed so far is too small; after morecore a ring with a block that is
    large enough and still ahead. *)
Record searching u L al n (k : nat) (pp : Z * Z) v L' jq qs jp ps jf sf : Prop := {
  se_heap : heap_ok v L' al;
  se_keeps : keeps al u v;
  se_prev : L' !! jq = Some (pp.1, qs);
  se_at : L' !! jp = Some (pp.2, ps);
  se_follows : follows (length L') jq jp;
  se_freep : L' !! jf = Some (ldw (u_mem v) a_freep, sf);
  se_phase :
    (L' = L /\ u_mem v = u_mem u /\ u_sz v = u_sz u /\ u_world v = u_world u /\ k = (2 + length L + dist (length L') jf jp)%nat /\
     forall i b t, L !! i = Some (b, t) -> (dist (length L') jf jp < dist (length L') jf i)%nat -> t < n) \/
    ((length L' <= S (length L))%nat /\ k = dist (length L') jf jp /\ granted n u v /\
     exists i b t, L' !! i = Some (b, t) /\ n <= t /\ (dist (length L') jf i <= dist (length L') jf jp)%nat)
}.

Definition malloc_result u L al n r v : Prop :=
  (r = 0 /\ heap_ok v L al /\ keeps al u v /\ refused n u /\ forall b t, (b, t) ∈ L -> t < n) \/ taken u L al n r v.

(** A turn that goes on to the next block. *)
Lemma malloc_next u L al n k q p v L' jq qs jp ps jf sf :
  searching u L al n k (q, p) v L' jq qs jp ps jf sf -> ps < n -> jp <> jf ->
  exists k' nx jn ns, malloc_turn n (q, p) v = Ok (inl (p, nx)) v /\
    searching u L al n k' (p, nx) v L' jp ps jn ns jf sf /\ (k' < k)%nat.
Proof.
  intros [Hok Hk Hq Hp Hjj Hf Hph] Hps Hne. cbn [fst snd] in *.
  destruct (malloc_pass v L' n jp q p ps _ jf sf (ho_ring _ _ _ Hok) Hp Hf eq_refl Hps Hne) as (nx & ns & jn & R & Hn & Hfol).
  pose proof (lookup_lt_Some _ _ _ Hp) as Hpl. pose proof (lookup_lt_Some _ _ _ Hf) as Hfl.
  pose proof (dist_next _ jf jp jn Hfl Hpl ltac:(done) Hfol) as Hd.
  destruct Hph as [(-> & Hm & Hsz & Hw & -> & Hsmall)|(Hlen & -> & Hg & i & b & t & Hi & Hnt & Hdi)].
  - exists (2 + length L + dist (length L) jf jn)%nat, nx, jn, ns. split_and!; [done | | lia].
    split; try done. left. split_and!; try done. intros i b t Hi Hlt.
    destruct (decide (i = jp)) as [->|Hij]; [rewrite Hp in Hi; by injection Hi as <- <-|].
    apply (Hsmall i b t Hi). pose proof (lookup_lt_Some _ _ _ Hi) as Hil.
    destruct (decide (dist (length L) jf i = dist (length L) jf jp)) as [E|]; [|lia].
    by apply dist_inj in E.
  - exists (dist (length L') jf jn), nx, jn, ns. split_and!; [done | | lia].
    split; try done. right. split_and!; try done. exists i, b, t. split_and!; try done.
    destruct (decide (dist (length L') jf i = dist (length L') jf jp)) as [E|]; [|lia].
    apply dist_inj in E; [|done | by eapply lookup_lt_Some | done]. subst i. rewrite Hp in Hi. injection Hi as <- <-. lia.
Qed.

(** A turn that has come round to [freep] and asks for more memory. *)
Lemma malloc_more u L al n k q p v L' jq qs jp ps sf :
  searching u L al n k (q, p) v L' jq qs jp ps jp sf -> 1 <= n -> 8 * n < 2 ^ 31 -> ps < n ->
  (exists v', malloc_turn n (q, p) v = Ok (inr 0) v' /\ malloc_result u L al n 0 v') \/
  (exists k' f nx v' L2 jf jn fs ns, malloc_turn n (q, p) v = Ok (inl (f, nx)) v' /\
    searching u L al n k' (f, nx) v' L2 jf fs jn ns jf fs /\ (k' < k)%nat).
Proof.
  intros [Hok Hk Hq Hp Hjj Hf Hph] Hn Hn2 Hps. cbn [fst snd] in *. pose proof (ho_ring _ _ _ Hok) as R.
  pose proof st_freep. pose proof (ro_sz _ _ R). pose proof (lookup_lt_Some _ _ _ Hp) as Hpl.
  destruct Hph as [(-> & Hm & Hsz & Hw & -> & Hsmall)|(Hlen & -> & Hg & i & b & t & Hi & Hnt & Hdi)].
  2: { assert (dist (length L') jp i = 0%nat) as E by (unfold dist in Hdi at 2; case_decide; lia).
       apply dist_zero in E; [|done | by eapply lookup_lt_Some]. subst i. rewrite Hp in Hi. injection Hi as <- <-. lia. }
  unfold malloc_turn. setoid_rewrite (bind_ok _ _ _ _ _ (ring_size v L p ps R (list_elem_of_lookup_2 _ _ _ Hp))).
  rewrite (proj2 (Z.leb_gt n ps)) by lia.
  setoid_rewrite (bind_ok _ _ _ _ _ (lw_ok a_freep v ltac:(apply reaches_iff; lia))).
  assert (p = ldw (u_mem v) a_freep) as Hpf by (rewrite Hp in Hf; by injection Hf).
  rewrite (proj2 (Z.eqb_eq _ _) Hpf).
  destruct (morecore_ok v L al n Hok Hn Hn2) as [(v' & Rm & Hsz' & Hm' & Href)|(v' & L2 & f & Rm & Hf0 & Hok2 & Hk2 & Hg2 & Hff & Hlen & nb & ns & Hin & Hle)].
  - left. exists v'. mrun Rm. split; [done|]. left. split_and!; [done | | | |].
    + apply (heap_grow v); [done | lia | by rewrite Hm'].
    + split; [lia|]. intros b Hb. by rewrite Hm', Hm.
    + destruct Href as (v0 & w & Hv1 & Hv2 & Hv3). exists v0, w. split_and!; [congruence | congruence | done].
    + intros b t (i & Hi)%list_elem_of_lookup. destruct (decide (i = jp)) as [->|Hne].
      * rewrite Hp in Hi. by injection Hi as <- <-.
      * apply (Hsmall i b t Hi). pose proof (lookup_lt_Some _ _ _ Hi) as Hil. unfold dist. repeat case_decide; lia.
  - right. pose proof (ho_ring _ _ _ Hok2) as R2. destruct (ro_freep _ _ R2) as (j2 & s2 & Hj2). rewrite <-Hff in Hj2.
    destruct (ring_next v' L2 j2 f s2 R2 Hj2) as (nx & ns' & jn & Rn & Hjn & Hnx).
    apply list_elem_of_lookup in Hin as (i & Hi).
    pose proof (lookup_lt_Some _ _ _ Hj2) as Hl2. pose proof (lookup_lt_Some _ _ _ Hjn) as Hln.
    assert (follows (length L2) j2 jn) as Hfol by (destruct Hnx as [[-> _]|(-> & ? & _)]; [by left | by right]).
    pose proof (dist_round _ j2 jn Hl2 Hfol).
    exists (dist (length L2) j2 jn), f, nx, v', L2, j2, jn, s2, ns'.
    mrun Rm. rewrite (proj2 (Z.eqb_neq f 0) Hf0). mrun Rn. split_and!; [done | | lia].
    split; cbn [fst snd]; try done.
    + by transitivity v.
    + by rewrite <-Hff.
    + right. split_and!; [done | done | |].
      { destruct Hg2 as (v0 & w & Hv1 & Hv2 & Hv3 & Hv4 & Hv5). exists v0, w. split_and!; try done; congruence. }
      exists i, nb, ns. split_and!; [done | done |].
      pose proof (dist_lt (length L2) j2 i Hl2 (lookup_lt_Some _ _ _ Hi)). lia.
Qed.

Lemma malloc_search u L al n q qs jq p ps jp :
  heap_ok u L al -> 1 <= n -> 8 * n < 2 ^ 31 -> L !! jq = Some (q, qs) -> q = ldw (u_mem u) a_freep ->
  L !! jp = Some (p, ps) -> follows (length L) jq jp ->
  exists r v, walk (malloc_turn n) (q, p) u = Ok r v /\ malloc_result u L al n r v.
Proof.
  intros Hok Hn Hn2 Hq Hqf Hp Hfol. pose proof (ring_length u L (ho_ring _ _ _ Hok)) as Hlen.
  pose proof (lookup_lt_Some _ _ _ Hq) as Hql. pose proof (dist_round _ _ _ Hql Hfol) as Hround.
  apply (loop_ok (malloc_turn n) (fun k pp v => exists L' jq qs jp ps jf sf, searching u L al n k pp v L' jq qs jp ps jf sf)
    _ (2 + length L + dist (length L) jq jp)); [| |lia].
  - clear -Hn Hn2 H1 Grows0. intros k [q p] v (L' & jq & qs & jp & ps & jf & sf & Hse).
    pose proof Hse as [Hok Hk Hq Hp Hfol Hf _].
    destruct (decide (n <= ps)) as [Hfit|Hsmall].
    + left. destruct (malloc_fit v L' al n jq q qs jp p ps Hok Hq Hp Hfol) as (r & v' & R & (L2 & a & -> & ? & ? & Hk' & _) & Hs' & Hw'); [lia|].
      exists (a + 8), v'. split; [done|]. right. exists L2, a. split_and!; try done; [by transitivity v|].
      destruct (se_phase _ _ _ _ _ _ _ _ _ _ _ _ _ _ Hse) as [(_ & _ & Hs & Hw & _)|(_ & _ & Hg & _)].
      * left. split; congruence.
      * right. destruct Hg as (v0 & w & Hv1 & Hv2 & Hv3 & Hv4 & Hv5). exists v0, w. split_and!; try done; congruence.
    + destruct (decide (jp = jf)) as [<-|Hne].
      * destruct (malloc_more _ _ _ _ _ _ _ _ _ _ _ _ _ _ Hse Hn Hn2) as [(v' & R & HQ)|(k' & f & nx & v' & L2 & j2 & jn & fs & ns & R & Hse' & Hlt)]; [lia | |].
        -- left. by exists 0, v'.
        -- right. exists k', (f, nx), v'. split_and!; [done | | done]. by eexists _, _, _, _, _, _, _.
      * destruct (malloc_next _ _ _ _ _ _ _ _ _ _ _ _ _ _ _ Hse) as (k' & nx & jn & ns & R & Hse' & Hlt); [lia | done |].
        right. exists k', (p, nx), v. split_and!; [done | | done]. by eexists _, _, _, _, _, _, _.
  - exists L, jq, qs, jp, ps, jq, qs. split; cbn [fst snd]; try done; [by rewrite <-Hqf|]. left. split_and!; try done.
    intros i b t Hi Hlt. pose proof (dist_lt (length L) jq i Hql (lookup_lt_Some _ _ _ Hi)). lia.
Qed.

(** The heap before the first malloc. *)
Definition heap_new u : Prop := heap_lo <= u_sz u < 2 ^ 31 /\ ldw (u_mem u) a_freep = 0.
Definition heap u L al : Prop := heap_ok u L al \/ (heap_new u /\ L = [(a_base, 0)] /\ al = ∅).

Lemma heap_init u : heap_new u ->
  exists u', (sw a_freep a_base ;;; set_s_ptr a_base a_base ;;; set_s_size a_base 0 ;;; ret a_base) u = Ok a_base u' /\
    heap_ok u' [(a_base, 0)] ∅ /\ ldw (u_mem u') a_freep = a_base /\ keeps ∅ u u' /\
    u_sz u' = u_sz u /\ u_world u' = u_world u.
Proof.
  intros [Hsz _]. pose proof st_base. pose proof st_lo. pose proof st_freep. pose proof st_apart.
  unfold set_s_ptr, set_s_size. mrun (sw_ok a_freep a_base u ltac:(apply reaches_iff; lia)).
  mrun (sw_ok a_base a_base (set_u_mem (stw (u_mem u) a_freep a_base) u) ltac:(apply reaches_iff; cbn; lia)).
  erewrite bind_ok by (apply sw_ok, reaches_iff; cbn; lia). eexists. split; [done|]. cbn [u_mem set_u_mem].
  assert (ldw (stw (stw (stw (u_mem u) a_freep a_base) a_base a_base) (a_base + 4) 0) a_freep = a_base) as Hf
    by (rewrite !ldw_stw_ne, ldw_stw_same by (unfold is_u32; lia); done).
  split_and!; [split; [|done|done] | done | | done | done]; [split; cbn [u_mem u_sz set_u_mem]|].
  - done.
  - by exists [].
  - cbn. split_and!; [| apply ldw_stw_same; unfold is_u32; lia | done].
    rewrite ldw_stw_ne, ldw_stw_same by (unfold is_u32; lia). done.
  - cbn. lia.
  - rewrite Hf. by exists 0%nat, 0.
  - split; [done|]. intros b [(a & s & Ha & _)|(Hb & Hb1 & Hb2)]; [done|]. unfold in_header, in_freep in *.
    cbn [u_mem set_u_mem]. rewrite !ldb_stw_ne by lia. done.
Qed.

Lemma units_ok nbytes : 0 <= nbytes < 2 ^ 31 - 16 ->
  1 <= units nbytes /\ 8 * units nbytes < 2 ^ 31 /\ nbytes <= 8 * units nbytes - 8 < nbytes + 8.
Proof. intros Hn. unfold units. rewrite u32_small by (unfold is_u32; lia). Z.div_mod_to_equations. lia. Qed.

Lemma malloc_ok u L al nbytes :
  heap u L al -> 0 <= nbytes < 2 ^ 31 - 16 ->
  exists r u', malloc nbytes u = Ok r u' /\ malloc_result u L al (units nbytes) r u'.
Proof.
  intros Hh Hn. destruct (units_ok nbytes Hn) as (Hu & Hu2 & _). unfold malloc.
  pose proof st_base. pose proof st_lo. pose proof st_freep.
  destruct Hh as [Hok|(Hnew & -> & ->)].
  - pose proof (ho_ring _ _ _ Hok) as R. pose proof (ro_sz _ _ R).
    mrun (lw_ok a_freep u ltac:(apply reaches_iff; lia)).
    destruct (ro_freep _ _ R) as (jf & sf & Hjf).
    destruct (ring_in u L _ _ R (list_elem_of_lookup_2 _ _ _ Hjf)) as (Hfb & _).
    rewrite (proj2 (Z.eqb_neq _ 0)) by lia. rewrite bind_ret_l.
    destruct (ring_next u L jf _ _ R Hjf) as (nx & ns & jn & Rn & Hjn & Hnx). mrun Rn.
    apply (malloc_search u L al (units nbytes) _ sf jf nx ns jn); try done.
    pose proof (lookup_lt_Some _ _ _ Hjn). destruct Hnx as [[-> _]|(-> & ? & _)]; [by left | by right].
  - pose proof Hnew as [Hsz Hf0]. mrun (lw_ok a_freep u ltac:(apply reaches_iff; lia)). rewrite Hf0, Z.eqb_refl.
    destruct (heap_init u Hnew) as (u1 & R1 & Hok & Hf & Hk1 & Hs1 & Hw1). mrun R1.
    destruct (ring_next u1 [(a_base, 0)] 0 a_base 0 (ho_ring _ _ _ Hok) eq_refl) as (nx & ns & jn & Rn & Hjn & Hnx).
    assert (jn = 0%nat) as -> by (apply lookup_lt_Some in Hjn; cbn in Hjn; lia). injection Hjn as <- <-. mrun Rn.
    destruct (malloc_search u1 [(a_base, 0)] ∅ (units nbytes) a_base 0 0 a_base 0 0) as (r & v & Rw & HQ);
      try done; [by right|]. exists r, v. split; [done|].
    destruct HQ as [(-> & ? & ? & (v0 & w & ? & ? & ?) & ?)|(L' & a & ? & ? & ? & ? & Hg)]; [left | right; exists L', a];
      split_and!; try done; try (by transitivity u1).
    + exists v0, w. split_and!; [congruence | congruence | done].
    + destruct Hg as [[? ?]|(v0 & w & ? & ? & ? & ? & ?)]; [left; split; congruence | right].
      exists v0, w. split_and!; try done; congruence.
Qed.

(** ** Properties *)

(** A change inside a block that the program holds. *)
Lemma heap_ok_inside u u' L al a n : heap_ok u L al -> al !! a = Some n -> u_sz u' = u_sz u ->
  (forall c, ~ a + 8 <= c < a + 8 * n -> ldb (u_mem u') c = ldb (u_mem u) c) -> heap_ok u' L al.
Proof.
  intros [R Hal Hap] Ha Hsz Hm. destruct (Hal a n Ha) as [Hlo Hn Hhi Hn' Hf]. pose proof st_freep.
  split; [split | | done].
  - rewrite Hsz. apply R.
  - apply R.
  - apply (chain_frame (u_mem u)); [|apply R]. intros c t Hc. specialize (Hf c t Hc). unfold disjoint_from in Hf.
    split; apply ldw_frame; intros d Hd; apply Hm; lia.
  - rewrite Hsz. apply R.
  - rewrite (ldw_frame (u_mem u)); [apply R | intros c Hc; apply Hm; lia].
  - intros c t Hc. pose proof (Hal c t Hc) as [Hlo' Ht Hhi' Hsz' Hf']. split; try done; [by rewrite Hsz|].
    transitivity (ldw (u_mem u) (c + 4)); [|done]. apply ldw_frame. intros d Hd. apply Hm.
    destruct (decide (a = c)) as [->|Hne]; [lia|]. pose proof (Hap a n c t Ha Hc Hne). unfold disjoint_from in *. lia.
Qed.

(** C5. malloc of [nbytes] bytes returns 0 only when no free block is large enough
    and sbrk refuses; otherwise it returns a block with room for them that
    overlaps no block the program holds.  The search terminates, the blocks
    the program holds keep their contents, and the heap stays well-formed. *)
Theorem malloc_spec u L al nbytes :
  heap u L al -> 0 <= nbytes < 2 ^ 31 - 16 ->
  let n := units nbytes in
  exists r u', malloc nbytes u = Ok r u' /\ keeps al u u' /\
    ((r = 0 /\ heap_ok u' L al /\ refused n u /\ forall b t, (b, t) ∈ L -> t < n) \/
     (exists a L', r = a + 8 /\ nbytes <= 8 * n - 8 /\ heap_lo <= a /\ a + 8 * n <= u_sz u' /\ al !! a = None /\
        heap_ok u' L' (<[a := n]> al) /\
        forall b t, al !! b = Some t -> a + 8 * n <= b \/ b + 8 * t <= a)).
Proof.
  intros Hh Hn n. destruct (malloc_ok u L al nbytes Hh Hn) as (r & u' & R & HQ). fold n in HQ.
  destruct (units_ok nbytes Hn) as (Hu & _ & Hu2). fold n in Hu, Hu2. exists r, u'. split; [done|].
  destruct HQ as [(-> & Hok & Hk & Hs)|(L' & a & -> & Hok & Hnone & Hk & _)]; (split; [done|]); [by left | right].
  assert (<[a := n]> al !! a = Some n) as Ha by apply lookup_insert_eq.
  destruct (ho_held _ _ _ Hok a n Ha) as [Hlo _ Hhi _ _]. exists a, L'. split_and!; try done; [lia|].
  intros b t Hb. assert (a <> b) as Hne by (intros ->; by rewrite Hnone in Hb).
  assert (<[a := n]> al !! b = Some t) as Hb' by by rewrite lookup_insert_ne.
  pose proof (ho_apart _ _ _ Hok a n b t Ha Hb' Hne). destruct (ho_held _ _ _ Hok b t Hb') as [_ Ht _ _ _].
  unfold disjoint_from in *. lia.
Qed.

(** C21. free of a block the program holds gives all of its units back, joined to
    the free blocks that it touches, and leaves the other blocks and their
    contents alone. *)
Theorem free_spec u L al a n :
  heap_ok u L al -> al !! a = Some n ->
  exists u' L', free (a + 8) u = Ok tt u' /\ heap_ok u' L' (delete a al) /\ keeps (delete a al) u u' /\
    total L' = total L + n.
Proof.
  intros Hok Ha. pose proof Hok as [R Hal Hap].
  destruct (free_heap u L (delete a al) a n) as (u' & L' & Rf & Hok' & Hk & _ & _ & _ & Ht & _).
  - split; [done | |].
    + intros b t [_ Hb]%lookup_delete_Some. by apply Hal.
    + intros b t c r [_ Hb]%lookup_delete_Some [_ Hc]%lookup_delete_Some. by apply Hap.
  - by apply Hal.
  - intros b t [Hne Hb]%lookup_delete_Some. by apply Hap.
  - by exists u', L'.
Qed.

(** The program may write into the blocks that it holds. *)
Theorem heap_writable u L al a n b v :
  heap_ok u L al -> al !! a = Some n -> a + 8 <= b < a + 8 * n ->
  exists u', sb b v u = Ok tt u' /\ heap_ok u' L al.
Proof.
  intros Hok Ha Hb. pose proof st_lo. pose proof st_base. destruct (ho_held _ _ _ Hok a n Ha) as [Hlo Hn Hhi Hsz Hf].
  rewrite sb_ok by (apply reaches_iff; lia). eexists. split; [done|].
  apply (heap_ok_inside u _ L al a n Hok Ha); [done|]. intros c Hc. apply ldb_stb_ne. lia.
Qed.

(** The size computation wraps around: a request of almost 2^32 bytes is
    served like a request of 0 bytes. *)
Theorem malloc_wraps u nbytes : 2 ^ 32 - 8 < nbytes < 2 ^ 32 -> malloc nbytes u = malloc 0 u.
Proof.
  intros Hn. unfold malloc. replace (units nbytes) with (units 0); [done|]. unfold units, u32.
  replace (nbytes + 8 - 1) with ((nbytes + 7 - 2 ^ 32) + 1 * 2 ^ 32) by lia.
  rewrite Z_mod_plus_full, (Z.mod_small (nbytes + 7 - 2 ^ 32)), (Z.mod_small (0 + 8 - 1)) by lia.
  Z.div_mod_to_equations. lia.
Qed.
End heap.

(** *** The properties at work *)

#[local] Instance sample_statics : Statics := {| a_base := 16; a_freep := 8; heap_lo := 32 |}.
#[local] Instance sample_statics_ok : StaticsOk.
Proof. split; cbn; lia. Qed.
Definition sample_heap : U tape := mk_U ∅ 64 false (mk_tape [] [] 1 100000).

Lemma sample_heap_new : heap sample_heap [(16, 0)] ∅.
Proof. right. split; [|done]. split; [cbn; lia | done]. Qed.

Lemma malloc_spec_witness : exists r u', malloc 100 sample_heap = Ok r u' /\ keeps ∅ sample_heap u'.
Proof.
  destruct (malloc_spec sample_heap [(16, 0)] ∅ 100) as (r & u' & R & Hk & _); [apply sample_heap_new | lia |].
  exists r, u'. exact (conj R Hk).
Defined.

(** The state after a malloc of 100 bytes. *)
Lemma sample_malloc : exists u' L' a, malloc 100 sample_heap = Ok (a + 8) u' /\ heap_ok u' L' {[a := 14]}.
Proof.
  destruct (malloc_ok sample_heap [(16, 0)] ∅ 100 sample_heap_new ltac:(lia)) as (r & u' & R & HQ).
  destruct HQ as [(-> & _)|(L' & a & -> & Hok & _)]; [|exists u', L', a; exact (conj R Hok)].
  exfalso. enough (match malloc 100 sample_heap with Ok r _ => r =? 0 | _ => false end = false) as E
    by (rewrite R in E; discriminate E). vm_compute. reflexivity.
Qed.

Lemma free_spec_witness : exists a u' u2, malloc 100 sample_heap = Ok (a + 8) u' /\ free (a + 8) u' = Ok tt u2.
Proof.
  destruct sample_malloc as (u' & L' & a & R & Hok). exists a, u'.
  destruct (free_spec u' L' {[a := 14]} a 14 Hok) as (u2 & L2 & R2 & _); [apply lookup_singleton_eq |].
  exists u2. exact (conj R R2).
Defined.

Lemma heap_writable_witness : exists a u' u2, malloc 100 sample_heap = Ok (a + 8) u' /\ sb (a + 8) 255 u' = Ok tt u2.
Proof.
  destruct sample_malloc as (u' & L' & a & R & Hok). exists a, u'.
  destruct (heap_writable u' L' {[a := 14]} a 14 (a + 8) 255 Hok) as (u2 & R2 & _);
    [apply lookup_singleton_eq | lia |].
  exists u2. exact (conj R R2).
Defined.

Lemma malloc_wraps_witness : malloc 4294967295 sample_heap = malloc 0 sample_heap.
Proof. apply malloc_wraps. lia. Defined.
