(* ===== verification/Grep.v ===== *)
(** * grep (grep.c)

    The matcher of Kernighan and Pike, and the loop that cuts the input into
    lines in a buffer of 1024 bytes.  The matcher is shown to decide the
    language of its pattern, and grep to print the matching lines. *)

From Stdlib Require Import ZArith Lia.
From stdpp Require Import base gmap list strings numbers.
From S2P Require Import Prelude Strings User Ulib.

Open Scope Z_scope.

Section grep.
Context {W : Type} `{Kernel W} `{Frame}.

(** matchhere and matchstar call one another; every call of matchhere is
    further along the pattern, so that its length bounds the depth. *)
Definition matchstar_with (matchhere : Z -> Z -> UM W bool) (c re text : Z) : UM W bool :=
  walk (fun text =>
    let* b := matchhere re text in
    if b then ret (inr true)
    else
      let* t := lb text in
      if Zb t && ((t =? c) || (c =? 46)) then ret (inl (text + 1)) else ret (inr false)) text.

Fixpoint matchhere_n (fuel : nat) (re text : Z) : UM W bool :=
  match fuel with
  | O => hang
  | S fuel =>
      let* r0 := lb re in
      if r0 =? 0 then ret true
      else
        let* r1 := lb (re + 1) in
        if r1 =? 42 then matchstar_with (matchhere_n fuel) r0 (re + 2) text
        else
          let* t := lb text in
          if (r0 =? 36) && (r1 =? 0) then ret (t =? 0)
          else if Zb t && ((r0 =? 46) || (r0 =? t)) then matchhere_n fuel (re + 1) (text + 1)
          else ret false
  end.
Definition matchhere (re text : Z) : UM W bool :=
  fun u => matchhere_n (S (Z.to_nat (u_sz u))) re text u.
Definition matchstar (c re text : Z) : UM W bool := matchstar_with matchhere c re text.

(** Named [match] in the source. *)
Definition match_ (re text : Z) : UM W bool :=
  let* r0 := lb re in
  if r0 =? 94 then matchhere (re + 1) text
  else
    walk (fun text =>
      let* b := matchhere re text in
      if b then ret (inr true)
      else
        let* t := lb text in
        if Zb t then ret (inl (text + 1)) else ret (inr false)) text.

(** [buf] is the static buffer, [sizeof_buf] its size. *)
Context (buf : Z).
Definition sizeof_buf : Z := 1024.

(** The inner loop: cut off and treat the lines from [p] on; the start of the
    rest. *)
Definition grep_line (pattern p : Z) : UM W (Z + Z) :=
  let* q := strchr p 10 in
  if q =? 0 then ret (inr p)
  else
    sb q 0 ;;;
    let* b := match_ pattern p in
    (when b do (sb q 10 ;;; write 1 p (q + 1 - p) ;;; ret tt)) ;;;
    ret (inl (q + 1)).

(** The outer loop; [m] is the number of bytes of the last line so far. *)
Definition grep_turn (pattern fd m : Z) : UM W (Z + unit) :=
  let* n := read fd (buf + m) (sizeof_buf - m - 1) in
  if 0 <? n then
    let m := m + n in
    sb (buf + m) 0 ;;;
    let* p := walk (grep_line pattern) buf in
    let m := if p =? buf then 0 else m in
    if 0 <? m then
      let m := m - (p - buf) in
      memmove buf p m ;;;
      ret (inl m)
    else ret (inl m)
  else ret (inr tt).
Definition grep (fuel : nat) (pattern fd : Z) : UM W unit := loop fuel (grep_turn pattern fd) 0.

Definition grep_main (fuel : nat) (argv : list Z) : UM W unit :=
  match argv with
  | [] | [_] => printf 2 (bytes "usage: grep pattern [file ...]" ++ [10]) [] ;;; exit
  | [_; pattern] => grep fuel pattern 0 ;;; exit
  | _ :: pattern :: files =>
      for_each files (fun arg =>
        let* fd := open arg 0 in
        if fd <? 0 then printf 1 (bytes "grep: cannot open %s" ++ [10]) [Wd arg] ;;; exit
        else
          grep fuel pattern fd ;;;
          close fd ;;;
          ret tt) ;;;
      exit
  end.
End grep.

(** ** What a pattern means *)

(** A pattern is a sequence of characters and starred characters, where a dot
    stands for any character, with an optional anchor at each end. *)
Inductive item :=
| One (c : Z)
| Star (c : Z).
Definition accepts (c x : Z) : Prop := c = 46 \/ c = x.

Fixpoint lang (its : list item) (w : list Z) : Prop :=
  match its with
  | [] => w = []
  | One c :: its => exists x w', w = x :: w' /\ accepts c x /\ lang its w'
  | Star c :: its => exists w1 w2, w = w1 ++ w2 /\ Forall (accepts c) w1 /\ lang its w2
  end.

(** The items of the text of a pattern, and whether it ends in an anchor. *)
Fixpoint items (re : list Z) : list item * bool :=
  match re with
  | [] => ([], false)
  | c :: re1 =>
      match re1 with
      | [] => if c =? 36 then ([], true) else ([One c], false)
      | d :: re2 =>
          if d =? 42 then let '(its, e) := items re2 in (Star c :: its, e)
          else let '(its, e) := items re1 in (One c :: its, e)
      end
  end.

(** A match at the start of a text, and a match anywhere. *)
Definition matches_here (re t : list Z) : Prop :=
  exists w rest, t = w ++ rest /\ lang (items re).1 w /\ ((items re).2 = true -> rest = []).
Definition matches (re t : list Z) : Prop :=
  if hd 0 re =? 94 then matches_here (tail re) t
  else exists pre post, t = pre ++ post /\ matches_here re post.

Lemma matches_here_nil t : matches_here [] t.
Proof. exists [], t. done. Qed.
Lemma matches_here_star c re t :
  matches_here (c :: 42 :: re) t <->
  exists w rest, t = w ++ rest /\ Forall (fun x => ((x =? c) || (c =? 46)) = true) w /\ matches_here re rest.
Proof.
  assert (forall x, ((x =? c) || (c =? 46)) = true <-> accepts c x) as Hacc.
  { intros x. unfold accepts. rewrite orb_true_iff, !Z.eqb_eq. naive_solver. }
  unfold matches_here. cbn [items]. change (42 =? 42) with true. cbv iota. destruct (items re) as [l e]. cbn [fst snd lang].
  setoid_rewrite Hacc. split.
  - intros (w & rest & -> & (w1 & w2 & -> & Hw1 & Hl) & He). exists w1, (w2 ++ rest).
    split_and!; [by rewrite app_assoc | done | by exists w2, rest].
  - intros (w1 & r & -> & Hw1 & w2 & rest & -> & Hl & He). exists (w1 ++ w2), rest.
    split_and!; [by rewrite app_assoc | by exists w1, w2 | done].
Qed.
Lemma matches_here_end t : matches_here [36] t <-> t = [].
Proof.
  split; [|intros ->; by exists [], []]. intros (w & rest & -> & Hl & He). cbn in *. by rewrite Hl, He.
Qed.
Lemma matches_here_one c re t :
  (re = [] -> c <> 36) -> hd 0 re <> 42 ->
  matches_here (c :: re) t <-> exists x t', t = x :: t' /\ accepts c x /\ matches_here re t'.
Proof.
  intros Hc Hre. unfold matches_here.
  assert (items (c :: re) = (One c :: (items re).1, (items re).2)) as ->.
  { destruct re as [|d re].
    - cbn [items]. rewrite (proj2 (Z.eqb_neq c 36)) by auto. done.
    - change (items (c :: d :: re)) with (if d =? 42 then let '(l, e) := items re in (Star c :: l, e)
        else let '(l, e) := items (d :: re) in (One c :: l, e)).
      cbn in Hre. rewrite (proj2 (Z.eqb_neq d 42)) by done. by destruct (items (d :: re)). }
  cbn [fst snd lang]. split.
  - intros (w & rest & -> & (x & w' & -> & Ha & Hl) & He). exists x, (w' ++ rest). split_and!; [done | done |]. by exists w', rest.
  - intros (x & t' & -> & Ha & w & rest & -> & Hl & He). exists (x :: w), rest. split_and!; [done | by exists x, w | done].
Qed.

(** Matching is decidable. *)
Lemma search_dec (go : Z -> Prop) (P : list Z -> Prop) :
  (forall x, Decision (go x)) -> (forall t, Decision (P t)) ->
  forall t, Decision (exists w rest, t = w ++ rest /\ Forall go w /\ P rest).
Proof.
  intros Hgo HP. induction t as [|x t IH].
  - destruct (HP []) as [H0|H0]; [left; by exists [], [] | right].
    intros (w & rest & E & _ & ?). symmetry in E. by apply app_eq_nil in E as [-> ->].
  - destruct (HP (x :: t)) as [H0|H0]; [left; by exists [], (x :: t)|].
    destruct (Hgo x) as [Hx|Hx]; [destruct IH as [IH|IH]; [left | right] | right].
    + destruct IH as (w & rest & -> & Hw & ?). exists (x :: w), rest. split_and!; [done | by constructor | done].
    + intros ([|y w] & rest & E & Hw & ?); cbn in E; [by subst|]. injection E as <- ->. apply IH. exists w, rest.
      by apply Forall_cons_1 in Hw as [_ Hw].
    + intros ([|y w] & rest & E & Hw & ?); cbn in E; [by subst|]. injection E as <- ->.
      by apply Forall_cons_1 in Hw as [? _].
Defined.

#[export] Instance matches_here_dec re t : Decision (matches_here re t).
Proof.
  enough (forall n re, (length re <= n)%nat -> forall t, Decision (matches_here re t)) as Hall by by apply (Hall (length re)).
  clear re t. induction n as [|n IH]; intros re Hn t; (destruct re as [|c re]; [left; apply matches_here_nil|]); cbn in Hn; [lia|].
  destruct (decide (hd 0 re = 42)) as [E|E].
  - destruct re as [|d re]; [done|]. cbn in E, Hn. subst d.
    destruct (search_dec (fun x => ((x =? c) || (c =? 46)) = true) (matches_here re) _ (IH re ltac:(lia)) t) as [Hm|Hm];
      [left | right]; by rewrite matches_here_star.
  - destruct (decide (re = [] /\ c = 36)) as [[-> ->]|Hne].
    + destruct (decide (t = [])); [left | right]; by rewrite matches_here_end.
    + assert (forall t, matches_here (c :: re) t <-> exists x t', t = x :: t' /\ accepts c x /\ matches_here re t') as Hone.
      { intros t0. apply matches_here_one; naive_solver. }
      destruct t as [|x t]; [right; rewrite Hone; by intros (? & ? & ? & _)|].
      destruct (decide (c = 46 \/ c = x)) as [Ha|Ha]; [destruct (IH re ltac:(lia) t) as [Hm|Hm]; [left | right] | right]; rewrite Hone.
      * by exists x, t.
      * by intros (? & ? & [= <- <-] & _ & ?).
      * by intros (? & ? & [= <- <-] & ? & _).
Defined.
#[export] Instance matches_dec re t : Decision (matches re t).
Proof.
  unfold matches. destruct (hd 0 re =? 94); [apply _|].
  destruct (search_dec (fun _ => True) (matches_here re) _ _ t) as [Hm|Hm]; [left | right].
  - destruct Hm as (w & rest & ? & _ & ?). by exists w, rest.
  - intros (w & rest & ? & ?). apply Hm. exists w, rest. split_and!; [done | by apply list.Forall_forall | done].
Defined.

Section matcher.
Context {W : Type} `{Kernel W} `{Frame}.
Implicit Types u : U W.

(** [decides m u P]: [m] returns in [u] whether [P], and changes nothing. *)
Definition decides (m : UM W bool) u (P : Prop) : Prop := exists b, m u = Ok b u /\ (b = true <-> P).

Lemma decides_iff m u P Q : decides m u P -> (P <-> Q) -> decides m u Q.
Proof. intros (b & R & Hb) HPQ. exists b. split; [done | by rewrite Hb]. Qed.

(** A search along a text: [try] at every suffix, as long as [go] allows. *)
Lemma search_ok (try : Z -> UM W bool) (cond go : Z -> bool) (P : list Z -> Prop) u text t :
  cond 0 = false -> (forall x, Zb x = true -> cond x = go x) -> (forall a s, str_at u a s -> decides (try a) u (P s)) -> str_at u text t ->
  decides (walk (fun text =>
    let* b := try text in
    if b then ret (inr true)
    else let* x := lb text in if cond x then ret (inl (text + 1)) else ret (inr false)) text) u
    (exists w rest, t = w ++ rest /\ Forall (fun x => go x = true) w /\ P rest).
Proof.
  intros Hc0 Hcond Htry Ht. unfold decides, walk. cbv beta. assert (length t < S (Z.to_nat (u_sz u)))%nat as Hn by (destruct Ht as (? & ? & _); lia).
  revert Hn. generalize (S (Z.to_nat (u_sz u))). intros n Hn. revert n text Hn Ht.
  induction t as [|x t IH]; intros [|n] text Hn Ht; cbn [length] in Hn; try lia; destruct (Htry text _ Ht) as ([] & R & Hb).
  - exists true. split; [apply loop_last; by mrun R|]. split; [intros _|done]. exists [], []. naive_solver.
  - exists false. split; [apply loop_last; mrun R; mrun (str_at_nil u text Ht); by rewrite Hc0|]. split; [done|].
    intros (w & rest & E & _ & HP). symmetry in E. apply app_eq_nil in E as [-> ->]. naive_solver.
  - exists true. split; [apply loop_last; by mrun R|]. split; [intros _|done]. exists [], (x :: t). naive_solver.
  - destruct (str_at_cons u text x t Ht) as (Rx & Zx & _ & Ht'). pose proof (Hcond x Zx) as Hx.
    destruct (go x) eqn:Hgo.
    + destruct (IH n (text + 1) ltac:(lia) Ht') as (b & R' & Hb'). exists b.
      split; [erewrite loop_next by (mrun R; mrun Rx; rewrite Hx; reflexivity); exact R'|]. rewrite Hb'. split.
      * intros (w & rest & -> & Hw & HP). exists (x :: w), rest. split_and!; [done | by constructor | done].
      * intros ([|y w] & rest & E & Hw & HP); cbn in E; [naive_solver|]. injection E as <- ->.
        apply Forall_cons_1 in Hw as [_ Hw]. by exists w, rest.
    + exists false. split; [apply loop_last; mrun R; mrun Rx; by rewrite Hx|]. split; [done|].
      intros ([|y w] & rest & E & Hw & HP); cbn in E; [naive_solver|]. injection E as <- ->.
      apply Forall_cons_1 in Hw as [Hy _]. congruence.
Qed.

(** matchhere decides whether its pattern matches at the start of its text. *)
Lemma matchhere_n_ok n u re l text t :
  str_at u re l -> str_at u text t -> (length l < n)%nat -> decides (matchhere_n n re text) u (matches_here l t).
Proof.
  revert re l text t. induction n as [|n IH]; intros re l text t Hre Ht Hn; [lia|]. unfold decides. cbn [matchhere_n].
  destruct l as [|c l]; cbn [length] in Hn.
  { exists true. mrun (str_at_nil u re Hre). split; [done|]. split; [intros _; apply matches_here_nil | done]. }
  destruct (str_at_cons u re c l Hre) as (R0 & Z0 & Hc & Hl). mrun R0. rewrite (proj2 (Z.eqb_neq c 0)) by lia.
  destruct (str_at_hd u _ l Hl) as [R1 _]. mrun R1. destruct (Z.eqb_spec (hd 0 l) 42) as [E|E].
  - destruct l as [|d l]; [done|]. cbn in E. subst d. destruct (str_at_cons u _ _ _ Hl) as (_ & _ & _ & Hl2).
    replace (re + 1 + 1) with (re + 2) in Hl2 by lia. cbn [length] in Hn.
    eapply decides_iff; [|symmetry; apply matches_here_star].
    apply (search_ok (matchhere_n n (re + 2)) (fun x => Zb x && ((x =? c) || (c =? 46))));
      [done | by intros x -> | | done].
    intros a s Hs. apply IH; [done | done | lia].
  - destruct (str_at_hd u _ t Ht) as [Rt Zt]. mrun Rt. destruct ((c =? 36) && (hd 0 l =? 0)) eqn:Ed.
    + apply andb_true_iff in Ed as [->%Z.eqb_eq Hl0%Z.eqb_eq]. destruct l as [|d l].
      2: { destruct (str_at_cons u _ _ _ Hl) as (_ & _ & Hd & _). cbn in Hl0. lia. }
      exists (hd 0 t =? 0). split; [done|]. rewrite matches_here_end. unfold Zb in Zt.
      destruct t; [done|]. rewrite bool_decide_true in Zt by done. destruct (_ =? 0); done.
    + assert (matches_here (c :: l) t <-> exists x t', t = x :: t' /\ accepts c x /\ matches_here l t') as Hone.
      { apply matches_here_one; [|done]. intros -> ->. done. }
      setoid_rewrite Hone. rewrite Zt. destruct t as [|x t]; cbn [hd].
      { exists false. split; [done|]. split; [done | by intros (? & ? & ? & _)]. }
      rewrite bool_decide_true by done. cbn [andb]. destruct (str_at_cons u _ _ _ Ht) as (_ & _ & _ & Ht').
      destruct ((c =? 46) || (c =? x)) eqn:Ea.
      * destruct (IH (re + 1) l (text + 1) t Hl Ht' ltac:(lia)) as (b & R & Hb). exists b. split; [done|]. rewrite Hb.
        split; [intros Hm; exists x, t; split_and!; [done | | done] | by intros (? & ? & [= <- <-] & _ & ?)].
        apply orb_true_iff in Ea. rewrite !Z.eqb_eq in Ea. done.
      * exists false. split; [done|]. split; [done|]. intros (? & ? & [= <- <-] & Ha & _).
        apply orb_false_iff in Ea. rewrite !Z.eqb_neq in Ea. unfold accepts in Ha. naive_solver.
Qed.

Lemma matchhere_ok u re l text t :
  str_at u re l -> str_at u text t -> decides (matchhere re text) u (matches_here l t).
Proof. intros Hre Ht. apply matchhere_n_ok; [done | done | destruct Hre as (? & ? & _); lia]. Qed.

(** match decides whether its pattern matches somewhere in its text. *)
Lemma match_ok u re l text t :
  str_at u re l -> str_at u text t -> decides (match_ re text) u (matches l t).
Proof.
  intros Hre Ht. unfold match_, decides. destruct (str_at_hd u re l Hre) as [R _]. mrun R. unfold matches.
  destruct (Z.eqb_spec (hd 0 l) 94) as [E|E].
  - destruct l as [|c l]; [done|]. destruct (str_at_cons u _ _ _ Hre) as (_ & _ & _ & Hl). by apply matchhere_ok.
  - pose proof (search_ok (matchhere re) Zb (fun _ => true) (matches_here l) u text t) as (b & Rw & Hb); [done | done | | done |].
    { intros a s Hs. by apply matchhere_ok. }
    exists b. split; [exact Rw|]. rewrite Hb. split; [intros (w & rest & -> & _ & ?); by exists w, rest|].
    intros (w & rest & -> & ?). exists w, rest. split_and!; [done | by apply list.Forall_forall | done].
Qed.
End matcher.

(** ** Lines *)

(** The complete lines of a text, without their newlines, and the rest after
    the last newline. *)
Fixpoint lines (s : list Z) : list (list Z) * list Z :=
  match s with
  | [] => ([], [])
  | c :: s =>
      let '(ls, r) := lines s in
      if c =? 10 then ([] :: ls, r)
      else match ls with
           | [] => ([], c :: r)
           | ln :: ls => ((c :: ln) :: ls, r)
           end
  end.
(** What grep prints of some lines. *)
Definition selected (re : list Z) (ls : list (list Z)) : list Z :=
  filter (matches re) ls ≫= (fun ln => ln ++ [10]).

Lemma lines_none s : Forall (fun c => c <> 10) s -> lines s = ([], s).
Proof. induction 1 as [|c s Hc _ IH]; cbn; [done|]. by rewrite IH, (proj2 (Z.eqb_neq c 10)) by done. Qed.
Lemma lines_first s1 s2 : Forall (fun c => c <> 10) s1 ->
  lines (s1 ++ 10 :: s2) = (s1 :: (lines s2).1, (lines s2).2).
Proof.
  induction 1 as [|c s Hc _ IH]; cbn; [by destruct (lines s2)|]. by rewrite IH, (proj2 (Z.eqb_neq c 10)) by done.
Qed.

Lemma first_at_split c l i : first_at c l = Some i ->
  exists l1 l2, l = l1 ++ c :: l2 /\ length l1 = i /\ Forall (fun x => x <> c) l1.
Proof.
  unfold first_at. destruct (list_find (eq c) l) as [[j x]|] eqn:E; [|done]. intros [= <-].
  apply list_find_Some in E as (Hj & <- & Hbefore). exists (take j l), (drop (S j) l).
  pose proof (lookup_lt_Some _ _ _ Hj). split_and!; [by rewrite take_drop_middle | rewrite length_take; lia |].
  apply Forall_lookup. intros k y [Hk Hlt]%lookup_take_Some ->. by apply (Hbefore k c).
Qed.
Lemma first_at_middle c l1 l2 : Forall (fun x => x <> c) l1 -> first_at c (l1 ++ c :: l2) = Some (length l1).
Proof.
  unfold first_at. induction 1 as [|x l1 Hx _ IH]; cbn; [by rewrite decide_True|].
  rewrite decide_False by naive_solver. destruct (list_find (eq c) (l1 ++ c :: l2)) as [[i y]|]; [|done].
  cbn in *. by injection IH as ->.
Qed.
Lemma first_at_none c l : first_at c l = None -> Forall (fun x => x <> c) l.
Proof.
  unfold first_at. destruct (list_find (eq c) l) as [[j x]|] eqn:E; [done|]. intros _. apply list_find_None in E.
  eapply list.Forall_impl; [apply E|]. naive_solver.
Qed.

(** Cutting a text at a newline. *)
Lemma lines_app s1 s2 :
  lines (s1 ++ s2) = ((lines s1).1 ++ (lines ((lines s1).2 ++ s2)).1, (lines ((lines s1).2 ++ s2)).2).
Proof.
  remember (length s1) as n eqn:Hn. revert s1 Hn. induction n as [n IH] using lt_wf_ind. intros s1 ->.
  destruct (first_at 10 s1) as [i|] eqn:E.
  - apply first_at_split in E as (l1 & l2 & -> & _ & Hl1). rewrite <-app_assoc. cbn [app]. rewrite !lines_first by done.
    cbn [fst snd app]. rewrite (IH (length l2)); [done | rewrite length_app; cbn; lia | done].
  - apply first_at_none in E. rewrite (lines_none s1) by done. cbn [fst snd app]. by destruct (lines (s1 ++ s2)).
Qed.

Lemma lines_rest_length s : (length (lines s).2 <= length s)%nat.
Proof.
  induction s as [|c s IH]; cbn; [lia|]. destruct (lines s) as [[|ln ls] r]; cbn in *;
    destruct (c =? 10); cbn; lia.
Qed.
Lemma lines_rest_no_newline s : Forall (fun c => c <> 10) (lines s).2.
Proof.
  induction s as [|c s IH]; cbn; [constructor|]. destruct (lines s) as [[|ln ls] r]; cbn in *;
    destruct (Z.eqb_spec c 10); cbn; try done. by constructor.
Qed.
Lemma lines_nil s : (lines s).1 = [] -> lines s = ([], s) /\ Forall (fun c => c <> 10) s.
Proof.
  intros Hl. destruct (first_at 10 s) as [i|] eqn:Ef.
  - apply first_at_split in Ef as (l1 & l2 & -> & _ & Hl1). rewrite lines_first in Hl by done. done.
  - apply first_at_none in Ef. by rewrite lines_none.
Qed.
Lemma lines_not_nil s : (lines s).1 <> [] -> (length (lines s).2 < length s)%nat.
Proof.
  intros Hl. destruct (first_at 10 s) as [i|] eqn:Ef.
  - apply first_at_split in Ef as (l1 & l2 & -> & _ & Hl1). rewrite lines_first, length_app by done. cbn.
    pose proof (lines_rest_length l2). lia.
  - apply first_at_none in Ef. by rewrite lines_none in Hl.
Qed.
Lemma lines_rest_chars P s : Forall P s -> Forall P (lines s).2.
Proof.
  induction 1 as [|c s Hc Hs IH]; cbn; [constructor|]. destruct (lines s) as [[|ln ls] r]; cbn in *;
    destruct (c =? 10); cbn; try done. by constructor.
Qed.
Lemma selected_app re l1 l2 : selected re (l1 ++ l2) = selected re l1 ++ selected re l2.
Proof. unfold selected. by rewrite list.filter_app, bind_app. Qed.
Lemma selected_cons re ln ls :
  selected re (ln :: ls) = (if decide (matches re ln) then ln ++ [10] else []) ++ selected re ls.
Proof. unfold selected. rewrite list.filter_cons. by case_decide. Qed.

Section grepping.
Context {W : Type} `{Kernel W} `{Frame} {fi : Z} {io : W -> list Z -> list Z -> Prop} `{!Stdio W fi 1 io}.
Context (buf : Z) (Hbuf : 0 < buf).
Implicit Types u : U W.

(** [u'] may have other bytes than [u] in the buffer. *)
Definition inbuf u u' : Prop :=
  u_sz u' = u_sz u /\ u_gone u' = u_gone u /\
  forall a, a < buf \/ buf + sizeof_buf <= a -> ldb (u_mem u') a = ldb (u_mem u) a.
#[export] Instance inbuf_preorder : PreOrder inbuf.
Proof.
  split; [done|]. intros u1 u2 u3 (S1 & G1 & M1) (S2 & G2 & M2).
  split_and!; [congruence | congruence | intros a Ha; by rewrite M2, M1].
Qed.

(** The pattern lies outside of the buffer. *)
Definition pattern_at u pat re : Prop :=
  str_at u pat re /\ (pat + Z.of_nat (length re) < buf \/ buf + sizeof_buf <= pat).
Lemma pattern_inbuf u u' pat re : inbuf u u' -> pattern_at u pat re -> pattern_at u' pat re.
Proof.
  intros (Hsz & _ & Hm) [Hs Hout]. split; [|done]. apply (str_at_frame u); [done | lia |]. intros b Hb. apply Hm. lia.
Qed.

(** Ending a string early. *)
Lemma str_at_cut u a s1 c s2 : str_at u a (s1 ++ c :: s2) ->
  str_at (set_u_mem (stb (u_mem u) (a + Z.of_nat (length s1)) 0) u) a s1.
Proof.
  intros (Ha & Hsz & Hl & _ & Hf). rewrite length_app in Hsz. apply Forall_app in Hf as [Hf _].
  apply ldbs_split in Hl as [Hl _].
  split_and!; [done | cbn; lia | | cbn [u_mem set_u_mem]; by rewrite ldb_stb_eq | done].
  cbn [u_mem set_u_mem]. rewrite <-Hl at 3. apply ldbs_ext. intros b Hb. apply ldb_stb_ne. lia.
Qed.

(** One line: it is printed if it matches. *)
Lemma grep_line_ok u pat re p s1 s2 l o :
  pattern_at u pat re -> str_at u p (s1 ++ 10 :: s2) -> Forall (fun c => c <> 10) s1 ->
  buf <= p -> p + Z.of_nat (length (s1 ++ 10 :: s2)) < buf + sizeof_buf -> io (u_world u) l o ->
  exists u', grep_line pat p u = Ok (inl (p + Z.of_nat (length s1) + 1)) u' /\ inbuf u u' /\
    str_at u' (p + Z.of_nat (length s1) + 1) s2 /\
    io (u_world u') l (o ++ if decide (matches re s1) then s1 ++ [10] else []).
Proof.
  intros Hpat Hs Hs1 Hp Hend Hi. set (q := p + Z.of_nat (length s1)). rewrite length_app in Hend. cbn [length] in Hend.
  pose proof Hs as (_ & Hsz & Hl & _ & Hf). rewrite length_app in Hsz. cbn [length] in Hsz.
  assert (strchr p 10 u = Ok q u) as R0.
  { by rewrite (strchr_ok u p _ 10 Hs), first_at_middle. }
  unfold grep_line. mrun R0. rewrite (proj2 (Z.eqb_neq q 0)) by (unfold q; lia).
  set (u1 := set_u_mem (stb (u_mem u) q 0) u).
  assert (sb q 0 u = Ok tt u1) as R1 by (apply sb_ok, reaches_iff; unfold q; lia). mrun R1.
  assert (inbuf u u1) as F1.
  { split_and!; [done | done |]. intros a Ha. apply ldb_stb_ne. unfold q. lia. }
  destruct (pattern_inbuf u u1 pat re F1 Hpat) as [Hpat1 _].
  destruct (match_ok u1 pat re p s1 Hpat1 (str_at_cut u p s1 10 s2 Hs)) as (b & Rm & Hb). mrun Rm.
  assert (str_at u (q + 1) s2) as Hs2.
  { apply str_at_app, str_at_cons in Hs. by apply Hs. }
  assert (forall c u', u_sz u' = u_sz u -> (u_mem u' = stb (stb (u_mem u) q 0) q c \/ u_mem u' = u_mem u1) ->
    str_at u' (q + 1) s2) as Hs2'.
  { intros c u' Hsz' Hm. apply (str_at_frame u); [done | lia |]. intros a Ha.
    destruct Hm as [-> | ->]; cbn [u1 u_mem set_u_mem]; rewrite !ldb_stb_ne by lia; done. }
  destruct b.
  - rewrite decide_True by by apply Hb. set (u2 := set_u_mem (stb (u_mem u1) q 10) u1).
    assert (sb q 10 u1 = Ok tt u2) as R2 by (apply sb_ok, reaches_iff; unfold q; cbn; lia).
    rewrite bind_assoc. mrun R2. rewrite bind_assoc.
    destruct (write_law (fi := fi) u2 p (q + 1 - p) l o Hi) as (w & Rw & Hi'); [unfold q; lia | apply reaches_iff; unfold q; cbn; lia |].
    unfold write. mrun (usys_back _ _ _ _ _ Rw). rewrite bind_ret_l. eexists. split; [done|]. split_and!.
    + split_and!; [done | done |]. intros a Ha. cbn. rewrite !ldb_stb_ne; [done | unfold q; lia..].
    + by apply (Hs2' 10); [|left].
    + cbn [u_world set_u_world]. enough (ldbs (u_mem u2) p (Z.to_nat (q + 1 - p)) = s1 ++ [10]) as <- by done.
      replace (Z.to_nat (q + 1 - p)) with (length s1 + 1)%nat by (unfold q; lia).
      transitivity (ldbs (u_mem u) p (length s1 + 1)).
      * apply ldbs_ext. intros a Ha. cbn [u2 u1 u_mem set_u_mem]. rewrite !ldb_stb. case_decide as E; [|done].
        subst a. replace q with (p + Z.of_nat (length s1)) by done.
        destruct (str_at_char u p _ (length s1) 10 Hs) as [-> _]; [by apply list_lookup_middle | done].
      * replace (s1 ++ 10 :: s2) with ((s1 ++ [10]) ++ s2) in Hl by (by rewrite <-app_assoc).
        apply ldbs_split in Hl as [Hl _]. by rewrite length_app in Hl.
  - rewrite decide_False by (intros Hm; by apply Hb in Hm). rewrite bind_ret_l, app_nil_r. exists u1.
    split_and!; [done | done | by apply (Hs2' 0); [|right] | done].
Qed.

(** All lines from [p] on. *)
Lemma grep_lines_ok n u pat re p s l o :
  (length s < n)%nat -> pattern_at u pat re -> str_at u p s ->
  buf <= p -> p + Z.of_nat (length s) < buf + sizeof_buf -> io (u_world u) l o ->
  exists u', loop n (grep_line pat) p u = Ok (p + Z.of_nat (length s - length (lines s).2)) u' /\ inbuf u u' /\
    str_at u' (p + Z.of_nat (length s - length (lines s).2)) (lines s).2 /\
    io (u_world u') l (o ++ selected re (lines s).1).
Proof.
  revert u p s o. induction n as [|n IH]; intros u p s o Hn Hpat Hs Hp Hend Hi; [lia|].
  destruct (first_at 10 s) as [i|] eqn:E.
  - apply first_at_split in E as (s1 & s2 & -> & <- & Hs1).
    destruct (grep_line_ok u pat re p s1 s2 l o Hpat Hs Hs1 Hp Hend Hi) as (u1 & R1 & F1 & Hs2 & Hi1).
    rewrite length_app in Hn, Hend. cbn [length] in Hn, Hend.
    destruct (IH u1 (p + Z.of_nat (length s1) + 1) s2 _ ltac:(lia) (pattern_inbuf _ _ _ _ F1 Hpat) Hs2 ltac:(lia) ltac:(lia) Hi1)
      as (u2 & R2 & F2 & Hr & Hi2). pose proof (lines_rest_length s2).
    exists u2. rewrite (loop_next _ _ _ _ _ _ R1), lines_first, length_app by done. cbn [fst snd length].
    replace (p + Z.of_nat (length s1 + S (length s2) - length (lines s2).2)) with
      (p + Z.of_nat (length s1) + 1 + Z.of_nat (length s2 - length (lines s2).2)) by lia.
    split_and!; [done | by transitivity u1 | done |]. by rewrite selected_cons, app_assoc.
  - exists u. pose proof E as E'. apply first_at_none in E'. rewrite lines_none by done. cbn [fst snd].
    rewrite Nat.sub_diag, Z.add_0_r. split_and!; [|done | done | by rewrite app_nil_r].
    apply loop_last. unfold grep_line. mrun (strchr_ok u p s 10 Hs). by rewrite E.
Qed.

(** Reads of a file are full: they return what was asked for or all there is. *)
Class FullReads := full_reads : forall u a n l o r w,
  io (u_world u) l o -> n < sizeof_buf -> sys SYS_read [fi; a; n] u =
    Back r (set_u_world w (set_u_mem (stbs (u_mem u) a (take (Z.to_nat r) l)) u)) -> r = Z.min n (Z.of_nat (length l)).

(** The buffer starts with [part], the beginning of a line. *)
Definition holds u (part : list Z) : Prop := ldbs (u_mem u) buf (length part) = part /\ Forall (fun c => c <> 10) part.

Lemma read_some u part l r w :
  let m := Z.of_nat (length part) in
  (length part < 1023)%nat -> holds u part -> buf + sizeof_buf <= u_sz u ->
  sys SYS_read [fi; buf + m; sizeof_buf - m - 1] u =
    Back r (set_u_world w (set_u_mem (stbs (u_mem u) (buf + m) (take (Z.to_nat r) l)) u)) ->
  0 <= r <= 1023 - m -> r <= Z.of_nat (length l) -> Forall (fun c => 0 < c < 256) (part ++ l) ->
  let s := part ++ take (Z.to_nat r) l in
  exists u1 u', read fi (buf + m) (sizeof_buf - m - 1) u = Ok r u1 /\ sb (buf + (m + r)) 0 u1 = Ok tt u' /\
    inbuf u u' /\ str_at u' buf s /\ Z.of_nat (length s) = m + r /\ u_world u' = w.
Proof.
  intros m Hp [Hh _] Hsz R Hr Hl Hc s. unfold sizeof_buf in *. subst m.
  unfold read. rewrite (usys_back _ _ _ _ _ R). set (u1 := set_u_world w _). exists u1. eexists.
  assert (length s = (length part + Z.to_nat r)%nat) as Hs by (unfold s; rewrite length_app, length_take; lia).
  split; [done|]. split; [apply sb_ok, reaches_iff; cbn; lia|].
  assert (Forall is_u8 (take (Z.to_nat r) l)) as Hb.
  { apply Forall_take. apply Forall_app in Hc as [_ Hc]. eapply list.Forall_impl; [apply Hc|]. unfold is_u8. intros x ?. lia. }
  assert (length (take (Z.to_nat r) l) = Z.to_nat r) as Ht by (rewrite length_take; lia).
  split; [|split; [|split; [lia | done]]].
  { split_and!; [done | done |]. intros a Ha. cbn [u_mem set_u_mem]. rewrite ldb_stb_ne by (unfold sizeof_buf in *; lia).
    cbn. apply ldb_stbs_ne. unfold sizeof_buf in *. lia. }
  split_and!; [lia | cbn; lia | | |].
  - cbn [u_mem set_u_mem]. transitivity (ldbs (u_mem u1) buf (length s)); [apply ldbs_ext; intros a Ha; apply ldb_stb_ne; lia|].
    rewrite Hs, ldbs_app. unfold s. f_equal.
    + rewrite <-Hh at 2. apply ldbs_ext. intros a Ha. cbn. apply ldb_stbs_ne. lia.
    + cbn. rewrite <-Ht at 2. by apply ldbs_stbs_same.
  - cbn [u_mem set_u_mem]. replace (buf + Z.of_nat (length s)) with (buf + (Z.of_nat (length part) + r)) by lia. by rewrite ldb_stb_eq.
  - unfold s. apply Forall_app in Hc as [Hc1 Hc2]. apply Forall_app. split; [done | by apply Forall_take].
Qed.

(** A read that brings no newline: whatever the buffer holds is forgotten,
    though the line may go on. *)
Lemma grep_turn_drops u pat re part l o r w :
  let m := Z.of_nat (length part) in
  pattern_at u pat re -> (length part < 1023)%nat -> holds u part -> buf + sizeof_buf <= u_sz u ->
  sys SYS_read [fi; buf + m; sizeof_buf - m - 1] u =
    Back r (set_u_world w (set_u_mem (stbs (u_mem u) (buf + m) (take (Z.to_nat r) l)) u)) ->
  0 < r <= 1023 - m -> r <= Z.of_nat (length l) -> Forall (fun c => 0 < c < 256) (part ++ l) ->
  Forall (fun c => c <> 10) (take (Z.to_nat r) l) -> io w (drop (Z.to_nat r) l) o ->
  exists u', grep_turn buf pat fi m u = Ok (inl 0) u' /\ io (u_world u') (drop (Z.to_nat r) l) o.
Proof.
  intros m Hpat Hp Hh Hsz R Hr Hl Hc Hn Hi.
  destruct (read_some u part l r w Hp Hh Hsz R ltac:(lia) Hl Hc) as (u0 & u1 & R0 & R1 & F1 & Hs & Hlen & Hw).
  unfold grep_turn. mrun R0. rewrite (proj2 (Z.ltb_lt 0 r)) by lia. mrun R1. pose proof F1 as (Z1 & _).
  set (s := part ++ take (Z.to_nat r) l) in *. assert (lines s = ([], s)) as Els.
  { apply lines_none. destruct Hh as [_ Hh]. by apply Forall_app. }
  destruct (grep_lines_ok (S (Z.to_nat (u_sz u1))) u1 pat re buf s (drop (Z.to_nat r) l) o) as (u2 & R2 & F2 & _ & Hi2);
    [destruct Hs as (? & ? & _); lia | by apply (pattern_inbuf u) | done | lia | unfold sizeof_buf, m in *; lia | by rewrite Hw |].
  fold (walk (grep_line pat) buf u1) in R2. mrun R2. rewrite Els in *. cbn [fst snd] in *.
  rewrite Nat.sub_diag, Z.add_0_r, Z.eqb_refl. exists u2. split; [done|]. by rewrite app_nil_r in Hi2.
Qed.

Context `{!FullReads}.

Lemma read_full u part l o :
  let m := Z.of_nat (length part) in
  (length part < 1023)%nat -> holds u part -> buf + sizeof_buf <= u_sz u ->
  io (u_world u) l o -> Forall (fun c => 0 < c < 256) (part ++ l) ->
  let r := Z.min (1023 - m) (Z.of_nat (length l)) in
  let s := part ++ take (Z.to_nat r) l in
  exists u1 u', read fi (buf + m) (sizeof_buf - m - 1) u = Ok r u1 /\ sb (buf + (m + r)) 0 u1 = Ok tt u' /\
    inbuf u u' /\ str_at u' buf s /\ Z.of_nat (length s) = m + r /\ io (u_world u') (drop (Z.to_nat r) l) o.
Proof.
  intros m Hp Hh Hsz Hi Hc r s. unfold sizeof_buf in *.
  destruct (read_law u (buf + m) (1024 - m - 1) l o Hi) as (r' & w & R & Hr & Hl & _ & Hi');
    [lia | apply reaches_iff; lia |].
  assert (r' = r) as ->.
  { rewrite (full_reads u (buf + m) (1024 - m - 1) l o r' w Hi ltac:(unfold sizeof_buf; lia) R). unfold r. lia. }
  destruct (read_some u part l r w Hp Hh Hsz R ltac:(lia) Hl Hc) as (u0 & u1 & R0 & R1 & F1 & Hs & Hlen & Hw).
  exists u0, u1. split_and!; try done. by rewrite Hw.
Qed.

(** Lines that fit the buffer together with their newline. *)
Definition short (s : list Z) : Prop :=
  Forall (fun ln : list Z => (length ln < 1023)%nat) (lines s).1 /\ (length (lines s).2 < 1023)%nat.

Lemma short_rest s1 s2 : short (s1 ++ s2) -> short ((lines s1).2 ++ s2).
Proof. unfold short. rewrite lines_app. cbn [fst snd]. intros [Hl Hr]. by apply Forall_app in Hl as [_ Hl]. Qed.

(** A text of short lines without a newline in its first 1023 bytes is shorter
    than that. *)
Lemma short_no_newline s1 s2 : short (s1 ++ s2) -> (lines s1).1 = [] -> s2 = [] \/ (length s1 < 1023)%nat.
Proof.
  intros Hs Hl. apply short_rest in Hs. apply lines_nil in Hl as [E Hn]. rewrite E in Hs. right. cbn in Hs.
  destruct Hs as [Ha Hb]. destruct (first_at 10 s2) as [i|] eqn:Ef.
  - apply first_at_split in Ef as (l1 & l2 & -> & _ & Hl1). rewrite app_assoc, lines_first in Ha by (by apply Forall_app).
    apply Forall_cons_1 in Ha as [Ha _]. rewrite length_app in Ha. lia.
  - apply first_at_none in Ef. rewrite lines_none in Hb by (by apply Forall_app). cbn in Hb. rewrite length_app in Hb. lia.
Qed.

(** Moving the rest of the last line to the front of the buffer. *)
Lemma move_rest u p rest : buf <= p -> p + Z.of_nat (length rest) <= buf + sizeof_buf -> buf + sizeof_buf <= u_sz u ->
  str_at u p rest ->
  exists u', memmove buf p (Z.of_nat (length rest)) u = Ok buf u' /\ inbuf u u' /\ u_world u' = u_world u /\
    ldbs (u_mem u') buf (length rest) = rest.
Proof.
  intros Hp Hend Hsz (_ & _ & Hr & _ & Hc). rewrite memmove_run by lia. eexists. split; [done|]. rewrite Nat2Z.id.
  split_and!; [| done |].
  - split_and!; [done | done |]. intros a [Ha|Ha]; cbn [u_mem set_u_mem]; [by apply memmove_up_below | apply memmove_up_above; lia].
  - cbn [u_mem set_u_mem]. rewrite memmove_up_ldbs; [done | lia |]. rewrite Hr.
    eapply list.Forall_impl; [apply Hc|]. unfold is_u8. intros x ?. lia.
Qed.

(** One read of the input. *)
Lemma grep_turn_ok u pat re part l o :
  pattern_at u pat re -> buf + sizeof_buf <= u_sz u -> holds u part -> io (u_world u) l o ->
  Forall (fun c => 0 < c < 256) (part ++ l) -> short (part ++ l) -> l <> [] ->
  exists u' part' l' ls, grep_turn buf pat fi (Z.of_nat (length part)) u = Ok (inl (Z.of_nat (length part'))) u' /\
    inbuf u u' /\ holds u' part' /\ io (u_world u') l' (o ++ selected re ls) /\ short (part' ++ l') /\
    Forall (fun c => 0 < c < 256) (part' ++ l') /\ (length l' < length l)%nat /\
    (lines (part ++ l)).1 = ls ++ (lines (part' ++ l')).1.
Proof.
  intros Hpat Hsz Hh Hi Hc Hshort Hl. pose proof Hh as [_ Hnn].
  assert (length part < 1023)%nat as Hp.
  { pose proof (short_rest _ _ Hshort) as [Ha Hb]. rewrite (lines_none part) in * by done. cbn in *.
    destruct (short_no_newline part l Hshort) as [?|?]; [by rewrite lines_none by done | done | done]. }
  destruct (read_full u part l o Hp Hh Hsz Hi Hc) as (u0 & u1 & R0 & R1 & F1 & Hs & Hlen & Hi1).
  set (r := Z.min (1023 - Z.of_nat (length part)) (Z.of_nat (length l))) in *.
  set (s := part ++ take (Z.to_nat r) l) in *. set (l' := drop (Z.to_nat r) l) in *.
  assert (0 < r) as Hr by (unfold r; destruct l; [done | cbn; lia]).
  assert (part ++ l = s ++ l') as Es by (unfold s, l'; by rewrite <-app_assoc, take_drop).
  rewrite Es in Hshort, Hc |- *. unfold grep_turn. mrun R0. rewrite (proj2 (Z.ltb_lt 0 r) Hr). mrun R1.
  pose proof F1 as (Z1 & _). apply Forall_app in Hc as [Hcs Hcl].
  destruct (grep_lines_ok (S (Z.to_nat (u_sz u1))) u1 pat re buf s l' o) as (u2 & R2 & F2 & Hrest & Hi2);
    [destruct Hs as (? & ? & _); lia | by apply (pattern_inbuf u) | done | lia | unfold sizeof_buf; lia | done |].
  fold (walk (grep_line pat) buf u1) in R2. mrun R2.
  assert (length l' < length l)%nat as Hlt by (unfold l'; rewrite length_drop; lia).
  assert (l' = [] \/ length s = 1023%nat) as Hfull.
  { destruct (decide (r = Z.of_nat (length l))) as [E|E]; [left | right; lia].
    unfold l'. apply drop_ge. lia. }
  rewrite lines_app. cbn [fst]. destruct (lines s) as [ls rest] eqn:Els. cbn [fst snd] in *.
  destruct (decide (ls = [])) as [->|Hne].
  - destruct (lines_nil s) as [E Hns]; [by rewrite Els|]. rewrite Els in E. injection E as ->.
    rewrite Nat.sub_diag, Z.add_0_r, Z.eqb_refl. change (0 <? 0) with false. cbv iota.
    assert (l' = []) as ->.
    { destruct (short_no_newline s l' Hshort) as [El'|El']; [by rewrite Els | done | destruct Hfull; [done | lia]]. }
    exists u2, [], [], []. rewrite (app_nil_r s), (lines_none s) by done.
    split_and!; try done; [by transitivity u1 | split; cbn; [constructor | lia]].
  - pose proof (lines_not_nil s) as Hrl. rewrite Els in Hrl. specialize (Hrl Hne). cbn in Hrl.
    rewrite (proj2 (Z.eqb_neq _ buf)) by lia. rewrite (proj2 (Z.ltb_lt 0 _)) by lia.
    replace (Z.of_nat (length part) + r - (buf + Z.of_nat (length s - length rest) - buf)) with (Z.of_nat (length rest)) by lia.
    destruct (move_rest u2 (buf + Z.of_nat (length s - length rest)) rest ltac:(lia) ltac:(unfold sizeof_buf; lia) ltac:(destruct F2 as (-> & _); lia) Hrest)
      as (u3 & R3 & F3 & W3 & Hh3). mrun R3.
    exists u3, rest, l', ls. split_and!; [done | | | by rewrite W3 | | | done | done].
    + transitivity u1; [done|]. by transitivity u2.
    + split; [done|]. pose proof (lines_rest_no_newline s) as Hn. by rewrite Els in Hn.
    + pose proof (short_rest _ _ Hshort) as Hsr. by rewrite Els in Hsr.
    + apply Forall_app. split; [|done]. pose proof (lines_rest_chars _ s Hcs) as Hn. by rewrite Els in Hn.
Qed.

Lemma grep_ok fuel u pat re l o :
  pattern_at u pat re -> buf + sizeof_buf <= u_sz u -> io (u_world u) l o ->
  Forall (fun c => 0 < c < 256) l -> short l -> (length l < fuel)%nat ->
  exists u', grep buf fuel pat fi u = Ok tt u' /\ inbuf u u' /\ io (u_world u') [] (o ++ selected re (lines l).1).
Proof.
  intros Hpat Hsz Hi Hc Hs Hf. unfold grep.
  destruct (loop_ok (grep_turn buf pat fi) (fun k m v => exists part l' ls, m = Z.of_nat (length part) /\ k = length l' /\
      inbuf u v /\ holds v part /\ io (u_world v) l' (o ++ selected re ls) /\ Forall (fun c => 0 < c < 256) (part ++ l') /\
      short (part ++ l') /\ (lines l).1 = ls ++ (lines (part ++ l')).1)
    (fun _ v => inbuf u v /\ io (u_world v) [] (o ++ selected re (lines l).1)) (length l) fuel 0 u) as ([] & u' & R & HQ);
    [| | done | by exists u'].
  - intros k m v (part & l' & ls & -> & -> & Fv & Hh & Hi' & Hc' & Hs' & Hls). pose proof Fv as (Zv & _).
    destruct (decide (l' = [])) as [->|Hne].
    + left. exists tt. assert (length part < 1023)%nat as Hp.
      { destruct Hh as [_ Hn]. destruct Hs' as [_ Hs']. by rewrite app_nil_r, lines_none in Hs'. }
      unfold sizeof_buf in *.
      destruct (read_law v (buf + Z.of_nat (length part)) (1024 - Z.of_nat (length part) - 1) [] _ Hi') as (r & w & R & Hr & Hr2 & _ & Hi2);
        [lia | apply reaches_iff; lia |]. cbn [length] in Hr2. assert (r = 0) as -> by lia.
      eexists. unfold grep_turn, read. mrun (usys_back _ _ _ _ _ R). split; [done|]. split.
      * transitivity v; [done|]. by split_and!.
      * rewrite Hls, app_nil_r. destruct Hh as [_ Hn]. rewrite (lines_none part), app_nil_r by done. done.
    + right. destruct (grep_turn_ok v pat re part l' _ (pattern_inbuf _ _ _ _ Fv Hpat) ltac:(lia) Hh Hi' Hc' Hs' Hne)
        as (v' & part' & l2 & ls' & R & F & Hh' & Hi2 & Hs2 & Hc2 & Hlt & Hl2).
      exists (length l2), (Z.of_nat (length part')), v'. split_and!; [done | | done].
      exists part', l2, (ls ++ ls'). split_and!; try done.
      * by transitivity v.
      * by rewrite selected_app, app_assoc.
      * by rewrite Hls, Hl2, app_assoc.
  - exists [], l, []. split_and!; try done. by rewrite app_nil_r.
Qed.
End grepping.

(** ** Properties *)

(** C8. match returns whether its pattern, read as a regular expression with [.],
    [*], [^] and [$], matches somewhere in its text: some part of the text
    (the start, after [^]; up to the end, before [$]) is in the language of
    the pattern. *)
Theorem match_spec {W} `{Kernel W} (u : U W) re l text t :
  str_at u re l -> str_at u text t -> exists b, match_ re text u = Ok b u /\ (b = true <-> matches l t).
Proof. apply match_ok. Qed.

(** C31. grep of a file prints the lines that match, in their order.  The lines are
    those that end in a newline, and each must fit the buffer. *)
Theorem grep_spec {W} `{Kernel W} fi io `{!Stdio W fi 1 io} `{!FullReads (fi := fi) (io := io)} buf fuel u pat re l o :
  0 < buf -> pattern_at buf u pat re -> buf + sizeof_buf <= u_sz u -> io (u_world u) l o ->
  Forall (fun c => 0 < c < 256) l -> short l -> (length l < fuel)%nat ->
  exists u', grep buf fuel pat fi u = Ok tt u' /\ io (u_world u') [] (o ++ selected re (lines l).1).
Proof.
  intros Hb Hpat Hsz Hi Hc Hs Hf.
  destruct (grep_ok buf Hb fuel u pat re l o Hpat Hsz Hi Hc Hs Hf) as (u' & R & _ & Hi'). by exists u'.
Qed.

(** A read may return fewer bytes than asked for, as reads of a pipe and of
    the console do.  When it brings no newline grep drops what the buffer
    holds, although the line goes on in the next read. *)
Theorem grep_drops_partial {W} `{Kernel W} fi io `{!Stdio W fi 1 io} buf u pat re part l o r w :
  let m := Z.of_nat (length part) in
  0 < buf -> pattern_at buf u pat re -> (length part < 1023)%nat -> holds buf u part -> buf + sizeof_buf <= u_sz u ->
  sys SYS_read [fi; buf + m; sizeof_buf - m - 1] u =
    Back r (set_u_world w (set_u_mem (stbs (u_mem u) (buf + m) (take (Z.to_nat r) l)) u)) ->
  0 < r <= 1023 - m -> r <= Z.of_nat (length l) -> Forall (fun c => 0 < c < 256) (part ++ l) ->
  Forall (fun c => c <> 10) (take (Z.to_nat r) l) -> io w (drop (Z.to_nat r) l) o ->
  exists u', grep_turn buf pat fi m u = Ok (inl 0) u' /\ io (u_world u') (drop (Z.to_nat r) l) o.
Proof. intros m Hb. by apply grep_turn_drops. Qed.

(** *** The properties at work *)

(** A process with a pattern at 16, the buffer at 100 and some input. *)
Definition sample_grep (pat input : list Z) (chunk : Z) : U tape :=
  mk_U (stbs ∅ 16 pat) 1200 false (mk_tape input [] chunk 0).
Definition tape_full (w : tape) (l o : list Z) : Prop := t_in w = l /\ t_out w = o /\ 1024 <= t_chunk w.
#[local] Instance tape_full_stdio : Stdio tape 0 1 tape_full.
Proof.
  split.
  - intros u a n l o (<- & <- & Hc) Hn _. eexists _, _. split; [reflexivity|]. cbn.
    split_and!; try lia; [| done..]. intros Hr. destruct (t_in (u_world u)); [done|]. cbn in Hr. lia.
  - intros u a n l o (<- & <- & Hc) Hn _. eexists. split; [reflexivity|]. done.
  - intros u l o Hi. exists (u_world u). by destruct u.
Qed.
#[local] Instance tape_full_reads : FullReads (fi := 0) (io := tape_full).
Proof. intros u a n l o r w (<- & _ & Hc) Hn. cbn. intros [= <- _]. unfold sizeof_buf in *. lia. Qed.

Lemma match_spec_witness :
  exists b, match_ 16 20 (mk_U (stbs ∅ 16 (bytes "a.*" ++ [0] ++ bytes "xab")) 64 false (mk_tape [] [] 1 0)) =
    Ok b (mk_U (stbs ∅ 16 (bytes "a.*" ++ [0] ++ bytes "xab")) 64 false (mk_tape [] [] 1 0)) /\
    (b = true <-> matches (bytes "a.*") (bytes "xab")).
Proof. apply match_spec; vm_compute; repeat split; try congruence; repeat constructor; congruence. Defined.

Lemma grep_spec_witness :
  exists u', grep 100 20 16 0 (sample_grep (bytes "b") (bytes "abc" ++ [10] ++ bytes "x" ++ [10]) 2000) = Ok tt u' /\
    t_out (u_world u') = selected (bytes "b") [bytes "abc"; bytes "x"].
Proof.
  destruct (grep_spec 0 tape_full 100 20 (sample_grep (bytes "b") (bytes "abc" ++ [10] ++ bytes "x" ++ [10]) 2000)
    16 (bytes "b") (bytes "abc" ++ [10] ++ bytes "x" ++ [10]) []) as (u' & R & I).
  - lia.
  - split; [|left; vm_compute; reflexivity]. vm_compute. repeat split; try congruence; repeat constructor; congruence.
  - cbn. unfold sizeof_buf. lia.
  - split_and!; [done | done | cbn; lia].
  - vm_compute. repeat constructor; congruence.
  - split; vm_compute; [repeat constructor; lia | lia].
  - vm_compute. lia.
  - exists u'. split; [exact R | apply I].
Defined.

(** The line abc comes in two reads and is not printed. *)
Lemma grep_drops_partial_witness :
  exists u', grep_turn 100 16 0 0 (sample_grep (bytes "b") (bytes "abc" ++ [10]) 2) = Ok (inl 0) u' /\
    tape_io (u_world u') (bytes "c" ++ [10]) [].
Proof.
  apply (grep_drops_partial 0 tape_io 100 (sample_grep (bytes "b") (bytes "abc" ++ [10]) 2) 16 (bytes "b") []
    (bytes "abc" ++ [10]) [] 2 (mk_tape (bytes "c" ++ [10]) [] 2 0)).
  - lia.
  - split; [|left; vm_compute; reflexivity]. vm_compute. repeat split; try congruence; repeat constructor; congruence.
  - cbn. lia.
  - split; [done | constructor].
  - cbn. unfold sizeof_buf. lia.
  - reflexivity.
  - cbn. lia.
  - cbn. lia.
  - vm_compute. repeat constructor; congruence.
  - vm_compute. repeat constructor; congruence.
  - split_and!; [done | done | cbn; lia].
Defined.
