(* ===== verification/Sh.v ===== *)
(** * The shell (sh.c)

    The parser works on the command line in memory, through pointers into it;
    [nulterminate] then cuts the words out by writing NULs over the characters
    that follow them.  A parsed command is a tree; each constructor takes a
    block from [malloc] for its node, whose fields are the arguments of the
    tree's constructors.  The code does not look at the result of malloc: a
    node at address 0 is outside of what the model says ([Ub]). *)

From Stdlib Require Import ZArith Lia.
From stdpp Require Import base gmap list strings numbers.
From S2P Require Import Prelude Strings User Ulib Umalloc.

Open Scope Z_scope.

Definition MAXARGS : Z := 10.

(** Words are given by the addresses of their first character and of the
    character after their last. *)
Inductive cmd :=
| EXEC (argv eargv : list Z)
| REDIR (c : cmd) (file efile mode fd : Z)
| PIPE (left right : cmd)
| LIST (left right : cmd)
| BACK (c : cmd).

(** The constant strings, and strchr on them. *)
Definition whitespace : list Z := [32; 9; 13; 10; 11].
Definition symbols : list Z := bytes "<|>&;()".
Definition strchr_in (set : list Z) (c : Z) : bool := existsb (Z.eqb c) set.

Section sh.
Context {W : Type} `{Kernel W} `{Frame} `{Statics}.

(** Named [panic] in the source. *)
Definition sh_panic {A} (s : list Z) : UM W A := printf 2 (bytes "%s" ++ [10]) [Lit s] ;;; exit.

Definition fork1 : UM W Z :=
  let* pid := fork in
  if pid =? -1 then sh_panic (bytes "fork") else ret pid.

(** ** Constructors *)

Definition alloc (size : Z) : UM W unit :=
  let* p := malloc size in
  if p =? 0 then undefined "null command" else memset p 0 size ;;; ret tt.
Definition execcmd : UM W cmd := alloc 84 ;;; ret (EXEC [] []).
(** [subcmd] may still have a hole, for an EXEC node that is being filled. *)
Definition redircmd (subcmd : cmd -> cmd) (file efile mode fd : Z) : UM W (cmd -> cmd) :=
  alloc 24 ;;; ret (fun c => REDIR (subcmd c) file efile mode fd).
Definition pipecmd (left right : cmd) : UM W cmd := alloc 12 ;;; ret (PIPE left right).
Definition listcmd (left right : cmd) : UM W cmd := alloc 12 ;;; ret (LIST left right).
Definition backcmd (subcmd : cmd) : UM W cmd := alloc 8 ;;; ret (BACK subcmd).

(** ** Tokens *)

Definition skip_white (s es : Z) : UM W Z :=
  walk (fun s =>
    if s <? es then
      let* c := lb s in
      if strchr_in whitespace c then ret (inl (s + 1)) else ret (inr s)
    else ret (inr s)) s.
Definition skip_word (s es : Z) : UM W Z :=
  walk (fun s =>
    if s <? es then
      let* c := lb s in
      if negb (strchr_in whitespace c) && negb (strchr_in symbols c) then ret (inl (s + 1)) else ret (inr s)
    else ret (inr s)) s.

(** The token's kind, where the input goes on, and where the token starts and
    ends. *)
Definition gettoken (s es : Z) : UM W (Z * Z * Z * Z) :=
  let* q := skip_white s es in
  let* c := lb q in
  let* (ret_, s) :=
    (if c =? 0 then ret (c, q)
     else if strchr_in (bytes "|();&<") c then ret (c, q + 1)
     else if c =? 62 then
       let* d := lb (q + 1) in
       if d =? 62 then ret (43, q + 2) else ret (c, q + 1)
     else
       let* s := skip_word q es in
       ret (97, s)) in
  let eq := s in
  let* s := skip_white s es in
  ret (ret_, s, q, eq).

Definition peek (s es : Z) (toks : list Z) : UM W (bool * Z) :=
  let* s := skip_white s es in
  let* c := lb s in
  ret (Zb c && strchr_in toks c, s).

(** ** Parsing

    Every function returns what it parsed and where the input goes on. *)

(** The redirections that follow, wrapped around [cmd]. *)
Definition redir_mode (tok : Z) : Z * Z :=
  if tok =? 60 then (O_RDONLY, 0) else (Z.lor O_WRONLY O_CREATE, 1).
Definition parseredirs_turn (es : Z) (st : (cmd -> cmd) * Z) : UM W (((cmd -> cmd) * Z) + ((cmd -> cmd) * Z)) :=
  let '(wrap, s) := st in
  let* (b, s) := peek s es (bytes "<>") in
  if b then
    let* (tok, s, _, _) := gettoken s es in
    let* (tok2, s, q, eq) := gettoken s es in
    if negb (tok2 =? 97) then sh_panic (bytes "missing file for redirection")
    else
      let '(mode, fd) := redir_mode tok in
      let* wrap := redircmd wrap q eq mode fd in
      ret (inl (wrap, s))
  else ret (inr (wrap, s)).
Definition parseredirs (wrap : cmd -> cmd) (s es : Z) : UM W ((cmd -> cmd) * Z) :=
  walk (parseredirs_turn es) (wrap, s).

(** The words of a command.  The node for EXEC is filled while redirections
    are wrapped around it: [wrap] is what is around it so far. *)
Definition parseexec_turn (es : Z) (st : (cmd -> cmd) * list Z * list Z * Z) :
    UM W (((cmd -> cmd) * list Z * list Z * Z) + (cmd * Z)) :=
  let '(wrap, argv, eargv, s) := st in
  let* (b, s) := peek s es (bytes "|)&;") in
  if b then ret (inr (wrap (EXEC argv eargv), s))
  else
    let* (tok, s, q, eq) := gettoken s es in
    if tok =? 0 then ret (inr (wrap (EXEC argv eargv), s))
    else if negb (tok =? 97) then sh_panic (bytes "syntax")
    else
      let argv := argv ++ [q] in
      let eargv := eargv ++ [eq] in
      if MAXARGS <=? Z.of_nat (length argv) then sh_panic (bytes "too many args")
      else
        let* (wrap, s) := parseredirs wrap s es in
        ret (inl (wrap, argv, eargv, s)).

(** One ampersand after a pipeline. *)
Definition parseback_turn (es : Z) (st : cmd * Z) : UM W (cmd * Z + cmd * Z) :=
  let '(c, s) := st in
  let* (b, s) := peek s es (bytes "&") in
  if b then
    let* (_, s, _, _) := gettoken s es in
    let* c := backcmd c in
    ret (inl (c, s))
  else ret (inr (c, s)).

Fixpoint parseline (n : nat) (s es : Z) : UM W (cmd * Z) :=
  match n with
  | O => hang
  | S n =>
      let* (c, s) := parsepipe n s es in
      let* (c, s) := walk (parseback_turn es) (c, s) in
      let* (b, s) := peek s es (bytes ";") in
      if b then
        let* (_, s, _, _) := gettoken s es in
        let* (r, s) := parseline n s es in
        let* c := listcmd c r in
        ret (c, s)
      else ret (c, s)
  end
with parsepipe (n : nat) (s es : Z) : UM W (cmd * Z) :=
  match n with
  | O => hang
  | S n =>
      let* (c, s) := parseexec n s es in
      let* (b, s) := peek s es (bytes "|") in
      if b then
        let* (_, s, _, _) := gettoken s es in
        let* (r, s) := parsepipe n s es in
        let* c := pipecmd c r in
        ret (c, s)
      else ret (c, s)
  end
with parseexec (n : nat) (s es : Z) : UM W (cmd * Z) :=
  match n with
  | O => hang
  | S n =>
      let* (b, s) := peek s es (bytes "(") in
      if b then parseblock n s es
      else
        execcmd ;;;
        let* (wrap, s) := parseredirs id s es in
        walk (parseexec_turn es) (wrap, [], [], s)
  end
with parseblock (n : nat) (s es : Z) : UM W (cmd * Z) :=
  match n with
  | O => hang
  | S n =>
      let* (b, s) := peek s es (bytes "(") in
      if negb b then sh_panic (bytes "parseblock")
      else
        let* (_, s, _, _) := gettoken s es in
        let* (c, s) := parseline n s es in
        let* (b, s) := peek s es (bytes ")") in
        if negb b then sh_panic (bytes "syntax - missing )")
        else
          let* (_, s, _, _) := gettoken s es in
          let* (wrap, s) := parseredirs id s es in
          ret (wrap c, s)
  end.

(** *** nulterminate *)

Fixpoint nulterminate_argv (argv eargv : list Z) : UM W unit :=
  match argv, eargv with
  | a :: argv, e :: eargv => if a =? 0 then ret tt else sb e 0 ;;; nulterminate_argv argv eargv
  | _, _ => ret tt
  end.
Fixpoint nulterminate (c : cmd) : UM W unit :=
  match c with
  | EXEC argv eargv => nulterminate_argv argv eargv
  | REDIR c _ efile _ _ => nulterminate c ;;; sb efile 0
  | PIPE lcmd rcmd => nulterminate lcmd ;;; nulterminate rcmd
  | LIST lcmd rcmd => nulterminate lcmd ;;; nulterminate rcmd
  | BACK c => nulterminate c
  end.

(** Four calls of the parser for every character of the line are enough. *)
Definition parsecmd (s : Z) : UM W cmd :=
  let* n := strlen s in
  let es := s + n in
  let* (c, s) := parseline (4 * Z.to_nat n + 4) s es in
  let* (_, s) := peek s es [] in
  if negb (s =? es) then
    printf 2 (bytes "leftovers: %s" ++ [10]) [Wd s] ;;;
    sh_panic (bytes "syntax")
  else
    nulterminate c ;;;
    ret c.

(** ** Running commands

    [p] is the address of the array for the two ends of a pipe.  The array
    that exec is given is passed as the words in it. *)
Fixpoint runcmd (p : Z) (c : cmd) : UM W unit :=
  (match c with
   | EXEC argv _ =>
       match argv with
       | [] => exit
       | a :: _ =>
           usys SYS_exec (a :: argv) ;;;
           printf 2 (bytes "exec %s failed" ++ [10]) [Wd a]
       end
   | REDIR c file _ mode fd =>
       close fd ;;;
       let* r := open file mode in
       (when r <? 0 do (printf 2 (bytes "open %s failed" ++ [10]) [Wd file] ;;; exit)) ;;;
       runcmd p c
   | LIST lcmd rcmd =>
       let* pid := fork1 in
       (when pid =? 0 do runcmd p lcmd) ;;;
       wait ;;;
       runcmd p rcmd
   | PIPE lcmd rcmd =>
       let* r := pipe p in
       (when r <? 0 do sh_panic (bytes "pipe")) ;;;
       let* p0 := lw p in
       let* p1 := lw (p + 4) in
       let* pid := fork1 in
       (when pid =? 0 do
          (close 1 ;;;
           dup p1 ;;;
           close p0 ;;;
           close p1 ;;;
           runcmd p lcmd)) ;;;
       let* pid := fork1 in
       (when pid =? 0 do
          (close 0 ;;;
           dup p0 ;;;
           close p0 ;;;
           close p1 ;;;
           runcmd p rcmd)) ;;;
       close p0 ;;;
       close p1 ;;;
       wait ;;;
       wait ;;;
       ret tt
   | BACK c =>
       let* pid := fork1 in
       when pid =? 0 do runcmd p c
   end) ;;;
  exit.

Definition getcmd (buf nbuf : Z) : UM W Z :=
  printf 2 (bytes "$ ") [] ;;;
  memset buf 0 nbuf ;;;
  gets buf nbuf ;;;
  let* c := lb buf in
  ret (if c =? 0 then -1 else 0).

(** [a_console] is the address of the file name, [buf] of the static buffer. *)
Definition sh_main_turn (p buf : Z) (_ : unit) : UM W (unit + unit) :=
  let* r := getcmd buf 100 in
  if r <? 0 then ret (inr tt)
  else
    let* c0 := lb buf in
    let* c1 := lb (buf + 1) in
    let* c2 := lb (buf + 2) in
    if (c0 =? 99) && (c1 =? 100) && (c2 =? 32) then
      let* n := strlen buf in
      sb (buf + n - 1) 0 ;;;
      let* r := chdir (buf + 3) in
      (when r <? 0 do printf 2 (bytes "cannot cd %s" ++ [10]) [Wd (buf + 3)]) ;;;
      ret (inl tt)
    else
      let* pid := fork1 in
      (when pid =? 0 do (let* c := parsecmd buf in runcmd p c)) ;;;
      wait ;;;
      ret (inl tt).
Definition sh_main (fuel : nat) (p buf a_console : Z) : UM W unit :=
  loop fuel (fun _ : unit =>
    let* fd := open a_console O_RDWR in
    if 0 <=? fd then
      if 3 <=? fd then close fd ;;; ret (inr tt) else ret (inl tt)
    else ret (inr tt)) tt ;;;
  loop fuel (sh_main_turn p buf) tt ;;;
  exit.
End sh.
