(* ===== verification/Shparse.v ===== *)
(** * The shell's parser is correct

    A command line is cut into tokens by [lex]; the grammar of the comment-free
    parser of sh.c is the type [tline] with the tokens [toks_line] of each of
    its members.  The parser returns, for every line whose tokens are those of
    a member of the grammar, a tree that means it, and after nulterminate
    every pointer of the tree is the C string of its word.  The allocator is
    used through the interface [Allocates]. *)

From Stdlib Require Import ZArith Lia.
From stdpp Require Import base gmap list strings numbers.
From S2P Require Import Prelude Strings User Ulib Umalloc Sh.

Open Scope Z_scope.

(** ** Tokens *)

(** A word, or a symbol; [>>] is the symbol 43, as in gettoken. *)
Inductive token :=
| Word (w : list Z)
| Sym (c : Z).

Definition is_white (c : Z) : bool := strchr_in whitespace c.
Definition is_symbol (c : Z) : bool := strchr_in symbols c.
Definition is_wordchar (c : Z) : bool := negb (is_white c) && negb (is_symbol c).

Fixpoint lex (s : list Z) : list token :=
  match s with
  | [] => []
  | c :: s' =>
      if is_white c then lex s'
      else if c =? 62 then
        match s' with
        | d :: s'' => if d =? 62 then Sym 43 :: lex s'' else Sym 62 :: lex s'
        | [] => [Sym 62]
        end
      else if is_symbol c then Sym c :: lex s'
      else
        match s' with
        | d :: _ =>
            if is_wordchar d
            then match lex s' with Word w :: ts => Word (c :: w) :: ts | ts => Word [c] :: ts end
            else Word [c] :: lex s'
        | [] => [Word [c]]
        end
  end.

(** A text starts with a character that is no word character, or is empty. *)
Definition breaks (s : list Z) : Prop := match s with c :: _ => is_wordchar c = false | [] => True end.

Lemma lex_white c s : is_white c = true -> lex (c :: s) = lex s.
Proof. intros Hc. cbn [lex]. by rewrite Hc. Qed.
Lemma wordchar_not c : is_wordchar c = true -> is_white c = false /\ is_symbol c = false /\ (c =? 62) = false.
Proof.
  unfold is_wordchar. rewrite andb_true_iff, !negb_true_iff. intros [Hw Hs]. split_and!; [done | done |].
  destruct (Z.eqb_spec c 62) as [->|]; [done | done].
Qed.
Lemma lex_word w r : w <> [] -> Forall (fun c => is_wordchar c = true) w -> breaks r ->
  lex (w ++ r) = Word w :: lex r.
Proof.
  intros Hne Hw Hr. induction Hw as [|c w Hc Hw IH]; [done|]. clear Hne.
  destruct (wordchar_not c Hc) as (E1 & E2 & E3). cbn [app lex]. rewrite E1, E2, E3.
  destruct w as [|d w].
  - cbn [app]. destruct r as [|d r]; [done|]. cbn in Hr. by rewrite Hr.
  - cbn [app]. apply Forall_cons_1 in Hw as [Hd _]. rewrite Hd.
    change (d :: w ++ r) with ((d :: w) ++ r). by rewrite IH.
Qed.

(** The word at the start of a text. *)
Lemma word_split s : exists w r, s = w ++ r /\ Forall (fun c => is_wordchar c = true) w /\ breaks r.
Proof.
  induction s as [|c s (w & r & -> & Hw & Hr)]; [by exists [], []|].
  destruct (is_wordchar c) eqn:E; [exists (c :: w), r | exists [], (c :: w ++ r)]; split_and!; try done.
  by constructor.
Qed.

Lemma lex_length s : (length (lex s) <= length s)%nat.
Proof.
  enough (forall n s, (length s <= n)%nat -> (length (lex s) <= length s)%nat) as Hall by by apply (Hall (length s)).
  clear s. induction n as [|n IH]; intros [|c s] Hn; cbn [length] in *; try lia; [done..|]. cbn [lex].
  pose proof (IH s ltac:(lia)). destruct (is_white c); [lia|].
  destruct (c =? 62).
  - destruct s as [|d s]; [cbn; lia|]. cbn [length] in *. pose proof (IH s ltac:(lia)). destruct (d =? 62); cbn [length] in *; lia.
  - destruct (is_symbol c); [cbn; lia|]. destruct s as [|d s]; [cbn; lia|]. destruct (is_wordchar d); [|cbn [length] in *; lia].
    destruct (lex (d :: s)) as [|[] ts]; cbn [length] in *; lia.
Qed.

Lemma lex_nonempty c s : is_white c = false -> lex (c :: s) <> [].
Proof.
  intros Hc. cbn [lex]. rewrite Hc. destruct (c =? 62); [destruct s as [|d s]; [done | by destruct (d =? 62)]|].
  destruct (is_symbol c); [done|]. destruct s as [|d s]; [done|]. destruct (is_wordchar d); [|done].
  by destruct (lex (d :: s)) as [|[]].
Qed.

(** ** The scanner *)

Section scanner.
Context {W : Type} `{K : Kernel W} `{Fr : Frame} `{St : Statics}.
(** The line lies in [base, es], its NUL at [es]. *)
Context (base es : Z).
Implicit Types u : U W.

(** The text from [s] to the end of the line, and its tokens. *)
Definition text u (s : Z) (t : list Z) : Prop := base <= s /\ str_at u s t /\ es = s + Z.of_nat (length t).
Definition rest u (s : Z) (toks : list token) : Prop := exists t, text u s t /\ lex t = toks.

(** A word of the line. *)
Definition word_at u (q eq : Z) (w : list Z) : Prop :=
  base <= q /\ eq = q + Z.of_nat (length w) /\ eq <= es /\ es < u_sz u /\ 0 < q /\
  ldbs (u_mem u) q (length w) = w /\ Forall (fun c => is_wordchar c = true /\ 0 < c < 256) w /\
  (ldb (u_mem u) eq = 0 \/ is_wordchar (ldb (u_mem u) eq) = false).

Lemma text_app u s t1 t2 : text u s (t1 ++ t2) -> text u (s + Z.of_nat (length t1)) t2.
Proof.
  intros (Hb & Hs & He). split_and!; [lia | by apply str_at_app | rewrite length_app in He; lia].
Qed.
Lemma text_hd u s t : text u s t ->
  lb s u = Ok (hd 0 t) u /\ Zb (hd 0 t) = bool_decide (t <> []) /\ (s <? es) = bool_decide (t <> []).
Proof.
  intros (_ & Hs & He). destruct (str_at_hd u s t Hs) as [R Z1]. split_and!; [done | done |].
  destruct t; cbn [length] in He; [rewrite bool_decide_false by naive_solver | rewrite bool_decide_true by done]; lia.
Qed.

(** The two loops over characters. *)
Lemma skip_ok (P : Z -> bool) u s t1 t2 :
  text u s (t1 ++ t2) -> Forall (fun c => P c = true) t1 -> match t2 with c :: _ => P c = false | [] => True end ->
  walk (fun s =>
    if s <? es then
      let* c := lb s in
      if P c then ret (inl (s + 1)) else ret (inr s)
    else ret (inr s)) s u = Ok (s + Z.of_nat (length t1)) u.
Proof.
  intros Ht H1 H2.
  apply (walk_path _ (fun i => s + Z.of_nat i) _ (length t1)); [lia | | |].
  - intros i Hi. destruct (lookup_lt_is_Some_2 t1 i Hi) as [c Hc].
    assert (text u (s + Z.of_nat i) (drop i (t1 ++ t2))) as Hd.
    { rewrite <-(take_drop i (t1 ++ t2)) in Ht. apply text_app in Ht. rewrite length_take, length_app in Ht.
      by replace (i `min` (length t1 + length t2))%nat with i in Ht by lia. }
    assert (drop i (t1 ++ t2) = c :: drop (S i) (t1 ++ t2)) as E by (apply drop_S; by rewrite lookup_app_l).
    rewrite E in Hd. destruct (text_hd u _ _ Hd) as (R & _ & ->). rewrite bool_decide_true by done. cbv iota. mrun R.
    cbn [hd]. rewrite (Forall_lookup_1 _ _ _ _ H1 Hc). unfold ret. do 2 f_equal. lia.
  - apply text_app in Ht. destruct (text_hd u _ _ Ht) as (R & _ & ->). destruct t2 as [|c t2].
    + by rewrite bool_decide_false by naive_solver.
    + rewrite bool_decide_true by done. cbv iota. mrun R. cbn [hd]. by rewrite H2.
  - destruct Ht as (_ & (? & ? & _) & _). rewrite length_app in *. lia.
Qed.

Lemma white_split t : exists t1 t2, t = t1 ++ t2 /\ Forall (fun c => is_white c = true) t1 /\ lex t2 = lex t /\
  match t2 with c :: _ => is_white c = false | [] => True end.
Proof.
  induction t as [|c t (t1 & t2 & -> & H1 & Hl & H2)]; [by exists [], []|].
  destruct (is_white c) eqn:E; [exists (c :: t1), t2 | exists [], (c :: t1 ++ t2)]; split_and!; try done.
  - by constructor.
  - by rewrite lex_white.
Qed.

Lemma skip_white_ok u s toks : rest u s toks ->
  exists s' t, skip_white s es u = Ok s' u /\ text u s' t /\ lex t = toks /\
    match t with c :: _ => is_white c = false | [] => True end.
Proof.
  intros (t & Ht & <-). destruct (white_split t) as (t1 & t2 & -> & H1 & Hl & H2).
  exists (s + Z.of_nat (length t1)), t2. split_and!; [by apply (skip_ok is_white u s t1 t2) | by apply text_app | done | done].
Qed.

(** The first token of a text without leading white space. *)
Lemma skip_word_ok u s t : text u s t ->
  exists w r, t = w ++ r /\ Forall (fun c => is_wordchar c = true) w /\ breaks r /\
    skip_word s es u = Ok (s + Z.of_nat (length w)) u.
Proof.
  intros Ht. destruct (word_split t) as (w & r & -> & Hw & Hr). exists w, r. split_and!; [done | done | done |].
  by apply (skip_ok is_wordchar u s w r).
Qed.

Lemma symbol_cases c : is_symbol c = strchr_in (bytes "|();&<") c || (c =? 62).
Proof.
  unfold is_symbol, strchr_in. change symbols with [60; 124; 62; 38; 59; 40; 41].
  change (bytes "|();&<") with [124; 40; 41; 59; 38; 60]. cbn [existsb].
  destruct (c =? 60), (c =? 124), (c =? 62), (c =? 38), (c =? 59), (c =? 40), (c =? 41); reflexivity.
Qed.

(** What gettoken says of the first token. *)
Definition token_kind (toks : list token) : Z :=
  match toks with [] => 0 | Sym c :: _ => c | Word _ :: _ => 97 end.

Lemma text_word u q w r : text u q (w ++ r) -> 0 < base -> breaks r -> Forall (fun c => is_wordchar c = true) w ->
  word_at u q (q + Z.of_nat (length w)) w.
Proof.
  intros Ht Hb Hr Hw. pose proof (text_app u q w r Ht) as Hr'. destruct Ht as (Hq & (Hq0 & Hsz & Hl & _ & Hc) & He).
  destruct (text_hd u _ _ Hr') as (Rr & _). rewrite length_app in Hsz, He. apply ldbs_split in Hl as [Hl _].
  apply Forall_app in Hc as [Hc _]. destruct Hr' as (_ & Hs & _).
  split_and!; [done | done | lia | lia | lia | done | apply list.Forall_forall; intros x Hx; split; [by apply (proj1 (list.Forall_forall _ _) Hw) | by apply (proj1 (list.Forall_forall _ _) Hc)] |].
  rewrite lb_ok in Rr by (apply reaches_iff; destruct Hs as (? & ? & _); lia). injection Rr as ->.
  destruct r as [|d r]; [by left | by right].
Qed.

Lemma gettoken_ok u s toks : 0 < base -> rest u s toks ->
  exists s' q eq, gettoken s es u = Ok (token_kind toks, s', q, eq) u /\ rest u s' (tail toks) /\
    forall w ts, toks = Word w :: ts -> word_at u q eq w.
Proof.
  intros Hb0 Hr. destruct (skip_white_ok u s toks Hr) as (q & t & R & Ht & <- & Hw). unfold gettoken. mrun R.
  destruct (text_hd u q t Ht) as (Rq & Zq & _). mrun Rq.
  assert (forall s1 t1 k, text u s1 t1 -> lex t1 = tail (lex t) -> k = token_kind (lex t) ->
    (forall w ts, lex t = Word w :: ts -> word_at u q s1 w) ->
    exists s' q' eq, (let* (ret_, s) := ret (k, s1) in let eq := s in let* s := skip_white s es in ret (ret_, s, q, eq)) u =
      Ok (token_kind (lex t), s', q', eq) u /\ rest u s' (tail (lex t)) /\
      forall w ts, lex t = Word w :: ts -> word_at u q' eq w) as Hend.
  { intros s1 t1 k Ht1 Hl -> Hword. rewrite bind_ret_l.
    destruct (skip_white_ok u s1 (tail (lex t))) as (s2 & t2 & R2 & Ht2 & Hl2 & _); [by exists t1|].
    exists s2, q, s1. mrun R2. split_and!; [done | by exists t2 | done]. }
  destruct t as [|c t]; [by apply (Hend q [])|]. cbn [hd]. pose proof (text_app u q [c] t Ht) as Ht'. cbn [length] in Ht'.
  pose proof Ht as (_ & Hs & _). destruct (str_at_cons u q c t Hs) as (_ & _ & Hc & _).
  rewrite (proj2 (Z.eqb_neq c 0)) by lia. pose proof (symbol_cases c) as Hsym.
  destruct (strchr_in (bytes "|();&<") c) eqn:E1.
  - assert (lex (c :: t) = Sym c :: lex t) as El.
    { cbn [lex]. rewrite Hw, Hsym. destruct (Z.eqb_spec c 62) as [->|]; [done | done]. }
    rewrite El in *. apply (Hend (q + 1) t); [by apply (text_app u q [c]) | done | done | done].
  - cbn [orb] in Hsym. destruct (Z.eqb_spec c 62) as [->|Hne].
    + destruct (text_hd u _ _ Ht') as (Rd & _). rewrite bind_assoc. mrun Rd.
      destruct t as [|d t]; [by apply (Hend (q + 1) [])|]. cbn [hd].
      assert (lex (62 :: d :: t) = if d =? 62 then Sym 43 :: lex t else Sym 62 :: lex (d :: t)) as El by done.
      rewrite El in *. destruct (d =? 62).
      * apply (Hend (q + 2) t); [by apply (text_app u q [62; d]) | done | done | done].
      * by apply (Hend (q + 1) (d :: t)).
    + destruct (skip_word_ok u q (c :: t) Ht) as (w & r & E & Hwc & Hr' & Rw). rewrite bind_assoc. mrun Rw.
      assert (w <> []) as Hwne.
      { intros ->. cbn in E. subst r. cbn in Hr'. unfold is_wordchar in Hr'. by rewrite Hw, Hsym in Hr'. }
      rewrite E in *. rewrite lex_word in * by done. apply (Hend _ r); [by apply text_app | done | done |].
      intros w' ts [= <- <-]. by apply (text_word u q w r).
Qed.

(** What peek says of the first token: the character that it starts with. *)
Definition starts (set : list Z) (toks : list token) : bool :=
  match toks with Sym c :: _ => strchr_in set (if c =? 43 then 62 else c) | _ => false end.

Lemma peek_ok u s set toks : forallb is_symbol set = true -> rest u s toks ->
  exists s', peek s es set u = Ok (starts set toks, s') u /\ rest u s' toks.
Proof.
  intros Hset Hr. destruct (skip_white_ok u s toks Hr) as (q & t & R & Ht & <- & Hw). exists q. unfold peek. mrun R.
  destruct (text_hd u q t Ht) as (Rq & Zq & _). mrun Rq. rewrite Zq. split; [|by exists t].
  unfold ret. do 2 f_equal. destruct t as [|c t]; [done|]. rewrite bool_decide_true by done. cbn [hd andb].
  assert (is_symbol c = false -> strchr_in set c = false) as Hns.
  { intros Hc. unfold strchr_in. apply Bool.not_true_iff_false. intros (d & Hd & E)%existsb_exists.
    apply Z.eqb_eq in E. subst d. rewrite forallb_forall in Hset. rewrite (Hset c Hd) in Hc. done. }
  destruct (is_symbol c) eqn:Es.
  - cbn [lex]. rewrite Hw, Es. destruct (Z.eqb_spec c 62) as [->|Hne].
    + destruct t as [|d t]; [done|]. by destruct (d =? 62).
    + cbn [starts]. destruct (Z.eqb_spec c 43) as [->|]; [done | done].
  - rewrite Hns by done. destruct (word_split (c :: t)) as (w & r & E & Hwc & Hr'). rewrite E.
    assert (w <> []) as Hwne.
    { intros ->. cbn in E. subst r. cbn in Hr'. unfold is_wordchar in Hr'. by rewrite Hw, Es in Hr'. }
    by rewrite lex_word.
Qed.
End scanner.

(** ** Printing tokens *)

(** A blank after every token keeps them apart. *)
Definition unlex (toks : list token) : list Z :=
  toks ≫= fun t => match t with Word w => w ++ [32] | Sym c => (if c =? 43 then [62; 62] else [c]) ++ [32] end.
Definition token_ok (t : token) : Prop :=
  match t with Word w => w <> [] /\ Forall (fun c => is_wordchar c = true) w | Sym c => is_symbol c = true \/ c = 43 end.

Lemma symbol_not_white c : is_symbol c = true -> is_white c = false.
Proof.
  unfold is_symbol, symbols, is_white, strchr_in. cbn. rewrite !orb_true_iff.
  intros Hc. repeat destruct Hc as [Hc|Hc]; try discriminate Hc; apply Z.eqb_eq in Hc as ->; reflexivity.
Qed.
Lemma lex_unlex toks : Forall token_ok toks -> lex (unlex toks) = toks.
Proof.
  induction 1 as [|[w|c] toks Hok Htoks IH]; [done | |]; unfold unlex in *; cbn [mbind list_bind].
  - destruct Hok as [Hne Hw]. rewrite <-app_assoc, lex_word by done. change ([32] ++ ?l) with (32 :: l). by rewrite lex_white, IH.
  - destruct Hok as [Hc| ->]; [|cbn; f_equal; exact IH].
    assert (c <> 43) as Hn by (intros ->; discriminate Hc). rewrite (proj2 (Z.eqb_neq c 43) Hn).
    change (([c] ++ [32]) ++ ?l) with (c :: 32 :: l). cbn [lex]. rewrite (symbol_not_white c Hc), Hc.
    change (is_white 32) with true. change (32 =? 62) with false. cbv iota. rewrite IH. by destruct (Z.eqb_spec c 62) as [->|].
Qed.

(** ** The grammar *)

(** A redirection: its symbol and its file. *)
Inductive redir := Redir (tok : Z) (file : list Z).

(** [line ::= pipe &* [; line]], [pipe ::= exec [| pipe]],
    [exec ::= ( line ) redir* | redir* (word redir* )*]. *)
Inductive tline :=
| TLine (p : tpipe) (bg : nat)
| TSeq (p : tpipe) (bg : nat) (l : tline)
with tpipe :=
| TCmd (e : texec)
| TPipe (e : texec) (p : tpipe)
with texec :=
| TBlock (l : tline) (rs : list redir)
| TExec (rs : list redir) (ws : list (list Z * list redir)).

Scheme tline_mind := Induction for tline Sort Prop
with tpipe_mind := Induction for tpipe Sort Prop
with texec_mind := Induction for texec Sort Prop.
Combined Scheme grammar_ind from tline_mind, tpipe_mind, texec_mind.

Definition toks_redir (r : redir) : list token := let '(Redir t f) := r in [Sym t; Word f].
Definition toks_redirs (rs : list redir) : list token := rs ≫= toks_redir.
Definition toks_word (x : list Z * list redir) : list token := Word x.1 :: toks_redirs x.2.
Fixpoint toks_line (l : tline) : list token :=
  match l with
  | TLine p bg => toks_pipe p ++ replicate bg (Sym 38)
  | TSeq p bg l => toks_pipe p ++ replicate bg (Sym 38) ++ Sym 59 :: toks_line l
  end
with toks_pipe (p : tpipe) : list token :=
  match p with
  | TCmd e => toks_exec e
  | TPipe e p => toks_exec e ++ Sym 124 :: toks_pipe p
  end
with toks_exec (e : texec) : list token :=
  match e with
  | TBlock l rs => Sym 40 :: toks_line l ++ Sym 41 :: toks_redirs rs
  | TExec rs ws => toks_redirs rs ++ (ws ≫= toks_word)
  end.

(** The symbols of redirections are [<], [>] and [>>], and a command has at
    most MAXARGS - 1 words. *)
Definition wf_redir (r : redir) : Prop := let '(Redir t _) := r in t = 60 \/ t = 62 \/ t = 43.
Fixpoint wf_line (l : tline) : Prop :=
  match l with
  | TLine p _ => wf_pipe p
  | TSeq p _ l => wf_pipe p /\ wf_line l
  end
with wf_pipe (p : tpipe) : Prop :=
  match p with
  | TCmd e => wf_exec e
  | TPipe e p => wf_exec e /\ wf_pipe p
  end
with wf_exec (e : texec) : Prop :=
  match e with
  | TBlock l rs => wf_line l /\ Forall wf_redir rs
  | TExec rs ws => Forall wf_redir rs /\ Forall (fun x => Forall wf_redir x.2) ws /\ Z.of_nat (length ws) < MAXARGS
  end.

(** How many nodes a command takes, and how deep the parser goes. *)
Fixpoint nodes_line (l : tline) : nat :=
  match l with
  | TLine p bg => nodes_pipe p + bg
  | TSeq p bg l => nodes_pipe p + bg + nodes_line l + 1
  end
with nodes_pipe (p : tpipe) : nat :=
  match p with
  | TCmd e => nodes_exec e
  | TPipe e p => nodes_exec e + nodes_pipe p + 1
  end
with nodes_exec (e : texec) : nat :=
  match e with
  | TBlock l rs => nodes_line l + length rs
  | TExec rs ws => 1 + length rs + length (ws ≫= snd)
  end.
Fixpoint depth_line (l : tline) : nat :=
  match l with
  | TLine p _ => S (depth_pipe p)
  | TSeq p _ l => S (depth_pipe p `max` depth_line l)
  end
with depth_pipe (p : tpipe) : nat :=
  match p with
  | TCmd e => S (depth_exec e)
  | TPipe e p => S (depth_exec e `max` depth_pipe p)
  end
with depth_exec (e : texec) : nat :=
  match e with
  | TBlock l _ => S (S (depth_line l))
  | TExec _ _ => 1
  end.

Lemma depth_toks :
  (forall l, depth_line l <= 4 * length (toks_line l) + 3)%nat /\
  (forall p, depth_pipe p <= 4 * length (toks_pipe p) + 2)%nat /\
  (forall e, depth_exec e <= 4 * length (toks_exec e) + 1)%nat.
Proof.
  apply grammar_ind; intros; cbn [depth_line depth_pipe depth_exec toks_line toks_pipe toks_exec];
    rewrite ?length_app, ?length_replicate; cbn [length]; rewrite ?length_app; cbn [length]; lia.
Qed.

(** ** What a tree means

    [P q eq w] relates the two pointers of a word to it. *)
Section meaning.
Context (P : Z -> Z -> list Z -> Prop).

Definition wraps (rps : list (Z * Z * Z * Z)) (c : cmd) : cmd :=
  fold_left (fun c '(q, eq, mode, fd) => REDIR c q eq mode fd) rps c.
(** A redirection of input opens the file for reading (0) as descriptor 0,
    one of output creates it for writing (0x201) as descriptor 1. *)
Definition redir_target (t : Z) : Z * Z := if t =? 60 then (0, 0) else (513, 1).
Definition means_redir (rp : Z * Z * Z * Z) (r : redir) : Prop :=
  let '(q, eq, mode, fd) := rp in let '(Redir t f) := r in P q eq f /\ (mode, fd) = redir_target t.
Fixpoint backs (n : nat) (c : cmd) : cmd := match n with O => c | S n => backs n (BACK c) end.

Fixpoint means_line (l : tline) (c : cmd) : Prop :=
  match l with
  | TLine p bg => exists a, c = backs bg a /\ means_pipe p a
  | TSeq p bg l => exists a b, c = LIST (backs bg a) b /\ means_pipe p a /\ means_line l b
  end
with means_pipe (p : tpipe) (c : cmd) : Prop :=
  match p with
  | TCmd e => means_exec e c
  | TPipe e p => exists a b, c = PIPE a b /\ means_exec e a /\ means_pipe p b
  end
with means_exec (e : texec) (c : cmd) : Prop :=
  match e with
  | TBlock l rs => exists rps a, c = wraps rps a /\ Forall2 means_redir rps rs /\ means_line l a
  | TExec rs ws => exists rps argv eargv, c = wraps rps (EXEC argv eargv) /\
      Forall2 means_redir rps (rs ++ (ws ≫= snd)) /\ Forall3 P argv eargv (fst <$> ws)
  end.
End meaning.

Lemma means_redirs_mono (P Q : Z -> Z -> list Z -> Prop) rps rs :
  (forall q eq w, P q eq w -> Q q eq w) -> Forall2 (means_redir P) rps rs -> Forall2 (means_redir Q) rps rs.
Proof.
  intros HPQ Hm. eapply list.Forall2_impl; [apply Hm|]. intros [[[q e] m] f] []. cbn. intros [Hx ?]. split; [by apply HPQ | done].
Qed.
Lemma means_mono (P Q : Z -> Z -> list Z -> Prop) :
  (forall q eq w, P q eq w -> Q q eq w) ->
  (forall l c, means_line P l c -> means_line Q l c) /\ (forall p c, means_pipe P p c -> means_pipe Q p c) /\
  (forall e c, means_exec P e c -> means_exec Q e c).
Proof.
  intros HPQ. apply grammar_ind; cbn [means_line means_pipe means_exec].
  - intros p IH bg c (a & -> & Ha). exists a. auto.
  - intros p IHp bg l IHl c (a & b & -> & Ha & Hb). exists a, b. auto.
  - auto.
  - intros e IHe p IHp c (a & b & -> & Ha & Hb). exists a, b. auto.
  - intros l IHl rs c (rps & a & -> & Hr & Ha). exists rps, a. split_and!; [done | by eapply means_redirs_mono | auto].
  - intros rs ws c (rps & argv & eargv & -> & Hr & Hw). exists rps, argv, eargv.
    split_and!; [done | by eapply means_redirs_mono |]. eapply Forall3_impl; [apply Hw | auto].
Qed.

(** ** The parser *)

Section parser.
Context {W : Type} `{K : Kernel W} `{Fr : Frame} `{St : Statics}.
Context (base es : Z) (Hbase : 0 < base).
Implicit Types u : U W.
Abbreviation rest := (rest base es).
Abbreviation word_at := (word_at base es).

(** Taking memory for nodes leaves the line alone. *)
Definition alike u u' : Prop :=
  u_sz u <= u_sz u' /\ forall b, base <= b <= es -> ldb (u_mem u') b = ldb (u_mem u) b.
#[export] Instance alike_preorder : PreOrder alike.
Proof. split; [done|]. intros u1 u2 u3 [S1 M1] [S2 M2]. split; [lia|]. intros b Hb. by rewrite M2, M1. Qed.

Lemma rest_alike u u' s toks : alike u u' -> rest u s toks -> rest u' s toks.
Proof.
  intros [Hsz Hm] (t & (Hb & Hs & He) & Hl). exists t. split; [|done]. split_and!; [done | | done].
  apply (str_at_frame u); [done | done |]. intros b Hb'. apply Hm. lia.
Qed.
Lemma word_at_alike u u' q eq w : alike u u' -> word_at u q eq w -> word_at u' q eq w.
Proof.
  intros [Hsz Hm] (Hb & He & Hes & Hu & Hq & Hl & Hw & Hend). split_and!; [done | done | done | lia | done | | done |].
  - rewrite <-Hl at 2. apply ldbs_ext. intros b Hb'. apply Hm. lia.
  - rewrite Hm; [done | lia].
Qed.

(** The interface to the allocator: [can k u] allows for [k] more nodes. *)
Class Allocates (can : nat -> U W -> Prop) :=
  alloc_law : forall k u n, 0 <= n <= 84 -> can (S k) u -> exists u', alloc n u = Ok tt u' /\ can k u' /\ alike u u'.
Context (can : nat -> U W -> Prop) `{!Allocates can}.

Lemma rest_tokens u s toks : rest u s toks -> Z.of_nat (length toks) < u_sz u.
Proof. intros (t & (_ & (Ha & Hsz & _) & _) & <-). pose proof (lex_length t). lia. Qed.

(** *** Redirections *)

Lemma redir_turn u s wrap r toks k :
  rest u s (toks_redir r ++ toks) -> wf_redir r -> can (S k) u ->
  exists u' s' q eq mode fd, parseredirs_turn es (wrap, s) u = Ok (inl (fun c => REDIR (wrap c) q eq mode fd, s')) u' /\
    alike u u' /\ rest u' s' toks /\ can k u' /\ means_redir (word_at u') (q, eq, mode, fd) r.
Proof.
  intros Hr Hwf Hcan. destruct r as [t f]. unfold parseredirs_turn.
  destruct (peek_ok base es u s (bytes "<>") _ eq_refl Hr) as (s1 & R1 & Hr1). mrun R1.
  assert (starts (bytes "<>") (toks_redir (Redir t f) ++ toks) = true) as ->.
  { cbn [toks_redir app starts]. cbn in Hwf. destruct Hwf as [-> |[-> | ->]]; reflexivity. }
  destruct (gettoken_ok base es u s1 _ Hbase Hr1) as (s2 & q2 & e2 & R2 & Hr2 & _). mrun R2. cbn [toks_redir app tail token_kind] in *.
  destruct (gettoken_ok base es u s2 _ Hbase Hr2) as (s3 & q & eq & R3 & Hr3 & Hword). mrun R3. cbn [tail token_kind] in *.
  destruct (redir_mode t) as [mode fd] eqn:Em. change (97 =? 97) with true. cbn [negb]. cbv iota.
  destruct (alloc_law k u 24 ltac:(lia) Hcan) as (u' & Ra & Hcan' & Hal). unfold redircmd. rewrite bind_assoc. mrun Ra.
  rewrite bind_ret_l. exists u', s3, q, eq, mode, fd. split_and!; [done | done | by apply (rest_alike u) | done |].
  cbn. split; [|by rewrite <-Em]. apply (word_at_alike u); [done | by eapply Hword].
Qed.

Lemma parseredirs_loop n rs u s wrap toks k :
  (length rs < n)%nat -> rest u s (toks_redirs rs ++ toks) -> Forall wf_redir rs -> starts (bytes "<>") toks = false ->
  can (length rs + k)%nat u ->
  exists wrap' s' u' rps, loop n (parseredirs_turn es) (wrap, s) u = Ok (wrap', s') u' /\ alike u u' /\ rest u' s' toks /\
    can k u' /\ (forall c, wrap' c = wraps rps (wrap c)) /\ Forall2 (means_redir (word_at u')) rps rs.
Proof.
  revert u s wrap rs. induction n as [|n IH]; intros u s wrap rs Hn Hr Hwf Hst Hcan; [lia|].
  destruct rs as [|r rs].
  - destruct (peek_ok base es u s (bytes "<>") _ eq_refl Hr) as (s1 & R1 & Hr1).
    exists wrap, s1, u, []. split_and!; try done. apply loop_last. unfold parseredirs_turn. mrun R1. cbn [app toks_redirs mbind list_bind].
    by rewrite Hst.
  - cbn [toks_redirs mbind list_bind length] in *. rewrite <-app_assoc in Hr. apply Forall_cons_1 in Hwf as [Hw Hwf].
    destruct (redir_turn u s wrap r _ _ Hr Hw Hcan) as (u1 & s1 & q & eq & mode & fd & R1 & A1 & Hr1 & Hc1 & Hm1).
    destruct (IH u1 s1 (fun c => REDIR (wrap c) q eq mode fd) rs ltac:(lia) Hr1 Hwf Hst Hc1)
      as (wrap' & s' & u' & rps & R' & A' & Hr' & Hc' & Hw' & Hm').
    exists wrap', s', u', ((q, eq, mode, fd) :: rps). rewrite (loop_next _ _ _ _ _ _ R1).
    split_and!; [done | by transitivity u1 | done | done | intros c; by rewrite Hw' |].
    constructor; [|done]. destruct r. cbn in *. split; [|by apply Hm1]. apply (word_at_alike u1); [done | apply Hm1].
Qed.

Lemma parseredirs_ok rs u s wrap toks k :
  rest u s (toks_redirs rs ++ toks) -> Forall wf_redir rs -> starts (bytes "<>") toks = false -> can (length rs + k)%nat u ->
  exists wrap' s' u' rps, parseredirs wrap s es u = Ok (wrap', s') u' /\ alike u u' /\ rest u' s' toks /\
    can k u' /\ (forall c, wrap' c = wraps rps (wrap c)) /\ Forall2 (means_redir (word_at u')) rps rs.
Proof.
  intros Hr Hwf Hst Hcan. pose proof (rest_tokens u s _ Hr) as Hn. apply parseredirs_loop; try done.
  rewrite length_app in Hn. assert (length rs <= length (toks_redirs rs))%nat; [|lia].
  clear. induction rs as [|[] rs IH]; cbn [toks_redirs mbind list_bind length] in *; [lia|]. unfold toks_redirs in IH. rewrite length_app. cbn. lia.
Qed.

(** *** Words *)

(** The tokens that may follow a part of the grammar: none, or one of some
    symbols. *)
Definition follow (set : list Z) (toks : list token) : Prop :=
  toks = [] \/ exists c ts, toks = Sym c :: ts /\ c ∈ set.

Lemma follow_mono set set' toks : follow set toks -> set ⊆ set' -> follow set' toks.
Proof. intros [->|(c & ts & -> & Hc)] Hs; [by left | right]. exists c, ts. split; [done | by apply Hs]. Qed.
Lemma follow_starts set peeks toks : follow set toks ->
  forallb (fun c => negb (strchr_in peeks (if c =? 43 then 62 else c))) set = true -> starts peeks toks = false.
Proof.
  intros [->|(c & ts & -> & Hc)] Hs; [done|]. cbn. rewrite forallb_forall in Hs.
  apply negb_true_iff, Hs. by apply list_elem_of_In.
Qed.

Definition after_exec : list Z := [124; 41; 38; 59].

Lemma parseexec_loop n ws u s wrap argv eargv toks k :
  (length ws < n)%nat -> rest u s ((ws ≫= toks_word) ++ toks) -> follow after_exec toks ->
  Forall (fun x => Forall wf_redir x.2) ws -> Z.of_nat (length argv + length ws) < MAXARGS ->
  can (length (ws ≫= snd) + k)%nat u ->
  exists u' s' rps argv' eargv', loop n (parseexec_turn es) (wrap, argv, eargv, s) u =
      Ok (wraps rps (wrap (EXEC (argv ++ argv') (eargv ++ eargv'))), s') u' /\
    alike u u' /\ rest u' s' toks /\ can k u' /\
    Forall2 (means_redir (word_at u')) rps (ws ≫= snd) /\ Forall3 (word_at u') argv' eargv' (fst <$> ws).
Proof.
  revert u s wrap argv eargv ws. induction n as [|n IH]; intros u s wrap argv eargv ws Hn Hr Hf Hwf Hmax Hcan; [lia|].
  destruct (peek_ok base es u s (bytes "|)&;") _ eq_refl Hr) as (s1 & R1 & Hr1). destruct ws as [|[w rs] ws].
  - cbn [mbind list_bind app length] in *. destruct Hf as [->|(c & ts & -> & Hc)].
    + destruct (gettoken_ok base es u s1 _ Hbase Hr1) as (s2 & q & eq & R2 & Hr2 & _).
      exists u, s2, [], [], []. rewrite !app_nil_r. split_and!; try done; [|constructor].
      apply loop_last. unfold parseexec_turn. mrun R1. cbn [starts]. mrun R2. done.
    + exists u, s1, [], [], []. rewrite !app_nil_r. split_and!; try done; [|constructor].
      apply loop_last. unfold parseexec_turn. mrun R1.
      assert (starts (bytes "|)&;") (Sym c :: ts) = true) as ->; [|done].
      unfold after_exec in Hc. repeat (apply elem_of_cons in Hc as [->|Hc]; [reflexivity|]). by apply elem_of_nil in Hc.
  - cbn [mbind list_bind length] in *. change (toks_word (w, rs)) with (Word w :: toks_redirs rs) in *. cbn [app] in *. rewrite <-app_assoc in *.
    apply Forall_cons_1 in Hwf as [Hw Hwf]. cbn [snd] in Hw.
    destruct (gettoken_ok base es u s1 _ Hbase Hr1) as (s2 & q & eq & R2 & Hr2 & Hword). cbn [tail token_kind] in *.
    rewrite length_app, <-Nat.add_assoc in Hcan.
    destruct (parseredirs_ok rs u s2 wrap _ (length (ws ≫= snd) + k) Hr2 Hw) as (wrap1 & s3 & u1 & rps1 & R3 & A1 & Hr3 & Hc3 & Hw1 & Hm1); [|done|].
    { destruct ws as [|[w' rs'] ws]; [|done]. cbn. by apply (follow_starts after_exec). }
    destruct (IH u1 s3 wrap1 (argv ++ [q]) (eargv ++ [eq]) ws) as (u2 & s4 & rps2 & argv2 & eargv2 & R4 & A2 & Hr4 & Hc4 & Hm2 & Hm3);
      [lia | done | done | done | rewrite length_app; cbn; lia | done |].
    exists u2, s4, (rps1 ++ rps2), (q :: argv2), (eq :: eargv2). split_and!; [ | by transitivity u1 | done | done | |].
    + erewrite loop_next.
      * rewrite R4, <-!app_assoc. cbn [app]. rewrite Hw1. unfold wraps. by rewrite fold_left_app.
      * unfold parseexec_turn. mrun R1. cbn [starts]. mrun R2. change (97 =? 0) with false. change (97 =? 97) with true. cbn [negb].
        rewrite (proj2 (Z.leb_gt MAXARGS _)) by (rewrite length_app; cbn; lia). mrun R3. done.
    + apply Forall2_app; [|done]. eapply list.Forall2_impl; [apply Hm1|]. intros [[[q' e'] m'] f'] []. cbn.
      intros [Hx ?]. split; [by apply (word_at_alike u1) | done].
    + constructor; [|done]. apply (word_at_alike u); [by transitivity u1 | by eapply Hword].
Qed.

(** *** Lines *)

Lemma parseback_loop n bg u s c toks k :
  (bg < n)%nat -> rest u s (replicate bg (Sym 38) ++ toks) -> starts (bytes "&") toks = false -> can (bg + k)%nat u ->
  exists s' u', loop n (parseback_turn es) (c, s) u = Ok (backs bg c, s') u' /\ alike u u' /\ rest u' s' toks /\ can k u'.
Proof.
  revert u s c bg. induction n as [|n IH]; intros u s c bg Hn Hr Hst Hcan; [lia|].
  destruct (peek_ok base es u s (bytes "&") _ eq_refl Hr) as (s1 & R1 & Hr1). destruct bg as [|bg]; cbn [replicate app backs] in *.
  - exists s1, u. split_and!; try done. apply loop_last. unfold parseback_turn. mrun R1. by rewrite Hst.
  - destruct (gettoken_ok base es u s1 _ Hbase Hr1) as (s2 & q & eq & R2 & Hr2 & _). cbn [tail token_kind] in *.
    destruct (alloc_law (bg + k) u 8 ltac:(lia) Hcan) as (u1 & Ra & Hc1 & A1).
    destruct (IH u1 s2 (BACK c) bg ltac:(lia) (rest_alike _ _ _ _ A1 Hr2) Hst Hc1) as (s3 & u2 & R3 & A2 & Hr3 & Hc3).
    exists s3, u2. split_and!; [| by transitivity u1 | done | done]. erewrite loop_next; [apply R3|].
    unfold parseback_turn. mrun R1. change (starts (bytes "&") (Sym 38 :: replicate bg (Sym 38) ++ toks)) with true. cbv iota.
    mrun R2. unfold backcmd. rewrite bind_assoc. mrun Ra. by rewrite bind_ret_l.
Qed.

Definition parses (parse : Z -> UM W (cmd * Z)) u s toks k (M : U W -> cmd -> Prop) : Prop :=
  exists c s' u', parse s u = Ok (c, s') u' /\ alike u u' /\ rest u' s' toks /\ can k u' /\ M u' c.

Lemma means_alike u u' : alike u u' ->
  (forall l c, means_line (word_at u) l c -> means_line (word_at u') l c) /\
  (forall p c, means_pipe (word_at u) p c -> means_pipe (word_at u') p c) /\
  (forall e c, means_exec (word_at u) e c -> means_exec (word_at u') e c).
Proof. intros A. apply means_mono. intros q eq w. by apply word_at_alike. Qed.

Definition ok_line l : Prop := forall n u s toks k,
  (depth_line l <= n)%nat -> wf_line l -> rest u s (toks_line l ++ toks) -> follow [41] toks ->
  can (nodes_line l + k)%nat u -> parses (fun s => parseline n s es) u s toks k (fun u' => means_line (word_at u') l).
Definition ok_pipe p : Prop := forall n u s toks k,
  (depth_pipe p <= n)%nat -> wf_pipe p -> rest u s (toks_pipe p ++ toks) -> follow [41; 38; 59] toks ->
  can (nodes_pipe p + k)%nat u -> parses (fun s => parsepipe n s es) u s toks k (fun u' => means_pipe (word_at u') p).
Definition ok_exec e : Prop := forall n u s toks k,
  (depth_exec e <= n)%nat -> wf_exec e -> rest u s (toks_exec e ++ toks) -> follow after_exec toks ->
  can (nodes_exec e + k)%nat u -> parses (fun s => parseexec n s es) u s toks k (fun u' => means_exec (word_at u') e).

(** A pipeline and the ampersands after it. *)
Lemma pipe_backs p bg n u s toks k : ok_pipe p ->
  (depth_pipe p <= n)%nat -> wf_pipe p -> rest u s (toks_pipe p ++ replicate bg (Sym 38) ++ toks) -> follow [41; 59] toks ->
  can (nodes_pipe p + (bg + k))%nat u ->
  exists a s1 u1 s2 u2, parsepipe n s es u = Ok (a, s1) u1 /\ walk (parseback_turn es) (a, s1) u1 = Ok (backs bg a, s2) u2 /\
    alike u u2 /\ rest u2 s2 toks /\ can k u2 /\ means_pipe (word_at u2) p a.
Proof.
  intros IH Hn Hwf Hr Hf Hcan.
  destruct (IH n u s (replicate bg (Sym 38) ++ toks) (bg + k)%nat Hn Hwf Hr) as (a & s1 & u1 & R1 & A1 & Hr1 & Hc1 & M1); [|done|].
  { destruct bg; [apply (follow_mono [41; 59]); [done | set_solver] | right; eexists _, _; split; [done | set_solver]]. }
  destruct (parseback_loop (S (Z.to_nat (u_sz u1))) bg u1 s1 a toks k) as (s2 & u2 & R2 & A2 & Hr2 & Hc2); try done.
  { pose proof (rest_tokens _ _ _ Hr1) as Hlen. rewrite length_app, length_replicate in Hlen. lia. }
  { by apply (follow_starts [41; 59]). }
  exists a, s1, u1, s2, u2. split_and!; try done; [by transitivity u1 | by apply (means_alike u1)].
Qed.

Lemma ok_TLine p bg : ok_pipe p -> ok_line (TLine p bg).
Proof.
  intros IH [|n] u s toks k Hn Hwf Hr Hf Hcan; [cbn in Hn; lia|]. cbn [toks_line depth_line nodes_line wf_line] in *.
  rewrite <-app_assoc in Hr. rewrite <-Nat.add_assoc in Hcan. unfold parses. cbn [parseline].
  destruct (pipe_backs p bg n u s toks k IH ltac:(lia) Hwf Hr) as (a & s1 & u1 & s2 & u2 & R1 & R2 & A2 & Hr2 & Hc2 & M2);
    [apply (follow_mono [41]); [done | set_solver] | done |].
  destruct (peek_ok base es u2 s2 (bytes ";") _ eq_refl Hr2) as (s3 & R3 & Hr3).
  exists (backs bg a), s3, u2. mrun R1. mrun R2. mrun R3. rewrite (follow_starts [41] (bytes ";") toks Hf eq_refl).
  split_and!; try done. by exists a.
Qed.

Lemma ok_TSeq p bg l : ok_pipe p -> ok_line l -> ok_line (TSeq p bg l).
Proof.
  intros IHp IHl [|n] u s toks k Hn Hwf Hr Hf Hcan; [cbn in Hn; lia|]. cbn [toks_line depth_line nodes_line wf_line] in *.
  destruct Hwf as [Hwp Hwl]. rewrite <-!app_assoc in Hr. cbn [app] in Hr. unfold parses. cbn [parseline].
  replace (nodes_pipe p + bg + nodes_line l + 1 + k)%nat with (nodes_pipe p + (bg + (nodes_line l + S k)))%nat in Hcan by lia.
  destruct (pipe_backs p bg n u s (Sym 59 :: toks_line l ++ toks) (nodes_line l + S k) IHp ltac:(lia) Hwp Hr) as (a & s1 & u1 & s2 & u2 & R1 & R2 & A2 & Hr2 & Hc2 & M2);
    [right; eexists _, _; split; [done | set_solver] | done |].
  destruct (peek_ok base es u2 s2 (bytes ";") _ eq_refl Hr2) as (s3 & R3 & Hr3).
  destruct (gettoken_ok base es u2 s3 _ Hbase Hr3) as (s4 & q & eq & R4 & Hr4 & _). cbn [tail token_kind] in *.
  destruct (IHl n u2 s4 toks (S k) ltac:(lia) Hwl Hr4 Hf Hc2) as (b & s5 & u3 & R5 & A5 & Hr5 & Hc5 & M5).
  destruct (alloc_law k u3 12 ltac:(lia) Hc5) as (u4 & Ra & Hc4 & A4).
  exists (LIST (backs bg a) b), s5, u4. mrun R1. mrun R2. mrun R3.
  change (starts (bytes ";") (Sym 59 :: toks_line l ++ toks)) with true. cbv iota. mrun R4. mrun R5.
  unfold listcmd. rewrite bind_assoc. mrun Ra. rewrite bind_ret_l.
  assert (alike u2 u4) as A24 by by transitivity u3.
  split_and!; [done | by transitivity u2 | by apply (rest_alike u3) | done |].
  exists a, b. split_and!; [done | by apply (means_alike u2) | by apply (means_alike u3)].
Qed.

Lemma ok_TCmd e : ok_exec e -> ok_pipe (TCmd e).
Proof.
  intros IH [|n] u s toks k Hn Hwf Hr Hf Hcan; [cbn in Hn; lia|]. cbn [toks_pipe depth_pipe nodes_pipe wf_pipe] in *.
  unfold parses. cbn [parsepipe].
  destruct (IH n u s toks k ltac:(lia) Hwf Hr) as (c & s1 & u1 & R1 & A1 & Hr1 & Hc1 & M1);
    [apply (follow_mono [41; 38; 59]); [done | unfold after_exec; set_solver] | done |].
  destruct (peek_ok base es u1 s1 (bytes "|") _ eq_refl Hr1) as (s3 & R3 & Hr3).
  exists c, s3, u1. mrun R1. mrun R3. rewrite (follow_starts _ (bytes "|") toks Hf eq_refl). by split_and!.
Qed.

Lemma ok_TPipe e p : ok_exec e -> ok_pipe p -> ok_pipe (TPipe e p).
Proof.
  intros IHe IHp [|n] u s toks k Hn Hwf Hr Hf Hcan; [cbn in Hn; lia|]. cbn [toks_pipe depth_pipe nodes_pipe wf_pipe] in *.
  destruct Hwf as [Hwe Hwp]. rewrite <-app_assoc in Hr. cbn [app] in Hr. unfold parses. cbn [parsepipe].
  replace (nodes_exec e + nodes_pipe p + 1 + k)%nat with (nodes_exec e + (nodes_pipe p + S k))%nat in Hcan by lia.
  destruct (IHe n u s (Sym 124 :: toks_pipe p ++ toks) (nodes_pipe p + S k)%nat ltac:(lia) Hwe Hr) as (a & s1 & u1 & R1 & A1 & Hr1 & Hc1 & M1);
    [right; eexists _, _; split; [done | unfold after_exec; set_solver] | done |].
  destruct (peek_ok base es u1 s1 (bytes "|") _ eq_refl Hr1) as (s3 & R3 & Hr3).
  destruct (gettoken_ok base es u1 s3 _ Hbase Hr3) as (s4 & q & eq & R4 & Hr4 & _). cbn [tail token_kind] in *.
  destruct (IHp n u1 s4 toks (S k) ltac:(lia) Hwp Hr4 Hf Hc1) as (b & s5 & u3 & R5 & A5 & Hr5 & Hc5 & M5).
  destruct (alloc_law k u3 12 ltac:(lia) Hc5) as (u4 & Ra & Hc4 & A4).
  exists (PIPE a b), s5, u4. mrun R1. mrun R3.
  change (starts (bytes "|") (Sym 124 :: toks_pipe p ++ toks)) with true. cbv iota. mrun R4. mrun R5.
  unfold pipecmd. rewrite bind_assoc. mrun Ra. rewrite bind_ret_l.
  assert (alike u1 u4) as A14 by by transitivity u3.
  split_and!; [done | by transitivity u1 | by apply (rest_alike u3) | done |].
  exists a, b. split_and!; [done | by apply (means_alike u1) | by apply (means_alike u3)].
Qed.

Lemma ok_TBlock l rs : ok_line l -> ok_exec (TBlock l rs).
Proof.
  intros IH [|[|n]] u s toks k Hn Hwf Hr Hf Hcan; [cbn in Hn; lia..|]. cbn [toks_exec depth_exec nodes_exec wf_exec] in *.
  destruct Hwf as [Hwl Hwr]. rewrite <-!app_comm_cons, <-app_assoc, <-app_comm_cons in Hr. rewrite <-Nat.add_assoc in Hcan.
  unfold parses. cbn [parseexec parseblock].
  destruct (peek_ok base es u s (bytes "(") _ eq_refl Hr) as (s1 & R1 & Hr1).
  destruct (peek_ok base es u s1 (bytes "(") _ eq_refl Hr1) as (s2 & R2 & Hr2).
  destruct (gettoken_ok base es u s2 _ Hbase Hr2) as (s3 & q3 & e3 & R3 & Hr3 & _). cbn [tail token_kind] in *.
  destruct (IH n u s3 (Sym 41 :: toks_redirs rs ++ toks) (length rs + k)%nat ltac:(lia) Hwl Hr3) as (c & s4 & u4 & R4 & A4 & Hr4 & Hc4 & M4);
    [right; eexists _, _; split; [done | set_solver] | done |].
  destruct (peek_ok base es u4 s4 (bytes ")") _ eq_refl Hr4) as (s5 & R5 & Hr5).
  destruct (gettoken_ok base es u4 s5 _ Hbase Hr5) as (s6 & q6 & e6 & R6 & Hr6 & _). cbn [tail token_kind] in *.
  destruct (parseredirs_ok rs u4 s6 id toks k Hr6 Hwr) as (wrap & s7 & u7 & rps & R7 & A7 & Hr7 & Hc7 & Hw7 & M7); [|done|].
  { by apply (follow_starts after_exec). }
  exists (wrap c), s7, u7. mrun R1. change (starts (bytes "(") (Sym 40 :: toks_line l ++ Sym 41 :: toks_redirs rs ++ toks)) with true.
  cbv iota. mrun R2. change (starts (bytes "(") (Sym 40 :: toks_line l ++ Sym 41 :: toks_redirs rs ++ toks)) with true.
  cbn [negb]. mrun R3. mrun R4. mrun R5. change (starts (bytes ")") (Sym 41 :: toks_redirs rs ++ toks)) with true.
  cbn [negb]. mrun R6. mrun R7. split_and!; [done | by transitivity u4 | done | done |].
  exists rps, c. split_and!; [by rewrite Hw7 | done | by apply (means_alike u4)].
Qed.

Lemma ok_TExec rs ws : ok_exec (TExec rs ws).
Proof.
  intros [|n] u s toks k Hn Hwf Hr Hf Hcan; [cbn in Hn; lia|]. cbn [toks_exec depth_exec nodes_exec wf_exec] in *.
  destruct Hwf as (Hwr & Hww & Hmax). rewrite <-app_assoc in Hr. unfold parses. cbn [parseexec].
  replace (1 + length rs + length (ws ≫= snd) + k)%nat with (S (length rs + (length (ws ≫= snd) + k))) in Hcan by lia.
  destruct (peek_ok base es u s (bytes "(") _ eq_refl Hr) as (s1 & R1 & Hr1).
  assert (starts (bytes "(") (toks_redirs rs ++ (ws ≫= toks_word) ++ toks) = false) as Hst.
  { destruct rs as [|[t f] rs]; [destruct ws as [|[w rs'] ws]; [cbn; by apply (follow_starts after_exec) | done]|].
    apply Forall_cons_1 in Hwr as [Hwr _]. cbn in Hwr |- *. destruct Hwr as [-> |[-> | ->]]; reflexivity. }
  destruct (alloc_law _ u 84 ltac:(lia) Hcan) as (u2 & Ra & Hc2 & A2).
  destruct (parseredirs_ok rs u2 s1 id _ (length (ws ≫= snd) + k) (rest_alike _ _ _ _ A2 Hr1) Hwr) as (wrap & s3 & u3 & rps & R3 & A3 & Hr3 & Hc3 & Hw3 & M3); [|done|].
  { destruct ws as [|[w rs'] ws]; [cbn; by apply (follow_starts after_exec) | done]. }
  destruct (parseexec_loop (S (Z.to_nat (u_sz u3))) ws u3 s3 wrap [] [] toks k) as (u4 & s4 & rps4 & argv & eargv & R4 & A4 & Hr4 & Hc4 & M4 & W4); try done.
  { pose proof (rest_tokens _ _ _ Hr3) as Hlen. rewrite length_app in Hlen.
    assert (length ws <= length (ws ≫= toks_word))%nat; [|lia].
    clear. induction ws as [|[w rs] ws IH]; cbn [mbind list_bind length] in *; [lia|]. rewrite length_app. cbn. lia. }
  exists (wraps rps4 (wrap (EXEC argv eargv))), s4, u4. mrun R1. rewrite Hst. unfold execcmd. rewrite bind_assoc. mrun Ra.
  rewrite bind_ret_l. mrun R3. split_and!; [done | | done | done |].
  - transitivity u2; [done|]. by transitivity u3.
  - exists (rps ++ rps4), argv, eargv. split_and!; [unfold wraps; by rewrite fold_left_app, Hw3 | | done].
    apply Forall2_app; [|done]. eapply means_redirs_mono; [|apply M3]. intros q eq w. by apply word_at_alike.
Qed.

Lemma parseline_ok l : ok_line l.
Proof.
  apply (tline_mind ok_line ok_pipe ok_exec); auto using ok_TLine, ok_TSeq, ok_TCmd, ok_TPipe, ok_TBlock, ok_TExec.
Qed.
End parser.

(** ** nulterminate *)

(** The words of a tree, as pairs of pointers. *)
Fixpoint words (c : cmd) : list (Z * Z) :=
  match c with
  | EXEC argv eargv => zip argv eargv
  | REDIR c file efile _ _ => words c ++ [(file, efile)]
  | PIPE lcmd rcmd => words lcmd ++ words rcmd
  | LIST lcmd rcmd => words lcmd ++ words rcmd
  | BACK c => words c
  end.

Lemma words_wraps rps c : words (wraps rps c) = words c ++ ((fun '(q, eq, _, _) => (q, eq)) <$> rps).
Proof.
  revert c. induction rps as [|[[[q eq] m] f] rps IH]; intros c; cbn; [by rewrite app_nil_r|].
  unfold wraps in IH. rewrite IH. cbn. by rewrite <-app_assoc.
Qed.
Lemma words_backs n c : words (backs n c) = words c.
Proof. revert c. induction n as [|n IH]; intros c; [done|]. cbn. by rewrite IH. Qed.

(** The words of a tree that means something are words of it, and they are
    words in the sense of [P]. *)
Section words_of.
Context (P : Z -> Z -> list Z -> Prop).

Lemma redirs_in (S : list (Z * Z)) rps rs :
  Forall2 (means_redir P) rps rs -> ((fun '(q, eq, _, _) => (q, eq)) <$> rps) ⊆ S ->
  Forall2 (means_redir (fun q eq w => P q eq w /\ (q, eq) ∈ S)) rps rs.
Proof.
  induction 1 as [|[[[q eq] m] f] [t w] rps rs [Hp Hm] Hrs IH]; intros Hs; constructor.
  - cbn. split; [split; [done|] | done]. apply Hs. left.
  - apply IH. intros x Hx. apply Hs. by right.
Qed.
Lemma args_in (S : list (Z * Z)) argv eargv ws :
  Forall3 P argv eargv ws -> zip argv eargv ⊆ S -> Forall3 (fun q eq w => P q eq w /\ (q, eq) ∈ S) argv eargv ws.
Proof.
  induction 1 as [|q eq w argv eargv ws Hp Hrs IH]; intros Hs; constructor.
  - split; [done|]. apply Hs. left.
  - apply IH. intros x Hx. apply Hs. by right.
Qed.
Lemma means_in (S : list (Z * Z)) :
  (forall l c, means_line P l c -> words c ⊆ S -> means_line (fun q eq w => P q eq w /\ (q, eq) ∈ S) l c) /\
  (forall p c, means_pipe P p c -> words c ⊆ S -> means_pipe (fun q eq w => P q eq w /\ (q, eq) ∈ S) p c) /\
  (forall e c, means_exec P e c -> words c ⊆ S -> means_exec (fun q eq w => P q eq w /\ (q, eq) ∈ S) e c).
Proof.
  apply grammar_ind; cbn [means_line means_pipe means_exec].
  - intros p IH bg c (a & -> & Ha) Hs. rewrite words_backs in Hs. exists a. auto.
  - intros p IHp bg l IHl c (a & b & -> & Ha & Hb) Hs. cbn in Hs. rewrite words_backs in Hs.
    exists a, b. split_and!; [done | apply IHp; [done | set_solver] | apply IHl; [done | set_solver]].
  - auto.
  - intros e IHe p IHp c (a & b & -> & Ha & Hb) Hs. cbn in Hs.
    exists a, b. split_and!; [done | apply IHe; [done | set_solver] | apply IHp; [done | set_solver]].
  - intros l IHl rs c (rps & a & -> & Hr & Ha) Hs. rewrite words_wraps in Hs. exists rps, a.
    split_and!; [done | apply redirs_in; [done | set_solver] | apply IHl; [done | set_solver]].
  - intros rs ws c (rps & argv & eargv & -> & Hr & Hw) Hs. rewrite words_wraps in Hs. cbn in Hs. exists rps, argv, eargv.
    split_and!; [done | apply redirs_in; [done | set_solver] | apply args_in; [done | set_solver]].
Qed.

Lemma redirs_words rps rs q eq : Forall2 (means_redir P) rps rs ->
  (q, eq) ∈ ((fun '(q, eq, _, _) => (q, eq)) <$> rps) -> exists w, P q eq w.
Proof.
  induction 1 as [|[[[q' eq'] m] f] [t w] rps rs [Hp Hm] Hrs IH]; cbn; intros Hin; [by apply elem_of_nil in Hin|].
  apply elem_of_cons in Hin as [[= -> ->]|Hin]; [by exists w | by apply IH].
Qed.
Lemma args_words argv eargv ws q eq : Forall3 P argv eargv ws -> (q, eq) ∈ zip argv eargv -> exists w, P q eq w.
Proof.
  induction 1 as [|q' eq' w argv eargv ws Hp Hrs IH]; cbn; intros Hin; [by apply elem_of_nil in Hin|].
  apply elem_of_cons in Hin as [[= -> ->]|Hin]; [by exists w | by apply IH].
Qed.
Lemma means_words q eq :
  (forall l c, means_line P l c -> (q, eq) ∈ words c -> exists w, P q eq w) /\
  (forall p c, means_pipe P p c -> (q, eq) ∈ words c -> exists w, P q eq w) /\
  (forall e c, means_exec P e c -> (q, eq) ∈ words c -> exists w, P q eq w).
Proof.
  apply grammar_ind; cbn [means_line means_pipe means_exec].
  - intros p IH bg c (a & -> & Ha) Hs. rewrite words_backs in Hs. eauto.
  - intros p IHp bg l IHl c (a & b & -> & Ha & Hb) Hs. cbn in Hs. rewrite words_backs in Hs.
    apply elem_of_app in Hs as [Hs|Hs]; eauto.
  - auto.
  - intros e IHe p IHp c (a & b & -> & Ha & Hb) Hs. cbn in Hs. apply elem_of_app in Hs as [Hs|Hs]; eauto.
  - intros l IHl rs c (rps & a & -> & Hr & Ha) Hs. rewrite words_wraps in Hs.
    apply elem_of_app in Hs as [Hs|Hs]; [eauto | by eapply redirs_words].
  - intros rs ws c (rps & argv & eargv & -> & Hr & Hw) Hs. rewrite words_wraps in Hs. cbn in Hs.
    apply elem_of_app in Hs as [Hs|Hs]; [by eapply args_words | by eapply redirs_words].
Qed.
End words_of.

Section nulterminate.
Context {W : Type} `{K : Kernel W} `{Fr : Frame} `{St : Statics}.
Implicit Types u : U W.

(** [u'] is [u] with zeroes at the addresses [ends]. *)
Definition zeroed u (ends : list Z) u' : Prop :=
  u_sz u' = u_sz u /\ forall b, ldb (u_mem u') b = if decide (b ∈ ends) then 0 else ldb (u_mem u) b.

Lemma zeroed_app u u1 u2 e1 e2 : zeroed u e1 u1 -> zeroed u1 e2 u2 -> zeroed u (e1 ++ e2) u2.
Proof.
  intros [S1 M1] [S2 M2]. split; [by rewrite S2|]. intros b. rewrite M2, M1.
  repeat case_decide; try done; set_solver.
Qed.
Lemma zero_byte u e : 0 <= e < u_sz u -> exists u', sb e 0 u = Ok tt u' /\ zeroed u [e] u'.
Proof.
  intros He. rewrite sb_ok by (apply reaches_iff; lia). eexists. split; [done|]. split; [done|]. intros b. cbn.
  rewrite ldb_stb. repeat case_decide; try done; set_solver.
Qed.

Lemma nulterminate_argv_ok argv eargv u :
  (forall q eq, (q, eq) ∈ zip argv eargv -> q <> 0 /\ 0 <= eq < u_sz u) ->
  exists u', nulterminate_argv argv eargv u = Ok tt u' /\ zeroed u (zip argv eargv).*2 u'.
Proof.
  revert eargv u. induction argv as [|q argv IH]; intros [|eq eargv] u Hq; cbn; try by exists u.
  destruct (Hq q eq ltac:(left)) as [Hq0 He]. rewrite (proj2 (Z.eqb_neq q 0) Hq0).
  destruct (zero_byte u eq He) as (u1 & R1 & Z1). mrun R1.
  destruct (IH eargv u1) as (u2 & R2 & Z2); [intros q' e' Hin; destruct Z1 as [-> _]; apply Hq; by right|].
  exists u2. split; [done|]. by apply (zeroed_app u u1 u2 [eq]).
Qed.

Lemma nulterminate_ok c u :
  (forall q eq, (q, eq) ∈ words c -> q <> 0 /\ 0 <= eq < u_sz u) ->
  exists u', nulterminate c u = Ok tt u' /\ zeroed u (words c).*2 u'.
Proof.
  revert u. induction c as [argv eargv|c IH file efile mode fd|l IHl r IHr|l IHl r IHr|c IH]; intros u Hw; cbn in *.
  - by apply nulterminate_argv_ok.
  - destruct (IH u) as (u1 & R1 & Z1); [intros q eq Hin; apply Hw, elem_of_app; by left|]. mrun R1.
    destruct (zero_byte u1 efile) as (u2 & R2 & Z2).
    { destruct Z1 as [-> _]. apply (Hw file). apply elem_of_app. right. left. }
    exists u2. split; [done|]. rewrite fmap_app. by apply (zeroed_app u u1 u2).
  - destruct (IHl u) as (u1 & R1 & Z1); [intros q eq Hin; apply Hw, elem_of_app; by left|]. mrun R1.
    destruct (IHr u1) as (u2 & R2 & Z2); [intros q eq Hin; destruct Z1 as [-> _]; apply Hw, elem_of_app; by right|].
    exists u2. split; [done|]. rewrite fmap_app. by apply (zeroed_app u u1 u2).
  - destruct (IHl u) as (u1 & R1 & Z1); [intros q eq Hin; apply Hw, elem_of_app; by left|]. mrun R1.
    destruct (IHr u1) as (u2 & R2 & Z2); [intros q eq Hin; destruct Z1 as [-> _]; apply Hw, elem_of_app; by right|].
    exists u2. split; [done|]. rewrite fmap_app. by apply (zeroed_app u u1 u2).
  - by apply IH.
Qed.
End nulterminate.

(** ** parsecmd *)

Section parsecmd.
Context {W : Type} `{K : Kernel W} `{Fr : Frame} `{St : Statics}.
Implicit Types u : U W.

(** Ending the words in place: the byte after a word is no word character, so
    no word is cut by the end of another. *)
Lemma ends_str base es u u' (ws : list (Z * Z)) q eq w :
  (forall q eq, (q, eq) ∈ ws -> exists w, word_at base es u q eq w) -> zeroed u ws.*2 u' ->
  word_at base es u q eq w -> (q, eq) ∈ ws -> str_at u' q w.
Proof.
  intros Hall [Hsz Hz] (Hb & -> & Hes & Hszu & Hq & Hl & Hw & _) Hin.
  assert (forall i c, w !! i = Some c -> ldb (u_mem u') (q + Z.of_nat i) = c) as Hc.
  { intros i c Hi. destruct (Forall_lookup_1 _ _ _ _ Hw Hi) as [Hwc Hc].
    assert (ldb (u_mem u) (q + Z.of_nat i) = c) as E.
    { pose proof (lookup_lt_Some _ _ _ Hi). rewrite <-Hl, ldbs_lookup in Hi by lia. by injection Hi. }
    rewrite Hz, E. case_decide as D; [|done]. exfalso.
    apply list_elem_of_fmap in D as ([q2 eq2] & E2 & Hin2). cbn in E2. destruct (Hall q2 eq2 Hin2) as (w2 & W2).
    destruct W2 as (_ & _ & _ & _ & _ & _ & _ & [H0|H0]); rewrite <-E2, E in H0; [lia | congruence]. }
  split_and!.
  - lia.
  - rewrite Hsz. lia.
  - apply list_eq_same_length with (length w); [done | apply ldbs_length |].
    intros i x y Hi Hx Hy. rewrite ldbs_lookup in Hx by lia. injection Hx as <-. by apply Hc.
  - rewrite Hz. case_decide as D; [done|]. contradict D.
    apply list_elem_of_fmap. by exists (q, q + Z.of_nat (length w)).
  - by eapply list.Forall_impl; [exact Hw|]; intros c [].
Qed.

(** parsecmd on a line of the grammar. *)
Lemma parsecmd_ok s line l u can : 0 < s -> Allocates s (s + Z.of_nat (length line)) can ->
  str_at u s line -> lex line = toks_line l -> wf_line l -> can (nodes_line l) u ->
  exists c u', parsecmd s u = Ok c u' /\ u_sz u <= u_sz u' /\ means_line (fun q _ w => str_at u' q w) l c.
Proof.
  intros Hs HA Hline Hlex Hwf Hcan. set (es := s + Z.of_nat (length line)).
  assert (rest s es u s (toks_line l ++ [])) as Hrest.
  { exists line. rewrite app_nil_r. split; [|done]. split_and!; [lia | done | done]. }
  unfold parsecmd. mrun (strlen_ok u s line Hline). fold es.
  pose proof (proj1 depth_toks l) as Hd. rewrite <-Hlex in Hd. pose proof (lex_length line) as Hll.
  rewrite <-(Nat.add_0_r (nodes_line l)) in Hcan.
  destruct (parseline_ok s es Hs can l (4 * Z.to_nat (Z.of_nat (length line)) + 4)%nat u s [] 0%nat
    ltac:(lia) Hwf Hrest ltac:(by left) Hcan) as (c & s1 & u1 & R1 & A1 & Hr1 & Hc1 & M1).
  mrun R1. pose proof (proj1 (means_in (word_at s es u1) (words c)) l c M1 ltac:(done)) as M2.
  assert (forall q eq, (q, eq) ∈ words c -> exists w, word_at s es u1 q eq w) as Hws
    by (intros q eq; by apply (proj1 (means_words (word_at s es u1) q eq) l)).
  destruct (skip_white_ok s es u1 s1 [] Hr1) as (s2 & t & R2 & Ht & Hlt & Hw).
  assert (t = []) as -> by (destruct t as [|ch t]; [done|]; by destruct (lex_nonempty ch t Hw)).
  destruct (text_hd s es u1 s2 [] Ht) as (R3 & _ & _). destruct Ht as (_ & _ & Hes). cbn in Hes.
  unfold peek. rewrite bind_assoc. mrun R2. rewrite bind_assoc. mrun R3. rewrite bind_ret_l.
  rewrite (proj2 (Z.eqb_eq s2 es)) by lia. cbn [negb].
  destruct (nulterminate_ok c u1) as (u2 & R4 & Hz).
  { intros q eq Hin. destruct (Hws q eq Hin) as (w & Hw1 & -> & ?). lia. }
  mrun R4. exists c, u2. destruct A1 as [Hsz _]. split_and!; [done | by rewrite (proj1 Hz) |].
  refine (proj1 (means_mono _ _ _) l c M2). intros q eq w [Hq Hin]. by eapply ends_str.
Qed.

(** *** The allocator of umalloc.c *)

Context `{Sok : !StaticsOk} `{Gr : !Grows W} (avail : Z -> U W -> Prop) `{Su : !Supplies W avail}.

(** What [k] nodes need: a heap, and memory for an sbrk each. *)
Definition has_room (k : nat) u : Prop := exists L al, heap u L al /\ avail (32768 * Z.of_nat k) u.
(** A buffer that is a static variable of the program. *)
Definition static_buf (a n : Z) : Prop :=
  a + n <= heap_lo /\ (a + n <= a_base \/ a_base + 8 <= a) /\ (a + n <= a_freep \/ a_freep + 4 <= a).

Lemma not_refused n m u : 1 <= n <= 4096 -> 32768 <= m -> 0 <= u_sz u -> avail m u -> refused n u -> False.
Proof.
  intros Hn Hm Hu Hav (v & w & Hsz & Hw & R). unfold core in R. replace (8 * Z.max 4096 n) with 32768 in R by lia.
  destruct (supply_law m 32768 v ltac:(lia) (supply_same m u v Hsz Hw Hav)) as (w' & R' & _).
  rewrite R' in R. injection R as Hz _. lia.
Qed.
Lemma grew_avail n m u u' : 1 <= n <= 4096 -> 32768 <= m -> avail m u -> grew n u u' -> avail (m - 32768) u'.
Proof.
  intros Hn Hm Hav [[Hsz Hw]|(v & w & Hsz & Hw & Hw' & Hsz' & R)].
  - apply (supply_less m); [lia|]. by apply (supply_same m u).
  - unfold core in *. replace (8 * Z.max 4096 n) with 32768 in * by lia.
    destruct (supply_law m 32768 v ltac:(lia) (supply_same m u v Hsz Hw Hav)) as (w2 & R' & Hav').
    rewrite R' in R. injection R as ->. refine (supply_same _ _ _ _ _ Hav'); cbn; congruence.
Qed.

Lemma heap_low u L al : heap u L al -> heap_lo <= u_sz u.
Proof. intros [Hok|[Hn _]]; [apply (ro_sz _ _ (ho_ring _ _ _ Hok)) | apply Hn]. Qed.

#[export] Instance malloc_allocates s n : static_buf s (n + 1) -> Allocates s (s + n) has_room.
Proof.
  intros (Hlo & Hb & Hf) k u size Hsize (L & al & Hh & Hav). pose proof (heap_low u L al Hh). pose proof st_lo. pose proof st_base.
  destruct (units_ok size ltac:(lia)) as (Hu1 & _ & Hu2).
  destruct (malloc_ok u L al size Hh ltac:(lia)) as (r & u1 & R1 & [(-> & _ & _ & Href & _)|(L' & a & -> & Hok & Hnone & Hk & Hg)]).
  { exfalso. refine (not_refused _ _ u _ _ _ Hav Href); lia. }
  unfold alloc. mrun R1. assert (<[a := units size]> al !! a = Some (units size)) as Ha by apply lookup_insert_eq.
  destruct (ho_held _ _ _ Hok a _ Ha) as [Hlo' _ Hhi _ _]. rewrite (proj2 (Z.eqb_neq (a + 8) 0)) by lia.
  destruct (memset_run u1 (a + 8) 0 size) as (m & R2 & Hm); [lia..|]. mrun R2.
  eexists. split; [done|]. split.
  - exists L', (<[a := units size]> al). split.
    + left. apply (heap_ok_inside u1 _ L' _ a (units size) Hok Ha); [done|]. intros c Hc. cbn. rewrite Hm. by case_decide; [lia|].
    + refine (supply_same _ u1 _ _ _ _); [done | done|].
      replace (32768 * Z.of_nat k) with (32768 * Z.of_nat (S k) - 32768) by lia. apply (grew_avail (units size) _ u); [lia.. | done | done].
  - destruct Hk as [Hsz Hmine]. split; [done|]. intros b Hin. cbn. rewrite Hm. case_decide; [lia|]. apply Hmine. right.
    unfold in_header, in_freep. lia.
Qed.


(** Parsing what was printed: every member of the grammar whose words are made
    of word characters is understood when its tokens are printed with blanks
    between them. *)
Theorem parsecmd_print s l u :
  let line := unlex (toks_line l) in
  0 < s -> static_buf s (Z.of_nat (length line) + 1) -> str_at u s line ->
  Forall token_ok (toks_line l) -> wf_line l -> has_room (nodes_line l) u ->
  exists c u', parsecmd s u = Ok c u' /\ means_line (fun q _ w => str_at u' q w) l c.
Proof.
  intros line Hs Hbuf Hline Htoks Hwf Hroom.
  destruct (parsecmd_ok s line l u has_room Hs (malloc_allocates s _ Hbuf) Hline) as (c & u' & R & _ & M); try done.
  - by apply lex_unlex.
  - by exists c, u'.
Qed.
End parsecmd.

(** *** The properties at work *)

#[local] Instance sample_statics : Statics := {| a_base := 16; a_freep := 8; heap_lo := 256 |}.
#[local] Instance sample_statics_ok : StaticsOk.
Proof. split; cbn; lia. Qed.
#[local] Instance sample_frame : Frame := 0.

(** A line in the buffer of a shell whose heap is still empty. *)
Definition sample_line (line : list Z) : U tape := mk_U (stbs ∅ 100 (line ++ [0])) 256 false (mk_tape [] [] 1 1000000).
(** [cat<in|grep x>>out&] and the member of the grammar that it is. *)
Definition sample_tline : tline :=
  TLine (TPipe (TExec [] [(bytes "cat", [Redir 60 (bytes "in")])])
    (TCmd (TExec [] [(bytes "grep", []); (bytes "x", [Redir 43 (bytes "out")])]))) 1.


Lemma parsecmd_print_witness :
  exists c u', parsecmd 100 (sample_line (unlex (toks_line sample_tline))) = Ok c u' /\
    means_line (fun q _ w => str_at u' q w) sample_tline c.
Proof.
  apply (parsecmd_print tape_avail 100 sample_tline).
  - lia.
  - split_and!; cbn; lia.
  - apply (str_at_stbs (mk_U ∅ 256 false (mk_tape [] [] 1 1000000))); [lia | cbn; lia | repeat constructor].
  - repeat constructor; try done; by right.
  - cbn. unfold MAXARGS. split_and!; repeat constructor; cbn; lia.
  - exists [(16, 0)], ∅. split; [|split; cbn; lia]. right. split; [split; [cbn; lia | vm_compute; reflexivity] | done].
Defined.
