(* ===== verification/Shrun.v ===== *)
(** * The shell runs pipelines as it should

    What runcmd of sh.c does with the file descriptors of the processes it
    makes.  The kernel is used through the interface [Fds]: the descriptor
    table of the process, as fork, pipe, dup, close and wait of sysfile.c and
    proc.c treat it.  fork returns in two processes; the one that the model
    follows is picked by the values that its forks return, the plan. *)

From Stdlib Require Import ZArith Lia.
From stdpp Require Import base gmap list strings numbers.
From S2P Require Import Prelude Strings User Ulib Umalloc Sh.

Open Scope Z_scope.

(** ** Descriptors *)

(** An open file: an end of the [k]th pipe that the process or its ancestors
    made, or anything else. *)
Inductive ofile := Rd (k : Z) | Wr (k : Z) | Other (x : Z).

(** The part of the world that the shell works on: the descriptors, how many
    pipes were made so far, and what the forks to come return. *)
Record view := mk_view { v_fds : gmap Z ofile; v_pipes : Z; v_plan : list Z }.

(** NOFILE descriptors; a new one is the lowest that is free. *)
Definition NOFILE : Z := 16.
Definition lowest (f : gmap Z ofile) (n : Z) : Prop :=
  0 <= n < NOFILE /\ f !! n = None /\ forall m, 0 <= m < n -> is_Some (f !! m).

Class Fds (W : Type) `{Kernel W} (view_of : W -> view) := {
  close_law : forall u f k pl fd x, view_of (u_world u) = mk_view f k pl -> f !! fd = Some x ->
    exists w, sys SYS_close [fd] u = Back 0 (set_u_world w u) /\ view_of w = mk_view (delete fd f) k pl;
  dup_law : forall u f k pl fd x n, view_of (u_world u) = mk_view f k pl -> f !! fd = Some x -> lowest f n ->
    exists w, sys SYS_dup [fd] u = Back n (set_u_world w u) /\ view_of w = mk_view (<[n := x]> f) k pl;
  pipe_law : forall u f k pl p n0 n1, view_of (u_world u) = mk_view f k pl -> reaches p 8 u = true ->
    lowest f n0 -> lowest (<[n0 := Rd k]> f) n1 ->
    exists w, sys SYS_pipe [p] u = Back 0 (set_u_world w (set_u_mem (stw (stw (u_mem u) p n0) (p + 4) n1) u)) /\
      view_of w = mk_view (<[n1 := Wr k]> (<[n0 := Rd k]> f)) (k + 1) pl;
  fork_law : forall u f k pid pl, view_of (u_world u) = mk_view f k (pid :: pl) ->
    exists w, sys SYS_fork [] u = Back pid (set_u_world w u) /\ view_of w = mk_view f k pl;
  open_law : forall u f k pl path mode n r u', view_of (u_world u) = mk_view f k pl -> lowest f n ->
    sys SYS_open [path; mode] u = Back r u' -> 0 <= r ->
    r = n /\ exists w x, u' = set_u_world w u /\ view_of w = mk_view (<[n := x]> f) k pl;
  wait_law : forall u f k pl, view_of (u_world u) = mk_view f k pl ->
    exists r w, sys SYS_wait [] u = Back r (set_u_world w u) /\ view_of w = mk_view f k pl;
  gone_law : forall u, sys SYS_exit [] u = Gone u;
}.

Section run.
Context {W : Type} `{K : Kernel W} `{Fr : Frame} `{St : Statics} (view_of : W -> view) `{F : !Fds W view_of}.
Implicit Types u : U W.
Definition vw u : view := view_of (u_world u).

(** runcmd does not return. *)
Lemma exits {A} u : exit (A := A) u = Stuck (set_u_gone true u).
Proof. unfold exit. unfold usys, bind. by rewrite gone_law. Qed.
Lemma runcmd_exits p c u u' : runcmd p c u <> Ok tt u'.
Proof.
  enough (forall (m : UM W unit), (m ;;; exit) u <> Ok tt u') as Hno by (destruct c; apply Hno).
  intros m. unfold bind. destruct (m u) as [? v|? v|v|? v]; [by rewrite exits|done..].
Qed.
Lemma runcmd_into p c (m k : UM W unit) u v : m u = runcmd p c v -> (m ;;; k) u = runcmd p c v.
Proof.
  intros Hm. unfold bind. rewrite Hm. destruct (runcmd p c v) as [[] v'| | |] eqn:E; [|done..].
  by destruct (runcmd_exits p c v v').
Qed.

(** The calls, in the monad. *)
Lemma close_ok u f k pl fd x : vw u = mk_view f k pl -> f !! fd = Some x ->
  exists w, close fd u = Ok 0 (set_u_world w u) /\ view_of w = mk_view (delete fd f) k pl.
Proof. intros Hv Hx. destruct (close_law u f k pl fd x Hv Hx) as (w & R & Hw). exists w. split; [by apply usys_back | done]. Qed.
Lemma dup_ok u f k pl fd x n : vw u = mk_view f k pl -> f !! fd = Some x -> lowest f n ->
  exists w, dup fd u = Ok n (set_u_world w u) /\ view_of w = mk_view (<[n := x]> f) k pl.
Proof. intros Hv Hx Hn. destruct (dup_law u f k pl fd x n Hv Hx Hn) as (w & R & Hw). exists w. split; [by apply usys_back | done]. Qed.
Lemma fork1_ok u f k pid pl : vw u = mk_view f k (pid :: pl) -> 0 <= pid ->
  exists w, fork1 u = Ok pid (set_u_world w u) /\ view_of w = mk_view f k pl.
Proof.
  intros Hv Hp. destruct (fork_law u f k pid pl Hv) as (w & R & Hw). exists w. split; [|done].
  unfold fork1, fork. mrun (usys_back _ _ _ _ _ R). by rewrite (proj2 (Z.eqb_neq pid (-1))) by lia.
Qed.
Lemma wait_ok u f k pl : vw u = mk_view f k pl ->
  exists r w, wait u = Ok r (set_u_world w u) /\ view_of w = mk_view f k pl.
Proof. intros Hv. destruct (wait_law u f k pl Hv) as (r & w & R & Hw). exists r, w. split; [by apply usys_back | done]. Qed.

(** A pipe at the free descriptors [n0] and [n1]. *)
Definition piped (f : gmap Z ofile) (k n0 n1 : Z) : gmap Z ofile := <[n1 := Wr k]> (<[n0 := Rd k]> f).
(** Descriptors 0 and 1 are open and there is room for a pipe. *)
Record ready (f : gmap Z ofile) (n0 n1 : Z) : Prop := {
  rd_0 : is_Some (f !! 0);
  rd_1 : is_Some (f !! 1);
  rd_n0 : lowest f n0;
  rd_n1 : forall x, lowest (<[n0 := x]> f) n1;
}.
Lemma ready_apart f n0 n1 : ready f n0 n1 -> n0 <> n1 /\ f !! n0 = None /\ f !! n1 = None /\ 1 < n0 < NOFILE /\ 1 < n1 < NOFILE.
Proof.
  intros [H0 H1 (? & Hn0 & _) Hn1]. destruct (Hn1 (Rd 0)) as (? & Hn1' & _).
  assert (n0 <> n1) as Hne by (intros ->; by rewrite lookup_insert_eq in Hn1'). rewrite lookup_insert_ne in Hn1' by done.
  unfold is_Some in *. assert (n0 <> 0 /\ n0 <> 1 /\ n1 <> 0 /\ n1 <> 1) by naive_solver. split_and!; try done; lia.
Qed.

(** [close(t); dup(fd); close(p[0]); close(p[1])] puts an end of the pipe at
    [t], the lowest descriptor that close frees, and leaves no other. *)
Lemma move_ok u f k k' pl n0 n1 t fd x (m : UM W unit) :
  vw u = mk_view (piped f k n0 n1) k' pl -> ready f n0 n1 -> (t = 0 \/ t = 1) ->
  (fd = n0 /\ x = Rd k) \/ (fd = n1 /\ x = Wr k) ->
  exists w, (close t ;;; dup fd ;;; close n0 ;;; close n1 ;;; m) u = m (set_u_world w u) /\
    view_of w = mk_view (<[t := x]> f) k' pl.
Proof.
  intros Hv Hr Ht Hfd. destruct (ready_apart f n0 n1 Hr) as (Hne & Hn0 & Hn1 & Hb0 & Hb1). destruct Hr as [H0 H1 _ _].
  assert (piped f k n0 n1 !! n0 = Some (Rd k)) as G0 by (unfold piped; by rewrite lookup_insert_ne, lookup_insert_eq).
  assert (piped f k n0 n1 !! n1 = Some (Wr k)) as G1 by (unfold piped; by rewrite lookup_insert_eq).
  assert (forall a, a = 0 \/ a = 1 -> piped f k n0 n1 !! a = f !! a) as G by (intros a Ha; unfold piped; by rewrite !lookup_insert_ne by lia).
  assert (is_Some (f !! t)) as [y Hy] by by destruct Ht as [-> | ->].
  destruct (close_ok u _ k' pl t y Hv) as (w1 & R1 & V1); [by rewrite G|]. mrun R1.
  destruct (dup_ok (set_u_world w1 u) _ k' pl fd x t V1) as (w2 & R2 & V2).
  { rewrite lookup_delete_ne by lia. by destruct Hfd as [[-> ->]|[-> ->]]. }
  { split_and!; [lia | unfold NOFILE; lia | apply lookup_delete_eq|]. intros a Ha. rewrite lookup_delete_ne, G by lia.
    by replace a with 0 by lia. }
  mrun R2. rewrite insert_delete_eq in V2.
  destruct (close_ok (set_u_world w2 (set_u_world w1 u)) _ k' pl n0 (Rd k) V2) as (w3 & R3 & V3); [by rewrite lookup_insert_ne by lia|].
  mrun R3. destruct (close_ok (set_u_world w3 (set_u_world w2 (set_u_world w1 u))) _ k' pl n1 (Wr k) V3) as (w4 & R4 & V4).
  { by rewrite lookup_delete_ne, lookup_insert_ne by lia. }
  mrun R4. exists w4. split; [done|]. rewrite V4. f_equal. unfold piped.
  apply map_eq. intros a. rewrite !lookup_delete, !lookup_insert. repeat case_decide; congruence || lia.
Qed.

(** The memory but the array of the pipe. *)
Definition besides (p : Z) u u' : Prop :=
  u_sz u' = u_sz u /\ forall b, ~ p <= b < p + 8 -> ldb (u_mem u') b = ldb (u_mem u) b.
#[export] Instance besides_preorder p : PreOrder (besides p).
Proof. split; [done|]. intros u1 u2 u3 [S1 M1] [S2 M2]. split; [congruence|]. intros b Hb. by rewrite M2, M1. Qed.

(** The start of a PIPE node: the pipe is made and its ends are read. *)
Lemma pipe_ok p u f k pl n0 n1 : vw u = mk_view f k pl -> reaches p 8 u = true -> ready f n0 n1 ->
  exists u', pipe p u = Ok 0 u' /\ lw p u' = Ok n0 u' /\ lw (p + 4) u' = Ok n1 u' /\
    vw u' = mk_view (piped f k n0 n1) (k + 1) pl /\ besides p u u'.
Proof.
  intros Hv Hp Hr. destruct (ready_apart f n0 n1 Hr) as (_ & _ & _ & Hb0 & Hb1). unfold NOFILE in *.
  destruct (pipe_law u f k pl p n0 n1 Hv Hp (rd_n0 _ _ _ Hr) (rd_n1 _ _ _ Hr _)) as (w & R & Hw).
  apply reaches_iff in Hp. eexists. split; [exact (usys_back _ _ _ _ _ R)|].
  rewrite !lw_ok by (apply reaches_iff; cbn; lia). cbn [u_mem set_u_mem set_u_world].
  rewrite ldw_stw_ne, !ldw_stw_same by (unfold is_u32; lia).
  split_and!; [done | done | done |]. split; [done|]. intros b Hb. cbn. by rewrite !ldb_stw_ne by lia.
Qed.

(** runcmd on a PIPE node up to the first fork. *)
Ltac pipe_start R1 R2 R3 :=
  cbn [runcmd]; rewrite bind_assoc; mrun R1; cbn [Z.ltb Z.compare]; rewrite bind_assoc, bind_ret_l, bind_assoc;
  mrun R2; rewrite bind_assoc; mrun R3; rewrite bind_assoc.

(** The three processes of a PIPE node. *)
Lemma run_left p l r u f k pl n0 n1 :
  vw u = mk_view f k (0 :: pl) -> reaches p 8 u = true -> ready f n0 n1 ->
  exists u', runcmd p (PIPE l r) u = runcmd p l u' /\ vw u' = mk_view (<[1 := Wr k]> f) (k + 1) pl /\ besides p u u'.
Proof.
  intros Hv Hp Hr. destruct (pipe_ok p u f k (0 :: pl) n0 n1 Hv Hp Hr) as (u1 & R1 & R2 & R3 & V1 & B1).
  destruct (fork1_ok u1 _ (k + 1) 0 pl V1) as (w2 & R4 & V2); [done|].
  destruct (move_ok (set_u_world w2 u1) f k (k + 1) pl n0 n1 1 n1 (Wr k) (runcmd p l) V2 Hr) as (w3 & R5 & V3); [by right..|].
  pipe_start R1 R2 R3. mrun R4. cbn [Z.eqb].
  exists (set_u_world w3 (set_u_world w2 u1)). split_and!; [| done | done]. by do 2 apply runcmd_into.
Qed.
Lemma run_right p l r u f k pid pl n0 n1 :
  vw u = mk_view f k (pid :: 0 :: pl) -> 0 < pid -> reaches p 8 u = true -> ready f n0 n1 ->
  exists u', runcmd p (PIPE l r) u = runcmd p r u' /\ vw u' = mk_view (<[0 := Rd k]> f) (k + 1) pl /\ besides p u u'.
Proof.
  intros Hv Hpid Hp Hr. destruct (pipe_ok p u f k (pid :: 0 :: pl) n0 n1 Hv Hp Hr) as (u1 & R1 & R2 & R3 & V1 & B1).
  destruct (fork1_ok u1 _ (k + 1) pid (0 :: pl) V1) as (w2 & R4 & V2); [lia|].
  destruct (fork1_ok (set_u_world w2 u1) _ (k + 1) 0 pl V2) as (w3 & R5 & V3); [done|].
  destruct (move_ok (set_u_world w3 (set_u_world w2 u1)) f k (k + 1) pl n0 n1 0 n0 (Rd k) (runcmd p r) V3 Hr) as (w4 & R6 & V4);
    [by left..|].
  pipe_start R1 R2 R3. mrun R4. rewrite (proj2 (Z.eqb_neq pid 0)) by lia.
  rewrite bind_assoc, bind_ret_l, bind_assoc. mrun R5. cbn [Z.eqb].
  exists (set_u_world w4 (set_u_world w3 (set_u_world w2 u1))). split_and!; [| done | done]. by do 2 apply runcmd_into.
Qed.
Lemma run_parent p l r u f k pid1 pid2 pl n0 n1 :
  vw u = mk_view f k (pid1 :: pid2 :: pl) -> 0 < pid1 -> 0 < pid2 -> reaches p 8 u = true -> ready f n0 n1 ->
  exists u', runcmd p (PIPE l r) u = Stuck (set_u_gone true u') /\ vw u' = mk_view f (k + 1) pl /\ besides p u u'.
Proof.
  intros Hv Hp1 Hp2 Hp Hr. destruct (pipe_ok p u f k (pid1 :: pid2 :: pl) n0 n1 Hv Hp Hr) as (u1 & R1 & R2 & R3 & V1 & B1).
  destruct (fork1_ok u1 _ (k + 1) pid1 (pid2 :: pl) V1) as (w2 & R4 & V2); [lia|]. set (u2 := set_u_world w2 u1) in *.
  destruct (fork1_ok u2 _ (k + 1) pid2 pl V2) as (w3 & R5 & V3); [lia|]. set (u3 := set_u_world w3 u2) in *.
  destruct (ready_apart f n0 n1 Hr) as (Hne & Hn0 & Hn1 & _). unfold piped in *.
  destruct (close_ok u3 _ (k + 1) pl n0 (Rd k) V3) as (w4 & R6 & V4); [by rewrite lookup_insert_ne, lookup_insert_eq by done|].
  set (u4 := set_u_world w4 u3) in *.
  destruct (close_ok u4 _ (k + 1) pl n1 (Wr k) V4) as (w5 & R7 & V5); [by rewrite lookup_delete_ne, lookup_insert_eq by done|].
  set (u5 := set_u_world w5 u4) in *.
  destruct (wait_ok u5 _ (k + 1) pl V5) as (r6 & w6 & R8 & V6). set (u6 := set_u_world w6 u5) in *.
  destruct (wait_ok u6 _ (k + 1) pl V6) as (r7 & w7 & R9 & V7).
  exists (set_u_world w7 u6). split_and!; [| | done].
  - pipe_start R1 R2 R3. mrun R4. rewrite (proj2 (Z.eqb_neq pid1 0)) by lia. rewrite bind_assoc, bind_ret_l, bind_assoc.
    mrun R5. rewrite (proj2 (Z.eqb_neq pid2 0)) by lia. rewrite bind_assoc, bind_ret_l, bind_assoc.
    mrun R6. rewrite bind_assoc. mrun R7. rewrite bind_assoc. mrun R8. rewrite bind_assoc. mrun R9. rewrite bind_ret_l. apply exits.
  - unfold vw. cbn. rewrite V7. f_equal. apply map_eq. intros a. rewrite !lookup_delete, !lookup_insert.
    repeat case_decide; congruence.
Qed.

(** ** Pipelines *)

(** [c0 | c1 | ... ] as the parser nests it. *)
Fixpoint pipeline (c : cmd) (cs : list cmd) : cmd :=
  match cs with [] => c | c' :: cs => PIPE c (pipeline c' cs) end.

Lemma ready_insert f n0 n1 t x : ready f n0 n1 -> t = 0 \/ t = 1 -> ready (<[t := x]> f) n0 n1.
Proof.
  intros Hr Ht. destruct (ready_apart f n0 n1 Hr) as (_ & _ & _ & Hb0 & Hb1). destruct Hr as [H0 H1 (L1 & L2 & L3) Hn].
  assert (forall (g : gmap Z ofile) a, is_Some (g !! a) -> is_Some (<[t := x]> g !! a)) as Hmono
    by (intros g a Ha; rewrite lookup_insert; case_decide; [done|]; exact Ha).
  split; [auto | auto | |].
  - split_and!; [lia | lia | by rewrite lookup_insert_ne by lia|]. intros m Hm. auto.
  - intros y. destruct (Hn y) as (N1 & N2 & N3). rewrite insert_insert_ne by lia.
    split_and!; [lia | lia | by rewrite lookup_insert_ne by lia|]. intros m Hm. auto.
Qed.

(** The descriptors of stage [i] of [n]: its input is the pipe before it, its
    output the pipe after it, and everything else is as the shell had it. *)
Definition stage_fds (f : gmap Z ofile) (k : Z) (i n : nat) : gmap Z ofile :=
  let f := if decide (i = 0%nat) then f else <[0 := Rd (k + Z.of_nat i - 1)]> f in
  if decide (S i = n) then f else <[1 := Wr (k + Z.of_nat i)]> f.
(** What the forks of the process of stage [i] of [n] return; [pids] are the
    processes that its ancestors left behind. *)
Definition stage_plan (pids : list Z) (n : nat) : list Z :=
  (pids ≫= fun pid => [pid; 0]) ++ (if decide (S (length pids) = n) then [] else [0]).

Lemma stage_ok p n0 n1 c cs i ci u f k pids pl :
  (c :: cs) !! i = Some ci -> length pids = i -> Forall (fun pid => 0 < pid) pids ->
  vw u = mk_view f k (stage_plan pids (S (length cs)) ++ pl) -> reaches p 8 u = true -> ready f n0 n1 ->
  exists u', runcmd p (pipeline c cs) u = runcmd p ci u' /\ besides p u u' /\
    v_fds (vw u') = stage_fds f k i (S (length cs)) /\ v_plan (vw u') = pl.
Proof.
  revert c cs u f k pids. induction i as [|i IH]; intros c cs u f k pids Hi Hlen Hpos Hv Hp Hr.
  - injection Hi as ->. destruct pids; [|done]. destruct cs as [|c' cs].
    + exists u. unfold stage_fds. rewrite Hv. split_and!; done.
    + destruct (run_left p ci (pipeline c' cs) u f k pl n0 n1 Hv Hp Hr) as (u1 & R1 & V1 & B1).
      exists u1. rewrite V1. split_and!; [done | done | | done]. unfold stage_fds. cbn. do 2 f_equal. lia.
  - destruct pids as [|pid pids]; [done|]. apply Forall_cons_1 in Hpos as [Hpid Hpos]. injection Hlen as Hlen.
    destruct cs as [|c' cs]; [done|]. cbn in Hi.
    assert (stage_plan (pid :: pids) (S (S (length cs))) = pid :: 0 :: stage_plan pids (S (length cs))) as E.
    { unfold stage_plan. cbn. repeat case_decide; lia || done. }
    cbn [length] in Hv. rewrite E in Hv. cbn [app] in Hv.
    destruct (run_right p c (pipeline c' cs) u f k pid _ n0 n1 Hv Hpid Hp Hr) as (u1 & R1 & V1 & B1).
    destruct (IH c' cs u1 (<[0 := Rd k]> f) (k + 1) pids Hi Hlen Hpos V1) as (u2 & R2 & B2 & F2 & P2).
    { apply reaches_iff. apply reaches_iff in Hp. destruct B1 as [-> _]. done. }
    { apply ready_insert; [done | by left]. }
    exists u2. split_and!; [by etransitivity | by transitivity u1 | | done]. rewrite F2. unfold stage_fds. cbn [length].
    replace (k + 1 + Z.of_nat i) with (k + Z.of_nat (S i)) by lia.
    repeat case_decide; try lia; rewrite ?insert_insert_eq; repeat f_equal; lia.
Qed.

(** C13. A pipeline is wired up as it should be: the process that runs stage [i] of
    [c0 | c1 | ... ] reads from the pipe that stage [i - 1] writes and writes
    to the one that stage [i + 1] reads; it has no other end of any pipe (an
    end left open would keep a reader from seeing the end of its input), and
    its memory is that of the shell but for the array of the pipes. *)
Theorem pipeline_stage p n0 n1 c cs ci u f k pids pl :
  (c :: cs) !! length pids = Some ci -> Forall (fun pid => 0 < pid) pids ->
  vw u = mk_view f k (stage_plan pids (S (length cs)) ++ pl) -> reaches p 8 u = true -> ready f n0 n1 ->
  exists u', runcmd p (pipeline c cs) u = runcmd p ci u' /\ besides p u u' /\
    v_fds (vw u') = stage_fds f k (length pids) (S (length cs)) /\ v_plan (vw u') = pl.
Proof. intros Hi. by apply stage_ok. Qed.

(** The process that made a pipe keeps neither end, waits for the two
    processes of the pipe and exits. *)
Theorem pipeline_parent p l r u f k pid1 pid2 pl n0 n1 :
  vw u = mk_view f k (pid1 :: pid2 :: pl) -> 0 < pid1 -> 0 < pid2 -> reaches p 8 u = true -> ready f n0 n1 ->
  exists u', runcmd p (PIPE l r) u = Stuck (set_u_gone true u') /\ vw u' = mk_view f (k + 1) pl.
Proof.
  intros Hv H1 H2 Hp Hr. destruct (run_parent p l r u f k pid1 pid2 pl n0 n1 Hv H1 H2 Hp Hr) as (u' & R & V & _). by exists u'.
Qed.

(** A redirection of standard input or output: the command runs with the file
    at that descriptor. *)
Theorem redir_spec p c file efile mode fd u f k pl x r u1 :
  vw u = mk_view f k pl -> f !! fd = Some x -> fd = 0 \/ (fd = 1 /\ is_Some (f !! 0)) ->
  (let* _ := close fd in open file mode) u = Ok r u1 -> 0 <= r ->
  exists y, runcmd p (REDIR c file efile mode fd) u = runcmd p c u1 /\ vw u1 = mk_view (<[fd := y]> f) k pl /\
    u_mem u1 = u_mem u /\ u_sz u1 = u_sz u.
Proof.
  intros Hv Hx Hfd Ho Hr. destruct (close_ok u f k pl fd x Hv Hx) as (w1 & R1 & V1). rewrite (bind_ok _ _ _ _ _ R1) in Ho.
  assert (lowest (delete fd f) fd) as Hlow.
  { split_and!; [lia | unfold NOFILE; lia | apply lookup_delete_eq|]. intros m Hm. rewrite lookup_delete_ne by lia.
    destruct Hfd as [->|[-> H0]]; [lia|]. by replace m with 0 by lia. }
  pose proof Ho as Hs. unfold open, usys in Hs.
  destruct (sys SYS_open [file; mode] (set_u_world w1 u)) as [r' u'|] eqn:E; [|done]. injection Hs as <- <-.
  destruct (open_law _ _ k pl file mode fd r' u' V1 Hlow E Hr) as (-> & w & y & -> & V2). rewrite insert_delete_eq in V2.
  exists y. split_and!; try done. cbn [runcmd]. rewrite bind_assoc. mrun R1. rewrite bind_assoc. mrun Ho.
  rewrite (proj2 (Z.ltb_ge fd 0)) by lia. rewrite bind_assoc, bind_ret_l. by apply runcmd_into.
Qed.
End run.

(** *** The properties at work *)

(** A kernel with nothing but descriptors; every open succeeds. *)
Fixpoint free_from (f : gmap Z ofile) (n : Z) (fuel : nat) : option Z :=
  match fuel with
  | O => None
  | S fuel => if decide (f !! n = None) then Some n else free_from f (n + 1) fuel
  end.
Definition free_fd (f : gmap Z ofile) : option Z := free_from f 0 (Z.to_nat NOFILE).
#[local] Instance fd_kernel : Kernel view := fun num args u =>
  let '(mk_view f k pl) := u_world u in
  match args, free_fd f with
  | [fd], Some n =>
      if num =? SYS_close then Back (if decide (is_Some (f !! fd)) then 0 else -1) (set_u_world (mk_view (delete fd f) k pl) u)
      else if num =? SYS_dup then
        match f !! fd with Some x => Back n (set_u_world (mk_view (<[n := x]> f) k pl) u) | None => Back (-1) u end
      else if num =? SYS_pipe then
        match free_fd (<[n := Rd k]> f) with
        | Some n1 => Back 0 (set_u_world (mk_view (<[n1 := Wr k]> (<[n := Rd k]> f)) (k + 1) pl)
                              (set_u_mem (stw (stw (u_mem u) fd n) (fd + 4) n1) u))
        | None => Back (-1) u
        end
      else Back (-1) u
  | [path; mode], Some n =>
      if num =? SYS_open then Back n (set_u_world (mk_view (<[n := Other path]> f) k pl) u) else Back (-1) u
  | [fd], None =>
      if num =? SYS_close then Back (if decide (is_Some (f !! fd)) then 0 else -1) (set_u_world (mk_view (delete fd f) k pl) u)
      else Back (-1) u
  | [], _ =>
      if num =? SYS_fork then
        match pl with pid :: pl => Back pid (set_u_world (mk_view f k pl) u) | [] => Back (-1) u end
      else if num =? SYS_exit then Gone u
      else Back (-1) u
  | _, _ => Back (-1) u
  end.
Lemma free_fd_lowest f n : lowest f n -> free_fd f = Some n.
Proof.
  intros (Hn & Hnone & Hlow). unfold free_fd. rewrite <-(Z2Nat.id NOFILE) in Hn by done.
  enough (forall fuel a, 0 <= a <= n -> n < a + Z.of_nat fuel -> free_from f a fuel = Some n) as Hgo by (apply Hgo; lia).
  induction fuel as [|fuel IH]; intros a Ha Hf; [lia|]. cbn. case_decide as D.
  - destruct (decide (a = n)) as [->|Hne]; [done|]. destruct (Hlow a ltac:(lia)) as [x Hx]. congruence.
  - apply IH; [|lia]. split; [lia|]. destruct (decide (a = n)) as [->|Hne]; [done | lia].
Qed.
#[local] Instance fd_fds : Fds view id.
Proof.
  split; unfold id, sys, fd_kernel.
  - intros u f k pl fd x -> Hx. eexists. destruct (free_fd f); cbn; rewrite decide_True by done; done.
  - intros u f k pl fd x n -> Hx Hn. rewrite (free_fd_lowest f n Hn). cbn. rewrite Hx. by eexists.
  - intros u f k pl p n0 n1 -> _ H0 H1. rewrite (free_fd_lowest f n0 H0). cbn. rewrite (free_fd_lowest _ n1 H1). by eexists.
  - intros u f k pid pl ->. by eexists.
  - intros u f k pl path mode n r u' -> Hn. rewrite (free_fd_lowest f n Hn). cbn. intros [= <- <-] _. split; [done|]. by eexists _, _.
  - intros u f k pl E. exists (-1), (mk_view f k pl). split; [|done]. rewrite E, <-E. by destruct u.
  - intros u. by destruct (u_world u).
Qed.
#[local] Instance sample_frame : Frame := 0.
#[local] Instance sample_statics : Statics := {| a_base := 16; a_freep := 8; heap_lo := 32 |}.

(** The descriptors that init opens, and a process with them. *)
Definition stdfds : gmap Z ofile := {[ 0 := Other 0; 1 := Other 0; 2 := Other 0 ]}.
Definition sample_proc (plan : list Z) : U view := mk_U ∅ 64 false (mk_view stdfds 7 plan).
Lemma stdfds_ready : ready stdfds 3 4.
Proof.
  split; [by eexists | by eexists | |].
  - split_and!; [done | done | done|]. intros m Hm.
    assert (m = 0 \/ m = 1 \/ m = 2) as [-> | [-> | ->]] by lia; by eexists.
  - intros x. split_and!; [done | done | by rewrite lookup_insert_ne|]. intros m Hm. rewrite lookup_insert.
    case_decide; [by eexists|]. assert (m = 0 \/ m = 1 \/ m = 2) as [-> | [-> | ->]] by lia; by eexists.
Qed.

(** The second of three commands. *)
Lemma pipeline_stage_witness : exists u',
  runcmd 0 (pipeline (EXEC [10] [11]) [EXEC [12] [13]; EXEC [14] [15]]) (sample_proc [5; 0; 0]) = runcmd 0 (EXEC [12] [13]) u' /\
  v_fds (u_world u') = {[ 0 := Rd 7; 1 := Wr 8; 2 := Other 0 ]}.
Proof.
  destruct (pipeline_stage id 0 3 4 (EXEC [10] [11]) [EXEC [12] [13]; EXEC [14] [15]] (EXEC [12] [13])
    (sample_proc [5; 0; 0]) stdfds 7 [5] []) as (u' & R & _ & Hf & _).
  - reflexivity.
  - repeat constructor.
  - reflexivity.
  - reflexivity.
  - apply stdfds_ready.
  - exists u'. split; [exact R|]. etransitivity; [exact Hf|]. vm_compute. reflexivity.
Defined.
Lemma pipeline_parent_witness : exists u',
  runcmd 0 (PIPE (EXEC [10] [11]) (EXEC [12] [13])) (sample_proc [5; 6]) = Stuck (set_u_gone true u') /\
  u_world u' = mk_view stdfds 8 [].
Proof.
  apply (pipeline_parent id 0 (EXEC [10] [11]) (EXEC [12] [13]) (sample_proc [5; 6]) stdfds 7 5 6 [] 3 4);
    [reflexivity | lia | lia | reflexivity | apply stdfds_ready].
Defined.
Lemma redir_spec_witness : exists y u1,
  runcmd 0 (REDIR (EXEC [10] [11]) 12 13 0 0) (sample_proc []) = runcmd 0 (EXEC [10] [11]) u1 /\
  u_world u1 = mk_view (<[0 := y]> stdfds) 7 [].
Proof.
  edestruct (redir_spec id 0 (EXEC [10] [11]) 12 13 0 0 (sample_proc []) stdfds 7 [] (Other 0) 0) as (y & R & V & _).
  - reflexivity.
  - reflexivity.
  - by left.
  - reflexivity.
  - lia.
  - eexists y, _. split; [exact R | exact V].
Defined.
