(* ===== verification/Filters.v ===== *)
(** * Filters: cat.c, wc.c and echo.c

    The programs that copy and count their input, and the one that prints its
    arguments.  They are shown to do so for every kernel with the laws of
    [Stdio], however the input is cut up by the reads. *)

From Stdlib Require Import ZArith Lia.
From stdpp Require Import base gmap list strings numbers.
From S2P Require Import Prelude Strings Numeral User Ulib Sh.

Open Scope Z_scope.

Section filters.
Context {W : Type} `{K : Kernel W} `{Fr : Frame}.
(** The static buffer of the program, of 512 bytes. *)
Context (buf : Z).

(** ** cat.c *)

Definition cat_turn (fd : Z) (_ : unit) : UM W (unit + unit) :=
  let* n := read fd buf 512 in
  if 0 <? n then
    let* r := write 1 buf n in
    (when negb (r =? n) do (printf 1 (bytes "cat: write error" ++ [10]) [] ;;; exit)) ;;;
    ret (inl tt)
  else
    (when n <? 0 do (printf 1 (bytes "cat: read error" ++ [10]) [] ;;; exit)) ;;;
    ret (inr tt).
Definition cat (fuel : nat) (fd : Z) : UM W unit := loop fuel (cat_turn fd) tt.

Definition cat_main (fuel : nat) (argv : list Z) : UM W unit :=
  match argv with
  | [] | [_] => cat fuel 0 ;;; exit
  | _ :: files =>
      for_each files (fun arg =>
        let* fd := open arg 0 in
        (when fd <? 0 do (printf 1 (bytes "cat: cannot open %s" ++ [10]) [Wd arg] ;;; exit)) ;;;
        cat fuel fd ;;;
        close fd ;;;
        ret tt) ;;;
      exit
  end.

(** ** wc.c *)

Record counts := mk_counts { n_lines : Z; n_words : Z; n_chars : Z; inword : bool }.
(** The string that wc gives to strchr. *)
Definition blanks : list Z := [32; 13; 9; 10; 11].
Definition wc_char (s : counts) (c : Z) : counts :=
  let l := if c =? 10 then i32 (n_lines s + 1) else n_lines s in
  let c' := i32 (n_chars s + 1) in
  if strchr_in blanks c then mk_counts l (n_words s) c' false
  else if negb (inword s) then mk_counts l (i32 (n_words s + 1)) c' true
  else mk_counts l (n_words s) c' true.
Fixpoint wc_buf (a : Z) (n : nat) (s : counts) : UM W counts :=
  match n with
  | O => ret s
  | S n => let* c := lb a in wc_buf (a + 1) n (wc_char s c)
  end.
Definition wc_turn (fd : Z) (s : counts) : UM W (counts + counts) :=
  let* n := read fd buf 512 in
  if 0 <? n then let* s := wc_buf buf (Z.to_nat n) s in ret (inl s)
  else
    (when n <? 0 do (printf 1 (bytes "wc: read error" ++ [10]) [] ;;; exit)) ;;;
    ret (inr s).
Definition wc (fuel : nat) (fd : Z) (name : warg) : UM W unit :=
  let* s := loop fuel (wc_turn fd) (mk_counts 0 0 0 false) in
  printf 1 (bytes "%d %d %d %s" ++ [10]) [Wd (n_lines s); Wd (n_words s); Wd (n_chars s); name].

Definition wc_main (fuel : nat) (argv : list Z) : UM W unit :=
  match argv with
  | [] | [_] => wc fuel 0 (Lit []) ;;; exit
  | _ :: files =>
      for_each files (fun arg =>
        let* fd := open arg 0 in
        (when fd <? 0 do (printf 1 (bytes "wc: cannot open %s" ++ [10]) [Wd arg] ;;; exit)) ;;;
        wc fuel fd (Wd arg) ;;;
        close fd ;;;
        ret tt) ;;;
      exit
  end.

(** ** echo.c *)

Fixpoint echo_args (args : list Z) : UM W unit :=
  match args with
  | [] => ret tt
  | [a] => printf 1 (bytes "%s%s") [Wd a; Lit [10]]
  | a :: args => printf 1 (bytes "%s%s") [Wd a; Lit [32]] ;;; echo_args args
  end.
Definition echo_main (argv : list Z) : UM W unit := echo_args (drop 1 argv) ;;; exit.
End filters.

(** ** What the programs are for *)

(** The words of a text, between blanks, and its lines. *)
Definition blank (c : Z) : Prop := c ∈ blanks.
Fixpoint text_words (l : list Z) : list (list Z) :=
  match l with
  | [] => []
  | c :: l' =>
      if decide (blank c) then text_words l'
      else
        match l' with
        | d :: _ =>
            if decide (blank d) then [c] :: text_words l'
            else match text_words l' with w :: ws => (c :: w) :: ws | [] => [[c]] end
        | [] => [[c]]
        end
  end.
Definition text_lines (l : list Z) : Z := Z.of_nat (length (filter (eq 10) l)).

Lemma blank_in c : strchr_in blanks c = bool_decide (blank c).
Proof.
  apply eq_true_iff_eq. rewrite bool_decide_eq_true. unfold strchr_in. rewrite existsb_exists. unfold blank.
  setoid_rewrite <-list_elem_of_In. setoid_rewrite Z.eqb_eq. naive_solver.
Qed.

(** The words are the non-blank characters, none of them is empty, and two
    words have a blank between them. *)
Definition in_text (l : list Z) : Prop := match l with c :: _ => ~ blank c | [] => False end.
#[local] Instance in_text_dec l : Decision (in_text l).
Proof. destruct l; cbn; apply _. Defined.

Lemma text_words_cons c l : ~ blank c ->
  length (text_words (c :: l)) = if decide (in_text l) then length (text_words l) else S (length (text_words l)).
Proof.
  intros Hc. cbn [text_words]. rewrite decide_False by done. destruct l as [|d l]; [done|]. cbn [in_text].
  destruct (decide (blank d)) as [Hd|Hd]; [by rewrite decide_False by auto|].
  rewrite decide_True by done. destruct (text_words (d :: l)) as [|w ws] eqn:E; [|done]. exfalso. revert E. cbn [text_words].
  rewrite decide_False by done. destruct l as [|e l]; [done|]. case_decide; [done|]. by destruct (text_words (e :: l)).
Qed.
Lemma text_words_concat l : concat (text_words l) = filter (fun c => ~ blank c) l /\ Forall (fun w => w <> []) (text_words l).
Proof.
  induction l as [|c l [IH1 IH2]]; [done|]. cbn [text_words]. destruct (decide (blank c)) as [Hc|Hc].
  - by rewrite filter_cons_False by auto.
  - rewrite filter_cons_True by done. rewrite <-IH1. destruct l as [|d l]; [split; [done | by repeat constructor]|].
    destruct (decide (blank d)); [split; [done | by constructor]|].
    destruct (text_words (d :: l)) as [|w ws]; [split; [done | by repeat constructor]|].
    split; [done|]. constructor; [done|]. by apply Forall_cons_1 in IH2 as [_ ?].
Qed.

(** What the scan adds up to. *)
Record counted (s : counts) (m : Z) : Prop := {
  co_lines : 0 <= n_lines s <= m;
  co_words : 0 <= n_words s <= m;
  co_chars : n_chars s = m;
}.
Lemma wc_char_ok s m c : counted s m -> 0 <= m < 2 ^ 31 - 1 ->
  counted (wc_char s c) (m + 1) /\ n_lines (wc_char s c) = n_lines s + (if decide (10 = c) then 1 else 0) /\
  inword (wc_char s c) = bool_decide (~ blank c) /\
  n_words (wc_char s c) = n_words s + (if decide (blank c) then 0 else if inword s then 0 else 1).
Proof.
  intros [Hl Hw Hc] Hm. unfold wc_char. rewrite blank_in, !i32_small by (unfold is_i32; lia).
  assert ((c =? 10) = bool_decide (10 = c)) as -> by (case_bool_decide; lia).
  destruct (decide (blank c)) as [Hb|Hb]; [rewrite bool_decide_eq_true_2 by done | rewrite bool_decide_eq_false_2 by done];
    (destruct (decide (10 = c)) as [He|He]; [rewrite bool_decide_eq_true_2 by done | rewrite bool_decide_eq_false_2 by done]);
    destruct (inword s) eqn:Ei; cbn [negb n_lines n_words n_chars inword];
    (split_and!; [split; cbn [n_lines n_words n_chars]; lia | lia | | lia]);
    symmetry; rewrite ?bool_decide_eq_true, ?bool_decide_eq_false; tauto.
Qed.
Lemma wc_fold l s m : counted s m -> m + Z.of_nat (length l) < 2 ^ 31 - 1 -> 0 <= m ->
  counted (foldl wc_char s l) (m + Z.of_nat (length l)) /\
  n_lines (foldl wc_char s l) = n_lines s + text_lines l /\
  n_words (foldl wc_char s l) + (if inword s then if decide (in_text l) then 1 else 0 else 0) =
    n_words s + Z.of_nat (length (text_words l)).
Proof.
  revert s m. induction l as [|c l IH]; intros s m Hs Hm H0.
  - cbn [length foldl text_words]. rewrite Z.add_0_r, decide_False by (intros []).
    split_and!; [done | unfold text_lines; cbn; lia | destruct (inword s); lia].
  - cbn [length] in *. destruct (wc_char_ok s m c Hs ltac:(lia)) as (Hs' & El & Ei & Ew).
    destruct (IH (wc_char s c) (m + 1) Hs' ltac:(lia) ltac:(lia)) as (Hc & Hl & Hw). cbn [foldl].
    split_and!.
    + by replace (m + Z.of_nat (S (length l))) with (m + 1 + Z.of_nat (length l)) by lia.
    + rewrite Hl, El. unfold text_lines. destruct (decide (10 = c)) as [<-|Hne].
      * rewrite filter_cons_True by done. cbn [length]. lia.
      * rewrite filter_cons_False by done. lia.
    + rewrite Ei, Ew in Hw. cbn [in_text]. destruct (decide (blank c)) as [Hb|Hb].
      * rewrite bool_decide_eq_false_2 in Hw by auto. cbn [text_words]. rewrite (decide_True (P := blank c)) by done.
        destruct (decide (~ blank c)); [done|]. destruct (inword s); lia.
      * rewrite text_words_cons by done. rewrite bool_decide_eq_true_2 in Hw by done.
        destruct (decide (~ blank c)); [|done]. destruct (inword s), (decide (in_text l)); lia.
Qed.

(** ** The programs do it *)

Section spec.
Context {W : Type} `{K : Kernel W} `{Fr : Frame} {fi : Z} {io : W -> list Z -> list Z -> Prop} `{S : !Stdio W fi 1 io}.
Context (buf : Z) (Hbuf : 0 <= buf).
Implicit Types u : U W.

(** The memory outside of the buffer and of the slot of putc. *)
Definition outside u u' : Prop :=
  u_sz u' = u_sz u /\ forall a, ~ buf <= a < buf + 512 -> a <> slot -> ldb (u_mem u') a = ldb (u_mem u) a.
#[export] Instance outside_preorder : PreOrder outside.
Proof. split; [done|]. intros u1 u2 u3 [S1 M1] [S2 M2]. split; [congruence|]. intros a Ha Hs. by rewrite M2, M1. Qed.

Lemma read_ok u l o : io (u_world u) l o -> buf + 512 <= u_sz u -> Forall is_u8 l ->
  exists r u', read fi buf 512 u = Ok r u' /\ 0 <= r <= 512 /\ r <= Z.of_nat (length l) /\ (r = 0 -> l = []) /\
    io (u_world u') (drop (Z.to_nat r) l) o /\ ldbs (u_mem u') buf (Z.to_nat r) = take (Z.to_nat r) l /\ outside u u'.
Proof.
  intros Hi Hsz Hl. destruct (read_law u buf 512 l o Hi) as (r & w & R & Hr & Hrl & H0 & Hi'); [lia | apply reaches_iff; lia|].
  assert (length (take (Z.to_nat r) l) = Z.to_nat r) as Hlen by (rewrite length_take; lia).
  exists r. eexists. split; [exact (usys_back _ _ _ _ _ R)|]. split_and!; try done; try lia; cbn.
  - etransitivity; [|apply (ldbs_stbs_same (u_mem u) buf (take (Z.to_nat r) l)); by apply Forall_take]. by rewrite Hlen.
  - split; [done|]. intros a Ha _. cbn. apply ldb_stbs_ne. lia.
Qed.

(** *** cat *)

Lemma cat_loop fuel u l o : io (u_world u) l o -> buf + 512 <= u_sz u -> Forall is_u8 l -> (length l < fuel)%nat ->
  exists u', cat buf fuel fi u = Ok tt u' /\ io (u_world u') [] (o ++ l) /\ outside u u'.
Proof.
  revert u l o. unfold cat. induction fuel as [|fuel IH]; intros u l o Hi Hsz Hl Hf; [lia|].
  destruct (read_ok u l o Hi Hsz Hl) as (r & u1 & R1 & Hr & Hrl & H0 & Hi1 & Hb & F1).
  destruct (decide (r = 0)) as [->|Hne].
  - rewrite (H0 eq_refl) in *. exists u1. split_and!; [| by rewrite app_nil_r | done]. apply loop_last. unfold cat_turn. by mrun R1.
  - destruct (write_law u1 buf r (drop (Z.to_nat r) l) o Hi1) as (w & R2 & Hi2); [lia | apply reaches_iff; destruct F1 as [-> _]; lia|].
    rewrite Hb in Hi2. destruct (IH (set_u_world w u1) (drop (Z.to_nat r) l) (o ++ take (Z.to_nat r) l)) as (u3 & R3 & Hi3 & F3).
    + done.
    + cbn. destruct F1 as [-> _]. done.
    + by apply Forall_drop.
    + rewrite length_drop. lia.
    + exists u3. rewrite <-app_assoc, take_drop in Hi3. split_and!; [| done | by transitivity u1].
      rewrite (loop_next _ _ _ _ tt (set_u_world w u1)); [done|]. unfold cat_turn, write. mrun R1.
      rewrite (proj2 (Z.ltb_lt 0 r)) by lia. mrun (usys_back _ _ _ _ _ R2). by rewrite Z.eqb_refl.
Qed.

(** *** wc *)

Lemma wc_buf_ok a n u s : 0 <= a -> a + Z.of_nat n <= u_sz u ->
  wc_buf a n s u = Ok (foldl wc_char s (ldbs (u_mem u) a n)) u.
Proof.
  revert a s. induction n as [|n IH]; intros a s Ha Hn; [done|]. cbn [wc_buf].
  mrun (lb_ok a u ltac:(apply reaches_iff; lia)). rewrite IH by lia. rewrite (ldbs_app _ a 1 n). by rewrite foldl_app.
Qed.
Lemma wc_loop fuel u l o s : io (u_world u) l o -> buf + 512 <= u_sz u -> Forall is_u8 l -> (length l < fuel)%nat ->
  exists u', loop fuel (wc_turn buf fi) s u = Ok (foldl wc_char s l) u' /\ io (u_world u') [] o /\ outside u u'.
Proof.
  revert u l s. induction fuel as [|fuel IH]; intros u l s Hi Hsz Hl Hf; [lia|].
  destruct (read_ok u l o Hi Hsz Hl) as (r & u1 & R1 & Hr & Hrl & H0 & Hi1 & Hb & F1).
  destruct (decide (r = 0)) as [->|Hne].
  - rewrite (H0 eq_refl) in *. exists u1. split_and!; [| done | done]. apply loop_last. unfold wc_turn. by mrun R1.
  - destruct (IH u1 (drop (Z.to_nat r) l) (foldl wc_char s (take (Z.to_nat r) l))) as (u3 & R3 & Hi3 & F3).
    + done.
    + destruct F1 as [-> _]. done.
    + by apply Forall_drop.
    + rewrite length_drop. lia.
    + rewrite <-foldl_app, take_drop in R3. exists u3. split_and!; [| done | by transitivity u1].
      rewrite (loop_next _ _ _ _ (foldl wc_char s (take (Z.to_nat r) l)) u1); [done|]. unfold wc_turn. mrun R1.
      rewrite (proj2 (Z.ltb_lt 0 r)) by lia.
      erewrite bind_ok by (apply wc_buf_ok; [done | destruct F1 as [-> _]; lia]). by rewrite Hb.
Qed.

Definition dec (z : Z) : list Z := rev (printint_buf z 10 true).

Context (Hslot : 0 <= slot).

Lemma wc_ok fuel u l o a name :
  io (u_world u) l o -> buf + 512 <= u_sz u -> slot < u_sz u -> Forall is_u8 l ->
  Z.of_nat (length l) < 2 ^ 31 - 1 -> (length l < fuel)%nat ->
  a <> 0 -> str_at u a name -> (a + Z.of_nat (length name) < buf \/ buf + 512 <= a) ->
  ~ (a <= slot <= a + Z.of_nat (length name)) ->
  exists u', wc buf fuel fi (Wd a) u = Ok tt u' /\
    io (u_world u') [] (o ++ dec (text_lines l) ++ [32] ++ dec (Z.of_nat (length (text_words l))) ++ [32] ++
      dec (Z.of_nat (length l)) ++ [32] ++ name ++ [10]).
Proof.
  intros Hi Hsz Hsl Hl Hmax Hf Ha Hname Hapart Hno.
  destruct (wc_loop fuel u l o (mk_counts 0 0 0 false) Hi Hsz Hl Hf) as (u1 & R1 & Hi1 & [Z1 M1]).
  destruct (wc_fold l (mk_counts 0 0 0 false) 0) as ([Cl Cw Cc] & El & Ew); [split; cbn; lia | lia | lia |].
  unfold wc. mrun R1. set (s := foldl wc_char _ l) in *. cbn [n_lines n_words inword] in El, Ew.
  assert (str_at u1 a name) as Hname1.
  { apply (str_at_frame u); [done | lia|]. intros b Hb. apply M1; [lia|]. intros ->. apply Hno. lia. }
  destruct (printf_ok Hslot [PDec (n_lines s); PChr 32; PDec (n_words s); PChr 32; PDec (n_chars s); PChr 32; PStr a name; PChr 10]
    u1 [] o) as (u2 & R2 & _ & Hi2).
  - lia.
  - repeat apply Forall_cons_2; [done | done | done | done | done | done | exact (conj Ha (conj Hname1 Hno)) | done | constructor].
  - done.
  - exists u2. split; [exact R2|]. revert Hi2. cbn [mbind list_bind piece_out]. rewrite app_nil_r. unfold dec.
    rewrite !i32_small by (unfold is_i32; lia). replace (n_words s) with (Z.of_nat (length (text_words l))) by lia. rewrite El, Cc. done.
Qed.

(** *** echo *)

Fixpoint joined (ss : list (list Z)) : list Z :=
  match ss with
  | [] => []
  | [s] => s ++ [10]
  | s :: ss => s ++ [32] ++ joined ss
  end.
Lemma echo_args_ok args u l o : Forall (fun x => piece_ok u (PStr x.1 x.2)) args -> slot < u_sz u -> io (u_world u) l o ->
  prints (io := io) (echo_args args.*1) tt u l o (joined args.*2).
Proof.
  revert u o. induction args as [|[a s] args IH]; intros u o Hok Hsl Hi; [by apply prints_ret|].
  apply Forall_cons_1 in Hok as [Ha Hok].
  assert (forall t, Forall is_u8 t -> prints (io := io) (printf 1 (bytes "%s%s") [Wd a; Lit t]) tt u l o (s ++ t)) as Hp.
  { intros t Ht. replace (s ++ t) with ([PStr a s; PLit t] ≫= piece_out) by (cbn; by rewrite app_nil_r).
    apply (printf_ok Hslot [PStr a s; PLit t]); [done | apply Forall_cons_2; [done | by repeat constructor] | done]. }
  destruct args as [|x args]; [apply Hp; by repeat constructor|].
  change (joined ((a, s) :: x :: args).*2) with (s ++ [32] ++ joined (x :: args).*2). rewrite app_assoc.
  change (echo_args ((a, s) :: x :: args).*1) with (printf 1 (bytes "%s%s") [Wd a; Lit [32]] ;;; echo_args (x :: args).*1).
  eapply (prints_bind _ _ tt tt); [apply Hp; by repeat constructor|]. intros u1 S1 Hi1. apply IH; [| by destruct S1 as [-> _] | done].
  eapply list.Forall_impl; [exact Hok|]. intros y. by apply piece_ok_scratch.
Qed.
End spec.

Section properties.
Context {W : Type} `{K : Kernel W} `{Fr : Frame} {fi : Z} {io : W -> list Z -> list Z -> Prop} `{S : !Stdio W fi 1 io}.
Implicit Types u : U W.

(** cat copies: whatever the sizes of the reads, the output becomes what it
    was followed by the whole input, and cat returns. *)
Theorem cat_spec buf fuel u l o :
  0 <= buf -> buf + 512 <= u_sz u -> io (u_world u) l o -> Forall is_u8 l -> (length l < fuel)%nat ->
  exists u', cat buf fuel fi u = Ok tt u' /\ io (u_world u') [] (o ++ l).
Proof.
  intros Hb Hsz Hi Hl Hf. destruct (cat_loop buf Hb fuel u l o Hi Hsz Hl Hf) as (u' & R & Hi' & _). by exists u'.
Qed.

(** C34. wc counts: it prints the numbers of newlines, of words and of characters
    of its input, whatever the sizes of the reads (a word may be cut by the
    end of the buffer), and the name. *)
Theorem wc_spec buf fuel u l o a name :
  0 <= buf -> buf + 512 <= u_sz u -> 0 <= slot < u_sz u -> io (u_world u) l o -> Forall is_u8 l ->
  Z.of_nat (length l) < 2 ^ 31 - 1 -> (length l < fuel)%nat ->
  a <> 0 -> str_at u a name -> (a + Z.of_nat (length name) < buf \/ buf + 512 <= a) ->
  ~ (a <= slot <= a + Z.of_nat (length name)) ->
  exists u', wc buf fuel fi (Wd a) u = Ok tt u' /\
    io (u_world u') [] (o ++ dec (text_lines l) ++ [32] ++ dec (Z.of_nat (length (text_words l))) ++ [32] ++
      dec (Z.of_nat (length l)) ++ [32] ++ name ++ [10]).
Proof. intros Hb Hsz [H1 H2] Hi. intros. by apply wc_ok. Qed.

(** echo prints its arguments with blanks between them and a newline at the
    end (nothing at all when there are none), and exits. *)
Theorem echo_spec prog args u l o :
  Forall (fun x => piece_ok u (PStr x.1 x.2)) args -> 0 <= slot < u_sz u -> io (u_world u) l o ->
  exists u', echo_main (prog :: args.*1) u = Stuck (set_u_gone true u') /\ io (u_world u') l (o ++ joined args.*2).
Proof.
  intros Hok [H1 H2] Hi. destruct (echo_args_ok H1 args u l o Hok H2 Hi) as (u1 & R1 & _ & Hi1).
  destruct (exit_law u1 _ _ Hi1) as (w & R2 & Hi2). exists (set_u_world w u1). split; [|done].
  unfold echo_main. cbn [drop]. mrun R1. unfold exit, bind, usys. by rewrite R2.
Qed.
End properties.

(** *** The properties at work *)

#[local] Instance sample_frame : Frame := 8.
(** The name at 16, the buffer at 100, reads of at most 5 bytes. *)
Definition sample_filter (name input : list Z) : U tape :=
  mk_U (stbs ∅ 16 (name ++ [0])) 700 false (mk_tape input [] 5 0).

Lemma cat_spec_witness :
  exists u', cat 100 20 0 (sample_filter [] (bytes "some text")) = Ok tt u' /\ t_out (u_world u') = bytes "some text".
Proof.
  destruct (cat_spec (io := tape_io) (fi := 0) 100 20 (sample_filter [] (bytes "some text")) (bytes "some text") [])
    as (u' & R & I).
  - lia.
  - cbn; unfold slot, sample_frame; lia.
  - split_and!; [done | done | cbn; lia].
  - vm_compute. repeat constructor; congruence.
  - cbn; unfold slot, sample_frame; lia.
  - exists u'. split; [exact R | apply I].
Defined.

(** A word that two reads share is counted once. *)
Lemma wc_spec_witness :
  exists u', wc 100 20 0 (Wd 16) (sample_filter (bytes "f") (bytes "one two three" ++ [10])) = Ok tt u' /\
    t_out (u_world u') = bytes "1 3 14 f" ++ [10].
Proof.
  destruct (wc_spec (io := tape_io) (fi := 0) 100 20 (sample_filter (bytes "f") (bytes "one two three" ++ [10]))
    (bytes "one two three" ++ [10]) [] 16 (bytes "f")) as (u' & R & I).
  - lia.
  - cbn; unfold slot, sample_frame; lia.
  - cbn; unfold slot, sample_frame; lia.
  - split_and!; [done | done | cbn; lia].
  - vm_compute. repeat constructor; congruence.
  - cbn; unfold slot, sample_frame; lia.
  - cbn; unfold slot, sample_frame; lia.
  - done.
  - apply (str_at_stbs (mk_U ∅ 700 false (mk_tape (bytes "one two three" ++ [10]) [] 5 0)) 16 (bytes "f"));
      [lia | cbn; lia | repeat constructor].
  - cbn; unfold slot, sample_frame; lia.
  - cbn; unfold slot, sample_frame; lia.
  - exists u'. split; [exact R|]. etransitivity; [apply I|]. vm_compute. reflexivity.
Defined.

Lemma echo_spec_witness :
  exists u', echo_main [4; 16; 16] (sample_filter (bytes "hi") []) = Stuck (set_u_gone true u') /\
    t_out (u_world u') = bytes "hi hi" ++ [10].
Proof.
  destruct (echo_spec (io := tape_io) (fi := 0) 4 [(16, bytes "hi"); (16, bytes "hi")] (sample_filter (bytes "hi") []) [] [])
    as (u' & R & I).
  - assert (piece_ok (sample_filter (bytes "hi") []) (PStr 16 (bytes "hi"))) as Hp.
    { split_and!; [done | | unfold slot, sample_frame; cbn; lia].
      apply (str_at_stbs (mk_U ∅ 700 false (mk_tape [] [] 5 0)) 16 (bytes "hi")); [lia | cbn; lia | repeat constructor]. }
    by repeat apply Forall_cons_2.
  - cbn; unfold slot, sample_frame; lia.
  - split_and!; [done | done | cbn; lia].
  - exists u'. split; [exact R|]. etransitivity; [apply I|]. reflexivity.
Defined.
