(* ===== verification/Programs.v ===== *)
(** * The other programs: ls.c, init.c, mkdir.c, rm.c, ln.c, kill.c, zombie.c,
    stressfs.c, forktest.c and the programs for the added system calls

    The arguments of a program are the addresses of the strings in its argv;
    strings and arrays that a program hands to the kernel are parameters with
    their addresses. *)

From Stdlib Require Import ZArith Lia.
From stdpp Require Import base gmap list strings numbers.
From S2P Require Import Prelude Strings Numeral User Ulib.

Open Scope Z_scope.

Section programs.
Context {W : Type} `{K : Kernel W} `{Fr : Frame}.

(** ** ls.c *)

Definition DIRSIZ : Z := 14.
(** The sixteen bits at [a]. *)
Definition lh (a : Z) : UM W Z :=
  let* lo := lb a in
  let* hi := lb (a + 1) in
  ret (lo + 256 * hi).

(** [name] is the static buffer of fmtname. *)
Definition after_slash (path : Z) : UM W Z :=
  let* n := strlen path in
  let* p := walk (fun p =>
    if path <=? p then
      let* c := lb p in
      if negb (c =? 47) then ret (inl (p - 1)) else ret (inr p)
    else ret (inr p)) (path + n) in
  ret (p + 1).
Definition fmtname (name path : Z) : UM W Z :=
  let* p := after_slash path in
  let* n := strlen p in
  if DIRSIZ <=? n then ret p
  else
    memmove name p n ;;;
    memset (name + n) 32 (DIRSIZ - n) ;;;
    ret name.

(** The line for a file; [st] is the address of its struct stat. *)
Definition ls_line (name path st : Z) : UM W unit :=
  let* f := fmtname name path in
  let* type := lh st in
  let* ino := lw (st + 8) in
  let* size := lw (st + 16) in
  printf 1 (bytes "%s %d %d %d" ++ [10]) [Wd f; Wd (i16 type); Wd ino; Wd size].
(** A turn of the loop over the directory [fd]. *)
Definition ls_entry (name buf de st fd p : Z) (_ : unit) : UM W (unit + unit) :=
  let* n := read fd de 16 in
  if n =? 16 then
    let* inum := lh de in
    if inum =? 0 then ret (inl tt)
    else
      memmove p (de + 2) DIRSIZ ;;;
      sb (p + DIRSIZ) 0 ;;;
      let* r := stat buf st in
      if r <? 0 then printf 1 (bytes "ls: cannot stat %s" ++ [10]) [Wd buf] ;;; ret (inl tt)
      else ls_line name buf st ;;; ret (inl tt)
  else ret (inr tt).
Definition ls (fuel : nat) (name buf de st path : Z) : UM W unit :=
  let* fd := open path 0 in
  if fd <? 0 then printf 2 (bytes "ls: cannot open %s" ++ [10]) [Wd path]
  else
    let* r := fstat fd st in
    if r <? 0 then
      printf 2 (bytes "ls: cannot stat %s" ++ [10]) [Wd path] ;;;
      close fd ;;;
      ret tt
    else
      let* type := lh st in
      (if i16 type =? 2 then ls_line name path st
       else if i16 type =? 1 then
         let* n := strlen path in
         if 512 <? u32 (n + 1 + DIRSIZ + 1) then printf 1 (bytes "ls: path too long" ++ [10]) []
         else
           strcpy buf path ;;;
           let* n := strlen buf in
           let p := buf + n in
           sb p 47 ;;;
           loop fuel (ls_entry name buf de st fd (p + 1)) tt
       else ret tt) ;;;
      close fd ;;;
      ret tt.
(** [a_dot] is the address of the string for the current directory. *)
Definition ls_main (fuel : nat) (name buf de st a_dot : Z) (argv : list Z) : UM W unit :=
  match argv with
  | [] | [_] => ls fuel name buf de st a_dot ;;; exit
  | _ :: paths => for_each paths (ls fuel name buf de st) ;;; exit
  end.

(** ** init.c *)

(** Waiting for the shell: zombies that are not it are reported. *)
Definition init_wait (pid : Z) (_ : unit) : UM W (unit + unit) :=
  let* wpid := wait in
  if (0 <=? wpid) && negb (wpid =? pid) then printf 1 (bytes "zombie!" ++ [10]) [] ;;; ret (inl tt)
  else ret (inr tt).
Definition init_turn (fuel : nat) (a_sh argv : Z) (_ : unit) : UM W (unit + unit) :=
  printf 1 (bytes "init: starting sh" ++ [10]) [] ;;;
  printf 1 (bytes "#Group12:" ++ [10] ++ bytes "Melika Heidari" ++ [10] ++ bytes "Fatemeh Zare" ++ [10] ++
    bytes "Ava Kazeminejad") [] ;;;
  let* pid := fork in
  if pid <? 0 then printf 1 (bytes "init: fork failed" ++ [10]) [] ;;; exit
  else if pid =? 0 then
    exec a_sh argv ;;;
    printf 1 (bytes "init: exec sh failed" ++ [10]) [] ;;;
    exit
  else
    loop fuel (init_wait pid) tt ;;;
    ret (inl tt).
Definition init_main (fuel : nat) (a_console a_sh argv : Z) : UM W unit :=
  let* fd := open a_console O_RDWR in
  (when fd <? 0 do
    (mknod a_console 1 1 ;;;
     open a_console O_RDWR ;;;
     ret tt)) ;;;
  dup 0 ;;;
  dup 0 ;;;
  loop fuel (init_turn fuel a_sh argv) tt.

(** ** mkdir.c, rm.c, ln.c, kill.c, zombie.c *)

(** The loop of mkdir and of rm: it stops at the first failure. *)
Fixpoint each_file (call : Z -> UM W Z) (failed : list Z) (files : list Z) : UM W unit :=
  match files with
  | [] => ret tt
  | f :: files =>
      let* r := call f in
      if r <? 0 then printf 2 failed [Wd f] else each_file call failed files
  end.
Definition mkdir_main (argv : list Z) : UM W unit :=
  if Z.of_nat (length argv) <? 2 then printf 2 (bytes "Usage: mkdir files..." ++ [10]) [] ;;; exit
  else each_file mkdir (bytes "mkdir: %s failed to create" ++ [10]) (drop 1 argv) ;;; exit.
Definition rm_main (argv : list Z) : UM W unit :=
  if Z.of_nat (length argv) <? 2 then printf 2 (bytes "Usage: rm files..." ++ [10]) [] ;;; exit
  else each_file unlink (bytes "rm: %s failed to delete" ++ [10]) (drop 1 argv) ;;; exit.
Definition ln_main (argv : list Z) : UM W unit :=
  match argv with
  | [_; old; new] =>
      let* r := link old new in
      (when r <? 0 do printf 2 (bytes "link %s %s: failed" ++ [10]) [Wd old; Wd new]) ;;;
      exit
  | _ => printf 2 (bytes "Usage: ln old new" ++ [10]) [] ;;; exit
  end.
Definition kill_main (argv : list Z) : UM W unit :=
  if Z.of_nat (length argv) <? 2 then printf 2 (bytes "usage: kill pid..." ++ [10]) [] ;;; exit
  else
    for_each (drop 1 argv) (fun a => let* pid := atoi a in kill pid ;;; ret tt) ;;;
    exit.
Definition zombie_main : UM W unit :=
  let* pid := fork in
  (when 0 <? pid do (sleep 5 ;;; ret tt)) ;;;
  exit.

(** ** stressfs.c *)

(** The processes of stressfs: each fork leaves one behind with its [i]. *)
Fixpoint stress_fork (n : nat) (i : Z) : UM W Z :=
  match n with
  | O => ret i
  | S n =>
      let* pid := fork in
      if 0 <? pid then ret i else stress_fork n (i + 1)
  end.
(** [path] and [data] are the local arrays; [path] holds stressfs0. *)
Definition stressfs_main (path data : Z) : UM W unit :=
  printf 1 (bytes "stressfs starting" ++ [10]) [] ;;;
  memset data 97 512 ;;;
  let* i := stress_fork 4 0 in
  printf 1 (bytes "write %d" ++ [10]) [Wd i] ;;;
  let* c := lb (path + 8) in
  sb (path + 8) (c + i) ;;;
  let* fd := open path (Z.lor O_CREATE O_RDWR) in
  for_each (zseq 0 20) (fun _ => write fd data 512 ;;; ret tt) ;;;
  close fd ;;;
  printf 1 (bytes "read" ++ [10]) [] ;;;
  let* fd := open path O_RDONLY in
  for_each (zseq 0 20) (fun _ => read fd data 512 ;;; ret tt) ;;;
  close fd ;;;
  wait ;;;
  exit.

(** ** forktest.c *)

(** The messages of forktest are at these addresses. *)
Record forktest_text := mk_forktest_text { t_start : Z; t_claimed : Z; t_early : Z; t_many : Z; t_ok : Z }.
(** Its own printf ignores everything after the format. *)
Definition forktest_printf (fd s : Z) : UM W unit :=
  let* n := strlen s in
  write fd s n ;;;
  ret tt.
Definition forktest_N : Z := 1000.
Definition forktest_fork (n : Z) : UM W (Z + Z) :=
  if n <? forktest_N then
    let* pid := fork in
    if pid <? 0 then ret (inr n)
    else if pid =? 0 then exit
    else ret (inl (n + 1))
  else ret (inr n).
Definition forktest_wait (t : forktest_text) (n : Z) : UM W (Z + unit) :=
  if 0 <? n then
    let* r := wait in
    if r <? 0 then forktest_printf 1 (t_early t) ;;; exit else ret (inl (n - 1))
  else ret (inr tt).
Definition forktest (t : forktest_text) : UM W unit :=
  forktest_printf 1 (t_start t) ;;;
  let* n := loop (S (Z.to_nat forktest_N)) forktest_fork 0 in
  (when n =? forktest_N do (forktest_printf 1 (t_claimed t) ;;; exit)) ;;;
  loop (S (Z.to_nat forktest_N)) (forktest_wait t) n ;;;
  let* r := wait in
  (when negb (r =? -1) do (forktest_printf 1 (t_many t) ;;; exit)) ;;;
  forktest_printf 1 (t_ok t).
Definition forktest_main (t : forktest_text) : UM W unit := forktest t ;;; exit.

(** ** getyear.c, getnextprime.c, getcallcount.c, getmostcaller.c, waitforprocess.c *)

Definition getyear_main : UM W unit :=
  let* y := getyear in
  printf 1 (bytes "Note: Unix V6 was released in year %d" ++ [10]) [Wd y] ;;;
  exit.
(** The assembly puts [num] into ebx, where the kernel looks for it. *)
Definition getnextprime_main (argv : list Z) : UM W unit :=
  match argv with
  | [_; a] =>
      let* num := atoi a in
      let* r := getnextprime num in
      printf 1 (bytes "Note: first bigger prime number is %d" ++ [10]) [Wd r] ;;;
      exit
  | _ => printf 2 (bytes "enter one number" ++ [10]) [] ;;; exit
  end.
(** [w1], [w2] and [w3] are the addresses of the three strings it writes. *)
Definition getcallcount_main (w1 w2 w3 : Z) (argv : list Z) : UM W unit :=
  match argv with
  | [_; a] =>
      let* syscallid := atoi a in
      let* child1 := fork in
      let* child2 := fork in
      if child1 <? 0 then exit
      else if child2 <? 0 then exit
      else
        let report :=
          let* n := getcallcount syscallid in
          printf 1 (bytes "%d systemcall was called during process: %d" ++ [10]) [Wd syscallid; Wd n] in
        let* n := strlen w1 in write 1 w1 n ;;;
        let* n := strlen w2 in write 1 w2 n ;;;
        report ;;;
        let* n := strlen w3 in write 1 w3 n ;;;
        report ;;;
        exit
  | _ => printf 2 (bytes "enter one number" ++ [10]) [] ;;; exit
  end.
Definition getmostcaller_main : UM W unit :=
  let* r := getmostcaller 1 in
  printf 1 (bytes "process having most fork call is: %d" ++ [10]) [Wd r] ;;;
  let* r := getmostcaller 3 in
  printf 1 (bytes "process having most wait call is: %d" ++ [10]) [Wd r] ;;;
  let* r := getmostcaller 16 in
  printf 1 (bytes "process having most write call is: %d" ++ [10]) [Wd r] ;;;
  exit.
Definition waitforprocess_main : UM W unit :=
  let* child1 := fork in
  if child1 <? 0 then exit
  else if child1 =? 0 then
    printf 0 (bytes "the child1 loop started" ++ [10]) [] ;;;
    sleep 100 ;;;
    printf 0 (bytes "the child1 loop ended" ++ [10]) [] ;;;
    exit
  else
    let* child2 := fork in
    (if child2 <? 0 then exit
     else if child2 =? 0 then
       printf 0 (bytes "child2 waiting" ++ [10]) [] ;;;
       waitforprocess child2 ;;;
       printf 0 (bytes "child2 returned" ++ [10]) []
     else wait ;;; ret tt) ;;;
    wait ;;;
    exit.
End programs.

(** ** fmtname *)

Section fmtname.
Context {W : Type} `{K : Kernel W} `{Fr : Frame}.
Implicit Types u : U W.

(** The directory part of a path: nothing, or it ends with a slash. *)
Definition dir_part (d : list Z) : Prop := d = [] \/ exists d', d = d' ++ [47].

Lemma after_slash_ok u path d n : str_at u path (d ++ n) -> dir_part d -> Forall (fun c => c <> 47) n ->
  after_slash path u = Ok (path + Z.of_nat (length d)) u.
Proof.
  intros Hs Hd Hn. pose proof Hs as (Hp & Hsz & _ & Hz & _). rewrite length_app in Hsz. unfold after_slash.
  mrun (strlen_ok u path _ Hs). rewrite length_app.
  match goal with |- (let* _ := walk ?t ?a in _) _ = _ =>
    assert (walk t a u = Ok (path + Z.of_nat (length d) - 1) u) as R; [|mrun R; unfold ret; f_equal; lia] end.
  apply (walk_path _ (fun i => path + Z.of_nat (length d + length n) - Z.of_nat i) _ (S (length n))); [lia | | | lia].
  - intros i Hi. rewrite (proj2 (Z.leb_le _ _)) by lia. mrun (lb_ok (path + Z.of_nat (length d + length n) - Z.of_nat i) u ltac:(apply reaches_iff; lia)).
    enough (ldb (u_mem u) (path + Z.of_nat (length d + length n) - Z.of_nat i) <> 47) as Hne
      by (rewrite (proj2 (Z.eqb_neq _ _) Hne); cbn; unfold ret; do 2 f_equal; lia).
    destruct i as [|i]; [rewrite length_app in Hz; rewrite Z.sub_0_r, Hz; lia|].
    destruct (lookup_lt_is_Some_2 n (length n - S i)) as [c Hc]; [lia|].
    assert ((d ++ n) !! (length d + (length n - S i))%nat = Some c) as Hc' by by rewrite lookup_app_r, Nat.add_sub' by lia.
    destruct (str_at_char u path _ _ _ Hs Hc') as (E & _).
    replace (path + Z.of_nat (length d + length n) - Z.of_nat (S i)) with (path + Z.of_nat (length d + (length n - S i))) by lia.
    rewrite E. by apply (Forall_lookup_1 _ _ _ _ Hn Hc).
  - replace (path + Z.of_nat (length d + length n) - Z.of_nat (S (length n))) with (path + Z.of_nat (length d) - 1) by lia.
    destruct Hd as [->|(d' & ->)]; [by rewrite (proj2 (Z.leb_gt _ _)) by (cbn; lia)|].
    rewrite length_app in *. cbn [length] in *. rewrite (proj2 (Z.leb_le _ _)) by lia.
    mrun (lb_ok (path + Z.of_nat (length d' + 1) - 1) u ltac:(apply reaches_iff; lia)).
    assert (((d' ++ [47]) ++ n) !! length d' = Some 47) as Hc by (rewrite <-app_assoc; by apply list_lookup_middle).
    destruct (str_at_char u path _ _ _ Hs Hc) as (E & _).
    replace (path + Z.of_nat (length d' + 1) - 1) with (path + Z.of_nat (length d')) by lia. by rewrite E.
Qed.

(** A name, padded with blanks to the width of a directory entry. *)
Definition padded (n : list Z) : list Z := n ++ replicate (Z.to_nat DIRSIZ - length n) 32.

Lemma padded_at u a n : (length n <= 14)%nat -> 0 <= a -> a + 14 < u_sz u ->
  ldbs (u_mem u) a (length n) = n ->
  (forall i, Z.of_nat (length n) <= i < 14 -> ldb (u_mem u) (a + i) = 32) ->
  ldb (u_mem u) (a + 14) = 0 -> Forall (fun c => 0 < c < 256) n -> str_at u a (padded n).
Proof.
  intros Hn Ha Hsz Hl Hb Hz Hf. unfold padded, DIRSIZ. set (k := (Z.to_nat 14 - length n)%nat).
  assert (length (n ++ replicate k 32) = 14%nat) as Hlen by (rewrite length_app, length_replicate; lia).
  split_and!; rewrite ?Hlen; [lia | lia | | done |].
  - replace 14%nat with (length n + k)%nat by lia. rewrite ldbs_app, Hl. f_equal.
    apply list_eq_same_length with k; [by rewrite length_replicate | by rewrite ldbs_length|].
    intros i x y Hi Hx Hy. rewrite ldbs_lookup in Hx by lia. injection Hx as <-.
    apply lookup_replicate in Hy as [-> _]. rewrite <-Z.add_assoc. apply Hb. lia.
  - apply Forall_app. split; [done|]. apply Forall_replicate. lia.
Qed.

(** fmtname returns the last component of a path, padded with blanks to the
    width of a directory entry; it needs only that the last byte of its static
    buffer is still 0, which it keeps. *)
Theorem fmtname_spec u name path d n :
  str_at u path (d ++ n) -> dir_part d -> Forall (fun c => c <> 47) n ->
  0 <= name -> name + 15 <= u_sz u -> ldb (u_mem u) (name + DIRSIZ) = 0 ->
  (path + Z.of_nat (length (d ++ n)) < name \/ name + 15 <= path) ->
  exists r u', fmtname name path u = Ok r u' /\ str_at u' r (padded n) /\
    u_sz u' = u_sz u /\ ldb (u_mem u') (name + DIRSIZ) = 0 /\
    forall a, ~ name <= a < name + 15 -> ldb (u_mem u') a = ldb (u_mem u) a.
Proof.
  intros Hs Hd Hn H0 Hsz Hz Hap. unfold fmtname. mrun (after_slash_ok u path d n Hs Hd Hn).
  pose proof (str_at_app u path d n Hs) as Hs'. mrun (strlen_ok u _ n Hs'). unfold DIRSIZ in *.
  pose proof Hs as (Hp & Hpz & _). rewrite length_app in *.
  destruct (Z.leb_spec 14 (Z.of_nat (length n))).
  - exists (path + Z.of_nat (length d)), u. split_and!; try done. unfold padded, DIRSIZ.
    replace (Z.to_nat 14 - length n)%nat with 0%nat by lia. by rewrite app_nil_r.
  - mrun (memmove_run u name (path + Z.of_nat (length d)) (Z.of_nat (length n)) H0 ltac:(lia) ltac:(lia) ltac:(lia) ltac:(lia)).
    rewrite Nat2Z.id. set (m := string_c.memmove_up _ _ _ _).
    assert (ldbs m name (length n) = n) as Em.
    { unfold m. destruct Hs' as (_ & _ & El & _ & Hf). rewrite memmove_up_ldbs, El; [done | lia|].
      rewrite El. eapply list.Forall_impl; [exact Hf|]. unfold is_u8. intros c ?. lia. }
    destruct (memset_run (set_u_mem m u) (name + Z.of_nat (length n)) 32 (14 - Z.of_nat (length n))) as (m2 & R2 & M2); [lia | lia | cbn; lia|].
    mrun R2. cbn [u_mem set_u_mem] in M2.
    assert (forall a, ~ name <= a < name + 14 -> ldb m2 a = ldb (u_mem u) a) as Hout.
    { intros a Ha. rewrite M2. case_decide; [lia|]. destruct (decide (a < name)).
      - by apply memmove_up_below. - apply memmove_up_above. lia. }
    exists name. eexists. split; [done|]. cbn [u_mem u_sz set_u_mem]. split_and!.
    + apply padded_at; [lia | lia | cbn; lia | | | |].
      * cbn. rewrite <-Em at 2. apply ldbs_ext. intros a Ha. rewrite M2. by case_decide; [lia|].
      * intros i Hi. cbn. rewrite M2. rewrite decide_True by lia. done.
      * cbn. rewrite Hout by lia. done.
      * apply Hs'.
    + done.
    + by rewrite Hout by lia.
    + intros a Ha. apply Hout. lia.
Qed.
End fmtname.

(** ** forktest *)

(** [io r c w l o]: there is room for [r] processes more, the process has [c]
    children, and [l] and [o] are its input and output; the laws of fork, as
    its parent sees it, and of wait. *)
Class Children (W : Type) `{Kernel W} (io : Z -> Z -> W -> list Z -> list Z -> Prop) := {
  child_law : forall r c u l o, io r c (u_world u) l o -> 0 < r ->
    exists pid w, sys SYS_fork [] u = Back pid (set_u_world w u) /\ 0 < pid /\ io (r - 1) (c + 1) w l o;
  full_law : forall c u l o, io 0 c (u_world u) l o ->
    exists w, sys SYS_fork [] u = Back (-1) (set_u_world w u) /\ io 0 c w l o;
  reap_law : forall r c u l o, io r c (u_world u) l o -> 0 < c ->
    exists pid w, sys SYS_wait [] u = Back pid (set_u_world w u) /\ 0 < pid /\ io (r + 1) (c - 1) w l o;
  none_law : forall r u l o, io r 0 (u_world u) l o ->
    exists w, sys SYS_wait [] u = Back (-1) (set_u_world w u) /\ io r 0 w l o;
}.

Section forktest.
Context {W : Type} `{K : Kernel W} {fi : Z} (io : Z -> Z -> W -> list Z -> list Z -> Prop).
Context `{S : forall r c, Stdio W fi 1 (io r c)} `{C : !Children W io}.
Implicit Types u : U W.

(** The same process in another world. *)
Definition moved u u' : Prop := exists w, u' = set_u_world w u.
#[export] Instance moved_preorder : PreOrder moved.
Proof. split; [intros u; exists (u_world u); by destruct u|]. intros u1 u2 u3 [w1 ->] [w2 ->]. by exists w2. Qed.
Lemma moved_str u u' a s : moved u u' -> str_at u a s -> str_at u' a s.
Proof. intros [w ->]. done. Qed.

Lemma forktest_printf_ok r c u l o a s : io r c (u_world u) l o -> str_at u a s ->
  exists u', forktest_printf 1 a u = Ok tt u' /\ moved u u' /\ io r c (u_world u') l (o ++ s).
Proof.
  intros Hi Hs. unfold forktest_printf. mrun (strlen_ok u a s Hs). pose proof Hs as (Ha & Hsz & Hl & _).
  destruct (write_law u a (Z.of_nat (length s)) l o Hi) as (w & R & Hi'); [lia | apply reaches_iff; lia|].
  rewrite Nat2Z.id, Hl in Hi'. unfold write. mrun (usys_back _ _ _ _ _ R). eexists. split; [done|]. split; [by exists w | done].
Qed.

Lemma forktest_forks fuel n k u l o : io (Z.of_nat k) n (u_world u) l o -> 0 <= n -> n + Z.of_nat k < forktest_N -> (k < fuel)%nat ->
  exists u', loop fuel forktest_fork n u = Ok (n + Z.of_nat k) u' /\ moved u u' /\ io 0 (n + Z.of_nat k) (u_world u') l o.
Proof.
  revert n k u. induction fuel as [|fuel IH]; intros n [|k] u Hi Hn HN Hf; try lia.
  - destruct (full_law n u l o Hi) as (w & R & Hi'). exists (set_u_world w u). rewrite Z.add_0_r.
    split_and!; [| by exists w | done]. apply loop_last. unfold forktest_fork, fork.
    rewrite (proj2 (Z.ltb_lt n _)) by lia. by mrun (usys_back _ _ _ _ _ R).
  - destruct (child_law (Z.of_nat (Datatypes.S k)) n u l o Hi) as (pid & w & R & Hpid & Hi'); [lia|].
    replace (Z.of_nat (Datatypes.S k) - 1) with (Z.of_nat k) in Hi' by lia.
    destruct (IH (n + 1) k (set_u_world w u) Hi') as (u2 & R2 & M2 & Hi2); [lia.. |].
    replace (n + 1 + Z.of_nat k) with (n + Z.of_nat (Datatypes.S k)) in * by lia.
    exists u2. split_and!; [| transitivity (set_u_world w u); [by exists w | done] | done].
    rewrite (loop_next _ _ _ _ (n + 1) (set_u_world w u)); [done|]. unfold forktest_fork, fork.
    rewrite (proj2 (Z.ltb_lt n _)) by lia. mrun (usys_back _ _ _ _ _ R).
    rewrite (proj2 (Z.ltb_ge pid 0)), (proj2 (Z.eqb_neq pid 0)) by lia. done.
Qed.
Lemma forktest_waits fuel t k r u l o : io r (Z.of_nat k) (u_world u) l o -> (k < fuel)%nat ->
  exists u', loop fuel (forktest_wait t) (Z.of_nat k) u = Ok tt u' /\ moved u u' /\ io (r + Z.of_nat k) 0 (u_world u') l o.
Proof.
  revert k r u. induction fuel as [|fuel IH]; intros [|k] r u Hi Hf; try lia.
  - exists u. rewrite Z.add_0_r. split_and!; [by apply loop_last | done | done].
  - destruct (reap_law r (Z.of_nat (Datatypes.S k)) u l o Hi) as (pid & w & R & Hpid & Hi'); [lia|].
    replace (Z.of_nat (Datatypes.S k) - 1) with (Z.of_nat k) in Hi' by lia.
    destruct (IH k (r + 1) (set_u_world w u) Hi') as (u2 & R2 & M2 & Hi2); [lia.. |].
    replace (r + 1 + Z.of_nat k) with (r + Z.of_nat (Datatypes.S k)) in * by lia.
    exists u2. split_and!; [| transitivity (set_u_world w u); [by exists w | done] | done].
    rewrite (loop_next _ _ _ _ (Z.of_nat k) (set_u_world w u)); [done|]. unfold forktest_wait, wait.
    rewrite (proj2 (Z.ltb_lt 0 _)) by lia. mrun (usys_back _ _ _ _ _ R).
    rewrite (proj2 (Z.ltb_ge pid 0)) by lia. unfold ret. do 2 f_equal. lia.
Qed.

(** forktest passes where fork fails gracefully: with room for fewer than a
    thousand processes, it makes as many as there is room for, reaps every one
    of them, finds no other and says that the test is OK. *)
Theorem forktest_spec t r u l o s1 s2 :
  0 <= r < forktest_N -> io r 0 (u_world u) l o -> str_at u (t_start t) s1 -> str_at u (t_ok t) s2 ->
  exists u', forktest t u = Ok tt u' /\ io r 0 (u_world u') l (o ++ s1 ++ s2).
Proof.
  intros Hr Hi H1 H2. rewrite <-(Z2Nat.id r) in * by lia. generalize dependent (Z.to_nat r). clear r. intros k Hk Hi.
  destruct (forktest_printf_ok _ _ u l o _ _ Hi H1) as (u1 & R1 & M1 & Hi1).
  destruct (forktest_forks (Datatypes.S (Z.to_nat forktest_N)) 0 k u1 l _ Hi1) as (u2 & R2 & M2 & Hi2); [lia.. |].
  destruct (forktest_waits (Datatypes.S (Z.to_nat forktest_N)) t k 0 u2 l _ Hi2) as (u3 & R3 & M3 & Hi3); [lia|].
  destruct (none_law _ u3 l _ Hi3) as (w & R4 & Hi4).
  assert (moved u (set_u_world w u3)) as M by (do 2 (etransitivity; [eassumption|]); etransitivity; [eassumption | by exists w]).
  destruct (forktest_printf_ok _ _ (set_u_world w u3) l _ _ _ Hi4 (moved_str _ _ _ _ M H2)) as (u5 & R5 & M5 & Hi5).
  exists u5. rewrite app_assoc. split; [|done]. unfold forktest. mrun R1. mrun R2.
  change (0 + Z.of_nat k) with (Z.of_nat k). rewrite (proj2 (Z.eqb_neq (Z.of_nat k) forktest_N)) by lia. rewrite bind_ret_l.
  mrun R3. unfold wait. mrun (usys_back _ _ _ _ _ R4). done.
Qed.
End forktest.

(** ** waitforprocess *)

(** The second child of waitforprocess.c does not wait for the first: the
    number that it hands to the kernel is what its own fork returned, 0. *)
Theorem waitforprocess_waits_for_0 {W} `{K : Kernel W} `{Fr : Frame} {fi} {io : W -> list Z -> list Z -> Prop}
    `{S : !Stdio W fi 0 io} u u1 u2 pid l o :
  0 <= slot < u_sz u2 -> sys SYS_fork [] u = Back pid u1 -> 0 < pid -> sys SYS_fork [] u1 = Back 0 u2 -> io (u_world u2) l o ->
  exists u3, waitforprocess_main u =
      (waitforprocess 0 ;;; printf 0 (bytes "child2 returned" ++ [10]) [] ;;; wait ;;; exit) u3 /\
    io (u_world u3) l (o ++ bytes "child2 waiting" ++ [10]).
Proof.
  intros [Hs Hz] R1 Hpid R2 Hi.
  destruct (printf_ok Hs (PChr <$> bytes "child2 waiting" ++ [10]) u2 l o) as (u3 & R3 & _ & Hi3);
    [done | by repeat apply Forall_cons_2 | done |].
  exists u3. split; [|exact Hi3]. unfold waitforprocess_main, fork. mrun (usys_back _ _ _ _ _ R1).
  rewrite (proj2 (Z.ltb_ge pid 0)), (proj2 (Z.eqb_neq pid 0)) by lia. mrun (usys_back _ _ _ _ _ R2). cbn [Z.ltb Z.compare Z.eqb].
  rewrite bind_assoc. change (printf 0 (bytes "child2 waiting" ++ [10]) [] u2 = Ok tt u3) in R3. mrun R3. by rewrite bind_assoc.
Qed.

(** *** The properties at work *)

#[local] Instance sample_frame : Frame := 8.

Lemma fmtname_spec_witness : let u := mk_U (stbs ∅ 16 (bytes "a/bc" ++ [0])) 100 false (mk_tape [] [] 1 0) in
  exists r u', fmtname 40 16 u = Ok r u' /\ str_at u' r (bytes "bc            ").
Proof.
  intros u. destruct (fmtname_spec u 40 16 (bytes "a/") (bytes "bc")) as (r & u' & R & Hs & _).
  - apply (str_at_stbs (mk_U ∅ 100 false (mk_tape [] [] 1 0)) 16 (bytes "a/bc")); [lia | cbn; lia | repeat constructor].
  - right. by exists (bytes "a").
  - by repeat constructor.
  - lia.
  - cbn. lia.
  - vm_compute. reflexivity.
  - cbn. lia.
  - exists r, u'. split; [exact R | exact Hs].
Defined.

(** A kernel that makes processes and prints: room, children and output. *)
Record nursery := mk_nursery { ny_room : Z; ny_kids : Z; ny_out : list Z }.
#[local] Instance nursery_kernel : Kernel nursery := fun num args u =>
  let '(mk_nursery r c o) := u_world u in
  match args with
  | [] =>
      if num =? SYS_fork then
        if 0 <? r then Back (c + 2) (set_u_world (mk_nursery (r - 1) (c + 1) o) u) else Back (-1) u
      else if num =? SYS_wait then
        if 0 <? c then Back (c + 1) (set_u_world (mk_nursery (r + 1) (c - 1) o) u) else Back (-1) u
      else if num =? SYS_exit then Gone u
      else Back (-1) u
  | [fd; a; n] =>
      if num =? SYS_write then Back n (set_u_world (mk_nursery r c (o ++ ldbs (u_mem u) a (Z.to_nat n))) u)
      else Back 0 u
  | _ => Back (-1) u
  end.
Definition nursery_io (r c : Z) (w : nursery) (l o : list Z) : Prop := w = mk_nursery r c o /\ l = [] /\ 0 <= r /\ 0 <= c.
Lemma same_world {X} (u : U X) w : u_world u = w -> set_u_world w u = u.
Proof. intros <-. by destruct u. Qed.
#[local] Instance nursery_stdio r c fi fo : Stdio nursery fi fo (nursery_io r c).
Proof.
  split; unfold sys, nursery_kernel.
  - intros u a n l o (E & -> & Hr & Hc) Hn _. exists 0, (mk_nursery r c o). rewrite E.
    split_and!; cbn; try done; try lia. f_equal. destruct u. cbn in *. by subst.
  - intros u a n l o (E & -> & Hr & Hc) Hn _. rewrite E. eexists. split; [reflexivity | done].
  - intros u l o (E & -> & Hr & Hc). exists (u_world u). rewrite E. split; [|done]. cbn. by rewrite same_world.
Qed.
#[local] Instance nursery_children : Children nursery nursery_io.
Proof.
  split; unfold sys, nursery_kernel.
  - intros r c u l o (E & -> & Hr & Hc) H0. rewrite E. cbn. rewrite (proj2 (Z.ltb_lt 0 r)) by lia. eexists _, _.
    split_and!; [reflexivity | lia |]. split_and!; [done | done | lia | lia].
  - intros c u l o (E & -> & Hr & Hc). rewrite E. exists (mk_nursery 0 c o). split; [|done]. cbn. by rewrite same_world.
  - intros r c u l o (E & -> & Hr & Hc) H0. rewrite E. cbn. rewrite (proj2 (Z.ltb_lt 0 c)) by lia. eexists _, _.
    split_and!; [reflexivity | lia |]. split_and!; [done | done | lia | lia].
  - intros r u l o (E & -> & Hr & Hc). rewrite E. exists (mk_nursery r 0 o). split; [|done]. cbn. by rewrite same_world.
Qed.

Lemma forktest_spec_witness :
  let u := mk_U (stbs (stbs ∅ 16 (bytes "fork test" ++ [0])) 40 (bytes "OK" ++ [0])) 100 false (mk_nursery 61 0 []) in
  exists u', forktest (mk_forktest_text 16 0 0 0 40) u = Ok tt u' /\ u_world u' = mk_nursery 61 0 (bytes "fork testOK").
Proof.
  intros u. destruct (forktest_spec (fi := 0) nursery_io (mk_forktest_text 16 0 0 0 40) 61 u [] [] (bytes "fork test") (bytes "OK"))
    as (u' & R & Hi).
  - unfold forktest_N. lia.
  - done.
  - vm_compute. repeat split; try congruence; repeat constructor; congruence.
  - vm_compute. repeat split; try congruence; repeat constructor; congruence.
  - exists u'. split; [exact R|]. apply Hi.
Defined.

(** A kernel whose forks return what the plan says. *)
#[local] Instance plan_kernel : Kernel (list Z * list Z) := fun num args u =>
  let '(plan, o) := u_world u in
  match args with
  | [] =>
      if num =? SYS_fork then
        match plan with pid :: plan => Back pid (set_u_world (plan, o) u) | [] => Back (-1) u end
      else if num =? SYS_exit then Gone u
      else Back (-1) u
  | [fd; a; n] => if num =? SYS_write then Back n (set_u_world (plan, o ++ ldbs (u_mem u) a (Z.to_nat n)) u) else Back 0 u
  | _ => Back (-1) u
  end.
Definition plan_io (w : list Z * list Z) (l o : list Z) : Prop := w.2 = o /\ l = [].
#[local] Instance plan_stdio fi fo : Stdio (list Z * list Z) fi fo plan_io.
Proof.
  split; unfold sys, plan_kernel.
  - intros u a n l o (E & ->) Hn _. exists 0, (u_world u). destruct u as [m sz g [plan o']]. cbn in *. split_and!; try done; lia.
  - intros u a n l o (E & ->) Hn _. destruct u as [m sz g [plan o']]. cbn in *. eexists. split; [reflexivity|]. by subst.
  - intros u l o (E & ->). exists (u_world u). by destruct u as [m sz g [plan o']].
Qed.

Lemma waitforprocess_waits_for_0_witness :
  exists u3, waitforprocess_main (mk_U ∅ 100 false ([5; 0], [])) =
    (waitforprocess 0 ;;; printf 0 (bytes "child2 returned" ++ [10]) [] ;;; wait ;;; exit) u3.
Proof.
  edestruct (waitforprocess_waits_for_0 (fi := 0) (io := plan_io) (mk_U ∅ 100 false ([5; 0], []))) as (u3 & R & _);
    [| reflexivity | lia | reflexivity | split; reflexivity | exists u3; exact R].
  split; unfold slot, sample_frame; cbn; lia.
Defined.
