(* ===== verification/Mkfs.v ===== *)
(** * The builder of the file system image (mkfs.c)

    The program that runs on the host and writes fs.img.  The image is a
    file of sectors; a failed assertion and an exit with an error are [Panic].
    What it builds is shown to be what the kernel takes it for: the
    superblock, the directory, the contents of the files and the free map are
    read with the definitions of the kernel's file system. *)

From Stdlib Require Import ZArith Lia.
From stdpp Require Import base gmap list strings numbers.
From S2P Require Import Prelude Strings State Spinlock Sched Disk Bio Cache Log Tx Fs Balloc Inode Dir Fileio.

Open Scope Z_scope.
#[local] Ltac Zify.zify_post_hook ::= Z.div_mod_to_equations.

(** ** The program *)

Definition NINODES : Z := 200.
Definition nbitmap : Z := FSSIZE / (BSIZE * 8) + 1.
Definition ninodeblocks : Z := NINODES / IPB + 1.
Definition nlog : Z := LOGSIZE.
Definition nmeta : Z := 2 + nlog + ninodeblocks + nbitmap.
Definition nblocks : Z := FSSIZE - nmeta.

(** The bytes that xshort and xint store are those of the disk's order; the
    host reads them back in its own, which is the same here. *)
Definition xshort (x : Z) : Z := of_le [u8 x; u8 (Z.shiftr x 8)].
Definition xint (x : Z) : Z := of_le [u8 x; u8 (Z.shiftr x 8); u8 (Z.shiftr x 16); u8 (Z.shiftr x 24)].

Definition sb : superblock :=
  mk_superblock (xint FSSIZE) (xint nblocks) (xint NINODES) (xint nlog) (xint 2) (xint (2 + nlog))
    (xint (2 + nlog + ninodeblocks)).
Definition zeroes : list Z := replicate (Z.to_nat BSIZE) 0.

(** The globals and the image file. *)
Record image := mk_image { im : gmap Z (list Z); freeinode : Z; freeblock : Z }.
Definition set_im (v : gmap Z (list Z)) (s : image) : image := mk_image v (freeinode s) (freeblock s).
Definition set_freeinode (v : Z) (s : image) : image := mk_image (im s) v (freeblock s).
Definition set_freeblock (v : Z) (s : image) : image := mk_image (im s) (freeinode s) v.
Definition IM (A : Type) : Type := M image A.

Definition assert_ (b : bool) : IM unit := if b then ret tt else panic "assert".
Definition wsect (sec : Z) (buf : list Z) : IM unit := modify (fun s => set_im (<[sec := buf]> (im s)) s).
Definition rsect (sec : Z) : IM (list Z) := fun s =>
  match im s !! sec with
  | Some buf => Ok buf s
  | None => Panic "read" s
  end.

Definition winode (inum : Z) (ip : dinode) : IM unit :=
  let bn := IBLOCK inum sb in
  let* buf := rsect bn in
  wsect bn (put_dinode (inum mod IPB) ip buf).
Definition rinode (inum : Z) : IM dinode :=
  let bn := IBLOCK inum sb in
  let* buf := rsect bn in
  ret (get_dinode buf (inum mod IPB)).

Definition ialloc (type : Z) : IM Z :=
  let* inum := reads freeinode in
  modify (set_freeinode (u32 (inum + 1))) ;;;
  winode inum (mk_dinode (i16 (xshort type)) 0 0 (i16 (xshort 1)) (xint 0) (replicate 13 0)) ;;;
  ret inum.

Definition balloc_map (used : Z) : list Z :=
  foldl (fun buf i => <[Z.to_nat (i / 8) := Z.lor (byte_at buf (i / 8)) (bit_mask i)]> buf) zeroes (zseq 0 used).
Definition balloc (used : Z) : IM unit :=
  assert_ (used <? BSIZE * 8) ;;;
  wsect (sb_bmapstart sb) (balloc_map used).

(** freeblock++ *)
Definition next_block : IM Z :=
  let* b := reads freeblock in
  modify (set_freeblock (u32 (b + 1))) ;;;
  ret b.
Definition addr (din : dinode) (j : Z) : Z := nth (Z.to_nat j) (d_addrs din) 0.
Definition set_addr (j v : Z) (din : dinode) : dinode :=
  mk_dinode (d_type din) (d_major din) (d_minor din) (d_nlink din) (d_size din) (<[Z.to_nat j := v]> (d_addrs din)).
Definition set_size (v : Z) (din : dinode) : dinode :=
  mk_dinode (d_type din) (d_major din) (d_minor din) (d_nlink din) v (d_addrs din).

(** The sector of block [fbn] of a file, allocated when there is none. *)
Definition iappend_entry (din : dinode) (j : Z) : IM dinode :=
  if xint (addr din j) =? 0 then
    let* b := next_block in
    ret (set_addr j (xint b) din)
  else ret din.
(** An entry of the indirect block. *)
Definition iappend_indirect (din : dinode) (fbn : Z) : IM (dinode * Z) :=
  let* indirect := rsect (xint (addr din NDIRECT)) in
  if word indirect (fbn - NDIRECT) =? 0 then
    let* b := next_block in
    let indirect := set_word (fbn - NDIRECT) (xint b) indirect in
    wsect (xint (addr din NDIRECT)) indirect ;;;
    ret (din, xint (word indirect (fbn - NDIRECT)))
  else ret (din, xint (word indirect (fbn - NDIRECT))).
Definition iappend_block (din : dinode) (fbn : Z) : IM (dinode * Z) :=
  if fbn <? NDIRECT then
    let* din := iappend_entry din fbn in
    ret (din, xint (addr din fbn))
  else
    let* din := iappend_entry din NDIRECT in
    iappend_indirect din fbn.
(** A turn takes at least a byte, so that there are no more turns than bytes
    and the one that finds none. *)
Fixpoint iappend_loop (fuel : nat) (din : dinode) (off : Z) (p : list Z) : IM (dinode * Z) :=
  match fuel with
  | O => hang
  | S fuel =>
      if 0 <? Z.of_nat (length p) then
        let fbn := off / BSIZE in
        assert_ (fbn <? MAXFILE) ;;;
        let* (din, x) := iappend_block din fbn in
        let n1 := Z.min (Z.of_nat (length p)) ((fbn + 1) * BSIZE - off) in
        let* buf := rsect x in
        wsect x (splice (Z.to_nat (off - fbn * BSIZE)) (take (Z.to_nat n1) p) buf) ;;;
        iappend_loop fuel din (off + n1) (drop (Z.to_nat n1) p)
      else ret (din, off)
  end.
Definition iappend (inum : Z) (p : list Z) : IM unit :=
  let* din := rinode inum in
  let* (din, off) := iappend_loop (S (length p)) din (xint (d_size din)) p in
  winode inum (set_size (xint off) din).

(** A directory entry; strncpy fills up with zeroes and cuts at DIRSIZ. *)
Definition dirent_of (inum : Z) (name : list Z) : list Z :=
  dirent_bytes (mk_dirent (xshort inum) (take DIRSIZ (name ++ replicate DIRSIZ 0))).

(** A file on the host: its name and what the reads of it return, or nothing
    when it cannot be opened. *)
Definition host_file : Type := list Z * option (list (list Z)).
Definition add_file (rootino : Z) (f : host_file) : IM unit :=
  let '(name, reads) := f in
  assert_ (negb (existsb (Z.eqb 47) name)) ;;;
  match reads with
  | None => panic "open"
  | Some reads =>
      let name := match name with c :: name' => if c =? 95 then name' else name | [] => name end in
      let* inum := ialloc T_FILE in
      iappend rootino (dirent_of inum name) ;;;
      for_each reads (iappend inum)
  end.
Definition super_bytes : list Z :=
  concat (le32 <$> [sb_size sb; sb_nblocks sb; sb_ninodes sb; sb_nlog sb; sb_logstart sb; sb_inodestart sb; sb_bmapstart sb]).
Definition fix_root (rootino : Z) : IM unit :=
  let* din := rinode rootino in
  let off := xint (d_size din) in
  winode rootino (set_size (xint ((off / BSIZE + 1) * BSIZE)) din).
Definition mkfs_main (files : list host_file) : IM unit :=
  modify (set_freeblock nmeta) ;;;
  for_each (zseq 0 FSSIZE) (fun i => wsect i zeroes) ;;;
  wsect 1 (splice 0 super_bytes zeroes) ;;;
  let* rootino := ialloc T_DIR in
  assert_ (rootino =? ROOTINO) ;;;
  iappend rootino (dirent_of rootino [46]) ;;;
  iappend rootino (dirent_of rootino [46; 46]) ;;;
  for_each files (add_file rootino) ;;;
  fix_root rootino ;;;
  let* used := reads freeblock in
  balloc used.
(** The program starts with an empty file and the initial values of its globals. *)
Definition image0 : image := mk_image ∅ 1 0.

(** ** Facts *)

Lemma xint_id x : is_u32 x -> xint x = x.
Proof.
  intros Hx. unfold xint. rewrite <-(of_le_le32 x) at 5 by done. unfold le32. by rewrite !Z.shiftr_div_pow2 by lia.
Qed.
Lemma xshort_id x : is_u16 x -> xshort x = x.
Proof.
  intros Hx. unfold xshort. rewrite <-(of_le_le16 x) at 3 by done. unfold le16. by rewrite !Z.shiftr_div_pow2 by lia.
Qed.
Lemma sb_eq : sb = mk_superblock 1000 941 200 30 2 32 58.
Proof. reflexivity. Qed.

(** The sectors, as the kernel's definitions want them. *)
Definition blocks_of (s : image) (n : Z) : list Z := default [] (im s !! n).
(** An inode with these addresses; nothing else of it matters to bslot and
    fbyte. *)
Definition with_addrs (addrs : list Z) : inode := mk_inode 0 0 0 0 0 0 0 0 0 addrs.

(** The sectors exist, the metadata is below freeblock and everything above
    it is still zero. *)
Record sectors (s : image) : Prop := {
  se_len n : 0 <= n < FSSIZE -> exists b, im s !! n = Some b /\ length b = Z.to_nat BSIZE;
  se_free : nmeta <= freeblock s <= FSSIZE;
  se_zero n : freeblock s <= n < FSSIZE -> im s !! n = Some zeroes;
}.

(** The addresses of a file: data sectors below [fb], each used once. *)
Record laid_out (g : Z -> list Z) (fb : Z) (addrs : list Z) : Prop := {
  la_len : length addrs = 13%nat;
  la_range j : 0 <= j <= MAXFILE -> bslot g (with_addrs addrs) j <> 0 -> nmeta <= bslot g (with_addrs addrs) j < fb;
  la_inj i j : 0 <= i <= MAXFILE -> 0 <= j <= MAXFILE -> bslot g (with_addrs addrs) i <> 0 ->
    bslot g (with_addrs addrs) i = bslot g (with_addrs addrs) j -> i = j;
}.
Definition owns (g : Z -> list Z) (addrs : list Z) (n : Z) : Prop :=
  n <> 0 /\ exists j, 0 <= j <= MAXFILE /\ bslot g (with_addrs addrs) j = n.

(** From [s], where a file has the addresses [a], to [s'], where it has [a']:
    slots keep their sectors or get new ones, and no sector of anything else
    changes. *)
Record grows (s : image) (a : list Z) (s' : image) (a' : list Z) : Prop := {
  gr_sectors : sectors s';
  gr_laid : laid_out (blocks_of s') (freeblock s') a';
  gr_inode : freeinode s' = freeinode s;
  gr_le : freeblock s <= freeblock s';
  gr_slot j : 0 <= j <= MAXFILE ->
    bslot (blocks_of s') (with_addrs a') j = bslot (blocks_of s) (with_addrs a) j \/
    (bslot (blocks_of s) (with_addrs a) j = 0 /\ freeblock s <= bslot (blocks_of s') (with_addrs a') j < freeblock s');
  gr_frame n : n < freeblock s -> ~ owns (blocks_of s) a n -> im s' !! n = im s !! n;
}.

Lemma grows_refl s a : sectors s -> laid_out (blocks_of s) (freeblock s) a -> grows s a s a.
Proof. intros S L. split; try done. intros j Hj. by left. Qed.
Lemma grows_owns s a s' a' n : grows s a s' a' -> owns (blocks_of s') a' n -> owns (blocks_of s) a n \/ freeblock s <= n < freeblock s'.
Proof.
  intros G (Hn & j & Hj & <-). destruct (gr_slot _ _ _ _ G j Hj) as [E|[_ ?]]; [|by right].
  rewrite E in *. left. split; [done|]. by exists j.
Qed.
Lemma grows_trans s1 a1 s2 a2 s3 a3 : sectors s1 -> grows s1 a1 s2 a2 -> grows s2 a2 s3 a3 -> grows s1 a1 s3 a3.
Proof.
  intros S1 G1 G2. pose proof (se_free _ S1) as Hfr. pose proof (gr_le _ _ _ _ G1). pose proof (gr_le _ _ _ _ G2).
  split.
  - exact (gr_sectors _ _ _ _ G2).
  - exact (gr_laid _ _ _ _ G2).
  - rewrite (gr_inode _ _ _ _ G2). exact (gr_inode _ _ _ _ G1).
  - lia.
  - intros j Hj. destruct (gr_slot _ _ _ _ G2 j Hj) as [->|[E2 H2]].
    + destruct (gr_slot _ _ _ _ G1 j Hj) as [->|[E1 H1]]; [by left|]. right. split; [done | lia].
    + destruct (gr_slot _ _ _ _ G1 j Hj) as [E1|[E1 H1]]; [right; split; [congruence | lia]|].
      exfalso. rewrite E2 in H1. unfold nmeta, nlog, ninodeblocks, nbitmap, NINODES in *. fslia.
  - intros n Hn Ho. rewrite (gr_frame _ _ _ _ G2); [by apply (gr_frame _ _ _ _ G1) | lia |].
    intros Ho2. destruct (grows_owns _ _ _ _ n G1 Ho2); [done | lia].
Qed.

Lemma nmeta_eq : nmeta = 59.
Proof. reflexivity. Qed.
Ltac mkfslia := rewrite ?nmeta_eq in *; fslia.

Lemma sectors_block s n : sectors s -> 0 <= n < FSSIZE -> im s !! n = Some (blocks_of s n) /\ length (blocks_of s n) = Z.to_nat BSIZE.
Proof. intros S Hn. destruct (se_len _ S n Hn) as (b & Hb & Hl). unfold blocks_of. by rewrite Hb. Qed.
Lemma sectors_zero s n : sectors s -> freeblock s <= n < FSSIZE -> blocks_of s n = zero_block.
Proof. intros S Hn. unfold blocks_of. by rewrite (se_zero _ S n Hn). Qed.
Lemma blocks_of_same s s' n : im s' !! n = im s !! n -> blocks_of s' n = blocks_of s n.
Proof. unfold blocks_of. by intros ->. Qed.
Lemma rsect_ok s n : sectors s -> 0 <= n < FSSIZE -> rsect n s = Ok (blocks_of s n) s.
Proof. intros S Hn. unfold rsect. by rewrite (proj1 (sectors_block s n S Hn)). Qed.
Lemma wsect_ok n b s : wsect n b s = Ok tt (set_im (<[n := b]> (im s)) s).
Proof. done. Qed.
Lemma next_block_ok s : sectors s -> next_block s = Ok (freeblock s) (set_freeblock (freeblock s + 1) s).
Proof.
  intros S. pose proof (se_free _ S). unfold next_block, reads, modify, bind. cbn. rewrite u32_small; [done|]. mkfslia.
Qed.
(** The free sector is taken. *)
Lemma sectors_next s : sectors s -> freeblock s < FSSIZE -> sectors (set_freeblock (freeblock s + 1) s).
Proof.
  intros [S1 S2 S3] Hf. split; cbn; [done | mkfslia |]. intros n Hn. apply S3. lia.
Qed.
(** A sector below freeblock is overwritten. *)
Lemma sectors_write s n b : sectors s -> 0 <= n < freeblock s -> length b = Z.to_nat BSIZE -> sectors (set_im (<[n := b]> (im s)) s).
Proof.
  intros [S1 S2 S3] Hn Hb. split; cbn; [| done |].
  - intros n' Hn'. rewrite lookup_insert. case_decide; [by exists b | by apply S1].
  - intros n' Hn'. rewrite lookup_insert_ne by lia. by apply S3.
Qed.
Lemma blocks_of_write s n b n' : blocks_of (set_im (<[n := b]> (im s)) s) n' = if decide (n = n') then b else blocks_of s n'.
Proof. unfold blocks_of. cbn. rewrite lookup_insert. by case_decide. Qed.

(** The number of the slot that entry [j] of the inode is. *)
Definition slot_of (j : Z) : Z := if j =? NDIRECT then MAXFILE else j.

Lemma addr_insert addrs j b j' : length addrs = 13%nat -> 0 <= j <= NDIRECT -> 0 <= j' ->
  addr_at (with_addrs (<[Z.to_nat j := b]> addrs)) j' = if decide (j' = j) then b else addr_at (with_addrs addrs) j'.
Proof. intros Hl Hj Hj'. apply (addr_with_addr (with_addrs addrs)); done. Qed.

(** A slot of the inode gets the zero sector [b]. *)
Lemma bslot_entry g addrs j b j' : length addrs = 13%nat -> 0 <= j <= NDIRECT -> addr_at (with_addrs addrs) j = 0 -> b <> 0 ->
  g b = zero_block -> 0 <= j' <= MAXFILE ->
  bslot g (with_addrs (<[Z.to_nat j := b]> addrs)) j' = if decide (j' = slot_of j) then b else bslot g (with_addrs addrs) j'.
Proof.
  intros Hl Hj Hz Hb Hg Hj'. unfold bslot, slot_of. rewrite !addr_insert by (done || fslia).
  destruct (Z.eqb_spec j NDIRECT) as [->|Hjn].
  - rewrite decide_True by done. rewrite Hz. destruct (Z.eqb_spec j' MAXFILE); [by rewrite decide_True|].
    destruct (Z.ltb_spec j' NDIRECT); [by rewrite !decide_False by lia|].
    rewrite (decide_False (P := j' = MAXFILE)) by done. destruct (Z.eqb_spec b 0); [lia|]. cbn [Z.eqb]. rewrite Hg.
    unfold word, zero_block. unfold slice. rewrite drop_replicate, take_replicate.
    replace (4 `min` (Z.to_nat BSIZE - 4 * Z.to_nat (j' - NDIRECT)))%nat with 4%nat by fslia. done.
  - rewrite (decide_False (P := NDIRECT = j)) by done.
    destruct (Z.eqb_spec j' MAXFILE); [subst; by rewrite decide_False by fslia|].
    destruct (Z.ltb_spec j' NDIRECT); [done|]. by rewrite decide_False by fslia.
Qed.
(** A slot in the indirect block gets [b]. *)
Lemma bslot_indirect g addrs j b j' : NDIRECT <= j < MAXFILE -> is_u32 b ->
  addr_at (with_addrs addrs) NDIRECT <> 0 -> length (g (addr_at (with_addrs addrs) NDIRECT)) = Z.to_nat BSIZE -> 0 <= j' <= MAXFILE ->
  bslot (fupd g (addr_at (with_addrs addrs) NDIRECT) (set_word (j - NDIRECT) b (g (addr_at (with_addrs addrs) NDIRECT)))) (with_addrs addrs) j' =
    if decide (j' = j) then b else bslot g (with_addrs addrs) j'.
Proof.
  intros Hj Hb Hi Hl Hj'. unfold bslot. rewrite (proj2 (Z.eqb_neq (addr_at _ NDIRECT) 0)) by done.
  unfold fupd. rewrite (decide_True (P := addr_at (with_addrs addrs) NDIRECT = _)) by done.
  destruct (Z.eqb_spec j' MAXFILE); [by rewrite decide_False by fslia|].
  destruct (Z.ltb_spec j' NDIRECT); [by rewrite decide_False by fslia|].
  rewrite word_set_word by (done || fslia). destruct (decide (j' = j)) as [->|]; [by rewrite decide_True|].
  by rewrite decide_False by lia.
Qed.

(** All slots but [t] are as before. *)
Definition other_slots (s : image) (a : list Z) (s' : image) (a' : list Z) (t : Z) : Prop :=
  forall j, 0 <= j <= MAXFILE -> j <> t -> bslot (blocks_of s') (with_addrs a') j = bslot (blocks_of s) (with_addrs a) j.
Definition same_blocks (s : image) (a : list Z) (s' : image) (a' : list Z) : Prop :=
  forall j, 0 <= j < MAXFILE -> fblock (blocks_of s') (with_addrs a') j = fblock (blocks_of s) (with_addrs a) j.

Lemma bslot_max g addrs : bslot g (with_addrs addrs) MAXFILE = addr_at (with_addrs addrs) NDIRECT.
Proof. unfold bslot. by rewrite Z.eqb_refl. Qed.

(** Slot [t] gets the first free sector. *)
Lemma grows_add s a s' a' t :
  sectors s -> laid_out (blocks_of s) (freeblock s) a -> freeblock s < FSSIZE -> sectors s' -> freeinode s' = freeinode s ->
  freeblock s' = freeblock s + 1 -> length a' = 13%nat -> 0 <= t <= MAXFILE -> bslot (blocks_of s) (with_addrs a) t = 0 ->
  (forall n, n = 0 \/ n <> addr_at (with_addrs a) NDIRECT -> im s' !! n = im s !! n) ->
  freeblock s <> addr_at (with_addrs a) NDIRECT ->
  (forall j, 0 <= j <= MAXFILE -> bslot (blocks_of s') (with_addrs a') j =
     if decide (j = t) then freeblock s else bslot (blocks_of s) (with_addrs a) j) ->
  grows s a s' a' /\ same_blocks s a s' a'.
Proof.
  intros S L Hf S' Hin Hfb Hlen Ht Hz Hfr Hne Hsl. pose proof (se_free _ S) as Hs.
  assert (forall j, 0 <= j <= MAXFILE -> bslot (blocks_of s) (with_addrs a) j <> 0 ->
    nmeta <= bslot (blocks_of s) (with_addrs a) j < freeblock s) as Hr by apply (la_range _ _ _ L).
  split; [split; try done|].
  - split; [done | |].
    + intros j Hj. rewrite Hsl by done. case_decide; [mkfslia|]. intros Hnz. specialize (Hr j Hj Hnz). lia.
    + intros i j Hi Hj. rewrite !Hsl by done. repeat case_decide; subst; try done.
      * intros Hnz E. specialize (Hr j Hj ltac:(congruence)). lia.
      * intros Hnz E. specialize (Hr i Hi ltac:(congruence)). lia.
      * by apply (la_inj _ _ _ L).
  - lia.
  - intros j Hj. rewrite Hsl by done. case_decide; [subst; right; split; [done | lia] | by left].
  - intros n Hn Ho. apply Hfr. destruct (decide (n = 0)) as [|Hn0]; [by left | right]. intros ->. apply Ho.
    split; [done|]. exists MAXFILE. split; [klia | apply bslot_max].
  - intros j Hj. unfold fblock. rewrite Hsl by lia. case_decide as Hjt.
    + subst j. rewrite Hz. cbn. destruct (Z.eqb_spec (freeblock s) 0); [done|]. unfold blocks_of. rewrite Hfr by by right.
      by rewrite (se_zero _ S) by lia.
    + destruct (Z.eqb_spec (bslot (blocks_of s) (with_addrs a) j) 0) as [|Hnz]; [done|].
      unfold blocks_of at 1. rewrite Hfr; [done|]. right. rewrite <-(bslot_max (blocks_of s)). intros E.
      pose proof (la_inj _ _ _ L j MAXFILE ltac:(lia) ltac:(klia) Hnz E). lia.
Qed.

(** *** The sector of a block *)

Lemma bslot_slot_of g a j : 0 <= j <= NDIRECT -> bslot g (with_addrs a) (slot_of j) = addr_at (with_addrs a) j /\ 0 <= slot_of j <= MAXFILE.
Proof.
  intros Hj. unfold slot_of. destruct (Z.eqb_spec j NDIRECT) as [->|]; [split; [apply bslot_max | fslia]|]. split; [|fslia].
  unfold bslot. destruct (Z.eqb_spec j MAXFILE); [fslia|]. by destruct (Z.ltb_spec j NDIRECT); [|lia].
Qed.

Lemma free_not_indirect s a : sectors s -> laid_out (blocks_of s) (freeblock s) a -> freeblock s <> addr_at (with_addrs a) NDIRECT.
Proof.
  intros S L E. pose proof (se_free _ S). rewrite <-(bslot_max (blocks_of s)) in E.
  pose proof (la_range _ _ _ L MAXFILE ltac:(fslia) ltac:(rewrite <-E; mkfslia)). lia.
Qed.
Lemma entry_ok s din j : sectors s -> laid_out (blocks_of s) (freeblock s) (d_addrs din) -> 0 <= j <= NDIRECT ->
  freeblock s < FSSIZE ->
  exists a' s', iappend_entry din j s = Ok (mk_dinode (d_type din) (d_major din) (d_minor din) (d_nlink din) (d_size din) a') s' /\
    grows s (d_addrs din) s' a' /\ same_blocks s (d_addrs din) s' a' /\ addr_at (with_addrs a') j <> 0 /\
    other_slots s (d_addrs din) s' a' (slot_of j) /\
    freeblock s' = freeblock s + (if addr din j =? 0 then 1 else 0).
Proof.
  intros S L Hj Hf. pose proof (se_free _ S) as Hs. unfold iappend_entry. change (addr din j) with (addr_at (with_addrs (d_addrs din)) j).
  set (a := d_addrs din) in *. pose proof (la_len _ _ _ L) as Hl.
  assert (addr_at (with_addrs a) j <> 0 -> nmeta <= addr_at (with_addrs a) j < freeblock s) as Hrange.
  { destruct (bslot_slot_of (blocks_of s) a j Hj) as [<- Hso]. by apply (la_range _ _ _ L). }
  destruct (Z.eqb_spec (addr_at (with_addrs a) j) 0) as [Hz|Hnz].
  - rewrite Hz, xint_id by done. cbn [Z.eqb]. mrun (next_block_ok s S). rewrite xint_id by mkfslia.
    exists (<[Z.to_nat j := freeblock s]> a), (set_freeblock (freeblock s + 1) s). split; [done|].
    destruct (bslot_slot_of (blocks_of s) a j Hj) as [Eso Hso].
    assert (forall j', 0 <= j' <= MAXFILE -> bslot (blocks_of (set_freeblock (freeblock s + 1) s)) (with_addrs (<[Z.to_nat j := freeblock s]> a)) j' =
      if decide (j' = slot_of j) then freeblock s else bslot (blocks_of s) (with_addrs a) j') as Hsl.
    { intros j' Hj'. change (blocks_of (set_freeblock _ s)) with (blocks_of s).
      apply bslot_entry; try done; [mkfslia | by apply sectors_zero]. }
    destruct (grows_add s a (set_freeblock (freeblock s + 1) s) (<[Z.to_nat j := freeblock s]> a) (slot_of j)) as [G C]; try done.
    + by apply sectors_next.
    + by rewrite length_insert.
    + congruence.
    + by apply (free_not_indirect s).
    + split_and!; [done | done | | | cbn; lia].
      * rewrite addr_insert by (done || lia). rewrite decide_True by done. mkfslia.
      * intros j' Hj' Hne. rewrite Hsl by done. by rewrite decide_False.
  - rewrite xint_id by mkfslia. rewrite (proj2 (Z.eqb_neq _ 0)) by done. exists a, s. destruct din.
    split_and!; [done | by apply grows_refl | done | done | done | lia].
Qed.

Lemma bslot_ext g g' a j : g' (addr_at (with_addrs a) NDIRECT) = g (addr_at (with_addrs a) NDIRECT) ->
  bslot g' (with_addrs a) j = bslot g (with_addrs a) j.
Proof. intros E. unfold bslot. by rewrite E. Qed.

Lemma indirect_ok s din fbn : sectors s -> laid_out (blocks_of s) (freeblock s) (d_addrs din) -> NDIRECT <= fbn < MAXFILE ->
  freeblock s < FSSIZE -> addr_at (with_addrs (d_addrs din)) NDIRECT <> 0 ->
  exists x s', iappend_indirect din fbn s = Ok (din, x) s' /\
    grows s (d_addrs din) s' (d_addrs din) /\ same_blocks s (d_addrs din) s' (d_addrs din) /\
    bslot (blocks_of s') (with_addrs (d_addrs din)) fbn = x /\ x <> 0 /\ other_slots s (d_addrs din) s' (d_addrs din) fbn /\
    freeblock s' = freeblock s + (if bslot (blocks_of s) (with_addrs (d_addrs din)) fbn =? 0 then 1 else 0).
Proof.
  intros S L Hfbn Hf Hi. pose proof (se_free _ S) as Hs. set (a := d_addrs din) in *. unfold iappend_indirect.
  change (addr din NDIRECT) with (addr_at (with_addrs a) NDIRECT). set (ind := addr_at (with_addrs a) NDIRECT) in *.
  assert (nmeta <= ind < freeblock s) as Hir.
  { unfold ind. rewrite <-(bslot_max (blocks_of s)). apply (la_range _ _ _ L); [fslia | by rewrite bslot_max]. }
  destruct (sectors_block s ind S ltac:(mkfslia)) as [_ Hlen].
  assert (bslot (blocks_of s) (with_addrs a) fbn = word (blocks_of s ind) (fbn - NDIRECT)) as Esl.
  { unfold bslot. fold ind. rewrite (proj2 (Z.eqb_neq fbn MAXFILE)), (proj2 (Z.ltb_ge fbn NDIRECT)), (proj2 (Z.eqb_neq ind 0)) by lia. done. }
  rewrite xint_id by mkfslia. mrun (rsect_ok s ind S ltac:(mkfslia)). rewrite <-Esl.
  destruct (Z.eqb_spec (bslot (blocks_of s) (with_addrs a) fbn) 0) as [Hz|Hnz].
  - mrun (next_block_ok s S). rewrite xint_id by mkfslia.
    set (v := set_word (fbn - NDIRECT) (freeblock s) (blocks_of s ind)).
    assert (length v = Z.to_nat BSIZE) as Hlv by (unfold v; rewrite set_word_length; fslia).
    set (s' := set_im (<[ind := v]> (im s)) (set_freeblock (freeblock s + 1) s)).
    assert (word v (fbn - NDIRECT) = freeblock s) as Ew.
    { unfold v. rewrite word_set_word by mkfslia. by rewrite decide_True. }
    exists (freeblock s), s'. split.
    { fold v. mrun (wsect_ok ind v (set_freeblock (freeblock s + 1) s)). by rewrite Ew, xint_id by mkfslia. }
    assert (forall j, 0 <= j <= MAXFILE -> bslot (blocks_of s') (with_addrs a) j =
      if decide (j = fbn) then freeblock s else bslot (blocks_of s) (with_addrs a) j) as Hsl.
    { intros j Hj. rewrite <-(bslot_indirect (blocks_of s) a fbn (freeblock s) j); [apply bslot_ext | done | mkfslia | done | done | done].
      fold ind. unfold fupd. rewrite decide_True by done. unfold s', blocks_of. cbn. by rewrite lookup_insert_eq. }
    destruct (grows_add s a s' a fbn) as [G C]; try done.
    + apply (sectors_write (set_freeblock (freeblock s + 1) s)); [by apply sectors_next | | done].
      assert (0 <= ind < freeblock s + 1) as Hb by mkfslia. exact Hb.
    + apply (la_len _ _ _ L).
    + fslia.
    + intros n Hn. fold ind in Hn. assert (ind <> n) as Hne by mkfslia. exact (lookup_insert_ne (im s) ind n v Hne).
    + by apply free_not_indirect.
    + split_and!; [done | done | rewrite Hsl by fslia; by rewrite decide_True | mkfslia | | done].
      intros j Hj Hne. rewrite Hsl by done. by rewrite decide_False.
  - pose proof (la_range _ _ _ L fbn ltac:(fslia) Hnz). rewrite xint_id by mkfslia. eexists _, s.
    split_and!; [done | by apply grows_refl | done | done | done | done | lia].
Qed.

(** The sector of block [fbn]; [cost] is how many it takes. *)
Definition block_cost (g : Z -> list Z) (a : list Z) (fbn : Z) : Z :=
  (if bslot g (with_addrs a) fbn =? 0 then 1 else 0) +
  (if (NDIRECT <=? fbn) && (addr_at (with_addrs a) NDIRECT =? 0) then 1 else 0).

(** Only the slot of the indirect block is new. *)
Lemma first_slot s a s1 a1 fbn : sectors s -> grows s a s1 a1 -> 0 <= fbn < MAXFILE -> addr_at (with_addrs a1) NDIRECT <> 0 ->
  freeblock s1 = freeblock s + (if addr_at (with_addrs a) NDIRECT =? 0 then 1 else 0) ->
  (bslot (blocks_of s1) (with_addrs a1) fbn =? 0) = (bslot (blocks_of s) (with_addrs a) fbn =? 0).
Proof.
  intros S G Hfbn Hnz Hfb. destruct (gr_slot _ _ _ _ G fbn ltac:(lia)) as [->|[E Hr]]; [done|]. exfalso.
  destruct (gr_slot _ _ _ _ G MAXFILE ltac:(fslia)) as [Em|[_ Hm]]; rewrite !bslot_max in *.
  - rewrite <-Em, (proj2 (Z.eqb_neq _ 0) Hnz) in Hfb. lia.
  - destruct (_ =? 0); [|lia]. pose proof (la_inj _ _ _ (gr_laid _ _ _ _ G) fbn MAXFILE ltac:(lia) ltac:(fslia)) as Hi.
    pose proof (se_free _ S). rewrite bslot_max in Hi. mkfslia.
Qed.
Lemma block_ok s din fbn : sectors s -> laid_out (blocks_of s) (freeblock s) (d_addrs din) -> 0 <= fbn < MAXFILE ->
  freeblock s + 2 <= FSSIZE ->
  exists a' x s', iappend_block din fbn s =
      Ok (mk_dinode (d_type din) (d_major din) (d_minor din) (d_nlink din) (d_size din) a', x) s' /\
    grows s (d_addrs din) s' a' /\ same_blocks s (d_addrs din) s' a' /\
    bslot (blocks_of s') (with_addrs a') fbn = x /\ x <> 0 /\
    (forall j, 0 <= j < MAXFILE -> j <> fbn -> bslot (blocks_of s') (with_addrs a') j = bslot (blocks_of s) (with_addrs (d_addrs din)) j) /\
    (if decide (fbn < NDIRECT) then addr_at (with_addrs a') NDIRECT = addr_at (with_addrs (d_addrs din)) NDIRECT
     else addr_at (with_addrs a') NDIRECT <> 0) /\
    freeblock s' = freeblock s + block_cost (blocks_of s) (d_addrs din) fbn.
Proof.
  intros S L Hfbn Hf. unfold iappend_block, block_cost. destruct (Z.ltb_spec fbn NDIRECT) as [Hd|Hd].
  - destruct (entry_ok s din fbn S L ltac:(lia) ltac:(lia)) as (a' & s' & R & G & C & Hnz & Ho & Hfb).
    mrun R. pose proof (gr_laid _ _ _ _ G) as L'.
    assert (bslot (blocks_of s') (with_addrs a') fbn = addr_at (with_addrs a') fbn) as Esl.
    { destruct (bslot_slot_of (blocks_of s') a' fbn ltac:(lia)) as [<- _]. unfold slot_of. by rewrite (proj2 (Z.eqb_neq fbn NDIRECT)) by lia. }
    exists a', (addr_at (with_addrs a') fbn), s'. change (addr _ fbn) with (addr_at (with_addrs a') fbn) at 1.
    pose proof (la_range _ _ _ L' fbn ltac:(fslia) ltac:(congruence)) as Hr. pose proof (se_free _ (gr_sectors _ _ _ _ G)).
    rewrite Esl in Hr. rewrite xint_id by mkfslia.
    assert (slot_of fbn = fbn) as Hso by (unfold slot_of; by rewrite (proj2 (Z.eqb_neq fbn NDIRECT)) by lia). rewrite Hso in Ho.
    split_and!; [done | done | done | done | done | | |].
    { intros j Hj Hne. apply Ho; [lia | done]. }
    { rewrite decide_True by done. rewrite <-(bslot_max (blocks_of s')), <-(bslot_max (blocks_of s)). apply Ho; fslia. }
    rewrite Hfb. rewrite (proj2 (Z.leb_gt NDIRECT fbn)) by lia. cbn [andb].
    assert (bslot (blocks_of s) (with_addrs (d_addrs din)) fbn = addr_at (with_addrs (d_addrs din)) fbn) as ->; [|by rewrite Z.add_0_r].
    destruct (bslot_slot_of (blocks_of s) (d_addrs din) fbn ltac:(lia)) as [<- _]. unfold slot_of.
    by rewrite (proj2 (Z.eqb_neq fbn NDIRECT)) by lia.
  - destruct (entry_ok s din NDIRECT S L ltac:(fslia) ltac:(lia)) as (a1 & s1 & R1 & G1 & C1 & Hnz1 & Ho1 & Hfb1).
    change (addr din NDIRECT) with (addr_at (with_addrs (d_addrs din)) NDIRECT) in Hfb1.
    set (din1 := mk_dinode _ _ _ _ _ a1) in *.
    destruct (indirect_ok s1 din1 fbn (gr_sectors _ _ _ _ G1) (gr_laid _ _ _ _ G1) ltac:(lia)) as (x & s2 & R2 & G2 & C2 & E2 & Hx & Ho2 & Hfb2);
      [destruct (_ =? 0); lia | done |].
    exists a1, x, s2. split; [mrun R1; exact R2|]. split_and!; [by eapply grows_trans | | done | done | | |].
    + intros j Hj. by rewrite C2, C1.
    + intros j Hj Hne. rewrite Ho2 by lia. apply Ho1; [lia|]. unfold slot_of. rewrite Z.eqb_refl. lia.
    + by rewrite decide_False by lia.
    + cbn in Hfb2. rewrite Hfb2, Hfb1, (proj2 (Z.leb_le NDIRECT fbn)) by lia. cbn [andb].
      rewrite (first_slot s (d_addrs din) s1 a1 fbn S G1); [lia | fslia | done |]. by rewrite Hfb1.
Qed.

(** *** Writing into a sector *)

Lemma store_ok s a fbn k src :
  let x := bslot (blocks_of s) (with_addrs a) fbn in
  let s' := set_im (<[x := splice k src (blocks_of s x)]> (im s)) s in
  sectors s -> laid_out (blocks_of s) (freeblock s) a -> 0 <= fbn < MAXFILE -> x <> 0 -> (k + length src <= Z.to_nat BSIZE)%nat ->
  grows s a s' a /\
  (forall j, 0 <= j <= MAXFILE -> bslot (blocks_of s') (with_addrs a) j = bslot (blocks_of s) (with_addrs a) j) /\
  (forall j, 0 <= j < MAXFILE -> fblock (blocks_of s') (with_addrs a) j =
     if decide (j = fbn) then splice k src (fblock (blocks_of s) (with_addrs a) j) else fblock (blocks_of s) (with_addrs a) j).
Proof.
  intros x s' S L Hfbn Hx Hk. pose proof (se_free _ S) as Hs. pose proof (la_range _ _ _ L fbn ltac:(lia) Hx) as Hr. fold x in Hr.
  destruct (sectors_block s x S ltac:(mkfslia)) as [_ Hlen].
  assert (forall n, blocks_of s' n = if decide (x = n) then splice k src (blocks_of s x) else blocks_of s n) as Hb
    by (intros n; apply blocks_of_write).
  assert (forall j, 0 <= j <= MAXFILE -> bslot (blocks_of s') (with_addrs a) j = bslot (blocks_of s) (with_addrs a) j) as Hsl.
  { intros j Hj. apply bslot_ext. rewrite Hb, decide_False; [done|]. rewrite <-(bslot_max (blocks_of s)). intros E.
    pose proof (la_inj _ _ _ L fbn MAXFILE ltac:(lia) ltac:(fslia) Hx E). lia. }
  assert (sectors s') as S' by (apply sectors_write; [done | mkfslia | rewrite splice_length; lia]).
  split_and!; [split | done |]; try done.
  - split; [apply (la_len _ _ _ L) | |].
    + intros j Hj. rewrite Hsl by done. by apply (la_range _ _ _ L).
    + intros i j Hi Hj. rewrite !Hsl by done. by apply (la_inj _ _ _ L).
  - intros j Hj. left. by apply Hsl.
  - intros n Hn Ho. cbn. apply lookup_insert_ne. intros <-. apply Ho. split; [done|]. exists fbn. split; [lia | done].
  - intros j Hj. unfold fblock. rewrite Hsl by lia. destruct (decide (j = fbn)) as [->|Hne].
    + fold x. rewrite (proj2 (Z.eqb_neq x 0) Hx). by rewrite Hb, decide_True.
    + destruct (Z.eqb_spec (bslot (blocks_of s) (with_addrs a) j) 0) as [|Hj0]; [done|]. rewrite Hb, decide_False; [done|].
      intros E. apply Hne. symmetry. by apply (la_inj _ _ _ L fbn j); [lia | lia | |].
Qed.

(** *** Contents *)

(** The first [off] bytes of the file have sectors, and no others. *)
Record filled (g : Z -> list Z) (a : list Z) (off : Z) : Prop := {
  fi_slot j : 0 <= j < MAXFILE -> bslot g (with_addrs a) j = 0 <-> off <= j * BSIZE;
  fi_ind : addr_at (with_addrs a) NDIRECT = 0 <-> off <= NDIRECT * BSIZE;
}.
Lemma fblock_length s a j : sectors s -> laid_out (blocks_of s) (freeblock s) a -> 0 <= j < MAXFILE ->
  length (fblock (blocks_of s) (with_addrs a) j) = Z.to_nat BSIZE.
Proof.
  intros S L Hj. unfold fblock. destruct (Z.eqb_spec (bslot (blocks_of s) (with_addrs a) j) 0) as [|Hnz]; [apply length_replicate|].
  pose proof (la_range _ _ _ L j ltac:(lia) Hnz). pose proof (se_free _ S). apply sectors_block; [done | mkfslia].
Qed.

(** How many sectors a file of [n] bytes takes. *)
Definition need (n : Z) : Z := (n + BSIZE - 1) / BSIZE + (if NDIRECT * BSIZE <? n then 1 else 0).

Lemma cost_need g a off n : filled g a off -> 0 <= off -> 0 < n <= BSIZE - off mod BSIZE -> off / BSIZE < MAXFILE ->
  block_cost g a (off / BSIZE) = need (off + n) - need off.
Proof.
  intros [F1 F2] Ho Hn Hm. unfold block_cost, need. specialize (F1 (off / BSIZE) ltac:(klia)).
  destruct (Z.eqb_spec (bslot g (with_addrs a) (off / BSIZE)) 0), (Z.eqb_spec (addr_at (with_addrs a) NDIRECT) 0);
    destruct (Z.leb_spec NDIRECT (off / BSIZE)); cbn [andb];
    destruct (Z.ltb_spec (NDIRECT * BSIZE) (off + n)), (Z.ltb_spec (NDIRECT * BSIZE) off); klia.
Qed.

(** [src] was written at [off], the end of the file. *)
Record appended (s : image) (a : list Z) (off : Z) (src : list Z) (s' : image) (a' : list Z) : Prop := {
  ap_grows : grows s a s' a';
  ap_bytes p : 0 <= p < MAXFILE * BSIZE -> fbyte (blocks_of s') (with_addrs a') p =
    if decide (off <= p < off + Z.of_nat (length src)) then nth (Z.to_nat (p - off)) src 0
    else fbyte (blocks_of s) (with_addrs a) p;
  ap_filled : filled (blocks_of s') a' (off + Z.of_nat (length src));
  ap_free : freeblock s' = freeblock s + need (off + Z.of_nat (length src)) - need off;
}.

Lemma need_mono n m : 0 <= n <= m -> need n <= need m.
Proof. intros Hn. unfold need. destruct (Z.ltb_spec (NDIRECT * BSIZE) n), (Z.ltb_spec (NDIRECT * BSIZE) m); klia. Qed.

Lemma appended_nil s a off : sectors s -> laid_out (blocks_of s) (freeblock s) a -> filled (blocks_of s) a off -> appended s a off [] s a.
Proof.
  intros S L F. split; cbn [length]; rewrite ?Z.add_0_r; [by apply grows_refl | | done | lia].
  intros p Hp. by rewrite decide_False by lia.
Qed.
Lemma appended_app s1 a1 off p q s2 a2 s3 a3 : sectors s1 ->
  appended s1 a1 off p s2 a2 -> appended s2 a2 (off + Z.of_nat (length p)) q s3 a3 -> appended s1 a1 off (p ++ q) s3 a3.
Proof.
  intros S [G1 B1 F1 N1] [G2 B2 F2 N2]. rewrite <-Z.add_assoc, <-Nat2Z.inj_add, <-length_app in F2, N2. split.
  - by eapply grows_trans.
  - intros x Hx. rewrite B2, B1 by done. rewrite length_app. repeat case_decide; try lia; try done.
    + rewrite app_nth2 by lia. f_equal. lia.
    + by rewrite app_nth1 by lia.
  - done.
  - lia.
Qed.

(** A turn of the loop. *)
Lemma turn_ok s din off src :
  sectors s -> laid_out (blocks_of s) (freeblock s) (d_addrs din) -> filled (blocks_of s) (d_addrs din) off ->
  0 <= off -> off / BSIZE < MAXFILE -> off mod BSIZE + Z.of_nat (length src) <= BSIZE -> (0 < length src)%nat ->
  freeblock s + 2 <= FSSIZE ->
  exists a' x s1 s', iappend_block din (off / BSIZE) s =
      Ok (mk_dinode (d_type din) (d_major din) (d_minor din) (d_nlink din) (d_size din) a', x) s1 /\
    rsect x s1 = Ok (blocks_of s1 x) s1 /\ wsect x (splice (Z.to_nat (off mod BSIZE)) src (blocks_of s1 x)) s1 = Ok tt s' /\
    appended s (d_addrs din) off src s' a'.
Proof.
  intros S L F Ho Hm Hin Hsrc Hf. set (fbn := off / BSIZE) in *. assert (0 <= fbn < MAXFILE) as Hfbn by (unfold fbn; klia).
  destruct (block_ok s din fbn S L Hfbn Hf) as (a' & x & s1 & R1 & G1 & C1 & E1 & Hx & Ho1 & Hi1 & Hfb1).
  pose proof (gr_laid _ _ _ _ G1) as L1. pose proof (gr_sectors _ _ _ _ G1) as S1.
  destruct (store_ok s1 a' fbn (Z.to_nat (off mod BSIZE)) src S1 L1 Hfbn) as (G2 & Sl2 & B2); [congruence | klia |].
  rewrite E1 in *. pose proof (la_range _ _ _ L1 fbn ltac:(lia) ltac:(congruence)) as Hr. rewrite E1 in Hr. pose proof (se_free _ S1).
  exists a', x, s1. eexists. split; [exact R1|]. split; [apply rsect_ok; [done | mkfslia]|]. split; [apply wsect_ok|].
  rewrite (cost_need _ _ off (Z.of_nat (length src))) in Hfb1 by (done || klia).
  split; [by eapply grows_trans | | |cbn; lia].
  - intros p Hp. unfold fbyte. rewrite B2 by klia. destruct (decide (p / BSIZE = fbn)) as [Hb|Hb].
    + rewrite splice_nth; [|rewrite fblock_length by (done || klia); klia]. rewrite C1 by klia.
      repeat case_decide; try klia; f_equal; klia.
    + rewrite C1 by klia. rewrite decide_False; [done|]. intros Hp'. apply Hb. unfold fbn. klia.
  - destruct F as [F1 F2]. split.
    + intros j Hj. rewrite Sl2 by lia. destruct (decide (j = fbn)) as [->|Hne].
      * rewrite E1. unfold fbn in *. klia.
      * rewrite Ho1 by done. rewrite F1 by done. unfold fbn in *. klia.
    + destruct (decide (fbn < NDIRECT)) as [Hd|Hd]; [rewrite Hi1, F2|]; unfold fbn in *; klia.
Qed.

Lemma iappend_loop_ok fuel : forall din off p s,
  sectors s -> laid_out (blocks_of s) (freeblock s) (d_addrs din) -> filled (blocks_of s) (d_addrs din) off ->
  0 <= off -> off + Z.of_nat (length p) <= MAXFILE * BSIZE -> (length p < fuel)%nat ->
  freeblock s + need (off + Z.of_nat (length p)) - need off + 2 <= FSSIZE ->
  exists a' s', iappend_loop fuel din off p s =
      Ok (mk_dinode (d_type din) (d_major din) (d_minor din) (d_nlink din) (d_size din) a', off + Z.of_nat (length p)) s' /\
    appended s (d_addrs din) off p s' a'.
Proof.
  induction fuel as [|fuel IH]; intros din off p s S L F Ho Hm Hf Hfr; [lia|]. cbn [iappend_loop].
  destruct (Z.ltb_spec 0 (Z.of_nat (length p))) as [Hp|Hp].
  2: { destruct p; [|cbn in Hp; lia]. exists (d_addrs din), s. split; [cbn; rewrite Z.add_0_r; by destruct din | by apply appended_nil]. }
  set (n1 := Z.min (Z.of_nat (length p)) ((off / BSIZE + 1) * BSIZE - off)).
  assert (0 < n1 <= Z.of_nat (length p) /\ off mod BSIZE + n1 <= BSIZE) as [Hn1 Hn1'] by (unfold n1; klia).
  assert (length (take (Z.to_nat n1) p) = Z.to_nat n1) as Hlt by (rewrite length_take; lia).
  assert (length (drop (Z.to_nat n1) p) = Z.to_nat (Z.of_nat (length p) - n1)) as Hld by (rewrite length_drop; lia).
  pose proof (need_mono off (off + Z.of_nat (length p)) ltac:(lia)).
  destruct (turn_ok s din off (take (Z.to_nat n1) p) S L F Ho) as (a1 & x & s1 & s2 & R1 & R2 & R3 & A); [klia | lia | lia | lia |].
  unfold assert_. rewrite (proj2 (Z.ltb_lt (off / BSIZE) MAXFILE)) by klia. rewrite bind_ret_l. mrun R1. mrun R2.
  replace (off - off / BSIZE * BSIZE) with (off mod BSIZE) by klia. mrun R3.
  pose proof (ap_grows _ _ _ _ _ _ A) as G. pose proof (ap_free _ _ _ _ _ _ A) as Hfb. pose proof (ap_filled _ _ _ _ _ _ A) as F2.
  rewrite Hlt, Z2Nat.id in Hfb, F2 by lia.
  edestruct (IH (mk_dinode (d_type din) (d_major din) (d_minor din) (d_nlink din) (d_size din) a1) (off + n1) (drop (Z.to_nat n1) p) s2)
    as (a3 & s3 & R4 & A3); [apply G | apply G | done | lia | lia | lia | |].
  { rewrite Hld, Z2Nat.id by lia. replace (off + n1 + (Z.of_nat (length p) - n1)) with (off + Z.of_nat (length p)) by lia. lia. }
  exists a3, s3. split; [rewrite R4, Hld; do 2 f_equal; lia|].
  rewrite <-(take_drop (Z.to_nat n1) p). eapply appended_app; [done | exact A|]. by rewrite Hlt, Z2Nat.id by lia.
Qed.

(** ** Inodes *)

Definition dinode_at (g : Z -> list Z) (n : Z) : dinode := get_dinode (g (IBLOCK n sb)) (n mod IPB).
Definition addrs_at (s : image) (n : Z) : list Z := d_addrs (dinode_at (blocks_of s) n).

(** There are 208 inodes in the inode blocks. *)
Lemma IBLOCK_sb n : 0 <= n < 208 -> IBLOCK n sb = n / 8 + 32 /\ 32 <= IBLOCK n sb < 58.
Proof.
  intros Hn. rewrite sb_eq. unfold IBLOCK. cbn [sb_inodestart]. change IPB with 8. rewrite u32_small; [lia|]. unfold is_u32. lia.
Qed.
Lemma rinode_ok s n : sectors s -> 0 <= n < 208 -> rinode n s = Ok (dinode_at (blocks_of s) n) s.
Proof. intros S Hn. destruct (IBLOCK_sb n Hn) as [_ Hb]. unfold rinode. by mrun (rsect_ok s (IBLOCK n sb) S ltac:(fslia)). Qed.

Lemma winode_ok s n d : sectors s -> 0 <= n < 208 -> dinode_fits d ->
  exists s', winode n d s = Ok tt s' /\ sectors s' /\ freeinode s' = freeinode s /\ freeblock s' = freeblock s /\
    dinode_at (blocks_of s') n = d /\
    (forall m, 0 <= m < 208 -> m <> n -> dinode_at (blocks_of s') m = dinode_at (blocks_of s) m) /\
    (forall b, ~ 32 <= b < 58 -> im s' !! b = im s !! b).
Proof.
  intros S Hn Hd. destruct (IBLOCK_sb n Hn) as [En Hb]. pose proof (se_free _ S). unfold winode.
  mrun (rsect_ok s (IBLOCK n sb) S ltac:(fslia)). destruct (sectors_block s (IBLOCK n sb) S ltac:(fslia)) as [_ Hlen].
  pose proof (dinode_bytes_length d (proj1 (df_addrs _ Hd))) as Hdl.
  assert (length (put_dinode (n mod IPB) d (blocks_of s (IBLOCK n sb))) = Z.to_nat BSIZE) as Hlp
    by (unfold put_dinode; rewrite splice_length; fslia).
  eexists. split; [apply wsect_ok|]. split_and!; try done.
  - apply sectors_write; [done | mkfslia | done].
  - unfold dinode_at. rewrite blocks_of_write, decide_True by done. apply get_put_dinode; [done | fslia | done].
  - intros m Hm Hne. destruct (IBLOCK_sb m Hm) as [Em _]. unfold dinode_at. rewrite blocks_of_write. case_decide as Eb; [|done].
    rewrite Eb. apply get_put_dinode_other; [apply Hd | fslia | fslia | fslia | by rewrite <-Eb].
  - intros b Hb'. cbn. apply lookup_insert_ne. lia.
Qed.

Lemma laid_u32 g fb a : laid_out g fb a -> fb <= FSSIZE -> Forall is_u32 a.
Proof.
  intros L Hfb. apply Forall_lookup_2. intros i x Hi. pose proof (lookup_lt_Some _ _ _ Hi) as Hlt. rewrite (la_len _ _ _ L) in Hlt.
  destruct (bslot_slot_of g a (Z.of_nat i) ltac:(fslia)) as [E Hs]. unfold addr_at in E. cbn in E.
  rewrite nth_lookup, Nat2Z.id, Hi in E. cbn in E. destruct (decide (x = 0)) as [->|Hx]; [done|].
  pose proof (la_range _ _ _ L _ Hs ltac:(congruence)). mkfslia.
Qed.

(** A file whose sectors do not change. *)
Lemma file_frame g g' fb fb' a : laid_out g fb a -> (forall n, owns g a n -> g' n = g n) -> fb <= fb' ->
  (forall j, 0 <= j <= MAXFILE -> bslot g' (with_addrs a) j = bslot g (with_addrs a) j) /\ laid_out g' fb' a /\
  (forall p, 0 <= p < MAXFILE * BSIZE -> fbyte g' (with_addrs a) p = fbyte g (with_addrs a) p).
Proof.
  intros L Hg Hfb.
  assert (forall j, 0 <= j <= MAXFILE -> bslot g' (with_addrs a) j = bslot g (with_addrs a) j) as Hsl.
  { intros j Hj. unfold bslot. destruct (Z.eqb_spec (addr_at (with_addrs a) NDIRECT) 0) as [|Hi]; [done|]. rewrite Hg; [done|].
    split; [done|]. exists MAXFILE. split; [fslia | apply bslot_max]. }
  split_and!; [done | split; [apply L | |] |].
  - intros j Hj. rewrite Hsl by done. intros Hnz. pose proof (la_range _ _ _ L j Hj Hnz). lia.
  - intros i j Hi Hj. rewrite !Hsl by done. by apply (la_inj _ _ _ L).
  - intros p Hp. unfold fbyte, fblock. rewrite Hsl by klia. destruct (Z.eqb_spec (bslot g (with_addrs a) (p / BSIZE)) 0) as [|Hnz]; [done|].
    rewrite Hg; [done|]. split; [done|]. exists (p / BSIZE). split; [klia | done].
Qed.

(** Inode [n] is a file of type [t] with the contents [c]. *)
Record file_at (s : image) (n t : Z) (c : list Z) : Prop := {
  fa_din : dinode_at (blocks_of s) n = mk_dinode t 0 0 1 (Z.of_nat (length c)) (addrs_at s n);
  fa_laid : laid_out (blocks_of s) (freeblock s) (addrs_at s n);
  fa_filled : filled (blocks_of s) (addrs_at s n) (Z.of_nat (length c));
  fa_bytes p : 0 <= p < MAXFILE * BSIZE -> fbyte (blocks_of s) (with_addrs (addrs_at s n)) p = nth (Z.to_nat p) c 0;
  fa_max : Z.of_nat (length c) <= MAXFILE * BSIZE;
}.

(** The files that were made so far, from inode 1 on. *)
Definition demand (fs : list (Z * list Z)) : Z := foldr (fun f n => need (Z.of_nat (length f.2)) + n) 0 fs.
Record built (s : image) (fs : list (Z * list Z)) : Prop := {
  bu_sectors : sectors s;
  bu_inodes : freeinode s = 1 + Z.of_nat (length fs);
  bu_count : (length fs < 207)%nat;
  bu_free : freeblock s = nmeta + demand fs;
  bu_file i t c : fs !! i = Some (t, c) -> file_at s (1 + Z.of_nat i) t c;
  bu_apart i j n : (i < length fs)%nat -> (j < length fs)%nat ->
    owns (blocks_of s) (addrs_at s (1 + Z.of_nat i)) n -> owns (blocks_of s) (addrs_at s (1 + Z.of_nat j)) n -> i = j;
}.

Lemma demand_cons f fs : demand (f :: fs) = need (Z.of_nat (length f.2)) + demand fs.
Proof. done. Qed.
Lemma demand_app fs gs : demand (fs ++ gs) = demand fs + demand gs.
Proof. induction fs as [|f fs IH]; [done|]. cbn [app]. rewrite !demand_cons, IH. lia. Qed.
Lemma demand_insert fs i f f' : fs !! i = Some f ->
  demand (<[i := f']> fs) = demand fs - need (Z.of_nat (length f.2)) + need (Z.of_nat (length f'.2)).
Proof.
  revert i. induction fs as [|g fs IH]; intros [|i] Hi; try done.
  - injection Hi as ->. cbn [insert list_insert]. rewrite !demand_cons. lia.
  - change (<[S i := f']> (g :: fs)) with (g :: <[i := f']> fs). rewrite !demand_cons, (IH i Hi). lia.
Qed.

Lemma owns_range s n t c b : file_at s n t c -> owns (blocks_of s) (addrs_at s n) b -> nmeta <= b < freeblock s.
Proof. intros F (Hb & j & Hj & <-). by apply (la_range _ _ _ (fa_laid _ _ _ _ F)). Qed.

(** A file that another one's change leaves alone. *)
Lemma file_at_frame s s' n t c : file_at s n t c -> freeblock s <= freeblock s' ->
  dinode_at (blocks_of s') n = dinode_at (blocks_of s) n ->
  (forall b, owns (blocks_of s) (addrs_at s n) b -> im s' !! b = im s !! b) ->
  file_at s' n t c /\ forall b, owns (blocks_of s') (addrs_at s' n) b -> owns (blocks_of s) (addrs_at s n) b.
Proof.
  intros [F1 F2 F3 F4 F5] Hfb Hd Hb. assert (addrs_at s' n = addrs_at s n) as Ha by (unfold addrs_at; by rewrite Hd).
  destruct (file_frame (blocks_of s) (blocks_of s') (freeblock s) (freeblock s') (addrs_at s n) F2) as (Hsl & L & By);
    [intros b Ho; unfold blocks_of; by rewrite (Hb b Ho) | done |].
  split.
  - split; rewrite ?Ha; try done.
    + by rewrite Hd, F1.
    + destruct F3 as [F31 F32]. split; [|done]. intros j Hj. rewrite Hsl by lia. by apply F31.
    + intros p Hp. rewrite By by done. by apply F4.
  - intros b (Hb0 & j & Hj & <-). rewrite Ha in *. rewrite Hsl in * by done. split; [done|]. by exists j.
Qed.

(** *** iappend *)

Section append.
Context (s : image) (fs : list (Z * list Z)) (i : nat) (t : Z) (c p : list Z) (a1 : list Z) (s1 s2 : image).
Let n : Z := 1 + Z.of_nat i.
Context (B : built s fs) (Hi : fs !! i = Some (t, c)).
Context (Hm : Z.of_nat (length c) + Z.of_nat (length p) <= MAXFILE * BSIZE).
Context (A : appended s (addrs_at s n) (Z.of_nat (length c)) p s1 a1).
Context (S2 : sectors s2) (Hin : freeinode s2 = freeinode s1) (Hfb : freeblock s2 = freeblock s1).
Context (Hd : dinode_at (blocks_of s2) n = mk_dinode t 0 0 1 (Z.of_nat (length c) + Z.of_nat (length p)) a1).
Context (Hod : forall m, 0 <= m < 208 -> m <> n -> dinode_at (blocks_of s2) m = dinode_at (blocks_of s1) m).
Context (Him : forall b, ~ 32 <= b < 58 -> im s2 !! b = im s1 !! b).

Lemma append_meta b : b < nmeta -> im s1 !! b = im s !! b.
Proof.
  intros Hb. pose proof (se_free _ (bu_sectors _ _ B)). apply (gr_frame _ _ _ _ (ap_grows _ _ _ _ _ _ A)); [lia|].
  intros Ho. pose proof (owns_range _ _ _ _ _ (bu_file _ _ B i t c Hi) Ho). lia.
Qed.
Lemma append_self : file_at s2 n t (c ++ p) /\ forall b, owns (blocks_of s2) (addrs_at s2 n) b -> owns (blocks_of s1) a1 b.
Proof.
  pose proof (bu_file _ _ B i t c Hi) as F. destruct A as [G By Fi Fr]. pose proof (gr_laid _ _ _ _ G) as L1.
  assert (addrs_at s2 n = a1) as Ha by (unfold addrs_at; by rewrite Hd).
  destruct (file_frame (blocks_of s1) (blocks_of s2) (freeblock s1) (freeblock s2) a1 L1) as (Hsl & L2 & By2); [| lia |].
  { intros b (Hb & j & Hj & <-). pose proof (la_range _ _ _ L1 j Hj Hb). apply blocks_of_same, Him. mkfslia. }
  split; [split; rewrite ?Ha, ?length_app, ?Nat2Z.inj_add | intros b (Hb & j & Hj & E)].
  - by rewrite Hd.
  - done.
  - destruct Fi as [F1 F2]. split; [|done]. intros j Hj. rewrite Hsl by lia. by apply F1.
  - intros x Hx. rewrite By2, By by done. rewrite (fa_bytes _ _ _ _ F) by done. case_decide.
    + rewrite app_nth2 by lia. f_equal. lia.
    + destruct (decide (x < Z.of_nat (length c))); [by rewrite app_nth1 by lia|]. rewrite !nth_overflow; [done | rewrite length_app; lia | lia].
  - lia.
  - rewrite Ha in E. split; [done|]. exists j. rewrite <-Hsl by done. done.
Qed.
Lemma append_other j t' c' : j <> i -> fs !! j = Some (t', c') ->
  file_at s2 (1 + Z.of_nat j) t' c' /\
  forall b, owns (blocks_of s2) (addrs_at s2 (1 + Z.of_nat j)) b -> owns (blocks_of s) (addrs_at s (1 + Z.of_nat j)) b.
Proof.
  intros Hne Hj. pose proof (bu_file _ _ B j t' c' Hj) as F. pose proof (lookup_lt_Some _ _ _ Hj) as Hjl.
  pose proof (lookup_lt_Some _ _ _ Hi) as Hil. pose proof (bu_count _ _ B). destruct (IBLOCK_sb (1 + Z.of_nat j) ltac:(lia)) as [_ Hib].
  pose proof (gr_le _ _ _ _ (ap_grows _ _ _ _ _ _ A)).
  apply (file_at_frame s); [done | lia | |].
  - rewrite Hod by (unfold n; lia). unfold dinode_at. rewrite (blocks_of_same s s1); [done|]. apply append_meta. mkfslia.
  - intros b Ho. pose proof (owns_range _ _ _ _ _ F Ho). rewrite Him by mkfslia. apply (gr_frame _ _ _ _ (ap_grows _ _ _ _ _ _ A)); [lia|].
    intros Ho'. apply Hne. by apply (bu_apart _ _ B j i b).
Qed.
Lemma append_built : built s2 (<[i := (t, c ++ p)]> fs).
Proof.
  destruct append_self as [F2 O2]. pose proof (lookup_lt_Some _ _ _ Hi) as Hil. destruct A as [G By Fi Fr].
  assert (forall j b, j <> i -> (j < length fs)%nat -> owns (blocks_of s2) (addrs_at s2 (1 + Z.of_nat j)) b ->
    owns (blocks_of s2) (addrs_at s2 n) b -> False) as Hap.
  { intros j b Hne Hj Ho Ho'. destruct (lookup_lt_is_Some_2 fs j Hj) as [[t' c'] Hjs]. apply (append_other j t' c' Hne Hjs) in Ho.
    apply O2 in Ho'. destruct (grows_owns _ _ _ _ b G Ho') as [Ho1|Hr].
    - apply Hne. by apply (bu_apart _ _ B j i b).
    - pose proof (owns_range _ _ _ _ _ (bu_file _ _ B j t' c' Hjs) Ho). lia. }
  split; rewrite ?length_insert.
  - done.
  - rewrite Hin, (gr_inode _ _ _ _ G). apply B.
  - apply B.
  - rewrite (demand_insert _ _ (t, c)) by done. cbn [snd]. rewrite length_app, Nat2Z.inj_add, Hfb, Fr, (bu_free _ _ B). lia.
  - intros j t' c' Hj. destruct (decide (j = i)) as [->|Hne].
    + rewrite list_lookup_insert_eq in Hj by done. injection Hj as <- <-. exact F2.
    + rewrite list_lookup_insert_ne in Hj by done. by apply append_other.
  - intros j k b Hj Hk Oj Ok. destruct (decide (j = k)) as [|Hjk]; [done|]. exfalso.
    destruct (decide (j = i)) as [->|Hji]; [by apply (Hap k b)|]. destruct (decide (k = i)) as [->|Hki]; [by apply (Hap j b)|].
    destruct (lookup_lt_is_Some_2 fs j Hj) as [[tj cj] Hjs]. destruct (lookup_lt_is_Some_2 fs k Hk) as [[tk ck] Hks].
    apply (append_other j tj cj Hji Hjs) in Oj. apply (append_other k tk ck Hki Hks) in Ok. apply Hjk. by apply (bu_apart _ _ B j k b).
Qed.
End append.

Lemma iappend_ok s fs i t c p : built s fs -> fs !! i = Some (t, c) -> is_i16 t ->
  Z.of_nat (length c + length p) <= MAXFILE * BSIZE ->
  freeblock s + need (Z.of_nat (length c + length p)) - need (Z.of_nat (length c)) + 2 <= FSSIZE ->
  exists s', iappend (1 + Z.of_nat i) p s = Ok tt s' /\ built s' (<[i := (t, c ++ p)]> fs) /\
    (forall b, b < 32 \/ b = 58 -> im s' !! b = im s !! b).
Proof.
  intros B Hi Ht Hm Hf. pose proof (bu_sectors _ _ B) as S. pose proof (bu_file _ _ B i t c Hi) as F.
  pose proof (lookup_lt_Some _ _ _ Hi) as Hil. pose proof (bu_count _ _ B) as Hcnt. set (n := 1 + Z.of_nat i) in *.
  assert (0 <= n < 208) as Hn by lia. rewrite Nat2Z.inj_add in *.
  unfold iappend. mrun (rinode_ok s n S Hn). rewrite (fa_din _ _ _ _ F). cbn [d_size]. rewrite xint_id by fslia.
  set (a := addrs_at s n) in *.
  edestruct (iappend_loop_ok (Datatypes.S (length p)) (mk_dinode t 0 0 1 (Z.of_nat (length c)) a) (Z.of_nat (length c)) p s S)
    as (a1 & s1 & R1 & A); [apply F | apply F | lia | lia | lia | lia |].
  mrun R1. unfold set_size. cbn [d_type d_major d_minor d_nlink d_size d_addrs] in *. rewrite xint_id by fslia.
  pose proof (ap_grows _ _ _ _ _ _ A) as G. pose proof (gr_sectors _ _ _ _ G) as S1. pose proof (se_free _ S1).
  destruct (winode_ok s1 n (mk_dinode t 0 0 1 (Z.of_nat (length c) + Z.of_nat (length p)) a1) S1 Hn)
    as (s2 & R2 & S2 & Hin & Hfb & Hd & Hod & Him).
  { split; cbn; try done; [fslia|]. split; [apply (gr_laid _ _ _ _ G)|]. apply (laid_u32 _ _ _ (gr_laid _ _ _ _ G)). lia. }
  exists s2. split_and!; [exact R2 | by apply (append_built s fs i t c p a1 s1 s2)|].
  intros b Hb. rewrite Him by lia. apply (append_meta s fs i t c p a1 s1); try done. mkfslia.
Qed.

(** *** ialloc *)

Lemma nth_replicate_0 n k : nth k (replicate n 0) 0 = 0.
Proof. rewrite nth_lookup. destruct (replicate n 0 !! k) as [x|] eqn:E; [by apply lookup_replicate in E as [-> _] | done]. Qed.
Definition no_addrs : list Z := replicate 13 0.
Lemma bslot_none g j : 0 <= j <= MAXFILE -> bslot g (with_addrs no_addrs) j = 0.
Proof.
  intros Hj. assert (forall j, addr_at (with_addrs no_addrs) j = 0) as Ha.
  { intros j'. unfold addr_at. apply nth_replicate_0. }
  unfold bslot. rewrite !Ha. by repeat case_match.
Qed.
Lemma empty_file s n t : dinode_at (blocks_of s) n = mk_dinode t 0 0 1 0 no_addrs -> file_at s n t [].
Proof.
  intros Hd. assert (addrs_at s n = no_addrs) as Ha by (unfold addrs_at; by rewrite Hd). split; rewrite ?Ha.
  - by rewrite Hd.
  - split; [done | intros j Hj Hnz; by rewrite bslot_none in Hnz | intros i j Hi Hj Hnz; by rewrite bslot_none in Hnz].
  - split; [intros j Hj; rewrite bslot_none by lia; cbn; klia | done].
  - intros p Hp. unfold fbyte, fblock. rewrite bslot_none by klia. cbn [Z.eqb]. unfold zero_block.
    rewrite nth_replicate_0. by destruct (Z.to_nat p).
  - cbn. fslia.
Qed.

Lemma ialloc_ok s fs t : built s fs -> (length fs < 206)%nat -> is_i16 t -> is_u16 t ->
  exists s', ialloc t s = Ok (1 + Z.of_nat (length fs)) s' /\ built s' (fs ++ [(t, [])]) /\
    (forall b, b < 32 \/ b = 58 -> im s' !! b = im s !! b).
Proof.
  intros B Hc Ht Ht'. set (n := 1 + Z.of_nat (length fs)). pose proof (bu_sectors _ _ B) as S.
  assert (sectors (set_freeinode (n + 1) s)) as S1 by by destruct S.
  assert (i16 (xshort t) = t) as Et by (rewrite xshort_id by done; unfold i16, is_i16 in *; rewrite Z.mod_small; lia).
  destruct (winode_ok (set_freeinode (n + 1) s) n (mk_dinode t 0 0 1 0 no_addrs) S1 ltac:(lia)) as (s2 & R & S2 & Hin & Hfb & Hd & Hod & Him).
  { split; try done. split; [done|]. change (Forall is_u32 (replicate 13 0)). by apply Forall_replicate. }
  exists s2. split; [|split].
  - unfold ialloc, reads, modify, bind. rewrite (bu_inodes _ _ B). fold n. rewrite u32_small by (unfold is_u32; lia).
    rewrite Et. change (i16 (xshort 1)) with 1. change (xint 0) with 0. fold no_addrs. by rewrite R.
  - assert (forall j t' c', fs !! j = Some (t', c') -> file_at s2 (1 + Z.of_nat j) t' c' /\
      forall b, owns (blocks_of s2) (addrs_at s2 (1 + Z.of_nat j)) b -> owns (blocks_of s) (addrs_at s (1 + Z.of_nat j)) b) as Hold.
    { intros j t' c' Hj. pose proof (bu_file _ _ B j t' c' Hj) as F. pose proof (lookup_lt_Some _ _ _ Hj).
      apply (file_at_frame s); [done | by rewrite Hfb | rewrite Hod by lia; done|].
      intros b Ho. pose proof (owns_range _ _ _ _ _ F Ho). rewrite Him by mkfslia. done. }
    assert (forall b, ~ owns (blocks_of s2) (addrs_at s2 n) b) as Hnew.
    { intros b (Hb & j & Hj & E). unfold addrs_at in E. rewrite Hd in E. cbn [d_addrs] in E. rewrite bslot_none in E by done. congruence. }
    split; rewrite ?length_app; cbn [length].
    + done.
    + rewrite Hin. cbn. lia.
    + lia.
    + rewrite Hfb, demand_app. change (demand [(t, [])]) with 0. cbn. rewrite (bu_free _ _ B). lia.
    + intros j t' c' Hj. apply lookup_app_Some in Hj as [Hj|[Hj1 Hj2]]; [by apply Hold|].
      assert (j = length fs) as -> by (apply lookup_lt_Some in Hj2; cbn in Hj2; lia). rewrite Nat.sub_diag in Hj2. injection Hj2 as <- <-.
      by apply empty_file.
    + intros j k b Hj Hk Oj Ok. destruct (decide (j = length fs)) as [->|Hj']; [by destruct (Hnew b)|].
      destruct (decide (k = length fs)) as [->|Hk']; [by destruct (Hnew b)|].
      destruct (lookup_lt_is_Some_2 fs j ltac:(lia)) as [[tj cj] Hjs]. destruct (lookup_lt_is_Some_2 fs k ltac:(lia)) as [[tk ck] Hks].
      apply (Hold j tj cj Hjs) in Oj. apply (Hold k tk ck Hks) in Ok. apply (bu_apart _ _ B j k b); [lia | lia | done | done].
  - intros b Hb. rewrite Him by lia. done.
Qed.

(** ** The files of the host *)

(** What stays: the blocks below the inodes, and the block of the free map. *)
Definition kept (s s' : image) : Prop := forall b, b < 32 \/ b = 58 -> im s' !! b = im s !! b.
#[export] Instance kept_preorder : PreOrder kept.
Proof. split; [done|]. intros s1 s2 s3 H1 H2 b Hb. by rewrite H2, H1. Qed.

Lemma appends_ok i t : is_i16 t -> forall rs s fs c, built s fs -> fs !! i = Some (t, c) ->
  Z.of_nat (length (c ++ concat rs)) <= MAXFILE * BSIZE -> nmeta + demand (<[i := (t, c ++ concat rs)]> fs) + 2 <= FSSIZE ->
  exists s', for_each rs (iappend (1 + Z.of_nat i)) s = Ok tt s' /\ built s' (<[i := (t, c ++ concat rs)]> fs) /\ kept s s'.
Proof.
  intros Ht. induction rs as [|p rs IH]; intros s fs c B Hi Hm Hf; cbn [for_each concat] in *.
  - exists s. rewrite app_nil_r, list_insert_id by done. done.
  - pose proof (lookup_lt_Some _ _ _ Hi) as Hil. rewrite app_assoc in *.
    rewrite (demand_insert _ _ (t, c)) in Hf by done. cbn [snd] in Hf. pose proof (bu_free _ _ B) as Hfb.
    rewrite (length_app (c ++ p)) in Hm, Hf. pose proof (length_app c p) as Hcp.
    pose proof (need_mono (Z.of_nat (length (c ++ p))) (Z.of_nat (length (c ++ p) + length (concat rs))) ltac:(lia)).
    destruct (iappend_ok s fs i t c p B Hi Ht) as (s1 & R1 & B1 & K1); [lia | rewrite <-Hcp; lia |].
    assert (<[i := (t, c ++ p)]> fs !! i = Some (t, c ++ p)) as Hi1 by by apply list_lookup_insert_eq.
    destruct (IH s1 _ (c ++ p) B1 Hi1) as (s2 & R2 & B2 & K2).
    + rewrite length_app. lia.
    + rewrite list_insert_insert_eq. rewrite (demand_insert _ _ (t, c)) by done. cbn [snd]. rewrite length_app. lia.
    + rewrite list_insert_insert_eq in B2. exists s2. mrun R1. split_and!; [done | done | by transitivity s1].
Qed.

(** A directory [d] and the files that it lists. *)
Definition strip (name : list Z) : list Z := match name with c :: name' => if c =? 95 then name' else name | [] => name end.
Definition fs_of (d : list Z) (fl : list (list Z)) : list (Z * list Z) := (T_DIR, d) :: ((fun c => (T_FILE, c)) <$> fl).
Definition entry_of (fl : list (list Z)) (name : list Z) : list Z := dirent_of (2 + Z.of_nat (length fl)) (strip name).

Lemma dirent_of_length n name : length (dirent_of n name) = 16%nat.
Proof. unfold dirent_of, dirent_bytes. cbn [de_inum de_name]. rewrite length_app, length_take, length_app, length_replicate.
  change (length (le16 _)) with 2%nat. unfold DIRSIZ. lia.
Qed.

Lemma need_0 n : 0 <= n -> 0 <= need n.
Proof. intros Hn. unfold need. destruct (_ <? _); klia. Qed.
Lemma demand_fs d fl : demand (fs_of d fl) = need (Z.of_nat (length d)) + demand ((fun c => (T_FILE, c)) <$> fl).
Proof. done. Qed.

Lemma add_file_ok s d fl name rs :
  built s (fs_of d fl) -> existsb (Z.eqb 47) name = false -> (length fl < 205)%nat ->
  Z.of_nat (length d + 16) <= MAXFILE * BSIZE -> Z.of_nat (length (concat rs)) <= MAXFILE * BSIZE ->
  nmeta + demand (fs_of (d ++ entry_of fl name) (fl ++ [concat rs])) + 2 <= FSSIZE ->
  exists s', add_file 1 (name, Some rs) s = Ok tt s' /\ built s' (fs_of (d ++ entry_of fl name) (fl ++ [concat rs])) /\ kept s s'.
Proof.
  intros B Hname Hfl Hd Hc Hf. rewrite demand_fs in Hf. rewrite fmap_app, demand_app in Hf. cbn [fmap list_fmap] in Hf. rewrite demand_cons in Hf. cbn [snd] in Hf.
  change (demand []) with 0 in Hf. pose proof (need_0 (Z.of_nat (length (concat rs))) ltac:(lia)).
  assert (length (entry_of fl name) = 16%nat) as He by apply dirent_of_length.
  assert (length (fs_of d fl) = S (length fl)) as Hlen by (cbn; by rewrite length_fmap).
  unfold add_file. fold (strip name). rewrite Hname. cbn [negb assert_]. rewrite bind_ret_l.
  destruct (ialloc_ok s (fs_of d fl) T_FILE B) as (s1 & R1 & B1 & K1); [lia | by unfold is_i16 | by unfold is_u16 |].
  mrun R1. rewrite Hlen. replace (1 + Z.of_nat (S (length fl))) with (2 + Z.of_nat (length fl)) by lia. fold (entry_of fl name).
  set (e := entry_of fl name) in *. set (fs1 := fs_of d fl ++ [(T_FILE, [])]) in *.
  assert (<[0%nat := (T_DIR, d ++ e)]> fs1 = fs_of (d ++ e) fl ++ [(T_FILE, [])]) as E1 by done.
  assert (forall c, demand (fs_of (d ++ e) fl ++ [(T_FILE, c)]) =
    need (Z.of_nat (length (d ++ e))) + demand ((fun c => (T_FILE, c)) <$> fl) + need (Z.of_nat (length c))) as Ht.
  { intros c. rewrite demand_app, demand_fs, demand_cons. cbn [snd]. change (demand []) with 0. lia. }
  destruct (iappend_ok s1 fs1 0 T_DIR d e B1 eq_refl) as (s2 & R2 & B2 & K2); [by unfold is_i16 | lia | |].
  { rewrite (bu_free _ _ B1). rewrite <-length_app. pose proof (demand_insert fs1 0 (T_DIR, d) (T_DIR, d ++ e) eq_refl) as Hti. cbn [snd] in Hti.
    rewrite E1, Ht in Hti. change (need (Z.of_nat (length []))) with 0 in Hti. lia. }
  change (1 + Z.of_nat 0) with 1 in R2. mrun R2. rewrite E1 in B2.
  assert (forall c, <[length (fs_of (d ++ e) fl) := (T_FILE, c)]> (fs_of (d ++ e) fl ++ [(T_FILE, [])]) = fs_of (d ++ e) fl ++ [(T_FILE, c)]) as E2.
  { intros c. rewrite insert_app_r_alt by lia. by rewrite Nat.sub_diag. }
  assert (fs_of (d ++ e) fl ++ [(T_FILE, concat rs)] = fs_of (d ++ e) (fl ++ [concat rs])) as E3 by (unfold fs_of; cbn; by rewrite fmap_app).
  assert (length (fs_of (d ++ e) fl) = S (length fl)) as Hlen2 by (cbn; by rewrite length_fmap).
  destruct (appends_ok (length (fs_of (d ++ e) fl)) T_FILE ltac:(by unfold is_i16) rs s2 _ [] B2) as (s3 & R3 & B3 & K3).
  - by apply list_lookup_middle.
  - done.
  - cbn [app]. rewrite E2, Ht. lia.
  - cbn [app] in B3. rewrite E2, E3 in B3. exists s3. split_and!; [|done | etransitivity; [exact K1|]; by transitivity s2].
    rewrite <-R3. do 2 f_equal. rewrite Hlen2. lia.
Qed.

(** All files, in order. *)
Fixpoint listing (d : list Z) (fl : list (list Z)) (files : list (list Z * list (list Z))) : list Z :=
  match files with
  | [] => d
  | (name, rs) :: files => listing (d ++ entry_of fl name) (fl ++ [concat rs]) files
  end.
Definition contents (files : list (list Z * list (list Z))) : list (list Z) := (fun f => concat f.2) <$> files.
Definition host (f : list Z * list (list Z)) : host_file := (f.1, Some f.2).

Lemma listing_length files : forall d fl, length (listing d fl files) = (length d + 16 * length files)%nat.
Proof.
  induction files as [|[name rs] files IH]; intros d fl; cbn [listing length]; [lia|].
  rewrite IH, length_app. unfold entry_of. rewrite dirent_of_length. lia.
Qed.
Lemma demand_fmap_nonneg fl : 0 <= demand ((fun c => (T_FILE, c)) <$> fl).
Proof. induction fl as [|c fl IH]; [done|]. cbn [fmap list_fmap]. rewrite demand_cons. cbn [snd]. pose proof (need_0 (Z.of_nat (length c)) ltac:(lia)). lia. Qed.
Lemma demand_listing d fl files : demand (fs_of d fl) <= demand (fs_of (listing d fl files) (fl ++ contents files)).
Proof.
  rewrite !demand_fs, fmap_app, demand_app, listing_length. pose proof (demand_fmap_nonneg (contents files)).
  pose proof (need_mono (Z.of_nat (length d)) (Z.of_nat (length d + 16 * length files)) ltac:(lia)). lia.
Qed.

Lemma add_files_ok files : forall s d fl,
  built s (fs_of d fl) -> Forall (fun f => existsb (Z.eqb 47) f.1 = false /\ Z.of_nat (length (concat f.2)) <= MAXFILE * BSIZE) files ->
  (length fl + length files < 206)%nat -> Z.of_nat (length (listing d fl files)) <= MAXFILE * BSIZE ->
  nmeta + demand (fs_of (listing d fl files) (fl ++ contents files)) + 2 <= FSSIZE ->
  exists s', for_each (host <$> files) (add_file 1) s = Ok tt s' /\
    built s' (fs_of (listing d fl files) (fl ++ contents files)) /\ kept s s'.
Proof.
  induction files as [|[name rs] files IH]; intros s d fl B Hok Hcnt Hd Hf; cbn [fmap list_fmap for_each listing].
  - exists s. change (contents []) with (@nil (list Z)). by rewrite app_nil_r.
  - apply Forall_cons_1 in Hok as [[Hn Hc] Hok]. cbn [fst snd] in *. cbn [listing] in *.
    change (contents ((name, rs) :: files)) with ([concat rs] ++ contents files) in *. rewrite app_assoc in *.
    pose proof (demand_listing (d ++ entry_of fl name) (fl ++ [concat rs]) files).
    rewrite listing_length, length_app in Hd. unfold entry_of in Hd. rewrite dirent_of_length in Hd. cbn [length] in Hcnt.
    destruct (add_file_ok s d fl name rs B Hn) as (s1 & R1 & B1 & K1); [lia | lia | done | lia |].
    destruct (IH s1 (d ++ entry_of fl name) (fl ++ [concat rs]) B1 Hok) as (s2 & R2 & B2 & K2); [| | done |].
    { rewrite length_app. cbn. lia. }
    { rewrite listing_length, length_app. unfold entry_of. rewrite dirent_of_length. lia. }
    exists s2. unfold host at 1. cbn [fst snd]. mrun R1. split_and!; [done | done | by transitivity s1].
Qed.

(** ** The whole program *)

Lemma zeroing_ok n : forall a s, 0 <= a ->
  exists s', for_each (zseq a (Z.of_nat n)) (fun i => wsect i zeroes) s = Ok tt s' /\
    freeinode s' = freeinode s /\ freeblock s' = freeblock s /\
    forall b, im s' !! b = if decide (a <= b < a + Z.of_nat n) then Some zeroes else im s !! b.
Proof.
  induction n as [|n IH]; intros a s Ha.
  - exists s. rewrite zseq_nil by lia. split_and!; try done. intros b. by rewrite decide_False by lia.
  - rewrite zseq_cons by lia. cbn [for_each]. mrun (wsect_ok a zeroes s). replace (Z.of_nat (S n) - 1) with (Z.of_nat n) by lia.
    destruct (IH (a + 1) (set_im (<[a := zeroes]> (im s)) s) ltac:(lia)) as (s' & R & E1 & E2 & E3). exists s'. split_and!; try done.
    intros b. rewrite E3. cbn. rewrite lookup_insert. repeat case_decide; lia || done.
Qed.

Definition super_block : list Z := splice 0 super_bytes zeroes.
Lemma start_ok : exists s, (modify (set_freeblock nmeta) ;;; for_each (zseq 0 FSSIZE) (fun i => wsect i zeroes) ;;; wsect 1 super_block) image0 = Ok tt s /\
  built s [] /\ im s !! 1 = Some super_block /\ forall b, 0 <= b < FSSIZE -> b <> 1 -> im s !! b = Some zeroes.
Proof.
  destruct (zeroing_ok (Z.to_nat FSSIZE) 0 (set_freeblock nmeta image0) ltac:(lia)) as (s1 & R1 & E1 & E2 & E3).
  rewrite Z2Nat.id in R1, E3 by done. exists (set_im (<[1 := super_block]> (im s1)) s1). split; [|split].
  - change (modify (set_freeblock nmeta) image0) with (Ok tt (set_freeblock nmeta image0) : outcome image unit).
    unfold modify, bind at 1. by mrun R1.
  - assert (sectors s1) as S1.
    { split.
      - intros n Hn. rewrite E3, decide_True by lia. by exists zeroes.
      - rewrite E2. done.
      - intros n Hn. rewrite E2 in Hn. cbn in Hn. rewrite E3, decide_True by mkfslia. done. }
    split; cbn; try done; try lia.
    + apply sectors_write; [done | rewrite E2; done | done].
  - split; [cbn; apply lookup_insert_eq|]. intros b Hb Hne. cbn. rewrite lookup_insert_ne, E3, decide_True by lia. done.
Qed.

(** The free map. *)
Lemma map_fold l : forall buf b, length buf = Z.to_nat BSIZE -> Forall (fun i => 0 <= i < BSIZE * 8) l -> 0 <= b < BSIZE * 8 ->
  map_bit (foldl (fun buf i => <[Z.to_nat (i / 8) := Z.lor (byte_at buf (i / 8)) (bit_mask i)]> buf) buf l) b =
    bool_decide (b ∈ l) || map_bit buf b.
Proof.
  induction l as [|i l IH]; intros buf b Hl Hok Hb; cbn [foldl]; [done|]. apply Forall_cons_1 in Hok as [Hi Hok].
  rewrite IH by (done || by rewrite length_insert). rewrite set_map_bit by (done || klia).
  rewrite orb_assoc. f_equal. apply eq_true_iff_eq. rewrite orb_true_iff, !bool_decide_eq_true, elem_of_cons, Z.eqb_eq. naive_solver.
Qed.
Lemma balloc_map_bit used b : 0 <= used < BSIZE * 8 -> 0 <= b < BSIZE * 8 -> map_bit (balloc_map used) b = (b <? used).
Proof.
  intros Hu Hb. unfold balloc_map. rewrite map_fold; [| done | | done].
  - assert (map_bit zeroes b = false) as ->.
    { unfold map_bit, byte_at, zeroes. by rewrite nth_replicate_0, Z.bits_0. }
    rewrite orb_false_r. apply eq_true_iff_eq. rewrite bool_decide_eq_true, Z.ltb_lt, list_elem_of_lookup. split.
    + intros (j & Hj). pose proof (lookup_lt_Some _ _ _ Hj) as Hlt. rewrite zseq_length in Hlt. rewrite zseq_lookup in Hj by done. injection Hj as <-. lia.
    + intros Hlt. exists (Z.to_nat b). rewrite zseq_lookup by lia. f_equal. lia.
  - apply Forall_lookup_2. intros j x Hj. pose proof (lookup_lt_Some _ _ _ Hj) as Hlt. rewrite zseq_length in Hlt.
    rewrite zseq_lookup in Hj by done. injection Hj as <-. lia.
Qed.
Lemma balloc_map_length used : length (balloc_map used) = Z.to_nat BSIZE.
Proof.
  unfold balloc_map. assert (length zeroes = Z.to_nat BSIZE) as Hz by done. revert Hz. generalize zeroes.
  induction (zseq 0 used) as [|i l IH]; intros buf Hb; cbn [foldl]; [done|]. apply IH. by rewrite length_insert.
Qed.

(** The root directory: its size is rounded up. *)
Definition rounded (n : Z) : Z := (n / BSIZE + 1) * BSIZE.
Record root_at (s : image) (d : list Z) : Prop := {
  ra_din : dinode_at (blocks_of s) 1 = mk_dinode T_DIR 0 0 1 (rounded (Z.of_nat (length d))) (addrs_at s 1);
  ra_laid : laid_out (blocks_of s) (freeblock s) (addrs_at s 1);
  ra_filled : filled (blocks_of s) (addrs_at s 1) (Z.of_nat (length d));
  ra_bytes p : 0 <= p < MAXFILE * BSIZE -> fbyte (blocks_of s) (with_addrs (addrs_at s 1)) p = nth (Z.to_nat p) d 0;
}.
(** The image with the directory [d] and the files [fl]. *)
Record finished (s : image) (d : list Z) (fl : list (list Z)) : Prop := {
  fn_sectors : sectors s;
  fn_super : im s !! 1 = Some super_block;
  fn_log b : 2 <= b < 32 -> im s !! b = Some zeroes;
  fn_free : freeblock s = nmeta + demand (fs_of d fl);
  fn_map : im s !! 58 = Some (balloc_map (freeblock s));
  fn_root : root_at s d;
  fn_files i c : fl !! i = Some c -> file_at s (2 + Z.of_nat i) T_FILE c;
  fn_apart i j n : (i <= length fl)%nat -> (j <= length fl)%nat ->
    owns (blocks_of s) (addrs_at s (1 + Z.of_nat i)) n -> owns (blocks_of s) (addrs_at s (1 + Z.of_nat j)) n -> i = j;
}.

Lemma fs_of_lookup d fl i c : fl !! i = Some c -> fs_of d fl !! S i = Some (T_FILE, c).
Proof. intros Hi. change (((fun c => (T_FILE, c)) <$> fl) !! i = Some (T_FILE, c)). by rewrite list_lookup_fmap, Hi. Qed.
Lemma seq3 {B} (m1 m2 m3 : IM unit) (m : IM B) s s' : (m1 ;;; m2 ;;; m3) s = Ok tt s' -> (m1 ;;; m2 ;;; m3 ;;; m) s = m s'.
Proof. unfold bind. destruct (m1 s); try done. destruct (m2 _); try done. by destruct (m3 _) as [[]| | |]; intros [= ->]. Qed.

(** The last two steps. *)
Lemma finish_ok s d fl : built s (fs_of d fl) -> im s !! 1 = Some super_block -> (forall b, 2 <= b < 32 -> im s !! b = Some zeroes) ->
  exists s', (fix_root 1 ;;; let* used := reads freeblock in balloc used) s = Ok tt s' /\ finished s' d fl.
Proof.
  intros B Hsup Hlog. pose proof (bu_sectors _ _ B) as S. pose proof (se_free _ S) as Hfr. pose proof (bu_file _ _ B 0 T_DIR d eq_refl) as F.
  change (1 + Z.of_nat 0) with 1 in F. pose proof (fa_max _ _ _ _ F). pose proof (bu_count _ _ B) as Hcnt. cbn in Hcnt. rewrite length_fmap in Hcnt.
  unfold fix_root. rewrite bind_assoc. mrun (rinode_ok s 1 S ltac:(lia)). rewrite (fa_din _ _ _ _ F). unfold set_size.
  cbn [d_size d_type d_major d_minor d_nlink d_addrs]. rewrite (xint_id (Z.of_nat (length d))) by fslia.
  rewrite (xint_id (_ * BSIZE)) by fslia. fold (rounded (Z.of_nat (length d))).
  destruct (winode_ok s 1 (mk_dinode T_DIR 0 0 1 (rounded (Z.of_nat (length d))) (addrs_at s 1)) S) as (s1 & R1 & S1 & Hin & Hfb & Hd & Hod & Him).
  { lia. }
  { split; cbn; try done; [unfold rounded; fslia|]. split; [apply (fa_laid _ _ _ _ F)|]. apply (laid_u32 _ _ _ (fa_laid _ _ _ _ F)). lia. }
  mrun R1. set (s2 := set_im (<[58 := balloc_map (freeblock s)]> (im s1)) s1).
  exists s2. split.
  { unfold reads, bind at 1. unfold balloc, assert_. rewrite Hfb, (proj2 (Z.ltb_lt _ _)) by fslia. by rewrite bind_ret_l. }
  assert (forall b, ~ 32 <= b <= 58 -> im s2 !! b = im s !! b) as Hout.
  { intros b Hb. cbn. rewrite lookup_insert_ne by lia. apply Him. lia. }
  assert (forall m, 0 <= m < 208 -> dinode_at (blocks_of s2) m = dinode_at (blocks_of s1) m) as Hdin.
  { intros m Hm. destruct (IBLOCK_sb m Hm) as [_ Hb]. unfold dinode_at. f_equal. apply blocks_of_same. cbn. rewrite lookup_insert_ne by lia. done. }
  assert (addrs_at s2 1 = addrs_at s 1) as Ha by (unfold addrs_at at 1; rewrite Hdin, Hd by lia; done).
  assert (freeblock s2 = freeblock s) as Hfb2 by (cbn; by rewrite Hfb).
  destruct (file_frame (blocks_of s) (blocks_of s2) (freeblock s) (freeblock s2) (addrs_at s 1) (fa_laid _ _ _ _ F)) as (Hsl & L2 & By2).
  { intros b Ho. apply blocks_of_same, Hout. pose proof (owns_range _ _ _ _ _ F Ho). mkfslia. } { lia. }
  assert (forall i t c, fs_of d fl !! i = Some (t, c) -> i <> 0%nat -> file_at s2 (1 + Z.of_nat i) t c /\
    forall b, owns (blocks_of s2) (addrs_at s2 (1 + Z.of_nat i)) b -> owns (blocks_of s) (addrs_at s (1 + Z.of_nat i)) b) as Hold.
  { intros i t c Hi Hne. pose proof (bu_file _ _ B i t c Hi) as Fi. pose proof (lookup_lt_Some _ _ _ Hi) as Hlt. cbn in Hlt. rewrite length_fmap in Hlt.
    apply (file_at_frame s); [done | lia | by rewrite Hdin, Hod by lia|].
    intros b Ho. apply Hout. pose proof (owns_range _ _ _ _ _ Fi Ho). mkfslia. }
  split.
  - apply sectors_write; [done | rewrite Hfb; mkfslia | apply balloc_map_length].
  - by rewrite Hout by lia.
  - intros b Hb. rewrite Hout by lia. by apply Hlog.
  - rewrite Hfb2. apply B.
  - rewrite Hfb2. cbn. apply lookup_insert_eq.
  - split; rewrite ?Ha; [by rewrite Hdin, Hd by lia | done | |].
    + destruct (fa_filled _ _ _ _ F) as [F1 F2]. split; [|done]. intros j Hj. rewrite Hsl by lia. by apply F1.
    + intros p Hp. rewrite By2 by done. by apply (fa_bytes _ _ _ _ F).
  - intros i c Hi. replace (2 + Z.of_nat i) with (1 + Z.of_nat (Datatypes.S i)) by lia. apply Hold; [|done].
    by apply fs_of_lookup.
  - assert (forall i b, (i <= length fl)%nat -> owns (blocks_of s2) (addrs_at s2 (1 + Z.of_nat i)) b ->
      owns (blocks_of s) (addrs_at s (1 + Z.of_nat i)) b) as Hown.
    { intros [|i] b Hi Ho.
      - change (1 + Z.of_nat 0) with 1 in *. rewrite Ha in Ho. destruct Ho as (Hb & j & Hj & E). split; [done|]. exists j. by rewrite <-Hsl.
      - destruct (lookup_lt_is_Some_2 fl i ltac:(lia)) as [c Hc]. apply (Hold (Datatypes.S i) T_FILE c); [|done|done].
        by apply fs_of_lookup. }
    intros i j b Hi Hj Oi Oj. apply (bu_apart _ _ B i j b); [cbn; rewrite length_fmap; lia | cbn; rewrite length_fmap; lia | by apply Hown | by apply Hown].
Qed.

(** mkfs succeeds when there is room, and leaves what it should. *)
Definition dots : list Z := dirent_of 1 [46] ++ dirent_of 1 [46; 46].
Record fitting (files : list (list Z * list (list Z))) : Prop := {
  ft_files : Forall (fun f => existsb (Z.eqb 47) f.1 = false /\ Z.of_nat (length (concat f.2)) <= MAXFILE * BSIZE) files;
  ft_inodes : (length files <= 198)%nat;
  ft_space : nmeta + demand (fs_of (listing dots [] files) (contents files)) + 2 <= FSSIZE;
}.
Lemma mkfs_ok files : fitting files ->
  exists s, mkfs_main (host <$> files) image0 = Ok tt s /\ finished s (listing dots [] files) (contents files).
Proof.
  intros [Hok Hcnt Hf]. destruct start_ok as (s0 & R0 & B0 & Hsup & Hz). unfold mkfs_main. fold super_block. rewrite (seq3 _ _ _ _ _ _ R0).
  destruct (ialloc_ok s0 [] T_DIR B0) as (s1 & R1 & B1 & K1); [cbn; lia | by unfold is_i16 | by unfold is_u16|].
  mrun R1. change (1 + Z.of_nat (length [])) with 1. unfold assert_ at 1. change (1 =? ROOTINO) with true. cbv iota. rewrite bind_ret_l.
  destruct (iappend_ok s1 [(T_DIR, [])] 0 T_DIR [] (dirent_of 1 [46]) B1 eq_refl) as (s2 & R2 & B2 & K2);
    [by unfold is_i16 | cbn; fslia | rewrite (bu_free _ _ B1); vm_compute; discriminate |].
  change (1 + Z.of_nat 0) with 1 in R2. mrun R2. cbn [insert list_insert app] in B2.
  destruct (iappend_ok s2 [(T_DIR, dirent_of 1 [46])] 0 T_DIR (dirent_of 1 [46]) (dirent_of 1 [46; 46]) B2 eq_refl) as (s3 & R3 & B3 & K3);
    [by unfold is_i16 | cbn; fslia | rewrite (bu_free _ _ B2); vm_compute; discriminate |].
  change (1 + Z.of_nat 0) with 1 in R3. mrun R3. cbn [insert list_insert] in B3. fold dots in B3.
  destruct (add_files_ok files s3 dots [] B3 Hok) as (s4 & R4 & B4 & K4); [cbn; lia | | done |].
  { rewrite listing_length. change (length dots) with 32%nat. fslia. }
  mrun R4. assert (kept s0 s4) as K by (do 3 (etransitivity; [eassumption|]); done).
  destruct (finish_ok s4 (listing dots [] files) (contents files) B4) as (s5 & R5 & Fn); [by rewrite K by lia | |].
  - intros b Hb. rewrite K by lia. apply Hz; fslia.
  - exists s5. split; [exact R5 | done].
Qed.

(** ** What the kernel reads *)

(** Inode [n] of the image, as the kernel has it in memory. *)
Definition inode_of (s : image) (n : Z) : inode :=
  let d := dinode_at (blocks_of s) n in
  mk_inode 1 n 1 1 (d_type d) (d_major d) (d_minor d) (d_nlink d) (d_size d) (d_addrs d).
(** The superblock, as readsb reads it. *)
Definition super_of (g : Z -> list Z) : superblock :=
  mk_superblock (word (g 1) 0) (word (g 1) 1) (word (g 1) 2) (word (g 1) 3) (word (g 1) 4) (word (g 1) 5) (word (g 1) 6).
(** The name in a directory entry. *)
Definition entry_name (name : list Z) : list Z := take DIRSIZ (strip name ++ replicate DIRSIZ 0).

Lemma listing_prefix files : forall d fl, exists r, listing d fl files = d ++ r.
Proof.
  induction files as [|[name rs] files IH]; intros d fl; cbn [listing]; [by exists []; rewrite app_nil_r|].
  destruct (IH (d ++ entry_of fl name) (fl ++ [concat rs])) as (r & ->). rewrite <-app_assoc. by eexists.
Qed.
Lemma listing_entry files : forall d fl i name rs, files !! i = Some (name, rs) ->
  slice (length d + 16 * i) 16 (listing d fl files) = dirent_of (2 + Z.of_nat (length fl + i)) (strip name).
Proof.
  induction files as [|[name' rs'] files IH]; intros d fl [|i] name rs Hi; try done; cbn [listing].
  - injection Hi as -> ->. destruct (listing_prefix files (d ++ entry_of fl name) (fl ++ [concat rs])) as (r & ->).
    rewrite <-app_assoc. unfold slice. rewrite Nat.mul_0_r, !Nat.add_0_r, drop_app_length.
    rewrite <-(dirent_of_length (2 + Z.of_nat (length fl)) (strip name)). by rewrite take_app_length.
  - specialize (IH (d ++ entry_of fl name') (fl ++ [concat rs']) i name rs Hi). rewrite !length_app in IH. unfold entry_of in IH at 1.
    rewrite dirent_of_length in IH. cbn [length] in IH.
    replace (length d + 16 * S i)%nat with (length d + 16 + 16 * i)%nat by lia. rewrite IH. do 2 f_equal. lia.
Qed.

(** Bytes of a file from its contents. *)
Lemma fbytes_slice g ip c off n : (forall p, 0 <= p < MAXFILE * BSIZE -> fbyte g ip p = nth (Z.to_nat p) c 0) ->
  (off + n <= length c)%nat -> Z.of_nat (off + n) <= MAXFILE * BSIZE ->
  fbytes g ip (Z.of_nat off) (Z.of_nat n) = slice off n c.
Proof.
  intros Hb Hl Hm. apply list_eq_same_length with n; [by rewrite slice_length | rewrite fbytes_length; lia|].
  intros i x y Hi Hx Hy. unfold fbytes in Hx. rewrite list_lookup_fmap, zseq_lookup in Hx by lia. injection Hx as <-.
  rewrite slice_lookup in Hy by done. rewrite Hb by lia. rewrite nth_lookup.
  replace (Z.to_nat (Z.of_nat off + Z.of_nat i)) with (off + i)%nat by lia. by rewrite Hy.
Qed.

Lemma file_holds s n t c : file_at s n t c -> holds_file (blocks_of s) sb n (Z.of_nat (length c)) (fun p => nth (Z.to_nat p) c 0).
Proof.
  intros F. unfold holds_file. fold (dinode_at (blocks_of s) n). rewrite (fa_din _ _ _ _ F). cbn [d_size d_addrs]. split; [done|].
  exact (fa_bytes _ _ _ _ F).
Qed.

Lemma root_entry s d fl files i name rs : finished s d fl -> d = listing dots [] files -> fitting files -> files !! i = Some (name, rs) ->
  dirent_at (blocks_of s) (inode_of s 1) (2 + Z.of_nat i) = mk_dirent (2 + Z.of_nat i) (entry_name name).
Proof.
  intros Fn -> Ft Hi. pose proof (fn_root _ _ _ Fn) as R. pose proof (lookup_lt_Some _ _ _ Hi) as Hlt. pose proof (ft_inodes _ Ft).
  unfold dirent_at. replace (16 * (2 + Z.of_nat i)) with (Z.of_nat (length dots + 16 * i)) by (change (length dots) with 32%nat; lia).
  rewrite (fbytes_slice _ _ (listing dots [] files) _ 16).
  - rewrite (listing_entry files dots [] i name rs Hi). cbn [length Nat.add]. unfold dirent_of. rewrite xshort_id by (unfold is_u16; lia).
    apply get_dirent_bytes; [unfold is_u16; lia|]. unfold entry_name. rewrite length_take, length_app, length_replicate. lia.
  - exact (ra_bytes _ _ R).
  - rewrite listing_length. lia.
  - change (length dots) with 32%nat. fslia.
Qed.

(** ** Properties *)

(** C4. What goes in comes out: when the files fit, mkfs succeeds, the kernel
    reads the superblock that mkfs computed, the log is empty, and the [i]th
    file is inode [2 + i] with its contents, named by entry [2 + i] of the root
    directory (without the leading underscore, cut at fourteen characters). *)
Theorem mkfs_files files : fitting files ->
  exists s, mkfs_main (host <$> files) image0 = Ok tt s /\
    super_of (blocks_of s) = sb /\ (forall b, 2 <= b < 2 + nlog -> blocks_of s b = zeroes) /\
    forall i name rs, files !! i = Some (name, rs) ->
      holds_file (blocks_of s) sb (2 + Z.of_nat i) (Z.of_nat (length (concat rs))) (fun p => nth (Z.to_nat p) (concat rs) 0) /\
      i_type (inode_of s (2 + Z.of_nat i)) = T_FILE /\
      dirent_at (blocks_of s) (inode_of s 1) (2 + Z.of_nat i) = mk_dirent (2 + Z.of_nat i) (entry_name name).
Proof.
  intros Ft. destruct (mkfs_ok files Ft) as (s & R & Fn). exists s. split_and!; [done | | |].
  - unfold super_of, blocks_of. rewrite (fn_super _ _ _ Fn). vm_compute. reflexivity.
  - intros b Hb. unfold blocks_of. rewrite (fn_log _ _ _ Fn); [done|]. change (2 + nlog) with 32 in Hb. lia.
  - intros i name rs Hi. assert (contents files !! i = Some (concat rs)) as Hc by (unfold contents; by rewrite list_lookup_fmap, Hi).
    pose proof (fn_files _ _ _ Fn i _ Hc) as F. split_and!; [by eapply file_holds | | by eapply root_entry].
    unfold inode_of. by rewrite (fa_din _ _ _ _ F).
Qed.

(** The root directory has no hole unless its entries fill whole blocks: its
    size is always rounded up to the next block, also when it ends on one. *)
Theorem mkfs_root_dense files : fitting files ->
  exists s, mkfs_main (host <$> files) image0 = Ok tt s /\
    (dense (blocks_of s) (inode_of s 1) <-> ((length files + 2) mod 32 <> 0)%nat).
Proof.
  intros Ft. destruct (mkfs_ok files Ft) as (s & R & Fn). exists s. split; [done|]. pose proof (fn_root _ _ _ Fn) as [D L [F _] _].
  pose proof (ft_inodes _ Ft) as Hn. assert (Z.of_nat (length (listing dots [] files)) = 16 * (Z.of_nat (length files + 2))) as Hl.
  { rewrite listing_length. change (length dots) with 32%nat. lia. }
  assert (i_size (inode_of s 1) = rounded (16 * Z.of_nat (length files + 2))) as Hs by (unfold inode_of; rewrite D, Hl; done).
  assert (forall j, bslot (blocks_of s) (inode_of s 1) j = bslot (blocks_of s) (with_addrs (addrs_at s 1)) j) as Hb by done.
  rewrite Hl in F. unfold rounded in Hs.
  assert (((length files + 2) mod 32 = 0)%nat <-> Z.of_nat (length files + 2) mod 32 = 0) as Hmod
    by (change 32 with (Z.of_nat 32); rewrite <-Nat2Z.inj_mod; lia).
  split.
  - intros [_ De] Hm%Hmod. apply (De (16 * Z.of_nat (length files + 2) / BSIZE)); [klia | rewrite Hs; klia|].
    rewrite Hb. apply F; fslia.
  - intros Hm. split; [rewrite Hs; fslia|]. intros j Hj Hlt. rewrite Hs in Hlt. rewrite Hb, F by fslia. intros Hle. apply Hm, Hmod. klia.
Qed.

(** *** The kernel's invariant *)

Section kernel.
Context `{E : Env} `{D : Disk} `{DO : !DiskOk D}.

(** A kernel that sees the image: after readsb and with an empty log. *)
Record sees (k : K) (s : image) : Prop := {
  ss_sb : State.sb k = super_of (blocks_of s);
  ss_blocks n : 0 <= n < FSSIZE -> fsb k n = blocks_of s n;
  ss_dev : lg_dev (klog k) = 1;
  ss_log : lg_start (klog k) = 2;
  ss_disk n : 0 <= n < FSSIZE -> on_disk 1 n;
}.

Lemma sees_sb k s d fl : sees k s -> finished s d fl -> State.sb k = sb.
Proof. intros Se Fn. rewrite (ss_sb _ _ Se). unfold super_of, blocks_of. rewrite (fn_super _ _ _ Fn). vm_compute. reflexivity. Qed.

Lemma sees_used k s d fl b : sees k s -> finished s d fl -> 0 <= b < FSSIZE -> used k b = (b <? freeblock s).
Proof.
  intros Se Fn Hb. unfold used. rewrite (sees_sb _ _ _ _ Se Fn), sb_eq. unfold BBLOCK. cbn [sb_bmapstart]. change BPB with 4096.
  rewrite (Z.div_small b), (Z.mod_small b) by fslia. change (u32 (0 + 58)) with 58. rewrite (ss_blocks _ _ Se) by done.
  unfold blocks_of. rewrite (fn_map _ _ _ Fn). pose proof (se_free _ (fn_sectors _ _ _ Fn)). apply balloc_map_bit; mkfslia.
Qed.

Lemma sees_bslot k s d fl a j : sees k s -> finished s d fl -> laid_out (blocks_of s) (freeblock s) a ->
  bslot (fsb k) (with_addrs a) j = bslot (blocks_of s) (with_addrs a) j.
Proof.
  intros Se Fn L. apply bslot_ext, (ss_blocks _ _ Se). rewrite <-(bslot_max (blocks_of s)). pose proof (se_free _ (fn_sectors _ _ _ Fn)).
  destruct (decide (bslot (blocks_of s) (with_addrs a) MAXFILE = 0)) as [->|Hnz]; [klia|].
  pose proof (la_range _ _ _ L MAXFILE ltac:(fslia) Hnz). mkfslia.
Qed.

Lemma sees_inode_ok k s d fl n : sees k s -> finished s d fl -> laid_out (blocks_of s) (freeblock s) (addrs_at s n) ->
  inode_ok k (inode_of s n).
Proof.
  intros Se Fn L. pose proof (se_free _ (fn_sectors _ _ _ Fn)) as Hf.
  assert (forall j, bslot (fsb k) (inode_of s n) j = bslot (blocks_of s) (with_addrs (addrs_at s n)) j) as Hb by (intros j; by apply (sees_bslot k s d fl)).
  split.
  - apply (la_len _ _ _ L).
  - by rewrite (ss_dev _ _ Se).
  - intros j Hj. rewrite Hb. intros Hnz. pose proof (la_range _ _ _ L j Hj Hnz) as Hr. unfold data_block.
    rewrite (sees_used k s d fl) by (done || mkfslia). rewrite (sees_sb _ _ _ _ Se Fn), sb_eq.
    change (data_start (mk_superblock 1000 941 200 30 2 32 58)) with 59. cbn [sb_size].
    split; [mkfslia | apply Z.ltb_lt; lia].
  - intros i j Hi Hj. rewrite !Hb. by apply (la_inj _ _ _ L).
Qed.

End kernel.

(** *** The properties at work *)

Definition sample_files : list (list Z * list (list Z)) := [(bytes "_cat", [bytes "abc"; bytes "de"]); (bytes "README", [bytes "hello"])].
Lemma sample_fitting : fitting sample_files.
Proof. split; [repeat constructor; vm_compute; discriminate | cbn; lia | vm_compute; discriminate]. Qed.

Lemma mkfs_files_witness : exists s, mkfs_main (host <$> sample_files) image0 = Ok tt s /\
  holds_file (blocks_of s) sb 2 5 (fun p => nth (Z.to_nat p) (bytes "abcde") 0) /\
  dirent_at (blocks_of s) (inode_of s 1) 2 = mk_dirent 2 (bytes "cat" ++ replicate 11 0).
Proof.
  destruct (mkfs_files sample_files sample_fitting) as (s & R & _ & _ & Hf). exists s.
  destruct (Hf 0%nat (bytes "_cat") [bytes "abc"; bytes "de"] eq_refl) as (H1 & _ & H2).
  split; [exact R|]. split; [exact H1 | exact H2].
Defined.

(** Thirty files and the two dots fill the first block exactly. *)
Lemma mkfs_root_dense_witness : exists s, mkfs_main (host <$> replicate 30 (bytes "f", [])) image0 = Ok tt s /\
  ~ dense (blocks_of s) (inode_of s 1).
Proof.
  destruct (mkfs_root_dense (replicate 30 (bytes "f", []))) as (s & R & Hd).
  - split; [repeat constructor; vm_compute; discriminate | rewrite length_replicate; lia | vm_compute; discriminate].
  - exists s. split; [exact R|]. intros De. apply Hd in De. rewrite length_replicate in De. by apply De.
Defined.

(** The image on the sample disk. *)
Definition disk_of (s : image) : gmap (Z * Z) (list Z) := kmap (pair 1) (filter (fun x => 0 <= x.1 < FSSIZE) (im s)).
Lemma disk_of_lookup s n b : disk_of s !! (1, n) = Some b <-> im s !! n = Some b /\ 0 <= n < FSSIZE.
Proof.
  unfold disk_of. rewrite lookup_kmap_Some by apply _. setoid_rewrite map_lookup_filter_Some. cbn. split.
  - intros (m & [= ->] & ?). done.
  - intros [? ?]. by exists n.
Qed.
#[local] Existing Instance idle_env.
#[local] Existing Instance sample_disk.
#[local] Existing Instance sample_disk_ok.

Lemma sample_sees s d fl : finished s d fl -> sees (on_sample (disk_of s) sample_fs) s.
Proof.
  intros Fn. pose proof (fn_sectors _ _ _ Fn) as S.
  assert (tx (on_sample (disk_of s) sample_fs) sample_pr ∅ []) as T.
  { apply sample_tx_on. intros [x n] b Hb. unfold disk_of in Hb. apply lookup_kmap_Some in Hb as (m & [= -> ->] & Hm); [|apply _].
    apply map_lookup_filter_Some in Hm as [Hm Hr]. cbn in Hr. destruct (se_len _ S m Hr) as (b' & Hb' & Hl). by replace b with b' by congruence. }
  split.
  - unfold super_of, blocks_of. rewrite (fn_super _ _ _ Fn). vm_compute. reflexivity.
  - intros n Hn. rewrite (on_sample_fsb _ _ _ _ T). destruct (sectors_block s n S Hn) as [Hb _].
    by rewrite (proj2 (disk_of_lookup s n _) (conj Hb Hn)).
  - done.
  - done.
  - intros n Hn. split; [done|]. fslia.
Qed.

